(* ===== verification/_CoqProject ===== *)
-Q . S2P
Prelude.v
EditScript.v
EditPaths.v
DiffSeq.v
DiagGeometry.v
DiagProofs.v
DiagMinimal.v
CompareSeq.v
Analyze.v
FlagCounts.v
ShiftProofs.v
ScriptProofs.v
DiscardProofs.v
Diff2Files.v
HashTable.v
HashProofs.v
FileIO.v
FileProofs.v
ContextBuffer.v
ContextProofs.v
Streams.v
Unicode.v
UnicodeProofs.v
Tokenizer.v
SplitDiff.v
Pieces.v
TokenizerProofs.v
DoDiff.v
Reader.v
ReaderUTF8.v
Modes.v
ModeUTF8.v
ContextWords.v
Marks.v
DoDiffProofs.v
Render.v
Plain.v
OneSided.v
Decorated.v
ContextDiff.v
WordDiff.v
DecoratedRuns.v
TempFile.v
OptionMacros.v
Escapes.v
Profile.v
Options.v
OptionProofs.v
CommandLine.v
Main.v
MainProofs.v
Dwfilter.v
FilterRuns.v
