(* ===== verification/Prelude.v ===== *)
(** * Verification of dwdiff

    dwdiff compares two text files word by word.  Its sources are in
    src/upstream/dwdiff/src (file names below are relative to it); the rest of
    the repository is the ICU library, scripts and documentation.  This
    development models the program as it is written, routine by routine, and
    proves what makes it correct, from the memory of its buffers to the text
    that a whole run prints.

    ** The program and its model

    A run goes through these parts, each with the files that model it (data and
    operations) and the files with its proofs.

    - The command line.  OptionMacros: the macros of optionMacros.h as a parser
      over a table of options.  Escapes: [parseEscapes] of option.c, in place in
      the memory of an argument.  Options: the record [option_t], the table and
      the code of every option, defaults, checks, [parseCmdLine] (option.c,
      option_stripped.inc).  Profile: the configuration file (profile.c).
      OptionProofs, CommandLine: the invariant of the options and the theorems.
      Dwfilter: the second program, which runs dwdiff and a post processor
      (dwfilter.c).
    - Input.  FileIO, FileProofs: buffered files over read(2) and write(2)
      (file.c).  Streams: streams over files and strings (stream.c).  Unicode,
      UnicodeProofs: UTF-8, UTF-16, grapheme clusters (unicode.c).  TempFile: the
      table of temporary files (tempfile.c).
    - Words.  HashTable, HashProofs: the numbers of words (hashtable.c).
      Tokenizer: [readFile], the dispatch table for single bytes and UTF-8,
      [splitDiffInput] and the statistics line (dwdiff.c, dispatch.h).  Pieces:
      cutting a text into whitespace and tokens, the places of paragraph tokens.
      TokenizerProofs: [readFile] writes these pieces.  SplitDiff: what
      [splitDiffInput] does with the text of a unified diff.
    - The comparison.  DiffSeq: [diag] and [compareseq] (diff/diffseq.h).
      Analyze: discarding confusing lines, shifting boundaries, building the
      script, [diff_2_files] (diff/analyze.c, diff/diff.h).  EditPaths,
      DiagGeometry, DiagProofs, DiagMinimal, CompareSeq, FlagCounts, ShiftProofs,
      ScriptProofs, DiscardProofs, Diff2Files: their proofs, from the paths of
      the edit graph to the shortest script.  EditScript: sequences, slices,
      scripts and what it means to apply one.
    - Output.  ContextBuffer, ContextProofs: the ring of line buffers of
      --context (buffer.c).  DoDiff: all of doDiff.c.  Reader: what doDiff.c
      relies on when it reads characters back (the classes [ReaderChars] and
      [ReaderSpec]); single bytes implement it there, UTF-8 in ReaderUTF8.
      Marks: the output as a sequence of marks (characters with the kind of text
      they belong to, ends of changed words, rules, counted lines) and what a
      mark writes for all options.  DoDiffProofs: each routine draws the marks
      of what it reads, over that interface.  Render: the marks of a script as a
      function.  Plain: their text, and the lines they count.  OneSided: the text
      when the words of one file are printed.  Decorated: what
      --context, --color, --line-numbers, --printer and --less do to them.
      ContextWords: words with context (--match-context), their numbers and the
      trimming of the changes.  ContextDiff: the recursion of [doDiffInternal].
    - The whole run.  Modes: the class [Mode] of everything that depends on the
      kind of characters, and its contract [ModeSpec], with single bytes as the
      first instance; ModeUTF8: the UTF-8 mode.  WordDiff: the comparison of two
      files in any mode that keeps the contract.  DecoratedRuns: decorated
      output of a comparison.  Main: [main] of dwdiff.c: the
      check of the locale, the command line, two files or the hunks of a unified
      diff, statistics and exit status.  MainProofs: what the whole program does.
      FilterRuns: what it does for dwfilter.

    The parts call each other as in the source: [prepareAndExecuteDiff] reads
    both files with [readFile], which numbers words through the interface
    [WordTable] (HashTable implements it); [doDiff] hands the numbers to
    [diff_2_files] and prints the script it returns; characters go through the
    classes [Dispatch] (tokenizer) and [Reader] (printing), which have instances
    for single bytes and for UTF-8.

    ** Conventions

    Integers are Z; where the width matters (values of words, the hash, char,
    UChar32, line counters and the counters of words) the wrap-around or the
    limit is written out.  The counters of words are ints ([int32]); the theorems
    ask for files with fewer than 2^31 tokens ([few_words]), so that they do not
    overflow.  Bytes are Z from 0 to 255, and [signed_char] gives the value of a
    char.  Arrays are lists, or functions of Z for the arrays indexed by
    diagonals.  Code that calls [fatal] or fails an assertion returns [Fatal]
    with a code for the message; code that would leave an array, or a loop that
    outlives the bound of the model, returns [None], and the theorems show that
    neither happens.  The exceptions are in diffseq.h: the arrays of diagonals and
    the vectors behind XREF_YREF_EQUAL are total, and what is outside of them, or
    there before it is written, is an argument ([memory] in DiffSeq); the
    theorems hold for any such memory, so what the code computes does not depend
    on it.  The state of the output has two texts, [output] for the file
    of [option.output] and [std_output] for what printf, puts and putchar write
    where that is another file (with --dwfilter); [o_stdout] tells them apart.
    Bounds on loops are the
    sizes of what they go through: the diagonals of a portion for [diag], the
    length of both files for [compareseq] (every recursive call is on a smaller
    portion) and for the loops of analyze.c, the length of the argument for
    [parseEscapes], the number of tokens for printing.  [undefined] (Profile)
    stands for C code without a defined behaviour.

    ** The theorems

    Claims are numbered C1, C2, ... in the order of their importance.  Those about
    runs have two outcomes: the program stops at the assertion of doDiff.c that a
    change, trimmed of its context, is not between equal words ([stopped],
    [stops]), which needs --match-context above 0 (the default) and an algorithm
    other than best; or everything is as stated.
    - The program (MainProofs): an accepted command line, in any locale, makes the
      program end with the marks of the words of both files drawn, or of every
      hunk, and with the exit status that tells whether words differ; every run
      on usable inputs ends; which locales stand for UTF-8, with nl_langinfo or
      by their names.  SplitDiff: a unified diff is
      taken apart into its headers and the two sides of its hunks.
    - dwfilter (FilterRuns, Dwfilter): the output of dwdiff for dwfilter has the
      words of the old file; dwdiff's parser reads the options that dwfilter was
      given; the temporary file is removed however dwfilter ends; both programs
      together hand the post processor a file with the words of the old file.
    - One comparison (WordDiff): for all inputs of single bytes and all valid
      UTF-8 (without the characters that the code replaces or writes wrongly),
      with and without paragraph delimiters, the program returns or stops at that
      assertion; nothing is lost when a file is read; the script turns the old
      words into the new ones; exactly the marks of this script are drawn,
      whatever the decorations are, and undecorated output is the rendering of
      the pieces of both files; with --wdiff-output and only new words printed
      it is the new file byte for byte; exit status and statistics are right,
      and line counters if common words are printed; with --algorithm=best and no
      context the script that is printed is a shortest one.
    - Decorations (DecoratedRuns): the marks of a run are a function of its script
      and of the pieces of the files ([shows]), so it is fixed which characters
      are deleted, added or common and where lines are counted; every character has the color of its kind of
      text; every line begins with its numbers; repeated markers are right on
      every line; with --context the lines near changes are printed; overstruck
      characters are those of the text.
    - The comparison (Diff2Files, DiagMinimal): [diff_2_files] always returns a
      well-formed script from the first sequence to the second, whatever the
      heuristics do; each of its stages keeps that possible, stays in bounds and
      ends.  With --algorithm=best the script is a shortest one: [diag] finds a
      point on a shortest path of the edit graph (Myers' argument), and nothing
      is lost when the parts are put together.
    - Reading and writing (TokenizerProofs, HashProofs, FileProofs,
      UnicodeProofs, TempFile): tokenizing loses nothing, equal words have equal
      numbers, files return what was written, encoding and decoding are inverse
      (with the exceptions that the code has), temporary files are removed.
    - Line context (ContextProofs): the ring of buffers implements a simple
      machine on lines.
    - The command line (CommandLine, Escapes, Profile): equivalence of
      the ways to write options, order of their effects, what holds when the
      command line is accepted, escapes, configuration files.

    ** Not modelled, and what is left

    ICU (normalization, case folding, properties of characters) is a parameter.
    What the file system, setlocale and nl_langinfo answer are parameters of
    [main], with one constructor of [locale_info] for either build (with and
    without nl_langinfo); isspace, ispunct and tolower depend on the locale and
    are the class [Locale] (Options; [C_locale] in the examples), what becomes of a process is one of dwfilter's [filter_main], and
    [freed_text] stands for what is found where an argument was after it has
    been freed (see bundled_marker_freed in CommandLine).  Allocation failure,
    translations, warnings and the texts of --help are left out.  Error messages
    are codes; the text printed before an error is not kept.  Overstriking is
    described for single bytes; in UTF-8 mode a character of several bytes is
    overstruck with one backspace, and what a terminal shows then is not
    modelled.  Runs that are ended by a signal are left out, except that
    dwfilter's [execute] sees such an end of dwdiff.  *)

From stdpp Require Export base list numbers sets.
From Stdlib Require Export ZArith Lia Bool.

(** ** Scope, results of fallible code *)

Declare Scope c_scope.
Delimit Scope c_scope with C.
Open Scope Z_scope.

(** The outcome of a C routine that may call [fatal] (which prints a message
    and exits with status 2) or one of the checks built on it ([PANIC] and
    [ASSERT] in util.h).  [Ok] carries the value of a normal return. *)
Inductive result (A : Type) : Type :=
  | Ok (a : A)
  | Fatal (msg : positive).
Arguments Ok {A} a.
Arguments Fatal {A} msg.

Definition rbind {A B} (m : result A) (k : A -> result B) : result B :=
  match m with
  | Ok a => k a
  | Fatal e => Fatal e
  end.

Notation "'let*' x ':=' m 'in' k" := (rbind m (fun x => k))
  (at level 10, x pattern, m at level 100, k at level 200)
  : c_scope.
(** Code that only fails by leaving its arrays or by exhausting the bound the
    model puts on a loop returns an option; that neither happens is proved. *)
Notation "'let?' x ':=' m 'in' k" := (mbind (fun x => k) m)
  (at level 10, x pattern, m at level 100, k at level 200) : c_scope.
(** Both together. *)
Definition obind_result {A B} (m : option (result A)) (k : A -> option (result B)) : option (result B) :=
  match m with
  | Some (Ok a) => k a
  | Some (Fatal e) => Some (Fatal e)
  | None => None
  end.
Notation "'let!' x ':=' m 'in' k" := (obind_result m (fun x => k))
  (at level 10, x pattern, m at level 100, k at level 200) : c_scope.
Open Scope c_scope.

Lemma rbind_Ok {A B} (m : result A) (k : A -> result B) b :
  rbind m k = Ok b -> exists a, m = Ok a /\ k a = Ok b.
Proof. destruct m; simpl; [eauto | discriminate]. Qed.

(** ** Development tactics *)

(** Turn boolean comparisons in the context into propositions. *)
Ltac zify_bool :=
  repeat match goal with
  | H : (_ && _) = true |- _ => apply andb_true_iff in H; destruct H
  | H : (_ && _) = false |- _ => apply andb_false_iff in H
  | H : (_ || _) = false |- _ => apply orb_false_iff in H; destruct H
  | H : (_ || _) = true |- _ => apply orb_true_iff in H
  | H : negb _ = true |- _ => apply negb_true_iff in H
  | H : negb _ = false |- _ => apply negb_false_iff in H
  | H : (_ <? _) = true |- _ => apply Z.ltb_lt in H
  | H : (_ <? _) = false |- _ => apply Z.ltb_ge in H
  | H : (_ <=? _) = true |- _ => apply Z.leb_le in H
  | H : (_ <=? _) = false |- _ => apply Z.leb_gt in H
  | H : (_ =? _) = true |- _ => apply Z.eqb_eq in H
  | H : (_ =? _) = false |- _ => apply Z.eqb_neq in H
  end.

(** Continue after a computation of the option monad that returned. *)
Ltac obind := cbn [mbind option_bind].

(** Case on the condition of an [if] of the goal, keeping it as a hypothesis. *)
Ltac case_if :=
  match goal with
  | |- context [if ?b then _ else _] =>
      lazymatch b with
      | context [if _ then _ else _] => fail
      | _ => idtac
      end;
      let E := fresh "E" in destruct b eqn:E; zify_bool
  end.

(** ** Functional arrays indexed by Z *)

(** The C arrays indexed by (possibly negative) diagonals. *)
Definition upd {A} (f : Z -> A) (i : Z) (v : A) : Z -> A :=
  fun j => if j =? i then v else f j.

Lemma upd_eq {A} (f : Z -> A) i v : upd f i v i = v.
Proof. unfold upd. by rewrite Z.eqb_refl. Qed.

Lemma upd_ne {A} (f : Z -> A) i j v : j <> i -> upd f i v j = f j.
Proof. unfold upd. intros H. apply Z.eqb_neq in H. by rewrite H. Qed.

(** ** Lists read at a Z index *)

Definition zget {A} (l : list A) (i : Z) : option A :=
  if i <? 0 then None else l !! Z.to_nat i.

Definition zset {A} (l : list A) (i : Z) (v : A) : list A :=
  if i <? 0 then l else <[Z.to_nat i := v]> l.

Abbreviation zlen l := (Z.of_nat (length l)).

Lemma zget_Some {A} (l : list A) i : 0 <= i < zlen l -> exists a, zget l i = Some a.
Proof.
  intros H. unfold zget. case_if; [lia|]. apply lookup_lt_is_Some_2. lia.
Qed.

Lemma zget_lt {A} (l : list A) i a : zget l i = Some a -> 0 <= i < zlen l.
Proof.
  unfold zget. case_if; [done|]. intros H%lookup_lt_Some. lia.
Qed.

Lemma zget_None_iff {A} (l : list A) i : zget l i = None <-> ~ (0 <= i < zlen l).
Proof.
  split.
  - intros H Hi. destruct (zget_Some l i Hi) as [a Ha]. congruence.
  - intros H. destruct (zget l i) eqn:E; [|done]. apply zget_lt in E. lia.
Qed.

Create HintDb dwdiff.
Create Rewrite HintDb dwdiff_rw.
#[export] Hint Rewrite @upd_eq : dwdiff_rw.
#[export] Hint Resolve zget_Some zget_lt : dwdiff.

(** ** Filtering *)

Lemma filter_none {A} (P : A -> Prop) `{forall x, Decision (P x)} l : Forall (fun x => ~ P x) l -> filter P l = [].
Proof. induction 1 as [|x l Hx Hl IH]; [done|]. by rewrite filter_cons_False. Qed.

Lemma filter_all {A} (P : A -> Prop) `{forall x, Decision (P x)} l : Forall P l -> filter P l = l.
Proof. induction 1 as [|x l Hx Hl IH]; [done|]. rewrite filter_cons_True by done. by rewrite IH. Qed.

Lemma fmap_seq_shift {A} (f : nat -> A) k n : f <$> seq k n = (fun i => f (k + i)%nat) <$> seq 0 n.
Proof. rewrite <- (Nat.add_0_r k) at 1. by rewrite <- fmap_add_seq, <- list_fmap_compose. Qed.

(** ** Bit fields *)

(** A mask of [w] bits at position [k]. *)
Lemma land_field c k w : 0 <= k -> 0 <= w ->
  Z.land c (Z.shiftl (Z.ones w) k) = (c / 2 ^ k) mod 2 ^ w * 2 ^ k.
Proof.
  intros Hk Hw. rewrite <- Z.shiftl_mul_pow2 by done. rewrite <- Z.land_ones by done.
  rewrite <- Z.shiftr_div_pow2 by done. apply Z.bits_inj'. intros n Hn.
  rewrite Z.land_spec, !Z.shiftl_spec, Z.land_spec by done.
  destruct (Z.lt_ge_cases n k).
  - rewrite !(Z.testbit_neg_r _ (n - k)) by lia. by rewrite andb_false_r.
  - rewrite Z.shiftr_spec by lia. by replace (n - k + k) with n by lia.
Qed.

(** Disjoint bits are added by [lor]. *)
Lemma lor_add a b k : 0 <= k -> 0 <= a < 2 ^ k -> Z.lor (b * 2 ^ k) a = b * 2 ^ k + a.
Proof.
  intros Hk Ha. assert (Z.land (b * 2 ^ k) a = 0) as H0.
  { apply Z.bits_inj'. intros n Hn. rewrite Z.land_spec, Z.bits_0. destruct (Z.lt_ge_cases n k).
    - by rewrite Z.mul_pow2_bits_low by lia.
    - assert (Z.testbit a n = false) as ->; [|apply andb_false_r].
      destruct (decide (a = 0)) as [->|]; [apply Z.bits_0|]. apply Z.bits_above_log2; [lia|].
      apply Z.log2_lt_pow2; [lia|]. eapply Z.lt_le_trans; [apply Ha|]. apply Z.pow_le_mono_r; lia. }
  rewrite Z.add_nocarry_lxor by done. by rewrite Z.lxor_lor.
Qed.

Lemma land_low c w : 0 <= w -> Z.land c (Z.ones w) = c mod 2 ^ w.
Proof. apply Z.land_ones. Qed.

(** A property of all bytes, by enumeration. *)
Lemma byte_forall (f : Z -> bool) :
  forallb f (map Z.of_nat (seq 0 256)) = true -> forall c, 0 <= c < 256 -> f c = true.
Proof.
  intros H c Hc. rewrite forallb_forall in H. apply H. apply in_map_iff.
  exists (Z.to_nat c). split; [lia|]. apply in_seq. lia.
Qed.

(** [lia] also reasons about division and remainder by constants. *)
Ltac Zify.zify_post_hook ::= Z.to_euclidean_division_equations.

(** ** The type int *)

(** A value that is stored in an [int] of 32 bits.  Where an [int] is counted
    up beyond its range, C has no defined result; here it wraps around, and the
    theorems on counters say for which inputs that does not happen. *)
Definition int32 (n : Z) : Z := (n + 2 ^ 31) mod 2 ^ 32 - 2 ^ 31.
Definition INT_MAX : Z := 2 ^ 31 - 1.

Lemma int32_small n : - 2 ^ 31 <= n <= INT_MAX -> int32 n = n.
Proof. unfold int32, INT_MAX. lia. Qed.

Lemma int32_add a b : int32 (int32 a + b) = int32 (a + b).
Proof. unfold int32. lia. Qed.

Lemma int32_add_eq a b x y : a = int32 x -> y = x + b -> int32 (a + b) = int32 y.
Proof. intros -> ->. apply int32_add. Qed.

Lemma int32_range n : - 2 ^ 31 <= int32 n <= INT_MAX.
Proof. unfold int32, INT_MAX. lia. Qed.

(** Counters that do not overflow are exact. *)
Lemma int32_eq a b : int32 a = int32 b -> 0 <= a <= INT_MAX -> 0 <= b <= INT_MAX -> a = b.
Proof. intros H Ha Hb. rewrite !int32_small in H; unfold INT_MAX in *; lia. Qed.
