(* ===== verification/EditScript.v ===== *)
(** * Changed flags and what they keep

    The comparison algorithm records its result as one flag per line (here:
    per word) of each file, [true] for a line that is deleted or inserted.
    A pair of flag vectors is a correct answer when the lines that are kept
    are the same on both sides ([keep_equal]).  This file also relates the
    flags of a whole file to those of its undiscarded lines ([merge]). *)

From S2P Require Import Prelude.

(** The elements whose flag is not set. *)
Fixpoint keep {A} (l : list A) (c : list bool) : list A :=
  match l, c with
  | x :: l', true :: c' => keep l' c'
  | x :: l', false :: c' => x :: keep l' c'
  | _, _ => []
  end.

(** The positions [a] to [b - 1]. *)
Definition slice {A} (l : list A) (a b : Z) : list A :=
  take (Z.to_nat (b - a)) (drop (Z.to_nat a) l).
Arguments slice : simpl never.

Lemma keep_app {A} (l1 l2 : list A) c1 c2 :
  length l1 = length c1 -> keep (l1 ++ l2) (c1 ++ c2) = keep l1 c1 ++ keep l2 c2.
Proof.
  revert c1. induction l1 as [|x l1 IH]; intros [|[] c1]; simpl; try done; intros [=]; rewrite IH; done.
Qed.

Lemma keep_false {A} (l : list A) c :
  length l = length c -> (forall b, b ∈ c -> b = false) -> keep l c = l.
Proof.
  revert c. induction l as [|x l IH]; intros [|b c]; simpl; try done.
  intros [=] Hb. rewrite (Hb b) by set_solver. f_equal. apply IH; set_solver.
Qed.

Lemma keep_true {A} (l : list A) c : (forall b, b ∈ c -> b = true) -> keep l c = [].
Proof.
  revert c. induction l as [|x l IH]; intros [|b c]; simpl; try done.
  intros Hb. rewrite (Hb b) by set_solver. apply IH. set_solver.
Qed.

(** ** Slices *)

Lemma slice_length {A} (l : list A) a b :
  0 <= a <= b -> b <= zlen l -> length (slice l a b) = Z.to_nat (b - a).
Proof. intros. unfold slice. rewrite length_take, length_drop. lia. Qed.

Lemma slice_split {A} (l : list A) a m b :
  0 <= a <= m -> m <= b -> slice l a b = slice l a m ++ slice l m b.
Proof.
  intros H1 H2. unfold slice.
  replace (Z.to_nat (b - a)) with (Z.to_nat (m - a) + Z.to_nat (b - m))%nat by lia.
  rewrite <- take_take_drop. f_equal. rewrite drop_drop. do 2 f_equal. lia.
Qed.

Lemma slice_empty {A} (l : list A) a b : b <= a -> slice l a b = [].
Proof. intros. unfold slice. by replace (Z.to_nat (b - a)) with 0%nat by lia. Qed.

Lemma slice_all {A} (l : list A) : slice l 0 (zlen l) = l.
Proof. unfold slice. rewrite Z.sub_0_r, Nat2Z.id. simpl. by rewrite drop_0, firstn_all. Qed.

Lemma slice_lookup {A} (l : list A) a b i :
  0 <= a -> (i < Z.to_nat (b - a))%nat -> slice l a b !! i = zget l (a + Z.of_nat i).
Proof.
  intros Ha Hi. unfold slice, zget. rewrite lookup_take_lt by done. rewrite lookup_drop.
  case_if; [lia|]. f_equal. lia.
Qed.

Lemma slice_ext {A} (l l' : list A) a b a' b' :
  0 <= a -> 0 <= a' -> b - a = b' - a' ->
  (forall i, 0 <= i < b - a -> zget l (a + i) = zget l' (a' + i)) ->
  slice l a b = slice l' a' b'.
Proof.
  intros Ha Ha' Hlen H. apply list_eq. intros i.
  destruct (decide (i < Z.to_nat (b - a))%nat) as [Hi|Hi].
  - rewrite !slice_lookup by lia. apply H. lia.
  - unfold slice. rewrite !lookup_take_ge by lia. done.
Qed.

Lemma slice_elem {A} (l : list A) a b v :
  0 <= a -> v ∈ slice l a b -> exists i, a <= i < b /\ zget l i = Some v.
Proof.
  intros Ha [i Hi]%list_elem_of_lookup.
  destruct (decide (i < Z.to_nat (b - a))%nat) as [Hlt|Hge].
  - rewrite slice_lookup in Hi by lia. exists (a + Z.of_nat i). split; [lia|done].
  - unfold slice in Hi. rewrite lookup_take_ge in Hi by lia. done.
Qed.

Lemma slice_single {A} (l : list A) p x : zget l p = Some x -> slice l p (p + 1) = [x].
Proof.
  intros H. pose proof (zget_lt _ _ _ H). apply list_eq. intros [|i].
  - rewrite slice_lookup by lia. simpl. by rewrite Z.add_0_r.
  - unfold slice. by rewrite lookup_take_ge by lia.
Qed.

Lemma slice_snoc {A} (l : list A) a i x :
  0 <= a <= i -> zget l i = Some x -> slice l a (i + 1) = slice l a i ++ [x].
Proof. intros Ha Hx. rewrite (slice_split l a i) by lia. by rewrite (slice_single l i x). Qed.

Lemma slice_fmap {A B} (f : A -> B) l a b : slice (f <$> l) a b = f <$> slice l a b.
Proof. unfold slice. by rewrite fmap_take, fmap_drop. Qed.

Lemma slice_zget {A} (e0 e1 : list A) p0 p1 n : slice e0 p0 (p0 + n) = slice e1 p1 (p1 + n) -> 0 <= p0 -> 0 <= p1 ->
  forall i, 0 <= i < n -> zget e0 (p0 + i) = zget e1 (p1 + i).
Proof.
  intros E H0 H1 i Hi. pose proof (slice_lookup e0 p0 (p0 + n) (Z.to_nat i) H0 ltac:(lia)) as G0.
  pose proof (slice_lookup e1 p1 (p1 + n) (Z.to_nat i) H1 ltac:(lia)) as G1.
  rewrite E, G1 in G0. by rewrite Z2Nat.id in G0 by lia.
Qed.

Lemma slice_cons {A} (x : A) l b : 1 <= b -> slice (x :: l) 0 b = x :: slice l 0 (b - 1).
Proof. intros H. unfold slice. rewrite !Z.sub_0_r. by replace (Z.to_nat b) with (S (Z.to_nat (b - 1))) by lia. Qed.

Lemma slice_slice {A} (l : list A) a b i j : 0 <= a -> 0 <= i -> j <= b - a -> slice (slice l a b) i j = slice l (a + i) (a + j).
Proof.
  intros Ha Hi Hj. unfold slice. rewrite skipn_firstn_comm, take_take, drop_drop. f_equal; [lia|]. f_equal. lia.
Qed.

Lemma slice_over {A} (l : list A) a b b' : 0 <= a -> zlen l <= b -> zlen l <= b' -> slice l a b = slice l a b'.
Proof. intros Ha H H'. unfold slice. rewrite !take_ge; rewrite ?length_drop; done || lia. Qed.

Lemma slice_end {A} (l : list A) x a b : 0 <= a <= zlen l -> b = zlen l + 1 -> slice (l ++ [x]) a b = slice l a (zlen l) ++ [x].
Proof.
  intros Ha ->. rewrite (slice_split _ a (zlen l)) by lia. f_equal.
  - unfold slice. rewrite drop_app_le, take_app_le; rewrite ?length_drop; done || lia.
  - apply slice_single. unfold zget. case_if; [lia|]. rewrite Nat2Z.id, lookup_app_r, Nat.sub_diag; done.
Qed.

(** ** Updates *)

Lemma zset_length {A} (l : list A) i v : length (zset l i v) = length l.
Proof. unfold zset. case_if; [done|]. apply length_insert. Qed.

Lemma zget_zset_eq {A} (l : list A) i v : 0 <= i < zlen l -> zget (zset l i v) i = Some v.
Proof.
  intros. unfold zget, zset. case_if; [lia|]. apply list_lookup_insert_eq. lia.
Qed.

Lemma zget_zset_ne {A} (l : list A) i j v : i <> j -> zget (zset l i v) j = zget l j.
Proof.
  intros. unfold zget, zset. repeat case_if; try done. apply list_lookup_insert_ne. lia.
Qed.

Lemma zset_fmap {A B} (f : A -> B) l i v : f <$> zset l i v = zset (f <$> l) i (f v).
Proof. unfold zset. case_if; [done|]. by rewrite list_fmap_insert. Qed.

Lemma zget_fmap {A B} (f : A -> B) l i : zget (f <$> l) i = f <$> zget l i.
Proof. unfold zget. case_if; [done|]. apply list_lookup_fmap. Qed.

Lemma slice_zset_out {A} (l : list A) a b i v : 0 <= a -> ~ (a <= i < b) -> slice (zset l i v) a b = slice l a b.
Proof. intros Ha Hi. apply slice_ext; try lia. intros k Hk. apply zget_zset_ne. lia. Qed.

(** ** Discarded lines *)

(** Flags [v] of the undiscarded lines, put back among the discarded ones,
    which are all changed. *)
Fixpoint merge (d v : list bool) : list bool :=
  match d with
  | [] => []
  | true :: d' => true :: merge d' v
  | false :: d' =>
      match v with
      | [] => false :: merge d' []
      | b :: v' => b :: merge d' v'
      end
  end.

(** The real positions of the undiscarded lines, counted from [i]. *)
Fixpoint real_from (i : Z) (d : list bool) : list Z :=
  match d with
  | [] => []
  | true :: d' => real_from (i + 1) d'
  | false :: d' => i :: real_from (i + 1) d'
  end.

Lemma keep_merge {A} (l : list A) d v :
  length l = length d -> length v = length (keep l d) ->
  keep l (merge d v) = keep (keep l d) v.
Proof.
  revert d v. induction l as [|x l IH]; intros [|[] d] v; simpl; try done.
  - intros [=] ?. by apply IH.
  - destruct v as [|[] v]; simpl; intros [=] [=]; rewrite IH; done.
Qed.

Lemma merge_length d v : length (merge d v) = length d.
Proof. revert v. induction d as [|[] d IH]; intros [|b v]; simpl; auto. Qed.

Lemma keep_length_real {A} (l : list A) d i :
  length l = length d -> length (keep l d) = length (real_from i d).
Proof.
  revert d i. induction l as [|x l IH]; intros [|[] d] i; simpl; try done; intros [=]; auto.
Qed.

Lemma merge_insert d v i k r :
  length v = length (real_from i d) -> real_from i d !! k = Some r ->
  exists n, r = i + Z.of_nat n /\ (n < length d)%nat /\
    <[n := true]> (merge d v) = merge d (<[k := true]> v).
Proof.
  revert v i k. induction d as [|[] d IH]; intros v i k Hlen Hk; simpl in *; [done| |].
  - destruct (IH v (i + 1) k Hlen Hk) as (n & -> & Hn & Heq).
    exists (S n). split; [lia|]. split; [lia|]. simpl. by rewrite Heq.
  - destruct v as [|b v]; [done|]. destruct k as [|k]; simpl in *.
    + injection Hk as <-. exists 0%nat. split; [lia|]. split; [lia|done].
    + destruct (IH v (i + 1) k) as (n & -> & Hn & Heq); [lia|done|].
      exists (S n). split; [lia|]. split; [lia|]. simpl. by rewrite Heq.
Qed.
