(* ===== verification/EditPaths.v ===== *)
(** * Paths in the edit graph

    A path from one pair of positions to another deletes an element of the
    first sequence, inserts one of the second, or passes a pair of matching
    elements; [path] counts its edits.  The fewest edits between two points
    are what [diag] and [compareseq] look for. *)

From S2P Require Import Prelude EditScript.

Section Paths.
Context (matched : Z -> Z -> Prop).

Inductive path : Z -> Z -> Z -> Z -> Z -> Prop :=
  | path_stop x y : path x y x y 0
  | path_match x y X Y e : matched x y -> path (x + 1) (y + 1) X Y e -> path x y X Y e
  | path_delete x y X Y e : path (x + 1) y X Y e -> path x y X Y (e + 1)
  | path_insert x y X Y e : path x (y + 1) X Y e -> path x y X Y (e + 1).

Lemma path_bounds x y X Y e : path x y X Y e ->
  x <= X /\ y <= Y /\ Z.abs ((X - x) - (Y - y)) <= e <= (X - x) + (Y - y) /\ (e - (X - x) - (Y - y)) mod 2 = 0.
Proof. induction 1; lia. Qed.

Lemma path_app x y X Y X' Y' e e' : path x y X Y e -> path X Y X' Y' e' -> path x y X' Y' (e + e').
Proof.
  intros H H'. induction H as [x y|x y X Y e Hm H IH|x y X Y e H IH|x y X Y e H IH].
  - by rewrite Z.add_0_l.
  - apply path_match; auto.
  - replace (e + 1 + e') with (e + e' + 1) by lia. apply path_delete. auto.
  - replace (e + 1 + e') with (e + e' + 1) by lia. apply path_insert. auto.
Qed.

(** A run of matches. *)
Lemma path_snake x y n : 0 <= n -> (forall i, 0 <= i < n -> matched (x + i) (y + i)) -> path x y (x + n) (y + n) 0.
Proof.
  intros Hn. revert x y. pattern n. apply natlike_ind; [|clear n Hn; intros n Hn IH|done]; intros x y Hm.
  - rewrite !Z.add_0_r. apply path_stop.
  - apply path_match; [specialize (Hm 0); rewrite !Z.add_0_r in Hm; apply Hm; lia|].
    replace (x + Z.succ n) with (x + 1 + n) by lia. replace (y + Z.succ n) with (y + 1 + n) by lia. apply IH.
    intros i Hi. replace (x + 1 + i) with (x + (i + 1)) by lia. replace (y + 1 + i) with (y + (i + 1)) by lia. apply Hm. lia.
Qed.

Lemma path_straight x y X Y : x <= X -> y <= Y -> path x y X Y ((X - x) + (Y - y)).
Proof.
  intros Hx Hy. replace X with (x + (X - x)) at 1 by lia. generalize (X - x) (proj2 (Z.le_0_sub _ _) Hx). clear X Hx. intros n Hn.
  replace Y with (y + (Y - y)) at 1 by lia. generalize (Y - y) (proj2 (Z.le_0_sub _ _) Hy). clear Y Hy. intros m Hm.
  revert x. pattern n. apply natlike_ind; [|clear n Hn; intros n Hn IH|done]; intros x.
  - rewrite Z.add_0_r, Z.add_0_l. revert y. pattern m. apply natlike_ind; [|clear m Hm; intros m Hm IH|done]; intros y.
    + rewrite Z.add_0_r. apply path_stop.
    + rewrite <- Z.add_1_r. apply path_insert. replace (y + (m + 1)) with (y + 1 + m) by lia. apply IH.
  - replace (Z.succ n + m) with (n + m + 1) by lia. apply path_delete. replace (x + Z.succ n) with (x + 1 + n) by lia. apply IH.
Qed.

(** A point further on the same diagonal is no further from the end. *)
Lemma path_diagonal x y X Y e : path x y X Y e -> x < X -> y < Y ->
  exists e', e' <= e /\ path (x + 1) (y + 1) X Y e'.
Proof.
  induction 1 as [x y|x y X Y e Hm H IH|x y X Y e H IH|x y X Y e H IH]; intros Hx Hy; [lia|by exists e|..].
  - destruct (decide (x + 1 < X)) as [Hlt|].
    + destruct (IH Hlt Hy) as (e' & He & Hp). exists (e' + 1). split; [lia|]. by apply path_delete.
    + pose proof (path_bounds _ _ _ _ _ H). exists ((X - (x + 1)) + (Y - (y + 1))). split; [lia|]. apply path_straight; lia.
  - destruct (decide (y + 1 < Y)) as [Hlt|].
    + destruct (IH Hx Hlt) as (e' & He & Hp). exists (e' + 1). split; [lia|]. by apply path_insert.
    + pose proof (path_bounds _ _ _ _ _ H). exists ((X - (x + 1)) + (Y - (y + 1))). split; [lia|]. apply path_straight; lia.
Qed.

Lemma path_diagonal_n n x y X Y e : 0 <= n -> path x y X Y e -> x + n <= X -> y + n <= Y ->
  exists e', e' <= e /\ path (x + n) (y + n) X Y e'.
Proof.
  intros Hn. revert x y e. pattern n. apply natlike_ind; [|clear n Hn; intros n Hn IH|done]; intros x y e H Hx Hy.
  - rewrite !Z.add_0_r. by exists e.
  - destruct (path_diagonal x y X Y e H) as (e1 & He1 & H1); [lia|lia|].
    destruct (IH (x + 1) (y + 1) e1 H1) as (e2 & He2 & H2); [lia|lia|]. exists e2. split; [lia|].
    replace (x + Z.succ n) with (x + 1 + n) by lia. by replace (y + Z.succ n) with (y + 1 + n) by lia.
Qed.

(** The last edit of a path, with the matches after it. *)
Lemma path_last x y X Y e : path x y X Y e ->
  exists n, 0 <= n /\ (forall i, 1 <= i <= n -> matched (X - i) (Y - i)) /\
    ((e = 0 /\ X = x + n /\ Y = y + n) \/ path x y (X - n - 1) (Y - n) (e - 1) \/ path x y (X - n) (Y - n - 1) (e - 1)).
Proof.
  induction 1 as [x y|x y X Y e Hm H IH|x y X Y e H IH|x y X Y e H IH].
  - exists 0. split; [lia|]. split; [lia|]. left. lia.
  - destruct IH as (n & Hn & Hall & [(-> & -> & ->)|[Hp|Hp]]).
    + exists (n + 1). split; [lia|]. split; [|left; lia]. intros i Hi. destruct (decide (i = n + 1)) as [->|].
      * replace (x + 1 + n - (n + 1)) with x by lia. by replace (y + 1 + n - (n + 1)) with y by lia.
      * apply Hall. lia.
    + exists n. split; [done|]. split; [done|]. right. left. by apply path_match.
    + exists n. split; [done|]. split; [done|]. right. right. by apply path_match.
  - destruct IH as (n & Hn & Hall & [(-> & -> & ->)|[Hp|Hp]]); exists n; (split; [done|]); (split; [done|]); right.
    + left. replace (x + 1 + n - n - 1) with x by lia. replace (y + n - n) with y by lia. apply path_stop.
    + left. replace (e + 1 - 1) with (e - 1 + 1) by lia. by apply path_delete.
    + right. replace (e + 1 - 1) with (e - 1 + 1) by lia. by apply path_delete.
  - destruct IH as (n & Hn & Hall & [(-> & -> & ->)|[Hp|Hp]]); exists n; (split; [done|]); (split; [done|]); right.
    + right. replace (x + n - n) with x by lia. replace (y + 1 + n - n - 1) with y by lia. apply path_stop.
    + left. replace (e + 1 - 1) with (e - 1 + 1) by lia. by apply path_insert.
    + right. replace (e + 1 - 1) with (e - 1 + 1) by lia. by apply path_insert.
Qed.

(** A path can be cut after any number of edits. *)
Lemma path_split x y X Y e k : path x y X Y e -> 0 <= k <= e ->
  exists x' y', path x y x' y' k /\ path x' y' X Y (e - k).
Proof.
  intros H. revert k. induction H as [x y|x y X Y e Hm H IH|x y X Y e H IH|x y X Y e H IH]; intros k Hk.
  - exists x, y. replace k with 0 by lia. split; apply path_stop.
  - destruct (IH k Hk) as (x' & y' & H1 & H2). exists x', y'. split; [by apply path_match|done].
  - destruct (decide (k = 0)) as [->|]; [exists x, y; split; [apply path_stop|rewrite Z.sub_0_r; by apply path_delete]|].
    destruct (IH (k - 1)) as (x' & y' & H1 & H2); [lia|]. exists x', y'. split.
    + replace k with (k - 1 + 1) by lia. by apply path_delete.
    + by replace (e + 1 - k) with (e - (k - 1)) by lia.
  - destruct (decide (k = 0)) as [->|]; [exists x, y; split; [apply path_stop|rewrite Z.sub_0_r; by apply path_insert]|].
    destruct (IH (k - 1)) as (x' & y' & H1 & H2); [lia|]. exists x', y'. split.
    + replace k with (k - 1 + 1) by lia. by apply path_insert.
    + by replace (e + 1 - k) with (e - (k - 1)) by lia.
Qed.
End Paths.

(** Reflection of the plane. *)
Definition mirror (matched : Z -> Z -> Prop) (x y : Z) : Prop := matched (- x - 1) (- y - 1).

Lemma path_mirror matched x y X Y e : path matched x y X Y e -> path (mirror matched) (- X) (- Y) (- x) (- y) e.
Proof.
  induction 1 as [x y|x y X Y e Hm H IH|x y X Y e H IH|x y X Y e H IH].
  - apply path_stop.
  - rewrite <- (Z.add_0_r e). eapply path_app; [exact IH|]. apply path_match.
    + unfold mirror. replace (- - (x + 1) - 1) with x by lia. by replace (- - (y + 1) - 1) with y by lia.
    + replace (- (x + 1) + 1) with (- x) by lia. replace (- (y + 1) + 1) with (- y) by lia. apply path_stop.
  - eapply path_app; [exact IH|]. apply (path_delete _ _ _ _ _ 0).
    replace (- (x + 1) + 1) with (- x) by lia. apply path_stop.
  - eapply path_app; [exact IH|]. apply (path_insert _ _ _ _ _ 0).
    replace (- (y + 1) + 1) with (- y) by lia. apply path_stop.
Qed.

Lemma path_mono (P Q : Z -> Z -> Prop) x y X Y e : (forall x y, P x y -> Q x y) -> path P x y X Y e -> path Q x y X Y e.
Proof. intros HPQ. induction 1; [apply path_stop|apply path_match; auto|by apply path_delete|by apply path_insert]. Qed.

Lemma path_unmirror matched x y X Y e : path (mirror matched) (- X) (- Y) (- x) (- y) e -> path matched x y X Y e.
Proof.
  intros H%path_mirror. rewrite !Z.opp_involutive in H. eapply path_mono; [|exact H].
  intros a b. unfold mirror. replace (- (- a - 1) - 1) with a by lia. by replace (- (- b - 1) - 1) with b by lia.
Qed.

(** A point further back on the same diagonal is no further from the start. *)
Lemma path_diagonal_back matched n x y X Y e : 0 <= n -> path matched x y X Y e -> x <= X - n -> y <= Y - n ->
  exists e', e' <= e /\ path matched x y (X - n) (Y - n) e'.
Proof.
  intros Hn H%path_mirror Hx Hy. destruct (path_diagonal_n _ n _ _ _ _ _ Hn H) as (e' & He & Hp); [lia|lia|].
  exists e'. split; [done|]. apply path_unmirror. replace (- (X - n)) with (- X + n) by lia. by replace (- (Y - n)) with (- Y + n) by lia.
Qed.

(** A path whose number of edits is written in another way. *)
Ltac same_path H :=
  match type of H with path _ _ _ _ _ ?e =>
    match goal with |- path _ _ _ _ _ ?e' => replace e' with e by (cbn [length]; lia); exact H end
  end.
