(* ===== verification/DiffSeq.v ===== *)
(** * diff/diffseq.h: the divide-and-conquer comparison

    [diag] looks for a midpoint of an edit script between two portions of the
    vectors [xv] and [yv] by running a search from both ends; [compareseq]
    uses it to split the problem and records deletions and insertions.  This
    file holds the definitions; DiagGeometry, DiagProofs and CompareSeq hold
    the proofs. *)

From S2P Require Import Prelude.

Definition SNAKE_LIMIT : Z := 20.

(** [OFFSET] is [lin], i.e. [ptrdiff_t], 64 bits wide. *)
Definition OFFSET_MAX : Z := 2 ^ 63 - 1.

(** [struct partition]. *)
Record partition := Partition {
  xmid : Z;
  ymid : Z;
  lo_minimal : bool;
  hi_minimal : bool
}.

(** The parts of [struct context] that a run of [diag] only reads. *)
Record context := MkContext {
  xvec : list Z;
  yvec : list Z;
  heuristic : bool;
  too_expensive : Z;
  outside : Z -> Z -> bool
}.

(** [XREF_YREF_EQUAL(x,y)]: both vectors are read and compared with [==].  If
    an index is not one of its vector, the memory there is read instead: the
    result can be anything, and [outside] says what it is. *)
Definition xref_yref_equal (ctxt : context) (x y : Z) : bool :=
  match zget (xvec ctxt) x, zget (yvec ctxt) y with
  | Some a, Some b => a =? b
  | _, _ => outside ctxt x y
  end.

(** The memory that a comparison starts with: what the two vectors indexed by
    diagonals hold, and what lies beyond the vectors of lines.  The theorems
    hold for all memories: nothing depends on what was not written before. *)
Record memory := Memory {
  mem_fdiag : Z -> Z;
  mem_bdiag : Z -> Z;
  mem_outside : Z -> Z -> bool
}.
Definition zero_memory : memory := Memory (fun _ => 0) (fun _ => 0) (fun _ _ => false).

(** The search state of [diag] between two rounds: the limits of both
    searches and the two vectors indexed by diagonal. *)
Record search := Search {
  fmin : Z;
  fmax : Z;
  bmin : Z;
  bmax : Z;
  fd : Z -> Z;
  bd : Z -> Z
}.

Section Diag.
Context (ctxt : context) (xoff xlim yoff ylim : Z) (find_minimal : bool).

Definition dmin : Z := xoff - ylim.
Definition dmax : Z := xlim - yoff.
Definition fmid : Z := xoff - yoff.
Definition bmid : Z := xlim - ylim.
Definition odd : bool := Z.odd (fmid - bmid).

(** [for (x = x0, y = x0 - d; x < xlim && y < ylim && EQUAL; x++, y++)]:
    the fuel is the distance to [xlim], after which the test fails. *)
Fixpoint fwd_snake_loop (n : nat) (x y : Z) : Z * Z :=
  match n with
  | O => (x, y)
  | S n' =>
      if (x <? xlim) && (y <? ylim) && xref_yref_equal ctxt x y
      then fwd_snake_loop n' (x + 1) (y + 1)
      else (x, y)
  end.

Definition fwd_snake (x y : Z) : Z * Z := fwd_snake_loop (Z.to_nat (xlim - x)) x y.

Fixpoint bwd_snake_loop (n : nat) (x y : Z) : Z * Z :=
  match n with
  | O => (x, y)
  | S n' =>
      if (xoff <? x) && (yoff <? y) && xref_yref_equal ctxt (x - 1) (y - 1)
      then bwd_snake_loop n' (x - 1) (y - 1)
      else (x, y)
  end.

Definition bwd_snake (x y : Z) : Z * Z := bwd_snake_loop (Z.to_nat (x - xoff)) x y.

(** Adjusting the limits before a pass: the search grows by one diagonal on
    each side, with a sentinel beyond it, or bounces off the border. *)
Definition grow_fwd (s : search) : search :=
  let '(fmin', fd1) :=
    if dmin <? fmin s then (fmin s - 1, upd (fd s) (fmin s - 2) (-1))
    else (fmin s + 1, fd s) in
  let '(fmax', fd2) :=
    if fmax s <? dmax then (fmax s + 1, upd fd1 (fmax s + 2) (-1))
    else (fmax s - 1, fd1) in
  Search fmin' fmax' (bmin s) (bmax s) fd2 (bd s).

Definition grow_bwd (s : search) : search :=
  let '(bmin', bd1) :=
    if dmin <? bmin s then (bmin s - 1, upd (bd s) (bmin s - 2) OFFSET_MAX)
    else (bmin s + 1, bd s) in
  let '(bmax', bd2) :=
    if bmax s <? dmax then (bmax s + 1, upd bd1 (bmax s + 2) OFFSET_MAX)
    else (bmax s - 1, bd1) in
  Search (fmin s) (fmax s) bmin' bmax' (fd s) bd2.

(** One diagonal of the top-down search: the new furthest point. *)
Definition fwd_point (f : Z -> Z) (d : Z) : Z * Z * Z :=
  let tlo := f (d - 1) in
  let thi := f (d + 1) in
  let x0 := if tlo <? thi then thi else tlo + 1 in
  let '(x, y) := fwd_snake x0 (x0 - d) in (x0, x, y).

Definition bwd_point (b : Z -> Z) (d : Z) : Z * Z * Z :=
  let tlo := b (d - 1) in
  let thi := b (d + 1) in
  let x0 := if tlo <? thi then tlo else thi - 1 in
  let '(x, y) := bwd_snake x0 (x0 - d) in (x0, x, y).

(** [for (d = fmax; d >= fmin; d -= 2)]: [n] diagonals from [d] downwards.
    Returns a partition when the searches meet, otherwise the new state and
    whether a big snake was seen. *)
Fixpoint fwd_pass (n : nat) (d : Z) (s : search) (big_snake : bool)
  : (partition * search) + (search * bool) :=
  match n with
  | O => inr (s, big_snake)
  | S n' =>
      let '(x0, x, y) := fwd_point (fd s) d in
      let big_snake' := if SNAKE_LIMIT <? x - x0 then true else big_snake in
      let s' := Search (fmin s) (fmax s) (bmin s) (bmax s) (upd (fd s) d x) (bd s) in
      if odd && (bmin s <=? d) && (d <=? bmax s) && (bd s d <=? x)
      then inl (Partition x y true true, s')
      else fwd_pass n' (d - 2) s' big_snake'
  end.

Fixpoint bwd_pass (n : nat) (d : Z) (s : search) (big_snake : bool)
  : (partition * search) + (search * bool) :=
  match n with
  | O => inr (s, big_snake)
  | S n' =>
      let '(x0, x, y) := bwd_point (bd s) d in
      let big_snake' := if SNAKE_LIMIT <? x0 - x then true else big_snake in
      let s' := Search (fmin s) (fmax s) (bmin s) (bmax s) (fd s) (upd (bd s) d x) in
      if negb odd && (fmin s <=? d) && (d <=? fmax s) && (x <=? fd s d)
      then inl (Partition x y true true, s')
      else bwd_pass n' (d - 2) s' big_snake'
  end.

(** Number of iterations of [for (d = hi; d >= lo; d -= 2)]. *)
Definition pass_count (lo hi : Z) : nat := Z.to_nat ((hi - lo) / 2 + 1).

(** [for (k = 1; EQUAL (x - k, y - k); k++) if (k == SNAKE_LIMIT) ...]:
    does the diagonal end with a significant snake? *)
Fixpoint long_snake_before (n : nat) (k x y : Z) : bool :=
  match n with
  | O => true
  | S n' => xref_yref_equal ctxt (x - k) (y - k) && long_snake_before n' (k + 1) x y
  end.

Fixpoint long_snake_after (n : nat) (k x y : Z) : bool :=
  match n with
  | O => true
  | S n' => xref_yref_equal ctxt (x + k) (y + k) && long_snake_after n' (k + 1) x y
  end.

(** The diagonal of the top-down search that made the most progress; the
    accumulator is [best] with the midpoint recorded for it. *)
Fixpoint best_fwd (n : nat) (c d : Z) (s : search) (acc : Z * Z * Z) : Z * Z * Z :=
  match n with
  | O => acc
  | S n' =>
      let '(best, _, _) := acc in
      let dd := d - fmid in
      let x := fd s d in
      let y := x - d in
      let v := (x - xoff) * 2 - dd in
      let acc' :=
        if (12 * (c + Z.abs dd) <? v) && (best <? v)
           && (xoff + SNAKE_LIMIT <=? x) && (x <? xlim)
           && (yoff + SNAKE_LIMIT <=? y) && (y <? ylim)
           && long_snake_before 20 1 x y
        then (v, x, y) else acc in
      best_fwd n' c (d - 2) s acc'
  end.

Fixpoint best_bwd (n : nat) (c d : Z) (s : search) (acc : Z * Z * Z) : Z * Z * Z :=
  match n with
  | O => acc
  | S n' =>
      let '(best, _, _) := acc in
      let dd := d - bmid in
      let x := bd s d in
      let y := x - d in
      let v := (xlim - x) * 2 + dd in
      let acc' :=
        if (12 * (c + Z.abs dd) <? v) && (best <? v)
           && (xoff <? x) && (x <=? xlim - SNAKE_LIMIT)
           && (yoff <? y) && (y <=? ylim - SNAKE_LIMIT)
           && long_snake_after 20 0 x y
        then (v, x, y) else acc in
      best_bwd n' c (d - 2) s acc'
  end.

(** The speed_large_files heuristic (lines 288-367). *)
Definition big_snake_heuristic (c : Z) (s : search) : option partition :=
  let '(bestf, xf, yf) :=
    best_fwd (pass_count (fmin s) (fmax s)) c (fmax s) s (0, 0, 0) in
  if 0 <? bestf then Some (Partition xf yf true false)
  else
    let '(bestb, xb, yb) :=
      best_bwd (pass_count (bmin s) (bmax s)) c (bmax s) s (0, 0, 0) in
    if 0 <? bestb then Some (Partition xb yb false true)
    else None.

(** Forward diagonal that maximizes X + Y, clipped to the portion:
    [(fxybest, fxbest)]. *)
Fixpoint max_fwd (n : nat) (d : Z) (s : search) (acc : Z * Z) : Z * Z :=
  match n with
  | O => acc
  | S n' =>
      let '(fxybest, _) := acc in
      let x := Z.min (fd s d) xlim in
      let y := x - d in
      let '(x, y) := if ylim <? y then (ylim + d, ylim) else (x, y) in
      let acc' := if fxybest <? x + y then (x + y, x) else acc in
      max_fwd n' (d - 2) s acc'
  end.

Fixpoint min_bwd (n : nat) (d : Z) (s : search) (acc : Z * Z) : Z * Z :=
  match n with
  | O => acc
  | S n' =>
      let '(bxybest, _) := acc in
      let x := Z.max xoff (bd s d) in
      let y := x - d in
      let '(x, y) := if y <? yoff then (yoff + d, yoff) else (x, y) in
      let acc' := if x + y <? bxybest then (x + y, x) else acc in
      min_bwd n' (d - 2) s acc'
  end.

(** Giving up when [c >= too_expensive] (lines 372-431). *)
Definition too_expensive_partition (s : search) : partition :=
  let '(fxybest, fxbest) :=
    max_fwd (pass_count (fmin s) (fmax s)) (fmax s) s (-1, 0) in
  let '(bxybest, bxbest) :=
    min_bwd (pass_count (bmin s) (bmax s)) (bmax s) s (OFFSET_MAX, 0) in
  if (xlim + ylim) - bxybest <? fxybest - (xoff + yoff)
  then Partition fxbest (fxybest - fxbest) true false
  else Partition bxbest (bxybest - bxbest) false true.

(** The body of [for (c = 1;; ++c)]: [inl] is a return, with the vectors as
    they are left behind for the next call. *)
Definition diag_round (c : Z) (s : search) : (partition * search) + search :=
  let s1 := grow_fwd s in
  match fwd_pass (pass_count (fmin s1) (fmax s1)) (fmax s1) s1 false with
  | inl p => inl p
  | inr (s2, big1) =>
      let s3 := grow_bwd s2 in
      match bwd_pass (pass_count (bmin s3) (bmax s3)) (bmax s3) s3 big1 with
      | inl p => inl p
      | inr (s4, big2) =>
          if find_minimal then inr s4
          else
            match (if (200 <? c) && big2 && heuristic ctxt
                   then big_snake_heuristic c s4 else None) with
            | Some p => inl (p, s4)
            | None =>
                if too_expensive ctxt <=? c then inl (too_expensive_partition s4, s4)
                else inr s4
            end
      end
  end.

Fixpoint diag_loop (n : nat) (c : Z) (s : search) : option (partition * search) :=
  match n with
  | O => None
  | S n' =>
      match diag_round c s with
      | inl p => Some p
      | inr s' => diag_loop n' (c + 1) s'
      end
  end.

(** The initial state; [fd0] and [bd0] are the contents the vectors have
    from earlier calls. *)
Definition diag_init (fd0 bd0 : Z -> Z) : search :=
  Search fmid fmid bmid bmid (upd fd0 fmid xoff) (upd bd0 bmid xlim).

(** [diag]: the number of rounds is bounded by the size of the portion
    (theorem [diag_total] shows that the bound is never reached). *)
Definition diag (fd0 bd0 : Z -> Z) : option (partition * search) :=
  diag_loop (Z.to_nat (xlim - xoff + (ylim - yoff))) 1 (diag_init fd0 bd0).
End Diag.

(** ** compareseq *)

(** What [compareseq] modifies: the two vectors of [diag] and, through
    [NOTE_DELETE] and [NOTE_INSERT] (analyze.c), the [changed] flags of the
    two files.  [realindexes0] and [realindexes1] are only read. *)
Record cstate := CState {
  fdiag : Z -> Z;
  bdiag : Z -> Z;
  changed0 : list bool;
  changed1 : list bool
}.

Section CompareSeq.
Context (ctxt : context) (realindexes0 realindexes1 : list Z).

(** [files[0].changed[files[0].realindexes[xoff]] = 1]; [None] is an access
    outside one of the arrays. *)
Definition note_change (changed : list bool) (realindexes : list Z) (off : Z)
  : option (list bool) :=
  match zget realindexes off with
  | Some r =>
      match zget changed r with
      | Some _ => Some (zset changed r true)
      | None => None
      end
  | None => None
  end.

Fixpoint note_changes (n : nat) (off : Z) (changed : list bool) (realindexes : list Z)
  : option (list bool) :=
  match n with
  | O => Some changed
  | S n' =>
      match note_change changed realindexes off with
      | Some changed' => note_changes n' (off + 1) changed' realindexes
      | None => None
      end
  end.

(** The recursion is bounded by the size of the portion: every call is on a
    strictly smaller one (theorem [compareseq_total]). *)
Fixpoint compareseq (fuel : nat) (xoff xlim yoff ylim : Z) (find_minimal : bool)
    (st : cstate) : option cstate :=
  match fuel with
  | O => None
  | S fuel' =>
      (* Slide down the bottom initial diagonal. *)
      let '(xoff, yoff) := fwd_snake ctxt xlim ylim xoff yoff in
      (* Slide up the top initial diagonal. *)
      let '(xlim, ylim) := bwd_snake ctxt xoff yoff xlim ylim in
      if xoff =? xlim then
        match note_changes (Z.to_nat (ylim - yoff)) yoff (changed1 st) realindexes1 with
        | Some ch1 => Some (CState (fdiag st) (bdiag st) (changed0 st) ch1)
        | None => None
        end
      else if yoff =? ylim then
        match note_changes (Z.to_nat (xlim - xoff)) xoff (changed0 st) realindexes0 with
        | Some ch0 => Some (CState (fdiag st) (bdiag st) ch0 (changed1 st))
        | None => None
        end
      else
        match diag ctxt xoff xlim yoff ylim find_minimal (fdiag st) (bdiag st) with
        | None => None
        | Some (part, s) =>
            let st1 := CState (fd s) (bd s) (changed0 st) (changed1 st) in
            match compareseq fuel' xoff (xmid part) yoff (ymid part) (lo_minimal part) st1 with
            | None => None
            | Some st2 =>
                compareseq fuel' (xmid part) xlim (ymid part) ylim (hi_minimal part) st2
            end
        end
  end.
End CompareSeq.

(** A portion with a deletion, a match and a replacement. *)
Example compareseq_small :
  let c := MkContext [1; 2; 3; 4] [2; 5; 4] false 256 (fun _ _ => true) in
  option_map (fun st => (changed0 st, changed1 st))
    (compareseq c [0; 1; 2; 3] [0; 1; 2] 8 0 4 0 3 false
       (CState (fun _ => 0) (fun _ => 0) [false; false; false; false] [false; false; false]))
  = Some ([true; false; true; false], [false; true; false]).
Proof. vm_compute. reflexivity. Qed.
