(* ===== verification/DiagGeometry.v ===== *)
(** * Geometry of the furthest-reaching points of [diag]

    The forward search of [diag] keeps, for every active diagonal, the furthest
    point it reaches with [c] edits.  These points may lie outside the portion
    being compared.  The lemmas below follow one round of a search, abstractly,
    so that they serve the forward search as it is and the backward search
    after a reflection of the plane. *)

From S2P Require Import Prelude.

(** Diagonal [d] is visited in round [c] of a search centred on [mid] with
    limits [l] and [h]. *)
Definition active (mid c l h d : Z) : Prop := l <= d <= h /\ (d - mid - c) mod 2 = 0.

(** The limits of a search in round [c]: they grow by one diagonal per round
    until they bounce off the borders [dlo] and [dhi]. *)
Definition range_ok (dlo dhi mid c l h : Z) : Prop :=
  dlo <= l /\ h <= dhi /\ mid - c <= l /\ h <= mid + c /\
  (l <= mid - c \/ l <= dlo + 1) /\ (mid + c <= h \/ dhi - 1 <= h) /\
  (l - mid - c) mod 2 = 0 /\ (h - mid - c) mod 2 = 0.

Definition grow_lo (dlo l : Z) : Z := if dlo <? l then l - 1 else l + 1.
Definition grow_hi (dhi h : Z) : Z := if h <? dhi then h + 1 else h - 1.

Lemma range_ok_init dlo dhi mid :
  dlo < mid < dhi -> range_ok dlo dhi mid 0 mid mid.
Proof. unfold range_ok. lia. Qed.

Lemma range_ok_grow dlo dhi mid c l h :
  dlo < mid < dhi -> 0 <= c -> range_ok dlo dhi mid c l h ->
  range_ok dlo dhi mid (c + 1) (grow_lo dlo l) (grow_hi dhi h).
Proof. unfold range_ok, grow_lo, grow_hi. intros. repeat case_if; lia. Qed.

Lemma range_ok_mid dlo dhi mid c l h :
  dlo < mid < dhi -> 0 <= c -> range_ok dlo dhi mid c l h -> l <= mid <= h.
Proof. unfold range_ok. lia. Qed.

Section Search.
(** The portion. *)
Context (xoff xlim yoff ylim : Z).

Let mid : Z := xoff - yoff.
Let omid : Z := xlim - ylim.
Let dlo : Z := xoff - ylim.
Let dhi : Z := xlim - yoff.

(** The diagonal on which a point right of (below) the portion reappears on
    the border, when its moves outside are exchanged for moves along it. *)
Definition back_right (d x : Z) : Z := d - 2 * (x - xlim).
Definition back_below (d x : Z) : Z := d + 2 * (x - d - ylim).

(** Invariant of the points reached with [c] edits. *)
Record reached (c l h : Z) (f : Z -> Z) : Prop := {
  reached_x d : active mid c l h d -> xoff <= f d;
  reached_y d : active mid c l h d -> yoff <= f d - d;
  reached_sum d : active mid c l h d -> xoff + yoff + c <= 2 * f d - d;
  reached_right d : active mid c l h d -> xlim <= f d ->
    omid <= back_right d (f d) /\ l <= back_right d (f d) /\
    xlim <= f (back_right d (f d));
  reached_below d : active mid c l h d -> ylim <= f d - d ->
    back_below d (f d) <= omid /\ back_below d (f d) <= h /\
    ylim <= f (back_below d (f d)) - back_below d (f d)
}.

(** What the absence of a meeting adds, for limits [omin], [omax] of the
    opposite search. *)
Definition apart (omin omax c l h : Z) (f : Z -> Z) : Prop :=
  forall d, active mid c l h d ->
    (xlim <= f d -> omax < back_right d (f d) /\ omid + 1 < back_right d (f d)) /\
    (ylim <= f d - d -> back_below d (f d) < omin /\ back_below d (f d) < omid - 1).

Lemma reached_ext c l h f g :
  (forall d, active mid c l h d -> f d = g d) -> reached c l h f -> reached c l h g.
Proof.
  intros Heq Hf.
  split; intros d Hd; rewrite <- (Heq d Hd); try by apply Hf.
  - intros Hg. destruct (reached_right _ _ _ _ Hf d Hd Hg) as (R1 & R2 & R3).
    rewrite <- Heq; [done|]. unfold active, back_right in *. lia.
  - intros Hg. destruct (reached_below _ _ _ _ Hf d Hd Hg) as (R1 & R2 & R3).
    rewrite <- Heq; [done|]. unfold active, back_below in *. lia.
Qed.

(** When no active diagonal of the search meets the opposite one, whose
    points [o] are inside the far borders, the search stays apart from it,
    also after the opposite limits have grown once more. *)
Lemma apart_intro c l h omin omax omin' omax' (f o : Z -> Z) :
  omin <= omid <= omax -> omax' <= omax + 1 -> omin - 1 <= omin' ->
  (omin - mid - c) mod 2 = 0 -> (omax - mid - c) mod 2 = 0 ->
  reached c l h f ->
  (forall d, omin <= d <= omax -> (d - mid - c) mod 2 = 0 ->
             o d <= xlim /\ o d - d <= ylim) ->
  (forall d, active mid c l h d -> omin <= d <= omax -> f d < o d) ->
  apart omin' omax' c l h f.
Proof.
  intros Hm Hg1 Hg2 Hp1 Hp2 Hf Ho Hno d Hd. split; intros Hfd.
  - destruct (reached_right _ _ _ _ Hf d Hd Hfd) as (R1 & R2 & R3).
    set (e := back_right d (f d)) in *.
    assert (active mid c l h e) as He by (unfold active, e, back_right in *; lia).
    destruct (Z.le_gt_cases e omax) as [Hle|Hgt].
    + specialize (Hno e He ltac:(lia)).
      destruct (Ho e ltac:(lia)) as [? _]; [unfold active in He; lia|]. lia.
    + assert ((e - mid - c) mod 2 = 0) by (unfold active in He; lia).
      split; lia.
  - destruct (reached_below _ _ _ _ Hf d Hd Hfd) as (R1 & R2 & R3).
    set (e := back_below d (f d)) in *.
    assert (active mid c l h e) as He by (unfold active, e, back_below in *; lia).
    destruct (Z.le_gt_cases omin e) as [Hle|Hgt].
    + specialize (Hno e He ltac:(lia)).
      destruct (Ho e ltac:(lia)) as [_ ?]; [unfold active in He; lia|]. lia.
    + assert ((e - mid - c) mod 2 = 0) by (unfold active in He; lia).
      split; lia.
Qed.

(** The relation of matching positions; both sides are non-empty. *)
Context (matched : Z -> Z -> Prop).
Context (Hx : xoff < xlim) (Hy : yoff < ylim).

(** One more round: every new point comes from a neighbour by one edit,
    possibly followed by a snake inside the portion. *)
Definition next_round (c l h l' h' : Z) (f g : Z -> Z) : Prop :=
  forall d, active mid (c + 1) l' h' d ->
    (d + 1 <= h -> f (d + 1) <= g d) /\
    (l <= d - 1 -> f (d - 1) + 1 <= g d) /\
    exists x0, x0 <= g d /\
      (x0 < g d -> g d <= xlim /\ g d - d <= ylim /\ matched (g d - 1) (g d - d - 1)) /\
      ((d + 1 <= h /\ x0 = f (d + 1)) \/ (l <= d - 1 /\ x0 = f (d - 1) + 1)).

(** The same with the whole snake, which ends only where it has to. *)
Definition furthest_round (c l h l' h' : Z) (f g : Z -> Z) : Prop :=
  forall d, active mid (c + 1) l' h' d -> exists x0,
    (d + 1 <= h -> f (d + 1) <= x0) /\ (l <= d - 1 -> f (d - 1) + 1 <= x0) /\ x0 <= g d /\
    (forall x, x0 <= x < g d -> x < xlim /\ x - d < ylim /\ matched x (x - d)) /\
    ~ (g d < xlim /\ g d - d < ylim /\ matched (g d) (g d - d)) /\
    ((d + 1 <= h /\ x0 = f (d + 1)) \/ (l <= d - 1 /\ x0 = f (d - 1) + 1)).

Lemma furthest_next c l h l' h' f g : furthest_round c l h l' h' f g -> next_round c l h l' h' f g.
Proof.
  intros H d Hd. destruct (H d Hd) as (x0 & H1 & H2 & Hle & Hs & _ & Horg). split; [lia|]. split; [lia|].
  exists x0. split; [done|]. split; [|done]. intros Hlt. destruct (Hs (g d - 1)) as (? & ? & Hm); [lia|].
  split; [lia|]. split; [lia|]. by replace (g d - d - 1) with (g d - 1 - d) by lia.
Qed.

Section Round.
Context (c l h omin omax : Z) (f g : Z -> Z).
Let l' : Z := grow_lo dlo l.
Let h' : Z := grow_hi dhi h.
Context (Hr : range_ok dlo dhi mid c l h).
Context (Hf : reached c l h f) (Ha : apart omin omax c l h f).
Context (Hn : next_round c l h l' h' f g).

Lemma neighbours_active d : active mid (c + 1) l' h' d ->
  (d + 1 <= h -> active mid c l h (d + 1)) /\
  (l <= d - 1 -> active mid c l h (d - 1)).
Proof.
  unfold active, l', h', grow_lo, grow_hi. unfold range_ok in Hr.
  repeat case_if; lia.
Qed.

Lemma next_lower d : active mid (c + 1) l' h' d ->
  xoff <= g d /\ yoff <= g d - d /\ xoff + yoff + (c + 1) <= 2 * g d - d.
Proof.
  intros Hd. destruct (neighbours_active d Hd) as [A1 A2].
  destruct (Hn d Hd) as (_ & _ & x0 & Hle & _ & [[Hh ->]|[Hl ->]]).
  - pose proof (reached_x _ _ _ _ Hf _ (A1 Hh)). pose proof (reached_y _ _ _ _ Hf _ (A1 Hh)).
    pose proof (reached_sum _ _ _ _ Hf _ (A1 Hh)). lia.
  - pose proof (reached_x _ _ _ _ Hf _ (A2 Hl)). pose proof (reached_y _ _ _ _ Hf _ (A2 Hl)).
    pose proof (reached_sum _ _ _ _ Hf _ (A2 Hl)). lia.
Qed.

(** Moving down along the right border: if [f] is on or beyond it at [e],
    so is [g] one diagonal below. *)
Lemma border_down e : active mid c l h e -> xlim <= f e -> omid + 1 < e ->
  active mid (c + 1) l' h' (e - 1) /\ xlim <= g (e - 1).
Proof.
  intros He Hfe Hoe.
  assert (active mid (c + 1) l' h' (e - 1)) as Hd.
  { revert He. unfold active, l', h', grow_lo, grow_hi, omid, mid, dlo, dhi in *.
    unfold range_ok in Hr. repeat case_if; lia. }
  split; [done|]. destruct (Hn _ Hd) as (H1 & _).
  replace (e - 1 + 1) with e in H1 by lia. unfold active in He. lia.
Qed.

Lemma border_right e : active mid c l h e -> ylim <= f e - e -> e < omid - 1 ->
  active mid (c + 1) l' h' (e + 1) /\ ylim <= g (e + 1) - (e + 1).
Proof.
  intros He Hfe Hoe.
  assert (active mid (c + 1) l' h' (e + 1)) as Hd.
  { revert He. unfold active, l', h', grow_lo, grow_hi, omid, mid, dlo, dhi in *.
    unfold range_ok in Hr. repeat case_if; lia. }
  split; [done|]. destruct (Hn _ Hd) as (_ & H2 & _).
  replace (e + 1 - 1) with e in H2 by lia. unfold active in He. lia.
Qed.

(** A point that is on or right of the border already one edit earlier. *)
Lemma right_from e : active mid c l h e -> xlim <= f e ->
  omax < back_right e (f e) /\
  active mid (c + 1) l' h' (back_right e (f e) - 1) /\
  omid <= back_right e (f e) - 1 /\ xlim <= g (back_right e (f e) - 1).
Proof.
  intros He Hfe. destruct (Ha e He) as [Hb _]. destruct (Hb Hfe) as [B1 B2].
  destruct (reached_right _ _ _ _ Hf e He Hfe) as (R1 & R2 & R3).
  assert (active mid c l h (back_right e (f e))) as Hb'.
  { unfold active, back_right in *. lia. }
  destruct (border_down _ Hb' R3 B2). split; [done|]. split; [done|]. lia.
Qed.

Lemma below_from e : active mid c l h e -> ylim <= f e - e ->
  back_below e (f e) < omin /\
  active mid (c + 1) l' h' (back_below e (f e) + 1) /\
  back_below e (f e) + 1 <= omid /\
  ylim <= g (back_below e (f e) + 1) - (back_below e (f e) + 1).
Proof.
  intros He Hfe. destruct (Ha e He) as [_ Hb]. destruct (Hb Hfe) as [B1 B2].
  destruct (reached_below _ _ _ _ Hf e He Hfe) as (R1 & R2 & R3).
  assert (active mid c l h (back_below e (f e))) as Hb'.
  { unfold active, back_below in *. lia. }
  destruct (border_right _ Hb' R3 B2). split; [done|]. split; [done|]. lia.
Qed.

(** The same, seen from the new point: either it had crossed the border
    before, or it has just arrived on it inside the portion. *)
Lemma right_cases d : active mid (c + 1) l' h' d -> xlim <= g d ->
  (exists e, active mid c l h e /\ xlim <= f e /\
             back_right e (f e) - 1 = back_right d (g d)) \/
  (g d = xlim /\ g d - d <= ylim).
Proof.
  intros Hd Hg. destruct (neighbours_active d Hd) as [A1 A2].
  destruct (Hn d Hd) as (_ & _ & x0 & Hle & Hs & Horg).
  destruct (Z.lt_ge_cases x0 (g d)) as [Hlt|Hge].
  { right. specialize (Hs Hlt). lia. }
  assert (g d = x0) as Hgd by lia.
  destruct Horg as [[Hh Hx0]|[Hl Hx0]].
  - left. exists (d + 1). split; [auto|]. unfold back_right. lia.
  - destruct (Z.le_gt_cases xlim (f (d - 1))) as [Hf1|Hf1].
    + left. exists (d - 1). split; [auto|]. unfold back_right. lia.
    + right. split; [lia|].
      destruct (Z.le_gt_cases (g d - d) ylim) as [|Hgt]; [done|]. exfalso.
      destruct (Ha (d - 1) (A2 Hl)) as [_ Hb].
      destruct Hb as [B1 B2]; [lia|]. unfold back_below, omid in *. lia.
Qed.

Lemma below_cases d : active mid (c + 1) l' h' d -> ylim <= g d - d ->
  (exists e, active mid c l h e /\ ylim <= f e - e /\
             back_below e (f e) + 1 = back_below d (g d)) \/
  (g d - d = ylim /\ g d <= xlim).
Proof.
  intros Hd Hg. destruct (neighbours_active d Hd) as [A1 A2].
  destruct (Hn d Hd) as (_ & _ & x0 & Hle & Hs & Horg).
  destruct (Z.lt_ge_cases x0 (g d)) as [Hlt|Hge].
  { right. specialize (Hs Hlt). lia. }
  assert (g d = x0) as Hgd by lia.
  destruct Horg as [[Hh Hx0]|[Hl Hx0]].
  - destruct (Z.le_gt_cases ylim (f (d + 1) - (d + 1))) as [Hf1|Hf1].
    + left. exists (d + 1). split; [auto|]. unfold back_below. lia.
    + right. split; [lia|].
      destruct (Z.le_gt_cases (g d) xlim) as [|Hgt]; [done|]. exfalso.
      destruct (Ha (d + 1) (A1 Hh)) as [Hb _].
      destruct Hb as [B1 B2]; [lia|]. unfold back_right, omid in *. lia.
  - left. exists (d - 1). split; [auto|]. unfold back_below. lia.
Qed.

Lemma reached_next : reached (c + 1) l' h' g.
Proof.
  split; intros d Hd; try (pose proof (next_lower d Hd); lia).
  - intros Hg. destruct (right_cases d Hd Hg) as [(e & He & Hfe & Heq)|[H1 H2]].
    + destruct (right_from e He Hfe) as (_ & Hact & R1 & R2).
      rewrite Heq in *. unfold active in Hact. lia.
    + replace (back_right d (g d)) with d by (unfold back_right; lia).
      unfold active in Hd. lia.
  - intros Hg. destruct (below_cases d Hd Hg) as [(e & He & Hfe & Heq)|[H1 H2]].
    + destruct (below_from e He Hfe) as (_ & Hact & R1 & R2).
      rewrite Heq in *. unfold active in Hact. lia.
    + replace (back_below d (g d)) with d by (unfold back_below; lia).
      unfold active in Hd. lia.
Qed.

(** A point outside the portion lies on a diagonal that the opposite search
    has not reached and will not reach in its next round. *)
Lemma next_outside d : active mid (c + 1) l' h' d ->
  (xlim < g d -> omax + 1 < d) /\ (ylim < g d - d -> d < omin - 1).
Proof.
  intros Hd. split; intros Hg.
  - destruct (right_cases d Hd ltac:(lia)) as [(e & He & Hfe & Heq)|[H1 H2]]; [|lia].
    destruct (right_from e He Hfe) as (Hom & _). unfold back_right in *. lia.
  - destruct (below_cases d Hd ltac:(lia)) as [(e & He & Hfe & Heq)|[H1 H2]]; [|lia].
    destruct (below_from e He Hfe) as (Hom & _). unfold back_below in *. lia.
Qed.

(** The far corner is only reached along a final match. *)
Lemma next_corner d : active mid (c + 1) l' h' d ->
  g d = xlim -> g d - d = ylim -> matched (xlim - 1) (ylim - 1).
Proof.
  intros Hd H1 H2. destruct (neighbours_active d Hd) as [A1 A2].
  destruct (Hn d Hd) as (_ & _ & x0 & Hle & Hs & Horg).
  destruct (Z.lt_ge_cases x0 (g d)) as [Hlt|Hge].
  { destruct (Hs Hlt) as (_ & _ & Hm). by rewrite H2, H1 in Hm. }
  exfalso. destruct Horg as [[Hh Hx0]|[Hl Hx0]].
  - destruct (Ha _ (A1 Hh)) as [Hb _]. destruct Hb; [lia|].
    unfold back_right, omid in *. lia.
  - destruct (Ha _ (A2 Hl)) as [_ Hb]. destruct Hb; [lia|].
    unfold back_below, omid in *. lia.
Qed.
End Round.

(** One round, from [f] to [g]: the invariant is kept, points outside are on
    diagonals beyond the opposite limits, and the far corner needs a match. *)
Lemma round_step c l h omin omax f g l' h' :
  l' = grow_lo dlo l -> h' = grow_hi dhi h ->
  range_ok dlo dhi mid c l h -> reached c l h f -> apart omin omax c l h f ->
  next_round c l h l' h' f g -> ~ matched (xlim - 1) (ylim - 1) ->
  reached (c + 1) l' h' g /\
  forall d, active mid (c + 1) l' h' d ->
    (xlim < g d -> omax + 1 < d) /\ (ylim < g d - d -> d < omin - 1) /\
    ~ (g d = xlim /\ g d - d = ylim).
Proof.
  intros -> -> Hr Hf Ha Hn Hm. split; [by eapply reached_next|].
  intros d Hd. pose proof (next_outside c l h omin omax f g Hr Hf Ha Hn d Hd) as [H1 H2].
  split; [done|]. split; [done|]. intros [H3 H4]. apply Hm. by eapply next_corner.
Qed.
End Search.

(** ** Clipping to the portion *)

Section Clip.
Context (xoff xlim yoff ylim : Z).
Context (Hx : xoff < xlim) (Hy : yoff < ylim).

(** A proper midpoint: inside the portion and not one of the two corners that
    would leave a subproblem as large as the problem. *)
Definition proper (x y : Z) : Prop :=
  xoff <= x <= xlim /\ yoff <= y <= ylim /\
  ~ (x = xoff /\ y = yoff) /\ ~ (x = xlim /\ y = ylim).

Definition no_corner (c l h : Z) (f : Z -> Z) : Prop :=
  forall d, active (xoff - yoff) c l h d -> ~ (f d = xlim /\ f d - d = ylim).

Definition clip (d x : Z) : Z :=
  let x1 := Z.min x xlim in if ylim <? x1 - d then ylim + d else x1.

Lemma clip_proper c l h f d :
  1 <= c -> range_ok (xoff - ylim) (xlim - yoff) (xoff - yoff) c l h ->
  reached xoff xlim yoff ylim c l h f -> no_corner c l h f ->
  active (xoff - yoff) c l h d -> proper (clip d (f d)) (clip d (f d) - d).
Proof.
  intros Hc Hr Hf Hnc Hd. specialize (Hnc d Hd).
  pose proof (reached_x _ _ _ _ _ _ _ _ Hf d Hd).
  pose proof (reached_y _ _ _ _ _ _ _ _ Hf d Hd).
  pose proof (reached_sum _ _ _ _ _ _ _ _ Hf d Hd).
  pose proof (reached_right _ _ _ _ _ _ _ _ Hf d Hd) as HR.
  assert (xlim < f d -> xlim - d <> ylim) as Hout.
  { intros Hgt Heq. specialize (HR ltac:(lia)). unfold back_right in HR. lia. }
  clear HR. unfold range_ok, active in *. unfold proper, clip. case_if; lia.
Qed.
End Clip.
