(* ===== verification/DiagProofs.v ===== *)
(** * Correctness of [diag]

    For a portion with two non-empty sides whose first elements differ and
    whose last elements differ (what [compareseq] ensures before it calls
    [diag]), [diag] always returns, whatever the vectors held before, and its
    midpoint lies inside the portion and is not one of its corners. *)

From S2P Require Import Prelude DiffSeq DiagGeometry.

(** ** Snakes *)

Lemma fwd_snake_loop_spec ctxt xlim ylim n x y :
  xlim - x <= Z.of_nat n ->
  exists k, 0 <= k /\ fwd_snake_loop ctxt xlim ylim n x y = (x + k, y + k) /\
    (forall t, 0 <= t < k ->
       x + t < xlim /\ y + t < ylim /\ xref_yref_equal ctxt (x + t) (y + t) = true) /\
    ((x + k <? xlim) && (y + k <? ylim) && xref_yref_equal ctxt (x + k) (y + k)) = false.
Proof.
  revert x y. induction n as [|n IH]; intros x y Hn; simpl.
  - exists 0. rewrite !Z.add_0_r. split; [done|]. split; [done|]. split; [lia|].
    assert ((x <? xlim) = false) as -> by (apply Z.ltb_ge; lia). done.
  - destruct ((x <? xlim) && (y <? ylim) && xref_yref_equal ctxt x y) eqn:E.
    + destruct (IH (x + 1) (y + 1)) as (k & Hk & -> & Hall & Hend); [lia|].
      exists (k + 1). split; [lia|]. split; [f_equal; lia|]. split.
      * intros t Ht. destruct (Z.eq_dec t 0) as [->|].
        { rewrite !Z.add_0_r. zify_bool. done. }
        specialize (Hall (t - 1) ltac:(lia)).
        replace (x + 1 + (t - 1)) with (x + t) in Hall by lia.
        by replace (y + 1 + (t - 1)) with (y + t) in Hall by lia.
      * replace (x + (k + 1)) with (x + 1 + k) by lia.
        by replace (y + (k + 1)) with (y + 1 + k) by lia.
    + exists 0. rewrite !Z.add_0_r. split; [done|]. split; [done|]. split; [lia|done].
Qed.

(** What a forward snake does: [k] matches, then no further one. *)
Lemma fwd_snake_spec ctxt xlim ylim x y :
  exists k, 0 <= k /\ fwd_snake ctxt xlim ylim x y = (x + k, y + k) /\
    (forall t, 0 <= t < k ->
       x + t < xlim /\ y + t < ylim /\ xref_yref_equal ctxt (x + t) (y + t) = true) /\
    ((x + k <? xlim) && (y + k <? ylim) && xref_yref_equal ctxt (x + k) (y + k)) = false.
Proof. apply fwd_snake_loop_spec. lia. Qed.

Lemma bwd_snake_loop_spec ctxt xoff yoff n x y :
  x - xoff <= Z.of_nat n ->
  exists k, 0 <= k /\ bwd_snake_loop ctxt xoff yoff n x y = (x - k, y - k) /\
    (forall t, 0 < t <= k ->
       xoff <= x - t /\ yoff <= y - t /\ xref_yref_equal ctxt (x - t) (y - t) = true) /\
    ((xoff <? x - k) && (yoff <? y - k) && xref_yref_equal ctxt (x - k - 1) (y - k - 1)) = false.
Proof.
  revert x y. induction n as [|n IH]; intros x y Hn; simpl.
  - exists 0. rewrite !Z.sub_0_r. split; [done|]. split; [done|]. split; [lia|].
    assert ((xoff <? x) = false) as -> by (apply Z.ltb_ge; lia). done.
  - destruct ((xoff <? x) && (yoff <? y) && xref_yref_equal ctxt (x - 1) (y - 1)) eqn:E.
    + destruct (IH (x - 1) (y - 1)) as (k & Hk & -> & Hall & Hend); [lia|].
      exists (k + 1). split; [lia|]. split; [f_equal; lia|]. split.
      * intros t Ht. destruct (Z.eq_dec t 1) as [->|].
        { zify_bool. split; [lia|]. split; [lia|]. done. }
        specialize (Hall (t - 1) ltac:(lia)).
        replace (x - 1 - (t - 1)) with (x - t) in Hall by lia.
        by replace (y - 1 - (t - 1)) with (y - t) in Hall by lia.
      * replace (x - (k + 1)) with (x - 1 - k) by lia.
        by replace (y - (k + 1)) with (y - 1 - k) by lia.
    + exists 0. rewrite !Z.sub_0_r. split; [done|]. split; [done|]. split; [lia|done].
Qed.

Lemma bwd_snake_spec ctxt xoff yoff x y :
  exists k, 0 <= k /\ bwd_snake ctxt xoff yoff x y = (x - k, y - k) /\
    (forall t, 0 < t <= k ->
       xoff <= x - t /\ yoff <= y - t /\ xref_yref_equal ctxt (x - t) (y - t) = true) /\
    ((xoff <? x - k) && (yoff <? y - k) && xref_yref_equal ctxt (x - k - 1) (y - k - 1)) = false.
Proof. apply bwd_snake_loop_spec. lia. Qed.

(** ** One pass over the diagonals *)

Section Pass.
Context (ctxt : context) (xoff xlim yoff ylim : Z).

Definition fwd_x (f : Z -> Z) (d : Z) : Z := (fwd_point ctxt xlim ylim f d).1.2.
Definition bwd_x (b : Z -> Z) (d : Z) : Z := (bwd_point ctxt xoff yoff b d).1.2.

Lemma fwd_point_spec f d :
  let x0 := if f (d - 1) <? f (d + 1) then f (d + 1) else f (d - 1) + 1 in
  fwd_point ctxt xlim ylim f d = (x0, fwd_x f d, fwd_x f d - d) /\
  x0 <= fwd_x f d /\
  (forall x, x0 <= x < fwd_x f d -> x < xlim /\ x - d < ylim /\ xref_yref_equal ctxt x (x - d) = true) /\
  ~ (fwd_x f d < xlim /\ fwd_x f d - d < ylim /\ xref_yref_equal ctxt (fwd_x f d) (fwd_x f d - d) = true).
Proof.
  intros x0. unfold fwd_x, fwd_point. fold x0.
  destruct (fwd_snake_spec ctxt xlim ylim x0 (x0 - d)) as (k & Hk & -> & Hall & Hend).
  simpl. split; [f_equal; lia|]. split; [lia|]. split.
  - intros x Hx. destruct (Hall (x - x0) ltac:(lia)) as (H1 & H2 & H3).
    replace (x0 + (x - x0)) with x in * by lia. by replace (x0 - d + (x - x0)) with (x - d) in * by lia.
  - replace (x0 + k - d) with (x0 - d + k) by lia. intros (H1 & H2 & H3). rewrite H3 in Hend.
    rewrite (proj2 (Z.ltb_lt _ _) H1), (proj2 (Z.ltb_lt _ _) H2) in Hend. done.
Qed.

Lemma bwd_point_spec b d :
  let x0 := if b (d - 1) <? b (d + 1) then b (d - 1) else b (d + 1) - 1 in
  bwd_point ctxt xoff yoff b d = (x0, bwd_x b d, bwd_x b d - d) /\
  bwd_x b d <= x0 /\
  (forall x, bwd_x b d <= x < x0 -> xoff <= x /\ yoff <= x - d /\ xref_yref_equal ctxt x (x - d) = true) /\
  ~ (xoff < bwd_x b d /\ yoff < bwd_x b d - d /\ xref_yref_equal ctxt (bwd_x b d - 1) (bwd_x b d - d - 1) = true).
Proof.
  intros x0. unfold bwd_x, bwd_point. fold x0.
  destruct (bwd_snake_spec ctxt xoff yoff x0 (x0 - d)) as (k & Hk & -> & Hall & Hend).
  simpl. split; [f_equal; lia|]. split; [lia|]. split.
  - intros x Hx. destruct (Hall (x0 - x) ltac:(lia)) as (H1 & H2 & H3).
    replace (x0 - (x0 - x)) with x in * by lia. by replace (x0 - d - (x0 - x)) with (x - d) in * by lia.
  - replace (x0 - k - d) with (x0 - d - k) by lia. intros (H1 & H2 & H3). rewrite H3 in Hend.
    rewrite (proj2 (Z.ltb_lt _ _) H1), (proj2 (Z.ltb_lt _ _) H2) in Hend. done.
Qed.

Lemma fwd_point_ext f g d :
  f (d - 1) = g (d - 1) -> f (d + 1) = g (d + 1) ->
  fwd_point ctxt xlim ylim f d = fwd_point ctxt xlim ylim g d.
Proof. unfold fwd_point. by intros -> ->. Qed.

Lemma bwd_point_ext f g d :
  f (d - 1) = g (d - 1) -> f (d + 1) = g (d + 1) ->
  bwd_point ctxt xoff yoff f d = bwd_point ctxt xoff yoff g d.
Proof. unfold bwd_point. by intros -> ->. Qed.

(** The outcome of a pass over [n] diagonals from [d] downwards: a meeting on
    one of them, or their new points and no meeting on any. *)
Definition fwd_met (s : search) (e : Z) : Prop :=
  odd xoff xlim yoff ylim = true /\ bmin s <= e <= bmax s /\ bd s e <= fwd_x (fd s) e.

Definition bwd_met (s : search) (e : Z) : Prop :=
  odd xoff xlim yoff ylim = false /\ fmin s <= e <= fmax s /\ bwd_x (bd s) e <= fd s e.

Definition visited (n : nat) (d e : Z) : Prop :=
  exists k, 0 <= k < Z.of_nat n /\ e = d - 2 * k.

Lemma fwd_pass_spec n d s big :
  match fwd_pass ctxt xoff xlim yoff ylim n d s big with
  | inl (p, _) => exists e, visited n d e /\ fwd_met s e /\
      xmid p = fwd_x (fd s) e /\ ymid p = fwd_x (fd s) e - e
  | inr (s', _) =>
      fmin s' = fmin s /\ fmax s' = fmax s /\ bmin s' = bmin s /\ bmax s' = bmax s /\
      bd s' = bd s /\
      (forall e, visited n d e -> fd s' e = fwd_x (fd s) e /\ ~ fwd_met s e) /\
      (forall e, ~ visited n d e -> fd s' e = fd s e)
  end.
Proof.
  revert d s big. induction n as [|n IH]; intros d s big; simpl.
  { repeat split; try done; match goal with H : visited _ _ _ |- _ => destruct H as (k&?&?); lia end. }
  destruct (fwd_point_spec (fd s) d) as (-> & _).
  destruct (odd xoff xlim yoff ylim && _ && _ && _) eqn:E.
  { exists d. split; [exists 0; lia|]. unfold fwd_met. zify_bool. simpl. done. }
  set (s1 := Search _ _ _ _ _ _).
  assert (~ fwd_met s d) as Hnd.
  { intros (H1 & [H2%Z.leb_le H3%Z.leb_le] & H4%Z.leb_le).
    by rewrite H1, H2, H3, H4 in E. }
  assert (forall e, visited n (d - 2) e -> fwd_x (fd s1) e = fwd_x (fd s) e) as Hext.
  { intros e (k & Hk & ->). unfold fwd_x. rewrite (fwd_point_ext (fd s1) (fd s)); [done| |];
      unfold s1; simpl; apply upd_ne; lia. }
  specialize (IH (d - 2) s1 (if SNAKE_LIMIT <? fwd_x (fd s) d -
     (if fd s (d - 1) <? fd s (d + 1) then fd s (d + 1) else fd s (d - 1) + 1)
     then true else big)).
  destruct (fwd_pass _ _ _ _ _ n _ _ _) as [[p s']|[s' b']].
  - destruct IH as (e & Hv & Hm & Hp1 & Hp2). exists e.
    rewrite Hext in Hp1, Hp2 by done. split.
    { destruct Hv as (k & ? & ?). exists (k + 1). lia. }
    split; [|done]. unfold fwd_met in *. rewrite Hext in Hm by done. done.
  - destruct IH as (-> & -> & -> & -> & -> & Hv & Hnv). do 5 (split; [done|]). split.
    + intros e (k & Hk & ->). destruct (Z.eq_dec k 0) as [->|].
      * replace (d - 2 * 0) with d by lia. split; [|done].
        rewrite Hnv; [unfold s1; simpl; apply upd_eq|]. intros (k & ? & ?). lia.
      * assert (visited n (d - 2) (d - 2 * k)) as Hv' by (exists (k - 1); lia).
        destruct (Hv _ Hv') as [-> Hm]. rewrite Hext by done. split; [done|].
        contradict Hm. unfold fwd_met in *. by rewrite Hext.
    + intros e He. rewrite Hnv.
      * unfold s1; simpl. apply upd_ne. intros ->. apply He. exists 0. lia.
      * intros (k & ? & ?). apply He. exists (k + 1). lia.
Qed.
Lemma bwd_pass_spec n d s big :
  match bwd_pass ctxt xoff xlim yoff ylim n d s big with
  | inl (p, _) => exists e, visited n d e /\ bwd_met s e /\
      xmid p = bwd_x (bd s) e /\ ymid p = bwd_x (bd s) e - e
  | inr (s', _) =>
      fmin s' = fmin s /\ fmax s' = fmax s /\ bmin s' = bmin s /\ bmax s' = bmax s /\
      fd s' = fd s /\
      (forall e, visited n d e -> bd s' e = bwd_x (bd s) e /\ ~ bwd_met s e) /\
      (forall e, ~ visited n d e -> bd s' e = bd s e)
  end.
Proof.
  revert d s big. induction n as [|n IH]; intros d s big; simpl.
  { repeat split; try done; match goal with H : visited _ _ _ |- _ => destruct H as (k&?&?); lia end. }
  destruct (bwd_point_spec (bd s) d) as (-> & _).
  destruct (negb (odd xoff xlim yoff ylim) && _ && _ && _) eqn:E.
  { exists d. split; [exists 0; lia|]. unfold bwd_met. zify_bool. simpl. done. }
  set (s1 := Search _ _ _ _ _ _).
  assert (~ bwd_met s d) as Hnd.
  { intros (H1 & [H2%Z.leb_le H3%Z.leb_le] & H4%Z.leb_le).
    by rewrite H1, H2, H3, H4 in E. }
  assert (forall e, visited n (d - 2) e -> bwd_x (bd s1) e = bwd_x (bd s) e) as Hext.
  { intros e (k & Hk & ->). unfold bwd_x. rewrite (bwd_point_ext (bd s1) (bd s)); [done| |];
      unfold s1; simpl; apply upd_ne; lia. }
  specialize (IH (d - 2) s1 (if SNAKE_LIMIT <?
     (if bd s (d - 1) <? bd s (d + 1) then bd s (d - 1) else bd s (d + 1) - 1) - bwd_x (bd s) d
     then true else big)).
  destruct (bwd_pass _ _ _ _ _ n _ _ _) as [[p s']|[s' b']].
  - destruct IH as (e & Hv & Hm & Hp1 & Hp2). exists e.
    rewrite Hext in Hp1, Hp2 by done. split.
    { destruct Hv as (k & ? & ?). exists (k + 1). lia. }
    split; [|done]. unfold bwd_met in *. rewrite Hext in Hm by done. done.
  - destruct IH as (-> & -> & -> & -> & -> & Hv & Hnv). do 5 (split; [done|]). split.
    + intros e (k & Hk & ->). destruct (Z.eq_dec k 0) as [->|].
      * replace (d - 2 * 0) with d by lia. split; [|done].
        rewrite Hnv; [unfold s1; simpl; apply upd_eq|]. intros (k & ? & ?). lia.
      * assert (visited n (d - 2) (d - 2 * k)) as Hv' by (exists (k - 1); lia).
        destruct (Hv _ Hv') as [-> Hm]. rewrite Hext by done. split; [done|].
        contradict Hm. unfold bwd_met in *. by rewrite Hext.
    + intros e He. rewrite Hnv.
      * unfold s1; simpl. apply upd_ne. intros ->. apply He. exists 0. lia.
      * intros (k & ? & ?). apply He. exists (k + 1). lia.
Qed.
End Pass.

(** ** Rounds *)

(** Reflection of the plane: it turns the backward search into a forward one. *)
Definition refl (b : Z -> Z) : Z -> Z := fun d => - b (- d).

Lemma visited_active mid c l h e :
  (l - mid - c) mod 2 = 0 -> (h - mid - c) mod 2 = 0 ->
  visited (pass_count l h) h e <-> active mid c l h e.
Proof.
  intros Hl Hh. unfold visited, active, pass_count. split.
  - intros (k & Hk & ->). lia.
  - intros [He1 He2]. exists ((h - e) / 2). lia.
Qed.

Lemma active_opp mid c l h d :
  active mid c l h d -> active (- mid) c (- h) (- l) (- d).
Proof. unfold active. lia. Qed.

Lemma range_ok_opp dlo dhi mid c l h :
  range_ok dlo dhi mid c l h -> range_ok (- dhi) (- dlo) (- mid) c (- h) (- l).
Proof. unfold range_ok. lia. Qed.

Section Rounds.
Context (ctxt : context) (xoff xlim yoff ylim : Z).
Context (Hx0 : 0 <= xoff) (Hy0 : 0 <= yoff) (Hx : xoff < xlim) (Hy : yoff < ylim).
Context (Hbig : xlim + ylim < OFFSET_MAX).
Context (Hfirst : xref_yref_equal ctxt xoff yoff = false).
Context (Hlast : xref_yref_equal ctxt (xlim - 1) (ylim - 1) = false).

Abbreviation fmid := (fmid xoff yoff).
Abbreviation bmid := (bmid xlim ylim).
Abbreviation dmin := (dmin xoff ylim).
Abbreviation dmax := (dmax xlim yoff).
Abbreviation odd := (odd xoff xlim yoff ylim).

Definition fmatch (x y : Z) : Prop := xref_yref_equal ctxt x y = true.
Definition bmatch (x y : Z) : Prop := xref_yref_equal ctxt (- x - 1) (- y - 1) = true.

(** The two searches after [c] edits each, in the coordinates of the
    geometry. *)
Definition freached (c : Z) (s : search) : Prop :=
  reached xoff xlim yoff ylim c (fmin s) (fmax s) (fd s).
Definition breached (c : Z) (s : search) : Prop :=
  reached (- xlim) (- xoff) (- ylim) (- yoff) c (- bmax s) (- bmin s) (refl (bd s)).
Definition fapart (c : Z) (s : search) : Prop :=
  apart xoff xlim yoff ylim (bmin s) (bmax s) c (fmin s) (fmax s) (fd s).
Definition bapart (c omin omax : Z) (s : search) : Prop :=
  apart (- xlim) (- xoff) (- ylim) (- yoff) (- omax) (- omin) c (- bmax s) (- bmin s) (refl (bd s)).
Definition fcorner (c : Z) (s : search) : Prop :=
  no_corner xoff xlim yoff ylim c (fmin s) (fmax s) (fd s).
Definition bcorner (c : Z) (s : search) : Prop :=
  no_corner (- xlim) (- xoff) (- ylim) (- yoff) c (- bmax s) (- bmin s) (refl (bd s)).
Definition frange (c : Z) (s : search) : Prop := range_ok dmin dmax fmid c (fmin s) (fmax s).
Definition brange (c : Z) (s : search) : Prop := range_ok dmin dmax bmid c (bmin s) (bmax s).

(** Invariant of [for (c = 1;; ++c)], after [c] rounds without a return. *)
Record diag_inv (c : Z) (s : search) : Prop := {
  inv_c : 0 <= c;
  inv_frange : frange c s;
  inv_brange : brange c s;
  inv_freached : freached c s;
  inv_breached : breached c s;
  inv_fapart : fapart c s;
  inv_bapart : odd = false -> bapart c (fmin s - 1) (fmax s + 1) s;
  inv_corners : 1 <= c -> fcorner c s /\ bcorner c s
}.

Lemma odd_spec : if odd then (fmid - bmid) mod 2 = 1 else (fmid - bmid) mod 2 = 0.
Proof.
  unfold DiffSeq.odd. rewrite Zmod_odd.
  destruct (Z.odd (DiffSeq.fmid xoff yoff - DiffSeq.bmid xlim ylim)); done.
Qed.

Lemma active_single mid d : active mid 0 mid mid d -> d = mid.
Proof. unfold active. lia. Qed.

Lemma diag_init_inv fd0 bd0 : diag_inv 0 (diag_init xoff xlim yoff ylim fd0 bd0).
Proof.
  unfold diag_init.
  split; unfold frange, brange, freached, breached, fapart, bapart; simpl; try lia.
  - apply range_ok_init. unfold DiffSeq.dmin, DiffSeq.dmax, DiffSeq.fmid. lia.
  - apply range_ok_init. unfold DiffSeq.dmin, DiffSeq.dmax, DiffSeq.bmid. lia.
  - unfold DiffSeq.fmid.
    split; intros d Hd%active_single; subst d; rewrite upd_eq; lia.
  - unfold refl, DiffSeq.bmid.
    split; intros d Hd; assert (d = - (xlim - ylim)) as -> by (unfold active in Hd; lia);
      rewrite Z.opp_involutive, upd_eq; lia.
  - unfold DiffSeq.fmid. intros d Hd%active_single. subst d. rewrite upd_eq. lia.
  - intros _ d Hd. unfold DiffSeq.bmid in *.
    assert (d = - (xlim - ylim)) as -> by (unfold active in Hd; lia).
    unfold refl. rewrite Z.opp_involutive, upd_eq. lia.
Qed.

(** *** Growing the limits *)

Lemma mids_inside : dmin < fmid < dmax /\ dmin < bmid < dmax.
Proof. unfold DiffSeq.dmin, DiffSeq.dmax, DiffSeq.fmid, DiffSeq.bmid. lia. Qed.

Lemma frange_mid c s : 0 <= c -> frange c s -> fmin s <= fmid <= fmax s.
Proof. intros Hc. apply range_ok_mid; [apply mids_inside|done]. Qed.

Lemma brange_mid c s : 0 <= c -> brange c s -> bmin s <= bmid <= bmax s.
Proof. intros Hc. apply range_ok_mid; [apply mids_inside|done]. Qed.

Lemma grow_fwd_fields s :
  let s1 := grow_fwd xoff xlim yoff ylim s in
  fmin s1 = grow_lo dmin (fmin s) /\ fmax s1 = grow_hi dmax (fmax s) /\
  bmin s1 = bmin s /\ bmax s1 = bmax s /\ bd s1 = bd s.
Proof. unfold grow_fwd, grow_lo, grow_hi. repeat case_if; done. Qed.

Lemma grow_bwd_fields s :
  let s1 := grow_bwd xoff xlim yoff ylim s in
  bmin s1 = grow_lo dmin (bmin s) /\ bmax s1 = grow_hi dmax (bmax s) /\
  fmin s1 = fmin s /\ fmax s1 = fmax s /\ fd s1 = fd s.
Proof. unfold grow_bwd, grow_lo, grow_hi. repeat case_if; done. Qed.

Lemma grow_fwd_next c s :
  0 <= c -> frange c s -> freached c s ->
  let s1 := grow_fwd xoff xlim yoff ylim s in
  furthest_round xoff xlim yoff ylim fmatch c (fmin s) (fmax s)
    (grow_lo dmin (fmin s)) (grow_hi dmax (fmax s)) (fd s) (fwd_x ctxt xlim ylim (fd s1)).
Proof.
  intros Hc Hr Hf s1 d Hd.
  pose proof (frange_mid c s Hc Hr) as Hle.
  assert (active (xoff - yoff) c (fmin s) (fmax s) (d + 1) \/ fmax s < d + 1) as A1.
  { revert Hd. unfold active, grow_lo, grow_hi. unfold frange, range_ok, DiffSeq.fmid in Hr.
    repeat case_if; lia. }
  assert (active (xoff - yoff) c (fmin s) (fmax s) (d - 1) \/ d - 1 < fmin s) as A2.
  { revert Hd. unfold active, grow_lo, grow_hi. unfold frange, range_ok, DiffSeq.fmid in Hr.
    repeat case_if; lia. }
  assert (fd s1 (d + 1) = if fmax s <? d + 1 then -1 else fd s (d + 1)) as E1.
  { revert Hd A1. unfold s1, grow_fwd, active, grow_lo, grow_hi, upd, frange, range_ok, DiffSeq.fmid in *.
    repeat (case_if; simpl); intros; lia. }
  assert (fd s1 (d - 1) = if d - 1 <? fmin s then -1 else fd s (d - 1)) as E2.
  { revert Hd A2. unfold s1, grow_fwd, active, grow_lo, grow_hi, upd, frange, range_ok, DiffSeq.fmid in *.
    repeat (case_if; simpl); intros; lia. }
  destruct (fwd_point_spec ctxt xlim ylim (fd s1) d) as (_ & Hx0le & Hsn & Hstop).
  rewrite E1, E2 in *. unfold fmatch.
  set (g := fwd_x ctxt xlim ylim (fd s1) d) in *.
  destruct (fmax s <? d + 1) eqn:F1; destruct (d - 1 <? fmin s) eqn:F2; zify_bool.
  - exfalso. revert Hd. unfold active, grow_lo, grow_hi.
    unfold frange, range_ok, DiffSeq.fmid in Hr. repeat case_if; lia.
  - destruct A2 as [A2|]; [|lia]. pose proof (reached_x _ _ _ _ _ _ _ _ Hf _ A2).
    assert ((fd s (d - 1) <? -1) = false) as Hb by (apply Z.ltb_ge; lia). rewrite Hb in *.
    eexists. split; [|split; [|split; [exact Hx0le|split; [exact Hsn|split; [exact Hstop|right; lia]]]]]; lia.
  - destruct A1 as [A1|]; [|lia]. pose proof (reached_x _ _ _ _ _ _ _ _ Hf _ A1).
    assert ((-1 <? fd s (d + 1)) = true) as Hb by (apply Z.ltb_lt; lia). rewrite Hb in *.
    eexists. split; [|split; [|split; [exact Hx0le|split; [exact Hsn|split; [exact Hstop|left; lia]]]]]; lia.
  - destruct (fd s (d - 1) <? fd s (d + 1)) eqn:F3; zify_bool;
      eexists; (split; [|split; [|split; [exact Hx0le|split; [exact Hsn|split; [exact Hstop|]]]]]; lia).
Qed.

Lemma mirror_snake g x0 d :
  (forall x, g <= x < x0 -> xoff <= x /\ yoff <= x - d /\ xref_yref_equal ctxt x (x - d) = true) ->
  forall z, - x0 <= z < - g -> z < - xoff /\ z - - d < - yoff /\ bmatch z (z - - d).
Proof.
  intros H z Hz. destruct (H (- z - 1)) as (H1 & H2 & H3); [lia|]. unfold bmatch.
  replace (- (z - - d) - 1) with (- z - 1 - d) by lia. split; [lia|]. split; [lia|done].
Qed.

Lemma mirror_stop g d :
  ~ (xoff < g /\ yoff < g - d /\ xref_yref_equal ctxt (g - 1) (g - d - 1) = true) ->
  ~ (- g < - xoff /\ - g - - d < - yoff /\ bmatch (- g) (- g - - d)).
Proof.
  intros H (H1 & H2 & H3). apply H. unfold bmatch in H3. replace (- - g - 1) with (g - 1) in H3 by lia.
  replace (- (- g - - d) - 1) with (g - d - 1) in H3 by lia. split; [lia|]. split; [lia|done].
Qed.

Lemma grow_bwd_next c s :
  0 <= c -> brange c s -> breached c s ->
  let s1 := grow_bwd xoff xlim yoff ylim s in
  furthest_round (- xlim) (- xoff) (- ylim) (- yoff) bmatch c (- bmax s) (- bmin s)
    (- grow_hi dmax (bmax s)) (- grow_lo dmin (bmin s))
    (refl (bd s)) (refl (bwd_x ctxt xoff yoff (bd s1))).
Proof.
  intros Hc Hr Hf s1 d0 Hd0.
  assert (exists d, d0 = - d) as [d ->] by (exists (- d0); lia).
  assert (active bmid (c + 1) (grow_lo dmin (bmin s)) (grow_hi dmax (bmax s)) d) as Hd.
  { revert Hd0. unfold active, DiffSeq.bmid. lia. }
  clear Hd0.
  pose proof (brange_mid c s Hc Hr) as Hle.
  assert (active bmid c (bmin s) (bmax s) (d + 1) \/ bmax s < d + 1) as A1.
  { revert Hd. unfold active, grow_lo, grow_hi. unfold brange, range_ok, DiffSeq.bmid in *.
    repeat case_if; lia. }
  assert (active bmid c (bmin s) (bmax s) (d - 1) \/ d - 1 < bmin s) as A2.
  { revert Hd. unfold active, grow_lo, grow_hi. unfold brange, range_ok, DiffSeq.bmid in *.
    repeat case_if; lia. }
  assert (bd s1 (d + 1) = if bmax s <? d + 1 then OFFSET_MAX else bd s (d + 1)) as E1.
  { revert Hd A1. unfold s1, grow_bwd, active, grow_lo, grow_hi, upd, brange, range_ok, DiffSeq.bmid in *.
    repeat (case_if; simpl); intros; lia. }
  assert (bd s1 (d - 1) = if d - 1 <? bmin s then OFFSET_MAX else bd s (d - 1)) as E2.
  { revert Hd A2. unfold s1, grow_bwd, active, grow_lo, grow_hi, upd, brange, range_ok, DiffSeq.bmid in *.
    repeat (case_if; simpl); intros; lia. }
  assert (forall e, active bmid c (bmin s) (bmax s) e -> bd s e <= xlim) as Hle'.
  { intros e He%active_opp.  replace (- bmid) with (- xlim - - ylim) in He by (unfold DiffSeq.bmid; lia).
    pose proof (reached_x _ _ _ _ _ _ _ _ Hf _ He) as Hxx.
    unfold refl in Hxx. rewrite Z.opp_involutive in Hxx. lia. }
  destruct (bwd_point_spec ctxt xoff yoff (bd s1) d) as (_ & Hx0le & Hsn & Hstop).
  rewrite E1, E2 in *. unfold refl.
  replace (- (- d + 1)) with (d - 1) by lia. replace (- (- d - 1)) with (d + 1) by lia.
  rewrite Z.opp_involutive.
  set (g := bwd_x ctxt xoff yoff (bd s1) d) in *.
  pose proof (mirror_snake _ _ _ Hsn) as Hsn2. pose proof (mirror_stop _ _ Hstop) as Hstop2. clear Hsn Hstop.
  rename Hsn2 into Hsn, Hstop2 into Hstop.
  destruct (bmax s <? d + 1) eqn:F1; destruct (d - 1 <? bmin s) eqn:F2; zify_bool.
  - exfalso. revert Hd. unfold active, grow_lo, grow_hi.
    unfold brange, range_ok, DiffSeq.bmid in *. repeat case_if; lia.
  - destruct A2 as [A2|]; [|lia]. pose proof (Hle' _ A2).
    assert ((bd s (d - 1) <? OFFSET_MAX) = true) as Hb by (apply Z.ltb_lt; lia). rewrite Hb in *.
    eexists. split; [|split; [|split; [|split; [exact Hsn|split; [exact Hstop|left; lia]]]]]; lia.
  - destruct A1 as [A1|]; [|lia]. pose proof (Hle' _ A1).
    assert ((OFFSET_MAX <? bd s (d + 1)) = false) as Hb by (apply Z.ltb_ge; lia). rewrite Hb in *.
    eexists. split; [|split; [|split; [|split; [exact Hsn|split; [exact Hstop|right; lia]]]]]; lia.
  - destruct (bd s (d - 1) <? bd s (d + 1)) eqn:F3; zify_bool;
      eexists; (split; [|split; [|split; [|split; [exact Hsn|split; [exact Hstop|]]]]]; lia).
Qed.

(** *** The two halves of a round *)

(** The state between the forward and the backward pass of round [c + 1]. *)
Record mid_inv (c : Z) (s : search) : Prop := {
  mid_c : 0 <= c;
  mid_frange : frange (c + 1) s;
  mid_brange : brange c s;
  mid_freached : freached (c + 1) s;
  mid_breached : breached c s;
  mid_bapart : bapart c (fmin s) (fmax s) s;
  mid_fcorner : fcorner (c + 1) s;
  mid_nomeet : odd = true -> forall d,
    active fmid (c + 1) (fmin s) (fmax s) d -> bmin s <= d <= bmax s -> fd s d < bd s d
}.

Lemma bwd_inside c s d : breached c s -> active bmid c (bmin s) (bmax s) d ->
  bd s d <= xlim /\ bd s d - d <= ylim /\ 2 * bd s d - d <= xlim + ylim - c.
Proof.
  intros Hb Hd%active_opp.
  replace (- bmid) with (- xlim - - ylim) in Hd by (unfold DiffSeq.bmid; lia).
  pose proof (reached_x _ _ _ _ _ _ _ _ Hb _ Hd) as H1.
  pose proof (reached_y _ _ _ _ _ _ _ _ Hb _ Hd) as H2.
  pose proof (reached_sum _ _ _ _ _ _ _ _ Hb _ Hd) as H3.
  unfold refl in *. rewrite Z.opp_involutive in *. lia.
Qed.

Lemma fwd_inside c s d : freached c s -> active fmid c (fmin s) (fmax s) d ->
  xoff <= fd s d /\ yoff <= fd s d - d /\ xoff + yoff + c <= 2 * fd s d - d.
Proof.
  intros Hf Hd. split; [by eapply reached_x|]. split; [by eapply reached_y|by eapply reached_sum].
Qed.

(** No meeting on a common diagonal keeps the backward search apart. *)
Lemma bapart_intro c c' s omin omax :
  0 <= c -> 0 <= c' ->
  breached c s -> freached c' s -> frange c' s ->
  omin <= fmin s -> fmax s <= omax -> fmin s - 1 <= omin -> omax <= fmax s + 1 ->
  (fmid - bmid - (c + c')) mod 2 = 0 ->
  (forall d, active fmid c' (fmin s) (fmax s) d -> bmin s <= d <= bmax s -> fd s d < bd s d) ->
  bapart c omin omax s.
Proof.
  intros Hc Hc' Hb Hf Hr Ho1 Ho2 Ho3 Ho4 Hpar Hno.
  pose proof (frange_mid c' s Hc' Hr) as Hm. unfold frange, range_ok in Hr.
  unfold DiffSeq.fmid, DiffSeq.bmid in *.
  eapply (apart_intro _ _ _ _ _ _ _ (- fmax s) (- fmin s) _ _ _ (refl (fd s))); try lia; try done.
  - intros d Hd Hp. assert (active fmid c' (fmin s) (fmax s) (- d)) as Ha
      by (unfold active, DiffSeq.fmid; lia).
    pose proof (fwd_inside c' s _ Hf Ha). unfold refl. lia.
  - intros d Hd Hd'. assert (active fmid c' (fmin s) (fmax s) (- d)) as Ha
      by (unfold active, DiffSeq.fmid in *; lia).
    assert (bmin s <= - d <= bmax s) as Hb' by (unfold active in Hd; lia).
    specialize (Hno _ Ha Hb'). unfold refl. lia.
Qed.

(** The new points of the forward search, before it is known whether they meet
    the backward ones. *)
Lemma fwd_step c s : diag_inv c s ->
  let s1 := grow_fwd xoff xlim yoff ylim s in
  let g := fwd_x ctxt xlim ylim (fd s1) in
  frange (c + 1) s1 /\ reached xoff xlim yoff ylim (c + 1) (fmin s1) (fmax s1) g /\
  forall d, active fmid (c + 1) (fmin s1) (fmax s1) d ->
    (xlim < g d -> bmax s + 1 < d) /\ (ylim < g d - d -> d < bmin s - 1) /\ ~ (g d = xlim /\ g d - d = ylim).
Proof.
  intros Hinv s1 g. pose proof (inv_c _ _ Hinv) as Hc.
  destruct (grow_fwd_fields s) as (F1 & F2 & _). fold s1 in F1, F2.
  pose proof (furthest_next _ _ _ _ _ _ _ _ _ _ _ _ (grow_fwd_next c s Hc (inv_frange _ _ Hinv) (inv_freached _ _ Hinv))) as Hn.
  fold s1 g in Hn. rewrite <- F1, <- F2 in Hn. split.
  - unfold frange. rewrite F1, F2. apply range_ok_grow; [apply mids_inside|done|apply Hinv].
  - apply (round_step xoff xlim yoff ylim fmatch Hx Hy c _ _ _ _ _ g _ _ F1 F2
      (inv_frange _ _ Hinv) (inv_freached _ _ Hinv) (inv_fapart _ _ Hinv) Hn). unfold fmatch. congruence.
Qed.

(** The outcome of the forward pass. *)
Lemma fwd_pass_round c s : frange c (grow_fwd xoff xlim yoff ylim s) ->
  let s1 := grow_fwd xoff xlim yoff ylim s in
  let g := fwd_x ctxt xlim ylim (fd s1) in
  match fwd_pass ctxt xoff xlim yoff ylim (pass_count (fmin s1) (fmax s1)) (fmax s1) s1 false with
  | inl (p, _) => exists d, active fmid c (fmin s1) (fmax s1) d /\ odd = true /\ bmin s <= d <= bmax s /\
      bd s d <= g d /\ xmid p = g d /\ ymid p = g d - d
  | inr (s2, _) => fmin s2 = fmin s1 /\ fmax s2 = fmax s1 /\ bmin s2 = bmin s /\ bmax s2 = bmax s /\ bd s2 = bd s /\
      forall d, active fmid c (fmin s1) (fmax s1) d ->
        fd s2 d = g d /\ (odd = true -> bmin s <= d <= bmax s -> g d < bd s d)
  end.
Proof.
  intros Hr s1 g. destruct (grow_fwd_fields s) as (_ & _ & F3 & F4 & F5). fold s1 in F3, F4, F5.
  pose proof (fwd_pass_spec ctxt xoff xlim yoff ylim (pass_count (fmin s1) (fmax s1)) (fmax s1) s1 false) as Hp.
  assert (forall e, visited (pass_count (fmin s1) (fmax s1)) (fmax s1) e <-> active fmid c (fmin s1) (fmax s1) e) as Hva.
  { intros e. apply visited_active; unfold frange, range_ok in Hr; fold s1 in Hr; lia. }
  unfold fwd_met in Hp. rewrite F3, F4, F5 in Hp. fold g in Hp.
  destruct (fwd_pass _ _ _ _ _ _ _ _ _) as [[p s']|[s2 b]].
  - destruct Hp as (e & Hv%Hva & (Hodd & Hrng & Hmeet) & -> & ->). by exists e.
  - destruct Hp as (G1 & G2 & G3 & G4 & G5 & Hv & _). do 5 (split; [done|]).
    intros d Hd. destruct (Hv d) as [E Hm]; [by apply Hva|]. split; [done|]. intros Ho Hb. apply Z.nle_gt. tauto.
Qed.

Lemma fwd_round c s :
  diag_inv c s ->
  let s1 := grow_fwd xoff xlim yoff ylim s in
  match fwd_pass ctxt xoff xlim yoff ylim (pass_count (fmin s1) (fmax s1)) (fmax s1) s1 false with
  | inl (p, _) => proper xoff xlim yoff ylim (xmid p) (ymid p)
  | inr (s2, _) => mid_inv c s2
  end.
Proof.
  intros Hinv s1. pose proof (inv_c _ _ Hinv) as Hc.
  destruct (fwd_step c s Hinv) as (Hr1 & Hg & Hout). pose proof (fwd_pass_round (c + 1) s Hr1) as Hp.
  destruct (grow_fwd_fields s) as (F1 & F2 & _). fold s1 in Hr1, Hg, Hout, Hp, F1, F2. cbv zeta in Hp.
  set (g := fwd_x ctxt xlim ylim (fd s1)) in *.
  destruct (fwd_pass _ _ _ _ _ _ _ _ _) as [[p s']|[s2 b]].
  - destruct Hp as (e & Hv & Hodd & Hrng & Hmeet & -> & ->). destruct (Hout e Hv) as (O1 & O2 & O3).
    pose proof (reached_x _ _ _ _ _ _ _ _ Hg e Hv). pose proof (reached_y _ _ _ _ _ _ _ _ Hg e Hv).
    pose proof (reached_sum _ _ _ _ _ _ _ _ Hg e Hv). unfold proper. lia.
  - destruct Hp as (G1 & G2 & G3 & G4 & G5 & Hv).
    assert (forall e, active fmid (c + 1) (fmin s2) (fmax s2) e -> fd s2 e = g e) as Hge.
    { intros e He. apply Hv. by rewrite <- G1, <- G2. }
    assert (freached (c + 1) s2) as Hf2.
    { unfold freached. rewrite G1, G2. eapply reached_ext; [|exact Hg].
      intros e He. symmetry. apply Hge. by rewrite G1, G2. }
    assert (frange (c + 1) s2) as Hr2 by (unfold frange; rewrite G1, G2; exact Hr1).
    assert (breached c s2) as Hb2.
    { unfold breached. rewrite G3, G4, G5. apply Hinv. }
    assert (odd = true -> forall d, active fmid (c + 1) (fmin s2) (fmax s2) d ->
      bmin s2 <= d <= bmax s2 -> fd s2 d < bd s2 d) as Hno.
    { intros Hodd d Hd Hd'. rewrite G1, G2 in Hd. destruct (Hv d Hd) as [E Hm]. rewrite G5, E. apply Hm; [done|].
      by rewrite <- G3, <- G4. }
    split; try done.
    + unfold brange. rewrite G3, G4. apply Hinv.
    + pose proof odd_spec as Hos. destruct odd eqn:Eo; simpl in Hos.
      * apply (bapart_intro c (c + 1)); try done; try lia. by apply Hno.
      * pose proof (inv_bapart _ _ Hinv Eo) as Ha. intros d Hd. unfold bapart, apart in Ha.
        rewrite G3, G4, G5 in *. destruct (Ha d Hd) as [Ha1 Ha2].
        unfold grow_lo, grow_hi in F1, F2.
        split; intros Hq; [specialize (Ha1 Hq)|specialize (Ha2 Hq)];
          rewrite ?G1, ?G2, ?F1, ?F2; repeat case_if; lia.
    + intros d Hd. rewrite Hge by done. apply Hout. by rewrite <- G1, <- G2.
Qed.

Lemma grow_opp lo hi b :
  - grow_hi hi b = grow_lo (- hi) (- b) /\ - grow_lo lo b = grow_hi (- lo) (- b).
Proof. unfold grow_hi, grow_lo. repeat case_if; lia. Qed.

Lemma brange_mirror c s : brange c s ->
  range_ok (- xlim - - yoff) (- xoff - - ylim) (- xlim - - ylim) c (- bmax s) (- bmin s).
Proof.
  intros Hro%range_ok_opp. unfold range_ok, DiffSeq.dmax, DiffSeq.dmin, DiffSeq.bmid in *. lia.
Qed.

Lemma active_mirror c l h d : active bmid c l h d <-> active (- xlim - - ylim) c (- h) (- l) (- d).
Proof. unfold active, DiffSeq.bmid. lia. Qed.

(** The new points of the backward search. *)
Lemma bwd_step c s : mid_inv c s ->
  let s1 := grow_bwd xoff xlim yoff ylim s in
  let g := bwd_x ctxt xoff yoff (bd s1) in
  brange (c + 1) s1 /\ reached (- xlim) (- xoff) (- ylim) (- yoff) (c + 1) (- bmax s1) (- bmin s1) (refl g) /\
  forall d, active bmid (c + 1) (bmin s1) (bmax s1) d ->
    (g d < xoff -> d < fmin s - 1) /\ (g d - d < yoff -> fmax s + 1 < d) /\ ~ (g d = xoff /\ g d - d = yoff) /\
    g d <= xlim /\ g d - d <= ylim /\ 2 * g d - d <= xlim + ylim - (c + 1).
Proof.
  intros Hinv s1 g. pose proof (mid_c _ _ Hinv) as Hc.
  destruct (grow_bwd_fields s) as (F1 & F2 & _). fold s1 in F1, F2.
  pose proof (furthest_next _ _ _ _ _ _ _ _ _ _ _ _ (grow_bwd_next c s Hc (mid_brange _ _ Hinv) (mid_breached _ _ Hinv))) as Hn.
  fold s1 g in Hn. rewrite <- F1, <- F2 in Hn.
  assert (- bmax s1 = grow_lo (- xlim - - yoff) (- bmax s)) as F2'.
  { rewrite F2, (proj1 (grow_opp 0 _ _)). f_equal. unfold DiffSeq.dmax. lia. }
  assert (- bmin s1 = grow_hi (- xoff - - ylim) (- bmin s)) as F1'.
  { rewrite F1, (proj2 (grow_opp _ 0 _)). f_equal. unfold DiffSeq.dmin. lia. }
  destruct (round_step (- xlim) (- xoff) (- ylim) (- yoff) bmatch ltac:(lia) ltac:(lia) c _ _ _ _ _ (refl g) _ _ F2' F1'
    (brange_mirror _ _ (mid_brange _ _ Hinv)) (mid_breached _ _ Hinv) (mid_bapart _ _ Hinv) Hn) as [Hg Hout].
  { unfold bmatch. replace (- (- xoff - 1) - 1) with xoff by lia.
    replace (- (- yoff - 1) - 1) with yoff by lia. congruence. }
  split; [unfold brange; rewrite F1, F2; apply range_ok_grow; [apply mids_inside|done|apply Hinv]|]. split; [done|].
  intros d Hd%active_mirror. destruct (Hout _ Hd) as (O1 & O2 & O3).
  pose proof (reached_x _ _ _ _ _ _ _ _ Hg _ Hd). pose proof (reached_y _ _ _ _ _ _ _ _ Hg _ Hd).
  pose proof (reached_sum _ _ _ _ _ _ _ _ Hg _ Hd). unfold refl in *. rewrite Z.opp_involutive in *. lia.
Qed.

(** The outcome of the backward pass. *)
Lemma bwd_pass_round c s big : brange c (grow_bwd xoff xlim yoff ylim s) ->
  let s1 := grow_bwd xoff xlim yoff ylim s in
  let g := bwd_x ctxt xoff yoff (bd s1) in
  match bwd_pass ctxt xoff xlim yoff ylim (pass_count (bmin s1) (bmax s1)) (bmax s1) s1 big with
  | inl (p, _) => exists d, active bmid c (bmin s1) (bmax s1) d /\ odd = false /\ fmin s <= d <= fmax s /\
      g d <= fd s d /\ xmid p = g d /\ ymid p = g d - d
  | inr (s2, _) => fmin s2 = fmin s /\ fmax s2 = fmax s /\ bmin s2 = bmin s1 /\ bmax s2 = bmax s1 /\ fd s2 = fd s /\
      forall d, active bmid c (bmin s1) (bmax s1) d ->
        bd s2 d = g d /\ (odd = false -> fmin s <= d <= fmax s -> fd s d < g d)
  end.
Proof.
  intros Hr s1 g. destruct (grow_bwd_fields s) as (_ & _ & F3 & F4 & F5). fold s1 in F3, F4, F5.
  pose proof (bwd_pass_spec ctxt xoff xlim yoff ylim (pass_count (bmin s1) (bmax s1)) (bmax s1) s1 big) as Hp.
  assert (forall e, visited (pass_count (bmin s1) (bmax s1)) (bmax s1) e <-> active bmid c (bmin s1) (bmax s1) e) as Hva.
  { intros e. apply visited_active; unfold brange, range_ok in Hr; fold s1 in Hr; lia. }
  unfold bwd_met in Hp. rewrite F3, F4, F5 in Hp. fold g in Hp.
  destruct (bwd_pass _ _ _ _ _ _ _ _ _) as [[p s']|[s2 b]].
  - destruct Hp as (e & Hv%Hva & (Hodd & Hrng & Hmeet) & -> & ->). by exists e.
  - destruct Hp as (G1 & G2 & G3 & G4 & G5 & Hv & _). do 5 (split; [done|]).
    intros d Hd. destruct (Hv d) as [E Hm]; [by apply Hva|]. split; [done|]. intros Ho Hb. apply Z.nle_gt. tauto.
Qed.

Lemma bwd_round c s big :
  mid_inv c s ->
  let s1 := grow_bwd xoff xlim yoff ylim s in
  match bwd_pass ctxt xoff xlim yoff ylim (pass_count (bmin s1) (bmax s1)) (bmax s1) s1 big with
  | inl (p, _) => proper xoff xlim yoff ylim (xmid p) (ymid p)
  | inr (s2, _) => diag_inv (c + 1) s2 /\
      (odd = false -> forall d, active fmid (c + 1) (fmin s2) (fmax s2) d ->
         bmin s2 <= d <= bmax s2 -> fd s2 d < bd s2 d)
  end.
Proof.
  intros Hinv s1. pose proof (mid_c _ _ Hinv) as Hc.
  destruct (grow_bwd_fields s) as (F1 & F2 & _). fold s1 in F1, F2.
  destruct (bwd_step c s Hinv) as (Hr1 & Hg & Hout). pose proof (bwd_pass_round (c + 1) s big Hr1) as Hp.
  fold s1 in Hr1, Hg, Hout, Hp. cbv zeta in Hp. set (g := bwd_x ctxt xoff yoff (bd s1)) in *.
  destruct (bwd_pass _ _ _ _ _ _ _ _ _) as [[p s']|[s2 b]].
  - destruct Hp as (e & Hv & Hodd & Hrng & Hmeet & -> & ->). destruct (Hout e Hv) as (O1 & O2 & O3 & O4 & O5 & O6).
    unfold proper. lia.
  - destruct Hp as (G1 & G2 & G3 & G4 & G5 & Hv).
    assert (forall e, active bmid (c + 1) (bmin s2) (bmax s2) e -> bd s2 e = g e) as Hge.
    { intros e He. apply Hv. by rewrite <- G3, <- G4. }
    assert (forall d, active (- xlim - - ylim) (c + 1) (- bmax s2) (- bmin s2) d ->
      refl (bd s2) d = refl g d) as Hge'.
    { intros d Hd. unfold refl. f_equal. apply Hge. unfold active, DiffSeq.bmid in *. lia. }
    assert (breached (c + 1) s2) as Hb2.
    { unfold breached. rewrite G3, G4. eapply reached_ext; [|exact Hg].
      intros e He. symmetry. apply Hge'. by rewrite G3, G4. }
    assert (brange (c + 1) s2) as Hr2 by (unfold brange; rewrite G3, G4; exact Hr1).
    assert (frange (c + 1) s2) as Hfr2.
    { unfold frange. rewrite G1, G2. apply Hinv. }
    assert (freached (c + 1) s2) as Hf2.
    { unfold freached. rewrite G1, G2, G5. apply Hinv. }
    assert (odd = false -> forall d, active fmid (c + 1) (fmin s2) (fmax s2) d ->
      bmin s2 <= d <= bmax s2 -> fd s2 d < bd s2 d) as Hno.
    { intros Hodd d Hd Hd'. pose proof odd_spec as Hos. rewrite Hodd in Hos.
      assert (active bmid (c + 1) (bmin s1) (bmax s1) d) as Hda.
      { rewrite <- G3, <- G4. unfold active in *. lia. }
      destruct (Hv d Hda) as [E Hm]. rewrite G5, E. unfold active in Hd. rewrite G1, G2 in Hd. apply Hm; [done|lia]. }
    split; [|exact Hno].
    split; try done; try lia.
    + (* the forward search stays apart *)
      pose proof odd_spec as Hos. unfold fapart. rewrite G3, G4.
      destruct odd eqn:Eo; simpl in Hos.
      * pose proof (mid_nomeet _ _ Hinv Eo) as Hnm.
        pose proof (brange_mid c s Hc (mid_brange _ _ Hinv)) as Hbm.
        pose proof (mid_brange _ _ Hinv) as Hbr. unfold brange, range_ok in Hbr.
        apply (apart_intro _ _ _ _ _ _ _ (bmin s) (bmax s) _ _ _ (bd s)); try done;
          unfold DiffSeq.fmid, DiffSeq.bmid in *; try lia.
        -- rewrite F2. unfold grow_hi. case_if; lia.
        -- rewrite F1. unfold grow_lo. case_if; lia.
        -- intros d Hd Hp. destruct (bwd_inside c s d) as (?&?&?); [apply Hinv| |done].
           unfold active, DiffSeq.bmid. lia.
        -- intros d Hd Hd'. rewrite G5. apply Hnm; [|done]. by rewrite G1, G2 in Hd.
      * pose proof (brange_mid (c + 1) s2 ltac:(lia) Hr2) as Hbm. rewrite G3, G4 in Hbm.
        pose proof Hr2 as Hbr. unfold brange, range_ok in Hbr. rewrite G3, G4 in Hbr.
        apply (apart_intro _ _ _ _ _ _ _ (bmin s1) (bmax s1) _ _ _ (bd s2)); try done;
          unfold DiffSeq.fmid, DiffSeq.bmid in *; try lia.
        -- intros d Hd Hp. destruct (bwd_inside (c + 1) s2 d) as (?&?&?); [done| |done].
           unfold active, DiffSeq.bmid. rewrite G3, G4. lia.
        -- intros d Hd Hd'. apply Hno; [done|done|]. by rewrite G3, G4.
    + (* the backward search stays apart *)
      intros Eo. pose proof odd_spec as Hos. rewrite Eo in Hos.
      apply (bapart_intro (c + 1) (c + 1)); try done; try lia. by apply Hno.
    + intros _. split.
      * unfold fcorner. rewrite G1, G2, G5. apply Hinv.
      * intros d Hd. rewrite Hge' by done. rewrite G3, G4, <- (Z.opp_involutive d) in Hd.
        apply active_mirror in Hd. destruct (Hout _ Hd) as (_ & _ & O3 & _). unfold refl. lia.
Qed.

(** *** The searches meet *)

(** On a common diagonal the coordinate sums bound the number of rounds. *)
Lemma nomeet_bound c c' s :
  0 <= c -> 0 <= c' <= c + 1 -> c <= c' ->
  frange c' s -> brange c s -> freached c' s -> breached c s ->
  (fmid - bmid - (c + c')) mod 2 = 0 ->
  (forall d, active fmid c' (fmin s) (fmax s) d -> bmin s <= d <= bmax s -> fd s d < bd s d) ->
  c + c' < (xlim - xoff) + (ylim - yoff).
Proof.
  intros Hc Hc' Hcc Hfr Hbr Hf Hb Hpar Hno.
  destruct (Z.lt_ge_cases (c + c') (xlim - xoff + (ylim - yoff))) as [|Hge]; [done|].
  pose proof (frange_mid c' s ltac:(lia) Hfr). pose proof (brange_mid c s Hc Hbr).
  set (d := Z.min (fmax s) (bmax s)).
  assert (active fmid c' (fmin s) (fmax s) d /\ active bmid c (bmin s) (bmax s) d) as [Hd1 Hd2].
  { unfold frange, brange, range_ok, active, d in *.
    unfold DiffSeq.fmid, DiffSeq.bmid, DiffSeq.dmin, DiffSeq.dmax in *. lia. }
  specialize (Hno d Hd1 (proj1 Hd2)).
  pose proof (fwd_inside c' s d Hf Hd1). pose proof (bwd_inside c s d Hb Hd2). lia.
Qed.

Lemma mid_bound c s : mid_inv c s -> odd = true ->
  2 * c + 1 < (xlim - xoff) + (ylim - yoff).
Proof.
  intros H Ho. pose proof (mid_c _ _ H). pose proof odd_spec as Hos. rewrite Ho in Hos.
  enough (c + (c + 1) < xlim - xoff + (ylim - yoff)) by lia.
  apply (nomeet_bound c (c + 1) s); try apply H; try done; lia.
Qed.

Lemma inv_bound c s : diag_inv c s -> odd = false ->
  (forall d, active fmid c (fmin s) (fmax s) d -> bmin s <= d <= bmax s -> fd s d < bd s d) ->
  2 * c < (xlim - xoff) + (ylim - yoff).
Proof.
  intros H Ho Hno. pose proof (inv_c _ _ H). pose proof odd_spec as Hos. rewrite Ho in Hos.
  enough (c + c < xlim - xoff + (ylim - yoff)) by lia.
  apply (nomeet_bound c c s); try apply H; try done; lia.
Qed.

(** *** Heuristics *)

Lemma best_fwd_proper n c d s best x y :
  (0 < best -> proper xoff xlim yoff ylim x y) ->
  let '(best', x', y') := best_fwd ctxt xoff xlim yoff ylim n c d s (best, x, y) in
  0 < best' -> proper xoff xlim yoff ylim x' y'.
Proof.
  revert d best x y. induction n as [|n IH]; intros d best x y Hacc; simpl; [done|].
  case_if; apply IH; [|done]. intros _. unfold SNAKE_LIMIT in *. zify_bool. unfold proper. lia.
Qed.

Lemma best_bwd_proper n c d s best x y :
  (0 < best -> proper xoff xlim yoff ylim x y) ->
  let '(best', x', y') := best_bwd ctxt xoff xlim yoff ylim n c d s (best, x, y) in
  0 < best' -> proper xoff xlim yoff ylim x' y'.
Proof.
  revert d best x y. induction n as [|n IH]; intros d best x y Hacc; simpl; [done|].
  case_if; apply IH; [|done]. intros _. unfold SNAKE_LIMIT in *. zify_bool. unfold proper. lia.
Qed.

Lemma big_snake_proper c s p :
  big_snake_heuristic ctxt xoff xlim yoff ylim c s = Some p ->
  proper xoff xlim yoff ylim (xmid p) (ymid p).
Proof.
  unfold big_snake_heuristic.
  pose proof (best_fwd_proper (pass_count (fmin s) (fmax s)) c (fmax s) s 0 0 0 ltac:(lia)) as Hf.
  destruct (best_fwd _ _ _ _ _ _ _ _ _ _) as [[bf xf] yf].
  destruct (0 <? bf) eqn:E; zify_bool.
  { intros [= <-]. by apply Hf. }
  pose proof (best_bwd_proper (pass_count (bmin s) (bmax s)) c (bmax s) s 0 0 0 ltac:(lia)) as Hb.
  destruct (best_bwd _ _ _ _ _ _ _ _ _ _) as [[bb xb] yb].
  destruct (0 <? bb) eqn:E'; zify_bool; [|done].
  intros [= <-]. by apply Hb.
Qed.

(** A candidate of [max_fwd] or [min_bwd]: a proper point with its sum. *)
Definition candidate (xy x : Z) : Prop := proper xoff xlim yoff ylim x (xy - x).

Lemma fwd_candidate c s d :
  1 <= c -> frange c s -> freached c s -> fcorner c s ->
  active fmid c (fmin s) (fmax s) d ->
  let x := clip xlim ylim d (fd s d) in candidate (x + (x - d)) x.
Proof.
  intros Hc Hr Hf Hn Hd x. unfold candidate. replace (x + (x - d) - x) with (x - d) by lia.
  eapply clip_proper; eauto.
Qed.

Lemma bwd_candidate c s d :
  1 <= c -> brange c s -> breached c s -> bcorner c s ->
  active bmid c (bmin s) (bmax s) d ->
  let x := - clip (- xoff) (- yoff) (- d) (- bd s d) in candidate (x + (x - d)) x.
Proof.
  intros Hc Hr Hb Hn Hd%active_opp x. unfold candidate.
  replace (- bmid) with (- xlim - - ylim) in Hd by (unfold DiffSeq.bmid; lia).
  assert (range_ok (- xlim - - yoff) (- xoff - - ylim) (- xlim - - ylim) c (- bmax s) (- bmin s)) as Hro.
  { pose proof (range_ok_opp _ _ _ _ _ _ Hr) as Hro.
    unfold range_ok, DiffSeq.dmax, DiffSeq.dmin, DiffSeq.bmid in *. lia. }
  pose proof (clip_proper (- xlim) (- xoff) (- ylim) (- yoff) ltac:(lia) ltac:(lia)
    c _ _ _ _ Hc Hro Hb Hn Hd) as Hp.
  unfold refl in Hp. rewrite Z.opp_involutive in Hp. unfold proper in *. lia.
Qed.

Lemma max_fwd_candidate n d s xy x :
  (forall e, visited n d e -> let x := clip xlim ylim e (fd s e) in candidate (x + (x - e)) x) ->
  (0 < n)%nat \/ candidate xy x -> candidate xy x \/ xy = -1 ->
  let '(xy', x') := max_fwd xlim ylim n d s (xy, x) in candidate xy' x'.
Proof.
  revert d xy x. induction n as [|n IH]; intros d xy x Hv Hn Hacc; simpl.
  { destruct Hn; [lia|done]. }
  specialize (Hv d ltac:(exists 0; lia)) as Hd. cbv zeta in Hd.
  assert (forall e, visited n (d - 2) e ->
    let x := clip xlim ylim e (fd s e) in candidate (x + (x - e)) x) as Hv'.
  { intros e (k & Hk & ->). apply Hv. exists (k + 1). lia. }
  set (x1 := clip xlim ylim d (fd s d)) in *.
  assert ((if ylim <? Z.min (fd s d) xlim - d then (ylim + d, ylim)
           else (Z.min (fd s d) xlim, Z.min (fd s d) xlim - d)) = (x1, x1 - d)) as ->.
  { unfold x1, clip. case_if; f_equal; lia. }
  case_if.
  - apply IH; auto.
  - apply IH; [done| |done]. right. destruct Hacc as [|Hm]; [done|].
    unfold candidate, proper in Hd. lia.
Qed.

Lemma min_bwd_candidate n d s xy x :
  (forall e, visited n d e ->
     let x := - clip (- xoff) (- yoff) (- e) (- bd s e) in candidate (x + (x - e)) x) ->
  (0 < n)%nat \/ candidate xy x -> candidate xy x \/ xy = OFFSET_MAX ->
  let '(xy', x') := min_bwd xoff yoff n d s (xy, x) in candidate xy' x'.
Proof.
  revert d xy x. induction n as [|n IH]; intros d xy x Hv Hn Hacc; simpl.
  { destruct Hn; [lia|done]. }
  specialize (Hv d ltac:(exists 0; lia)) as Hd. cbv zeta in Hd.
  assert (forall e, visited n (d - 2) e ->
    let x := - clip (- xoff) (- yoff) (- e) (- bd s e) in candidate (x + (x - e)) x) as Hv'.
  { intros e (k & Hk & ->). apply Hv. exists (k + 1). lia. }
  set (x1 := - clip (- xoff) (- yoff) (- d) (- bd s d)) in *.
  assert ((if Z.max xoff (bd s d) - d <? yoff then (yoff + d, yoff)
           else (Z.max xoff (bd s d), Z.max xoff (bd s d) - d)) = (x1, x1 - d)) as ->.
  { unfold x1, clip. repeat case_if; f_equal; lia. }
  case_if.
  - apply IH; auto.
  - apply IH; [done| |done]. right. destruct Hacc as [|Hm]; [done|].
    unfold candidate, proper in Hd. lia.
Qed.

Lemma too_expensive_proper c s : 1 <= c -> diag_inv c s ->
  let p := too_expensive_partition xoff xlim yoff ylim s in
  proper xoff xlim yoff ylim (xmid p) (ymid p).
Proof.
  intros Hc Hinv. unfold too_expensive_partition.
  destruct (inv_corners _ _ Hinv Hc) as [Hfc Hbc].
  pose proof (frange_mid c s ltac:(lia) (inv_frange _ _ Hinv)) as Hfm.
  pose proof (brange_mid c s ltac:(lia) (inv_brange _ _ Hinv)) as Hbm.
  pose proof (inv_frange _ _ Hinv) as Hfr. pose proof (inv_brange _ _ Hinv) as Hbr.
  pose proof (max_fwd_candidate (pass_count (fmin s) (fmax s)) (fmax s) s (-1) 0) as Hf.
  pose proof (min_bwd_candidate (pass_count (bmin s) (bmax s)) (bmax s) s OFFSET_MAX 0) as Hb.
  destruct (max_fwd _ _ _ _ _ _) as [fxy fx].
  destruct (min_bwd _ _ _ _ _ _) as [bxy bx].
  assert (candidate fxy fx) as Hf'.
  { apply Hf; [|left; unfold pass_count; lia|by right].
    intros e He. eapply fwd_candidate; eauto; [apply Hinv|].
    refine (proj1 (visited_active _ _ _ _ _ _ _) He); unfold frange, range_ok in Hfr; lia. }
  assert (candidate bxy bx) as Hb'.
  { apply Hb; [|left; unfold pass_count; lia|by right].
    intros e He. eapply bwd_candidate; eauto; [apply Hinv|].
    refine (proj1 (visited_active _ _ _ _ _ _ _) He); unfold brange, range_ok in Hbr; lia. }
  case_if; simpl; done.
Qed.

(** *** A whole round, and the loop *)

Lemma diag_round_spec find_minimal c s : diag_inv c s ->
  match diag_round ctxt xoff xlim yoff ylim find_minimal (c + 1) s with
  | inl (p, _) => proper xoff xlim yoff ylim (xmid p) (ymid p)
  | inr s' => diag_inv (c + 1) s' /\ 2 * c + 1 < (xlim - xoff) + (ylim - yoff)
  end.
Proof.
  intros Hinv. unfold diag_round. pose proof (inv_c _ _ Hinv) as Hc.
  pose proof (fwd_round c s Hinv) as Hf. cbv zeta in Hf.
  destruct (fwd_pass _ _ _ _ _ _ _ _ _) as [[p s']|[s2 b1]]; [done|].
  pose proof (bwd_round c s2 b1 Hf) as Hb. cbv zeta in Hb.
  destruct (bwd_pass _ _ _ _ _ _ _ _ _) as [[p s']|[s4 b2]]; [done|].
  destruct Hb as [Hinv4 Hno].
  assert (2 * c + 1 < xlim - xoff + (ylim - yoff)) as Hbound.
  { destruct odd eqn:Eo; [by apply (mid_bound c s2)|].
    pose proof (inv_bound (c + 1) s4 Hinv4 Eo (Hno eq_refl)). lia. }
  destruct find_minimal; [done|].
  destruct ((200 <? c + 1) && b2 && heuristic ctxt).
  - destruct (big_snake_heuristic _ _ _ _ _ _ _) as [p|] eqn:Eh.
    { by eapply big_snake_proper. }
    case_if; [|done]. by apply (too_expensive_proper (c + 1)); [lia|].
  - case_if; [|done]. by apply (too_expensive_proper (c + 1)); [lia|].
Qed.

Lemma diag_loop_spec find_minimal n c s : diag_inv c s ->
  (xlim - xoff) + (ylim - yoff) <= Z.of_nat n + c ->
  2 * c <= (xlim - xoff) + (ylim - yoff) ->
  exists p s', diag_loop ctxt xoff xlim yoff ylim find_minimal n (c + 1) s = Some (p, s') /\
    proper xoff xlim yoff ylim (xmid p) (ymid p).
Proof.
  revert c s. induction n as [|n IH]; intros c s Hinv Hn H2c; [lia|]. simpl.
  pose proof (diag_round_spec find_minimal c s Hinv) as Hr.
  destruct (diag_round _ _ _ _ _ _ _ _) as [[p s']|s'].
  - by exists p, s'.
  - destruct Hr as [Hinv' Hb]. apply IH; [done|lia|lia].
Qed.

Lemma diag_spec find_minimal fd0 bd0 :
  exists p s, diag ctxt xoff xlim yoff ylim find_minimal fd0 bd0 = Some (p, s) /\
    proper xoff xlim yoff ylim (xmid p) (ymid p).
Proof.
  unfold diag. apply (diag_loop_spec _ _ 0); [apply diag_init_inv|lia|lia].
Qed.
End Rounds.
