(* ===== verification/DiagMinimal.v ===== *)
(** * The midpoint of [diag] lies on a shortest path

    After [c] rounds without a meeting, the forward search of [diag] has found,
    on every diagonal, the furthest point of the portion that [c] edits reach
    from its first corner, and the backward search the same from its last
    corner.  Hence there is no path with fewer edits than the number of passes
    made, and the point where the searches meet is on a path with as few edits
    as possible.  This is the case of a minimal search, without the heuristics
    that give up early. *)

From S2P Require Import Prelude EditPaths DiffSeq DiagGeometry DiagProofs.

(** ** Furthest points, in the coordinates of the geometry *)

Section Furthest.
Context (xoff xlim yoff ylim : Z) (matched : Z -> Z -> Prop).
Context (Hx : xoff < xlim) (Hy : yoff < ylim).
Abbreviation mid := (xoff - yoff).
Abbreviation reach := (path matched xoff yoff).

(** No point of the portion that is reached with [c] edits lies beyond [f]. *)
Definition furthest (c l h : Z) (f : Z -> Z) : Prop := forall d x e, active mid c l h d ->
  reach x (x - d) e -> e <= c -> x <= xlim -> x - d <= ylim -> x <= f d.

(** The points of [f] inside the portion are reached with [c] edits. *)
Definition reachable (c l h : Z) (f : Z -> Z) : Prop := forall d, active mid c l h d ->
  f d <= xlim -> f d - d <= ylim -> exists e, e <= c /\ reach (f d) (f d - d) e.

(** More than [n] edits lead from corner to corner. *)
Definition far (n : Z) : Prop := forall e, reach xlim ylim e -> n < e.

Lemma reachable_ext c l h f g : (forall d, active mid c l h d -> f d = g d) -> reachable c l h f -> reachable c l h g.
Proof. intros Heq H d Hd. rewrite <- (Heq d Hd). by apply H. Qed.

Lemma furthest_ext c l h f g : (forall d, active mid c l h d -> f d = g d) -> furthest c l h f -> furthest c l h g.
Proof. intros Heq H d x e Hd. rewrite <- (Heq d Hd). by apply H. Qed.

Section Round.
Context (c l h : Z) (f g : Z -> Z).
Abbreviation l' := (grow_lo (xoff - ylim) l).
Abbreviation h' := (grow_hi (xlim - yoff) h).
Context (Hc : 0 <= c) (Hr : range_ok (xoff - ylim) (xlim - yoff) mid c l h).
Context (Hn : furthest_round xoff xlim yoff ylim matched c l h l' h' f g).

(** A diagonal of the portion that is within [c] of the first one is active. *)
Lemma active_near d x : Z.abs (d - mid) <= c -> (d - mid - c) mod 2 = 0 ->
  xoff <= x <= xlim -> yoff <= x - d <= ylim -> active mid c l h d.
Proof. unfold active. unfold range_ok in Hr. lia. Qed.

Lemma reachable_step : reachable c l h f -> reachable (c + 1) l' h' g.
Proof.
  intros Hf d Hd Gx Gy. pose proof (neighbours_active xoff xlim yoff ylim c l h d Hd) as [A1 A2].
  destruct (Hn d Hd) as (x0 & _ & _ & Hle & Hs & _ & Horg).
  enough (exists e, e <= c + 1 /\ reach x0 (x0 - d) e) as (e & He & Hp).
  { exists e. split; [done|]. rewrite <- (Z.add_0_r e). eapply path_app; [exact Hp|].
    replace (g d) with (x0 + (g d - x0)) by lia. replace (x0 + (g d - x0) - d) with (x0 - d + (g d - x0)) by lia.
    apply path_snake; [lia|]. intros i Hi. destruct (Hs (x0 + i)) as (_ & _ & Hm); [lia|].
    by replace (x0 - d + i) with (x0 + i - d) by lia. }
  destruct Horg as [[Hh ->]|[Hl ->]].
  - destruct (Hf (d + 1) (A1 Hh)) as (e & He & Hp); [lia|lia|]. exists (e + 1). split; [lia|].
    eapply path_app; [exact Hp|]. apply (path_insert _ _ _ _ _ 0).
    replace (f (d + 1) - (d + 1) + 1) with (f (d + 1) - d) by lia. apply path_stop.
  - destruct (Hf (d - 1) (A2 Hl)) as (e & He & Hp); [lia|lia|]. exists (e + 1). split; [lia|].
    eapply path_app; [exact Hp|]. apply (path_delete _ _ _ _ _ 0).
    replace (f (d - 1) + 1 - d) with (f (d - 1) - (d - 1)) by lia. apply path_stop.
Qed.

(** A path with fewer edits can be prolonged inside the portion. *)
Lemma furthest_short d x e : furthest c l h f -> far (c - 1) -> active mid (c + 1) l' h' d ->
  reach x (x - d) e -> e <= c - 1 -> x <= xlim -> x - d <= ylim -> x <= g d.
Proof.
  intros Hf Hfar Hd Hp He Gx Gy. pose proof (path_bounds _ _ _ _ _ _ Hp) as Hb.
  destruct (Hn d Hd) as (x0 & N1 & N2 & Hle & _). unfold active in Hd.
  destruct (decide (x < xlim)) as [Hlt|].
  - assert (active mid c l h (d + 1)) as Ha by (apply (active_near _ (x + 1)); lia).
    assert (reach (x + 1) (x + 1 - (d + 1)) (e + 1)) as Hp1.
    { eapply path_app; [exact Hp|]. apply (path_delete _ _ _ _ _ 0). replace (x + 1 - (d + 1)) with (x - d) by lia. apply path_stop. }
    specialize (Hf _ _ _ Ha Hp1). unfold active in Ha. lia.
  - destruct (decide (x - d < ylim)) as [Hlt|].
    + assert (active mid c l h (d - 1)) as Ha by (apply (active_near _ x); lia).
      assert (reach x (x - (d - 1)) (e + 1)) as Hp1.
      { eapply path_app; [exact Hp|]. apply (path_insert _ _ _ _ _ 0). replace (x - (d - 1)) with (x - d + 1) by lia. apply path_stop. }
      specialize (Hf _ _ _ Ha Hp1). unfold active in Ha. lia.
    + exfalso. replace (x - d) with ylim in Hp by lia. replace x with xlim in Hp by lia. specialize (Hfar _ Hp). lia.
Qed.

Lemma furthest_step : furthest c l h f -> far (c - 1) -> furthest (c + 1) l' h' g.
Proof.
  intros Hf Hfar d x e Hd Hp He Gx Gy. pose proof (path_bounds _ _ _ _ _ _ Hp) as Hb.
  destruct (decide (e <= c - 1)) as [|Hgt]; [by eapply furthest_short|].
  assert (e = c + 1) as -> by (unfold active in Hd; lia).
  destruct (Hn d Hd) as (x0 & N1 & N2 & Hle & _ & Hstop & _).
  destruct (path_last _ _ _ _ _ _ Hp) as (n & Hn0 & Hall & [(? & _)|Hlast]); [lia|].
  enough (x - n <= x0) as Hx0.
  { destruct (Z.le_gt_cases x (g d)) as [|Hlt]; [done|]. exfalso. apply Hstop. split; [lia|]. split; [lia|].
    specialize (Hall (x - g d) ltac:(lia)). replace (x - (x - g d)) with (g d) in Hall by lia.
    by replace (x - d - (x - g d)) with (g d - d) in Hall by lia. }
  replace (c + 1 - 1) with c in Hlast by lia.
  destruct Hlast as [Hl|Hl]; pose proof (path_bounds _ _ _ _ _ _ Hl) as Hb'.
  - assert (active mid c l h (d - 1)) as Ha by (unfold active in Hd; apply (active_near _ (x - n - 1)); lia).
    replace (x - d - n) with (x - n - 1 - (d - 1)) in Hl by lia.
    specialize (Hf _ _ _ Ha Hl). unfold active in Ha. lia.
  - assert (active mid c l h (d + 1)) as Ha by (unfold active in Hd; apply (active_near _ (x - n)); lia).
    replace (x - d - n - 1) with (x - n - (d + 1)) in Hl by lia.
    specialize (Hf _ _ _ Ha Hl). unfold active in Ha. lia.
Qed.
End Round.
End Furthest.

(** ** Rounds *)

Section Rounds.
Context (ctxt : context) (xoff xlim yoff ylim : Z).
Context (Hx0 : 0 <= xoff) (Hy0 : 0 <= yoff) (Hx : xoff < xlim) (Hy : yoff < ylim).
Context (Hbig : xlim + ylim < OFFSET_MAX).
Context (Hfirst : xref_yref_equal ctxt xoff yoff = false).
Context (Hlast : xref_yref_equal ctxt (xlim - 1) (ylim - 1) = false).

Abbreviation fmid := (fmid xoff yoff).
Abbreviation bmid := (bmid xlim ylim).
Abbreviation odd := (odd xoff xlim yoff ylim).
Abbreviation fpath := (path (fmatch ctxt)).
Abbreviation bpath := (path (bmatch ctxt)).
Abbreviation bfar := (far (- xlim) (- xoff) (- ylim) (- yoff) (bmatch ctxt)).
Abbreviation far := (far xoff xlim yoff ylim (fmatch ctxt)).
Abbreviation diag_inv := (diag_inv xoff xlim yoff ylim).
Abbreviation mid_inv := (mid_inv xoff xlim yoff ylim).

Definition ffurthest (c : Z) (s : search) : Prop :=
  furthest xoff xlim yoff ylim (fmatch ctxt) c (fmin s) (fmax s) (fd s).
Definition freachable (c : Z) (s : search) : Prop :=
  reachable xoff xlim yoff ylim (fmatch ctxt) c (fmin s) (fmax s) (fd s).
Definition bfurthest (c : Z) (s : search) : Prop :=
  furthest (- xlim) (- xoff) (- ylim) (- yoff) (bmatch ctxt) c (- bmax s) (- bmin s) (refl (bd s)).
Definition breachable (c : Z) (s : search) : Prop :=
  reachable (- xlim) (- xoff) (- ylim) (- yoff) (bmatch ctxt) c (- bmax s) (- bmin s) (refl (bd s)).

(** After [c] rounds without a meeting. *)
Record opt_inv (c : Z) (s : search) : Prop := {
  opt_ffurthest : ffurthest c s;
  opt_freachable : freachable c s;
  opt_bfurthest : bfurthest c s;
  opt_breachable : breachable c s;
  opt_outside d : active bmid c (bmin s) (bmax s) d ->
    (bd s d < xoff -> d < fmin s - 1) /\ (bd s d - d < yoff -> fmax s + 1 < d);
  opt_far : far (2 * c)
}.

(** Between the passes of round [c + 1]. *)
Record opt_mid (c : Z) (s : search) : Prop := {
  opm_ffurthest : ffurthest (c + 1) s;
  opm_freachable : freachable (c + 1) s;
  opm_bfurthest : bfurthest c s;
  opm_breachable : breachable c s;
  opm_outside d : active fmid (c + 1) (fmin s) (fmax s) d ->
    (xlim < fd s d -> bmax s + 1 < d) /\ (ylim < fd s d - d -> d < bmin s - 1);
  opm_far : far (2 * c + 1)
}.

(** A point on a path with as few edits as possible. *)
Definition on_shortest (x y : Z) : Prop := exists e1 e2, fpath xoff yoff x y e1 /\ fpath x y xlim ylim e2 /\ far (e1 + e2 - 1).

Lemma far_mirror n : far n <-> bfar n.
Proof.
  split; intros H e He; apply H; [by apply path_unmirror|]. by apply path_mirror in He.
Qed.

(** The number of edits from corner to corner has the parity of the distance
    of the diagonals. *)
Lemma corner_parity e : fpath xoff yoff xlim ylim e -> (e - (fmid - bmid)) mod 2 = 0.
Proof. intros H%path_bounds. unfold DiffSeq.fmid, DiffSeq.bmid. lia. Qed.

(** The first elements differ, so there is no path without edits. *)
Lemma no_match_path x y : fpath xoff yoff x y 0 -> x = xoff /\ y = yoff.
Proof.
  intros H. destruct (path_last _ _ _ _ _ _ H) as (n & Hn & Hall & [(_ & -> & ->)|[H1|H1]]).
  - destruct (decide (n = 0)) as [->|]; [lia|]. exfalso. specialize (Hall n ltac:(lia)). unfold fmatch in Hall.
    replace (xoff + n - n) with xoff in Hall by lia. replace (yoff + n - n) with yoff in Hall by lia. congruence.
  - apply path_bounds in H1. lia.
  - apply path_bounds in H1. lia.
Qed.

Lemma no_match_path_back x y : fpath x y xlim ylim 0 -> x = xlim /\ y = ylim.
Proof.
  intros H. destruct (path_last _ _ _ _ _ _ H) as (n & Hn & Hall & [(_ & Ex & Ey)|[H1|H1]]).
  - destruct (decide (n = 0)) as [->|]; [lia|]. exfalso. specialize (Hall 1 ltac:(lia)). unfold fmatch in Hall. congruence.
  - apply path_bounds in H1. lia.
  - apply path_bounds in H1. lia.
Qed.

Lemma diag_init_opt fd0 bd0 : opt_inv 0 (diag_init xoff xlim yoff ylim fd0 bd0).
Proof.
  unfold diag_init. split; unfold ffurthest, freachable, bfurthest, breachable; simpl.
  - intros d x e Hd%active_single Hp He _ _. subst d. rewrite upd_eq. pose proof (path_bounds _ _ _ _ _ _ Hp).
    replace e with 0 in Hp by lia. apply no_match_path in Hp. lia.
  - intros d Hd%active_single _ _. subst d. unfold DiffSeq.fmid. rewrite upd_eq. exists 0. split; [done|].
    replace (xoff - (xoff - yoff)) with yoff by lia. apply path_stop.
  - intros d x e Hd Hp He _ _. assert (d = - bmid) as -> by (unfold active, DiffSeq.bmid in *; lia).
    unfold refl. rewrite Z.opp_involutive, upd_eq. pose proof (path_bounds _ _ _ _ _ _ Hp).
    replace e with 0 in Hp by lia.
    assert (fpath (- x) (- (x - - bmid)) xlim ylim 0) as Hq by (apply path_unmirror; rewrite !Z.opp_involutive; exact Hp).
    apply no_match_path_back in Hq. lia.
  - intros d Hd _ _. assert (d = - bmid) as -> by (unfold active, DiffSeq.bmid in *; lia).
    unfold refl. rewrite Z.opp_involutive, upd_eq. exists 0. split; [done|].
    replace (- xlim - - bmid) with (- ylim) by (unfold DiffSeq.bmid; lia). apply path_stop.
  - intros d Hd. assert (d = bmid) as -> by (unfold active, DiffSeq.bmid in *; lia).
    rewrite upd_eq. unfold DiffSeq.bmid. lia.
  - intros e He. pose proof (path_bounds _ _ _ _ _ _ He). destruct (decide (e = 0)) as [->|]; [|lia].
    apply no_match_path in He. lia.
Qed.

(** *** The points of a pass *)

Lemma fwd_points c s : diag_inv c s -> opt_inv c s ->
  let s1 := grow_fwd xoff xlim yoff ylim s in
  let g := fwd_x ctxt xlim ylim (fd s1) in
  furthest xoff xlim yoff ylim (fmatch ctxt) (c + 1) (fmin s1) (fmax s1) g /\
  reachable xoff xlim yoff ylim (fmatch ctxt) (c + 1) (fmin s1) (fmax s1) g.
Proof.
  intros Hinv Hopt s1 g. pose proof (inv_c _ _ _ _ _ _ Hinv) as Hc.
  pose proof (grow_fwd_next ctxt xoff xlim yoff ylim Hx0 Hx Hy c s Hc (inv_frange _ _ _ _ _ _ Hinv) (inv_freached _ _ _ _ _ _ Hinv)) as Hn.
  destruct (grow_fwd_fields xoff xlim yoff ylim s) as (F1 & F2 & _). fold s1 in F1, F2. rewrite F1, F2. split.
  - eapply furthest_step; [done..|apply (inv_frange _ _ _ _ _ _ Hinv)|exact Hn|apply Hopt|].
    intros e He. pose proof (opt_far _ _ Hopt e He). lia.
  - eapply reachable_step; [exact Hn|apply Hopt].
Qed.

Lemma bwd_points c s : mid_inv c s -> bfurthest c s -> breachable c s -> far (c - 1) ->
  let s1 := grow_bwd xoff xlim yoff ylim s in
  let g := bwd_x ctxt xoff yoff (bd s1) in
  furthest (- xlim) (- xoff) (- ylim) (- yoff) (bmatch ctxt) (c + 1) (- bmax s1) (- bmin s1) (refl g) /\
  reachable (- xlim) (- xoff) (- ylim) (- yoff) (bmatch ctxt) (c + 1) (- bmax s1) (- bmin s1) (refl g).
Proof.
  intros Hinv Hf Hr Hfar s1 g. pose proof (mid_c _ _ _ _ _ _ Hinv) as Hc.
  pose proof (grow_bwd_next ctxt xoff xlim yoff ylim Hy0 Hx Hy Hbig c s Hc (mid_brange _ _ _ _ _ _ Hinv)
    (mid_breached _ _ _ _ _ _ Hinv)) as Hn.
  destruct (grow_bwd_fields xoff xlim yoff ylim s) as (F1 & F2 & _). fold s1 in F1, F2, Hn.
  rewrite F1, F2 in *. cbv zeta in Hn. fold g in Hn.
  assert (- grow_hi (dmax xlim yoff) (bmax s) = grow_lo (- xlim - - yoff) (- bmax s)) as E2.
  { rewrite (proj1 (grow_opp 0 _ _)). f_equal. unfold DiffSeq.dmax. lia. }
  assert (- grow_lo (dmin xoff ylim) (bmin s) = grow_hi (- xoff - - ylim) (- bmin s)) as E1.
  { rewrite (proj2 (grow_opp _ 0 _)). f_equal. unfold DiffSeq.dmin. lia. }
  rewrite E1, E2 in *. split.
  - eapply furthest_step; [lia|lia|done|apply (brange_mirror xoff xlim yoff ylim), Hinv|exact Hn|exact Hf|]. by apply far_mirror.
  - eapply reachable_step; [exact Hn|exact Hr].
Qed.

(** The backward points, without the reflection. *)
Lemma bwd_furthest C L H g d x e :
  furthest (- xlim) (- xoff) (- ylim) (- yoff) (bmatch ctxt) C (- H) (- L) (refl g) -> active bmid C L H d ->
  fpath x (x - d) xlim ylim e -> e <= C -> xoff <= x -> yoff <= x - d -> g d <= x.
Proof.
  intros Hf Hd%(active_mirror xlim ylim) Hp%path_mirror He Gx Gy.
  replace (- (x - d)) with (- x - - d) in Hp by lia. specialize (Hf _ _ _ Hd Hp He). unfold refl in Hf.
  rewrite Z.opp_involutive in Hf. lia.
Qed.

Lemma bwd_reachable C L H g d :
  reachable (- xlim) (- xoff) (- ylim) (- yoff) (bmatch ctxt) C (- H) (- L) (refl g) -> active bmid C L H d ->
  xoff <= g d -> yoff <= g d - d -> exists e, e <= C /\ fpath (g d) (g d - d) xlim ylim e.
Proof.
  intros Hr Hd%(active_mirror xlim ylim) Gx Gy. specialize (Hr _ Hd). unfold refl in Hr. rewrite Z.opp_involutive in Hr.
  destruct Hr as (e & He & Hp); [lia|lia|]. exists e. split; [done|]. apply path_unmirror.
  by replace (- (g d - d)) with (- g d - - d) by lia.
Qed.

(** *** Meetings *)

(** A point reached from both ends with as many edits as there were passes is
    on a shortest path. *)
Lemma met_shortest x y e1 e2 n : far n -> fpath xoff yoff x y e1 -> fpath x y xlim ylim e2 -> e1 + e2 <= n + 1 ->
  on_shortest x y.
Proof.
  intros Hfar H1 H2 He. exists e1, e2. split; [done|]. split; [done|]. intros e Hp. specialize (Hfar e Hp). lia.
Qed.

(** Paths that are shorter than the passes made would have met. *)
Lemma far_step k m s : far (k + m - 1) -> 0 <= k -> 0 <= m ->
  ffurthest k s -> bfurthest m s -> frange xoff xlim yoff ylim k s -> brange xoff xlim yoff ylim m s ->
  (forall d, active fmid k (fmin s) (fmax s) d -> bmin s <= d <= bmax s -> fd s d < bd s d) -> far (k + m).
Proof.
  intros Hfar Hk Hm Hf Hb Hfr Hbr Hno e Hp. pose proof (Hfar e Hp). destruct (decide (e = k + m)) as [->|]; [|lia].
  exfalso. destruct (path_split _ _ _ _ _ _ k Hp) as (x & y & H1 & H2); [lia|].
  pose proof (path_bounds _ _ _ _ _ _ H1) as B1. pose proof (path_bounds _ _ _ _ _ _ H2) as B2.
  replace (k + m - k) with m in H2 by lia. replace y with (x - (x - y)) in H1, H2 by lia.
  assert (active fmid k (fmin s) (fmax s) (x - y)) as Ha1.
  { revert Hfr. unfold frange, active, range_ok, DiffSeq.dmin, DiffSeq.dmax, DiffSeq.fmid. lia. }
  assert (active bmid m (bmin s) (bmax s) (x - y)) as Ha2.
  { revert Hbr. unfold brange, active, range_ok, DiffSeq.dmin, DiffSeq.dmax, DiffSeq.bmid. lia. }
  pose proof (Hf _ _ _ Ha1 H1 ltac:(lia) ltac:(lia) ltac:(lia)) as Hle.
  pose proof (bwd_furthest _ _ _ _ _ _ _ Hb Ha2 H2 ltac:(lia) ltac:(lia) ltac:(lia)) as Hge.
  specialize (Hno _ Ha1 (proj1 Ha2)). lia.
Qed.

(** A meeting leaves both parts to a minimal search. *)
Lemma fwd_pass_minimal n d s big p s' : fwd_pass ctxt xoff xlim yoff ylim n d s big = inl (p, s') ->
  lo_minimal p = true /\ hi_minimal p = true.
Proof.
  revert d s big. induction n as [|n IH]; intros d s big; cbn [fwd_pass]; [done|].
  destruct (fwd_point _ _ _ _ _) as [[x0 x] y]. destruct (_ && _ && _ && _); [by intros [= <- <-]|apply IH].
Qed.

Lemma bwd_pass_minimal n d s big p s' : bwd_pass ctxt xoff xlim yoff ylim n d s big = inl (p, s') ->
  lo_minimal p = true /\ hi_minimal p = true.
Proof.
  revert d s big. induction n as [|n IH]; intros d s big; cbn [bwd_pass]; [done|].
  destruct (bwd_point _ _ _ _ _) as [[x0 x] y]. destruct (_ && _ && _ && _); [by intros [= <- <-]|apply IH].
Qed.

Lemma fwd_round_opt c s : diag_inv c s -> opt_inv c s ->
  let s1 := grow_fwd xoff xlim yoff ylim s in
  match fwd_pass ctxt xoff xlim yoff ylim (pass_count (fmin s1) (fmax s1)) (fmax s1) s1 false with
  | inl (p, _) => on_shortest (xmid p) (ymid p)
  | inr (s2, _) => opt_mid c s2
  end.
Proof.
  intros Hinv Hopt s1. pose proof (inv_c _ _ _ _ _ _ Hinv) as Hc.
  destruct (fwd_step ctxt xoff xlim yoff ylim Hx0 Hx Hy Hlast c s Hinv) as (Hr1 & Hg & Hout).
  pose proof (fwd_pass_round ctxt xoff xlim yoff ylim (c + 1) s Hr1) as Hp.
  pose proof (fwd_round ctxt xoff xlim yoff ylim Hx0 Hx Hy Hlast c s Hinv) as Hmid.
  destruct (fwd_points c s Hinv Hopt) as [Hfu Hre].
  destruct (grow_fwd_fields xoff xlim yoff ylim s) as (F1 & F2 & _).
  fold s1 in Hr1, Hg, Hout, Hp, Hmid, Hfu, Hre, F1, F2. cbv zeta in *. set (g := fwd_x ctxt xlim ylim (fd s1)) in *.
  destruct (fwd_pass _ _ _ _ _ _ _ _ _) as [[p s']|[s2 b]].
  - destruct Hp as (d & Hd & Hodd & Hrng & Hmeet & Ex & Ey). destruct Hmid as (P1 & P2 & _). rewrite Ex, Ey in *.
    pose proof (odd_spec xoff xlim yoff ylim) as Hos. rewrite Hodd in Hos.
    assert (active bmid c (bmin s) (bmax s) d) as Hb by (unfold active in *; lia).
    destruct (bwd_inside xoff xlim yoff ylim c s d (inv_breached _ _ _ _ _ _ Hinv) Hb) as (B1 & B2 & _).
    destruct (opt_outside _ _ Hopt d Hb) as [O1 O2]. unfold active in Hd. rewrite F1, F2 in Hd. unfold grow_lo, grow_hi in Hd.
    assert (xoff <= bd s d /\ yoff <= bd s d - d) as [B3 B4] by (revert Hd; repeat case_if; lia).
    destruct (Hre d) as (e1 & He1 & H1); [by unfold active; rewrite F1, F2|lia|lia|].
    destruct (bwd_reachable _ _ _ _ _ (opt_breachable _ _ Hopt) Hb B3 B4) as (e2 & He2 & H2).
    destruct (path_diagonal_n _ (g d - bd s d) _ _ _ _ _ ltac:(lia) H2) as (e3 & He3 & H3); [lia|lia|].
    replace (bd s d + (g d - bd s d)) with (g d) in H3 by lia. replace (bd s d - d + (g d - bd s d)) with (g d - d) in H3 by lia.
    eapply met_shortest; [apply (opt_far _ _ Hopt)|exact H1|exact H3|lia].
  - destruct Hp as (G1 & G2 & G3 & G4 & G5 & Hv).
    assert (forall d, active fmid (c + 1) (fmin s1) (fmax s1) d -> g d = fd s2 d) as Hge by (intros d Hd; by rewrite (proj1 (Hv d Hd))).
    assert (ffurthest (c + 1) s2) as Hfu2 by (unfold ffurthest; rewrite G1, G2; by eapply furthest_ext).
    assert (bfurthest c s2) as Hbu2 by (unfold bfurthest; rewrite G3, G4, G5; apply Hopt).
    split; [done|..|done| | |].
    + unfold freachable. rewrite G1, G2. by eapply reachable_ext.
    + unfold breachable. rewrite G3, G4, G5. apply Hopt.
    + intros d Hd. rewrite G1, G2 in Hd. rewrite <- (Hge d Hd), G3, G4. destruct (Hout d Hd) as (O1 & O2 & _). done.
    + pose proof (odd_spec xoff xlim yoff ylim) as Hos. destruct odd eqn:Ho.
      * replace (2 * c + 1) with (c + 1 + c) by lia. apply (far_step (c + 1) c s2); try done; [|lia|apply Hmid..|].
        -- replace (c + 1 + c - 1) with (2 * c) by lia. apply Hopt.
        -- by apply (mid_nomeet _ _ _ _ _ _ Hmid).
      * intros e He. pose proof (opt_far _ _ Hopt e He). pose proof (corner_parity e He). lia.
Qed.

Lemma bwd_round_opt c s big : mid_inv c s -> opt_mid c s ->
  let s1 := grow_bwd xoff xlim yoff ylim s in
  match bwd_pass ctxt xoff xlim yoff ylim (pass_count (bmin s1) (bmax s1)) (bmax s1) s1 big with
  | inl (p, _) => on_shortest (xmid p) (ymid p)
  | inr (s2, _) => opt_inv (c + 1) s2
  end.
Proof.
  intros Hinv Hopt s1. pose proof (mid_c _ _ _ _ _ _ Hinv) as Hc.
  destruct (bwd_step ctxt xoff xlim yoff ylim Hy0 Hx Hy Hbig Hfirst Hlast c s Hinv) as (Hr1 & Hg & Hout).
  pose proof (bwd_pass_round ctxt xoff xlim yoff ylim (c + 1) s big Hr1) as Hp.
  pose proof (bwd_round ctxt xoff xlim yoff ylim Hy0 Hx Hy Hbig Hfirst Hlast c s big Hinv) as Hnext.
  destruct (bwd_points c s Hinv (opm_bfurthest _ _ Hopt) (opm_breachable _ _ Hopt)) as [Hfu Hre].
  { intros e He. pose proof (opm_far _ _ Hopt e He). lia. }
  destruct (grow_bwd_fields xoff xlim yoff ylim s) as (F1 & F2 & _).
  fold s1 in Hr1, Hg, Hout, Hp, Hnext, Hfu, Hre, F1, F2. cbv zeta in *. set (g := bwd_x ctxt xoff yoff (bd s1)) in *.
  pose proof (odd_spec xoff xlim yoff ylim) as Hos.
  destruct (bwd_pass _ _ _ _ _ _ _ _ _) as [[p s']|[s2 b]].
  - destruct Hp as (d & Hd & Hodd & Hrng & Hmeet & Ex & Ey). destruct Hnext as (P1 & P2 & _). rewrite Ex, Ey in *.
    rewrite Hodd in Hos.
    assert (active fmid (c + 1) (fmin s) (fmax s) d) as Hf by (unfold active in *; lia).
    pose proof (fwd_inside xoff xlim yoff ylim (c + 1) s d (mid_freached _ _ _ _ _ _ Hinv) Hf) as (B1 & B2 & _).
    destruct (opm_outside _ _ Hopt d Hf) as [O1 O2].
    assert (fd s d <= xlim /\ fd s d - d <= ylim) as [B3 B4].
    { revert Hd. unfold active. rewrite F1, F2. unfold grow_lo, grow_hi. repeat case_if; lia. }
    destruct (bwd_reachable _ _ _ _ _ Hre Hd) as (e2 & He2 & H2); [lia|lia|].
    destruct (opm_freachable _ _ Hopt d Hf B3 B4) as (e1 & He1 & H1).
    destruct (path_diagonal_back _ (fd s d - g d) _ _ _ _ _ ltac:(lia) H1) as (e3 & He3 & H3); [lia|lia|].
    replace (fd s d - (fd s d - g d)) with (g d) in H3 by lia. replace (fd s d - d - (fd s d - g d)) with (g d - d) in H3 by lia.
    eapply met_shortest; [apply (opm_far _ _ Hopt)|exact H3|exact H2|lia].
  - destruct Hp as (G1 & G2 & G3 & G4 & G5 & Hv). destruct Hnext as [Hinv2 Hno].
    assert (forall d, active (- xlim - - ylim) (c + 1) (- bmax s1) (- bmin s1) d -> refl g d = refl (bd s2) d) as Hge.
    { intros d Hd. rewrite <- (Z.opp_involutive d) in Hd. apply active_mirror in Hd. unfold refl. by rewrite (proj1 (Hv _ Hd)). }
    assert (ffurthest (c + 1) s2) as Hfu2 by (unfold ffurthest; rewrite G1, G2, G5; apply Hopt).
    assert (bfurthest (c + 1) s2) as Hbu2 by (unfold bfurthest; rewrite G3, G4; by eapply furthest_ext).
    split; [done|..|done| | |].
    + unfold freachable. rewrite G1, G2, G5. apply Hopt.
    + unfold breachable. rewrite G3, G4. by eapply reachable_ext.
    + intros d Hd. rewrite G3, G4 in Hd. rewrite (proj1 (Hv d Hd)), G1, G2. destruct (Hout d Hd) as (O1 & O2 & _). done.
    + destruct odd eqn:Ho.
      * intros e He. pose proof (opm_far _ _ Hopt e He). pose proof (corner_parity e He). lia.
      * replace (2 * (c + 1)) with (c + 1 + (c + 1)) by lia. apply (far_step (c + 1) (c + 1) s2); try done; [|lia|lia|apply Hinv2..|].
        -- replace (c + 1 + (c + 1) - 1) with (2 * c + 1) by lia. apply Hopt.
        -- by apply Hno.
Qed.

(** *** The whole search *)

Lemma diag_round_opt c s : diag_inv c s -> opt_inv c s ->
  match diag_round ctxt xoff xlim yoff ylim true (c + 1) s with
  | inl (p, _) => on_shortest (xmid p) (ymid p) /\ lo_minimal p = true /\ hi_minimal p = true
  | inr s' => opt_inv (c + 1) s'
  end.
Proof.
  intros Hinv Hopt. unfold diag_round.
  pose proof (fwd_round ctxt xoff xlim yoff ylim Hx0 Hx Hy Hlast c s Hinv) as Hf.
  pose proof (fwd_round_opt c s Hinv Hopt) as Hfo. cbv zeta in Hf, Hfo.
  destruct (fwd_pass _ _ _ _ _ _ _ _ _) as [[p s']|[s2 b1]] eqn:Ef; [split; [done|exact (fwd_pass_minimal _ _ _ _ _ _ Ef)]|].
  pose proof (bwd_round_opt c s2 b1 Hf Hfo) as Hb. cbv zeta in Hb.
  destruct (bwd_pass _ _ _ _ _ _ _ _ _) as [[p s']|[s4 b2]] eqn:Eb; [split; [done|exact (bwd_pass_minimal _ _ _ _ _ _ Eb)]|done].
Qed.

Lemma diag_loop_opt n c s p s' : diag_inv c s -> opt_inv c s ->
  diag_loop ctxt xoff xlim yoff ylim true n (c + 1) s = Some (p, s') ->
  on_shortest (xmid p) (ymid p) /\ lo_minimal p = true /\ hi_minimal p = true.
Proof.
  revert c s. induction n as [|n IH]; intros c s Hinv Hopt; cbn [diag_loop]; [done|].
  pose proof (diag_round_opt c s Hinv Hopt) as Hr.
  pose proof (diag_round_spec ctxt xoff xlim yoff ylim Hx0 Hy0 Hx Hy Hbig Hfirst Hlast true c s Hinv) as Hr2.
  destruct (diag_round _ _ _ _ _ _ _ _) as [[p' s'']|s'']; [by intros [= <- <-]|]. intros Hl. apply (IH (c + 1) s''); tauto.
Qed.

Lemma diag_opt fd0 bd0 p s : diag ctxt xoff xlim yoff ylim true fd0 bd0 = Some (p, s) ->
  on_shortest (xmid p) (ymid p) /\ lo_minimal p = true /\ hi_minimal p = true.
Proof. unfold diag. apply (diag_loop_opt _ 0); [by apply diag_init_inv|apply diag_init_opt]. Qed.
End Rounds.

(** C21: on every portion that [compareseq] hands to it (non-empty on both
    sides, first and last elements different), [diag] returns, with or without
    its heuristics, and its midpoint lies inside the portion and is not one of
    the corners that would leave a subproblem as large as the problem; without
    the heuristics it is on a path with as few edits as possible. *)
Theorem diag_midpoint ctxt xoff xlim yoff ylim find_minimal fd0 bd0 :
  0 <= xoff < xlim -> 0 <= yoff < ylim -> xlim + ylim < OFFSET_MAX ->
  xref_yref_equal ctxt xoff yoff = false -> xref_yref_equal ctxt (xlim - 1) (ylim - 1) = false ->
  exists p s, diag ctxt xoff xlim yoff ylim find_minimal fd0 bd0 = Some (p, s) /\
    proper xoff xlim yoff ylim (xmid p) (ymid p) /\
    (find_minimal = true -> exists e1 e2,
       path (fmatch ctxt) xoff yoff (xmid p) (ymid p) e1 /\ path (fmatch ctxt) (xmid p) (ymid p) xlim ylim e2 /\
       forall e, path (fmatch ctxt) xoff yoff xlim ylim e -> e1 + e2 <= e).
Proof.
  intros [? ?] [? ?] ? Hf Hl. destruct (diag_spec ctxt xoff xlim yoff ylim) with (find_minimal := find_minimal)
    (fd0 := fd0) (bd0 := bd0) as (p & s & Hp & Hpr); try done.
  exists p, s. split; [done|]. split; [done|]. intros ->.
  destruct (diag_opt ctxt xoff xlim yoff ylim) with (fd0 := fd0) (bd0 := bd0) (p := p) (s := s) as ((e1 & e2 & P1 & P2 & Hfar) & _); try done.
  exists e1, e2. do 2 (split; [done|]). intros e He. specialize (Hfar e He). lia.
Qed.

Lemma diag_midpoint_witness :
  exists p s,
    diag (MkContext [1; 2; 3; 4] [5; 2; 4; 3] true 256 (fun _ _ => true)) 0 4 0 4 true (fun _ => 7) (fun _ => 9) = Some (p, s) /\
    proper 0 4 0 4 (xmid p) (ymid p) /\
    (true = true -> exists e1 e2,
       path (fmatch (MkContext [1; 2; 3; 4] [5; 2; 4; 3] true 256 (fun _ _ => true))) 0 0 (xmid p) (ymid p) e1 /\
       path (fmatch (MkContext [1; 2; 3; 4] [5; 2; 4; 3] true 256 (fun _ _ => true))) (xmid p) (ymid p) 4 4 e2 /\
       forall e, path (fmatch (MkContext [1; 2; 3; 4] [5; 2; 4; 3] true 256 (fun _ _ => true))) 0 0 4 4 e -> e1 + e2 <= e).
Proof. apply diag_midpoint; (lia || reflexivity). Defined.
