(* ===== verification/CompareSeq.v ===== *)
(** * Correctness of [compareseq]

    Whatever midpoints [diag] chooses, the lines that [compareseq] leaves
    unmarked are the same on both sides; and it always returns.  A minimal
    comparison leaves as many lines unmarked as possible. *)

From S2P Require Import Prelude EditScript EditPaths DiffSeq DiagGeometry DiagProofs DiagMinimal.

Section Correct.
Context (ctxt : context) (d0 d1 : list bool).
Abbreviation X := (xvec ctxt).
Abbreviation Y := (yvec ctxt).

(** The effect of comparing [xoff, xlim) with [yoff, ylim) on the flags of
    the undiscarded lines: nothing outside changes, and inside the kept lines
    agree. *)
Record compared (xoff xlim yoff ylim : Z) (vx vy vx' vy' : list bool) : Prop := {
  cmp_lenx : length vx' = length vx;
  cmp_leny : length vy' = length vy;
  cmp_outx i : ~ (xoff <= i < xlim) -> zget vx' i = zget vx i;
  cmp_outy i : ~ (yoff <= i < ylim) -> zget vy' i = zget vy i;
  cmp_keep : keep (slice X xoff xlim) (slice vx' xoff xlim)
             = keep (slice Y yoff ylim) (slice vy' yoff ylim)
}.

(** No flag is set in a portion yet. *)
Definition unmarked (v : list bool) (a b : Z) : Prop :=
  forall i, a <= i < b -> zget v i = Some false.

Lemma unmarked_sub v a b a' b' : unmarked v a b -> a <= a' -> b' <= b -> unmarked v a' b'.
Proof. intros H ? ? i Hi. apply H. lia. Qed.

Lemma unmarked_slice {A} (l : list A) v a b :
  0 <= a <= b -> b <= zlen l -> length l = length v -> unmarked v a b ->
  keep (slice l a b) (slice v a b) = slice l a b.
Proof.
  intros H1 H2 H3 Hu. apply keep_false.
  - rewrite !slice_length; lia.
  - intros c Hc. apply slice_elem in Hc as (i & Hi & Hc); [|lia]. rewrite (Hu i Hi) in Hc. congruence.
Qed.

Section Lengths.
Context (xoff xlim yoff ylim : Z) (vx vy : list bool).
Context (Hvx : length X = length vx) (Hvy : length Y = length vy).

Lemma compared_trans xm ym vx1 vy1 vx2 vy2 :
  0 <= xoff <= xm -> xm <= xlim -> xlim <= zlen X ->
  0 <= yoff <= ym -> ym <= ylim -> ylim <= zlen Y ->
  compared xoff xm yoff ym vx vy vx1 vy1 ->
  compared xm xlim ym ylim vx1 vy1 vx2 vy2 ->
  compared xoff xlim yoff ylim vx vy vx2 vy2.
Proof.
  intros ? ? ? ? ? ? [L1 L2 O1 O2 K1] [L1' L2' O1' O2' K2]. split.
  - congruence.
  - congruence.
  - intros i Hi. rewrite O1' by lia. apply O1. lia.
  - intros i Hi. rewrite O2' by lia. apply O2. lia.
  - rewrite (slice_split X xoff xm xlim), (slice_split vx2 xoff xm xlim) by lia.
    rewrite (slice_split Y yoff ym ylim), (slice_split vy2 yoff ym ylim) by lia.
    rewrite !keep_app by (rewrite !slice_length; lia).
    rewrite K2. f_equal.
    rewrite (slice_ext vx2 vx1 xoff xm xoff xm), (slice_ext vy2 vy1 yoff ym yoff ym); try done; try lia.
    + intros i Hi. apply O2'. lia.
    + intros i Hi. apply O1'. lia.
Qed.

(** Matching elements, left unmarked. *)
Lemma compared_match :
  0 <= xoff <= xlim -> xlim <= zlen X -> 0 <= yoff -> ylim <= zlen Y ->
  xlim - xoff = ylim - yoff ->
  unmarked vx xoff xlim -> unmarked vy yoff ylim ->
  (forall t, 0 <= t < xlim - xoff -> xref_yref_equal ctxt (xoff + t) (yoff + t) = true) ->
  compared xoff xlim yoff ylim vx vy vx vy.
Proof.
  intros ? ? ? ? Hl Hux Huy Heq. split; try done.
  rewrite !unmarked_slice by (done || lia).
  apply slice_ext; try lia. intros i Hi. specialize (Heq i Hi).
  destruct (zget_Some X (xoff + i)) as [a Ha]; [lia|]. destruct (zget_Some Y (yoff + i)) as [b Hb]; [lia|].
  unfold xref_yref_equal in Heq. rewrite Ha, Hb in *. simpl in *. zify_bool. by subst.
Qed.
End Lengths.

(** *** Minimal comparisons *)

(** The number of lines of the first file that are kept. *)
Definition kept (v : list bool) (a b : Z) : Z := zlen (keep (slice X a b) (slice v a b)).

Lemma kept_split v a m b : length X = length v -> 0 <= a <= m -> m <= b -> b <= zlen X ->
  kept v a b = kept v a m + kept v m b.
Proof.
  intros Hl ? ? ?. unfold kept. rewrite (slice_split X a m b), (slice_split v a m b) by lia.
  rewrite keep_app by (rewrite !slice_length; lia). rewrite length_app. lia.
Qed.

Lemma kept_ext v v' a b : 0 <= a -> (forall i, a <= i < b -> zget v i = zget v' i) -> kept v a b = kept v' a b.
Proof. intros Ha H. unfold kept. rewrite (slice_ext v v' a b a b); [done|lia..|]. intros i Hi. apply H. lia. Qed.

Lemma kept_unmarked v a b : 0 <= a <= b -> b <= zlen X -> length X = length v -> unmarked v a b -> kept v a b = b - a.
Proof. intros ? ? ? ?. unfold kept. rewrite unmarked_slice by done. rewrite slice_length by lia. lia. Qed.

(** No path has fewer edits than there are marked lines. *)
Definition fewest (xoff xlim yoff ylim : Z) (vx : list bool) : Prop := forall e,
  path (fmatch ctxt) xoff yoff xlim ylim e -> (xlim - xoff) + (ylim - yoff) - 2 * kept vx xoff xlim <= e.

(** Around a minimal comparison, matches at both ends are kept. *)
Lemma fewest_frame xoff xlim yoff ylim k k' vx : 0 <= xoff -> 0 <= k -> 0 <= k' -> length X = length vx ->
  xoff + k <= xlim - k' -> yoff + k <= ylim - k' -> xlim <= zlen X ->
  unmarked vx xoff (xoff + k) -> unmarked vx (xlim - k') xlim ->
  fewest (xoff + k) (xlim - k') (yoff + k) (ylim - k') vx -> fewest xoff xlim yoff ylim vx.
Proof.
  intros A1 A2 A3 Hl A4 A5 A6 U1 U2 Hf e Hp.
  destruct (path_diagonal_n _ k _ _ _ _ _ ltac:(lia) Hp) as (e1 & He1 & H1); [lia|lia|].
  destruct (path_diagonal_back _ k' _ _ _ _ _ ltac:(lia) H1) as (e2 & He2 & H2); [lia|lia|].
  specialize (Hf e2 H2). rewrite (kept_split vx xoff (xoff + k)), (kept_split vx (xoff + k) (xlim - k')) by lia.
  rewrite (kept_unmarked vx xoff), (kept_unmarked vx (xlim - k')) by (done || lia). lia.
Qed.

(** Two minimal comparisons, on both sides of a point on a shortest path. *)
Lemma fewest_trans xoff xlim yoff ylim xm ym vx : length X = length vx -> 0 <= xoff <= xm -> xm <= xlim -> xlim <= zlen X ->
  on_shortest ctxt xoff xlim yoff ylim xm ym ->
  fewest xoff xm yoff ym vx -> fewest xm xlim ym ylim vx -> fewest xoff xlim yoff ylim vx.
Proof.
  intros Hl ? ? ? (e1 & e2 & P1 & P2 & Hfar) F1 F2 e Hp. specialize (Hfar e Hp). specialize (F1 _ P1). specialize (F2 _ P2).
  rewrite (kept_split vx xoff xm) by lia. lia.
Qed.

(** One side is empty. *)
Lemma fewest_empty xoff xlim yoff ylim vx : xoff = xlim \/ yoff = ylim -> fewest xoff xlim yoff ylim vx.
Proof. intros Hxy e Hp%path_bounds. unfold kept. lia. Qed.

(** *** NOTE_DELETE and NOTE_INSERT *)

Lemma note_change_spec d v off :
  length v = length (real_from 0 d) -> 0 <= off < zlen v ->
  note_change (merge d v) (real_from 0 d) off = Some (merge d (zset v off true)).
Proof.
  intros Hlen Hoff. unfold note_change.
  destruct (zget_Some (real_from 0 d) off) as [r Hr]; [lia|]. rewrite Hr.
  unfold zget in Hr. destruct (off <? 0) eqn:E0; [done|].
  destruct (merge_insert d v 0 _ _ Hlen Hr) as (n & -> & Hn & Heq).
  destruct (zget_Some (merge d v) (0 + Z.of_nat n)) as [b Hb]; [rewrite merge_length; lia|].
  rewrite Hb. f_equal. unfold zset. case_if; [lia|]. case_if; [lia|].
  replace (Z.to_nat (0 + Z.of_nat n)) with n by lia. done.
Qed.

Lemma note_changes_spec d n off v :
  length v = length (real_from 0 d) -> 0 <= off -> off + Z.of_nat n <= zlen v ->
  exists v', note_changes n off (merge d v) (real_from 0 d) = Some (merge d v') /\
    length v' = length v /\
    (forall i, ~ (off <= i < off + Z.of_nat n) -> zget v' i = zget v i) /\
    (forall i, off <= i < off + Z.of_nat n -> zget v' i = Some true).
Proof.
  revert off v. induction n as [|n IH]; intros off v Hlen Hoff Hn; simpl.
  - exists v. split; [done|]. split; [done|]. split; [done|]. lia.
  - rewrite note_change_spec by lia.
    destruct (IH (off + 1) (zset v off true)) as (v' & -> & L & O & I);
      rewrite ?zset_length; try lia.
    exists v'. split; [done|]. split; [by rewrite L, zset_length|]. split.
    + intros i Hi. rewrite O by lia. apply zget_zset_ne. lia.
    + intros i Hi. destruct (decide (i = off)) as [->|].
      * rewrite O by lia. apply zget_zset_eq. lia.
      * apply I. lia.
Qed.

Lemma marked_slice {A} (l : list A) v a b :
  0 <= a -> (forall i, a <= i < b -> zget v i = Some true) -> keep (slice l a b) (slice v a b) = [].
Proof.
  intros Ha H. apply keep_true. intros c Hc.
  apply slice_elem in Hc as (i & Hi & Hc); [|done]. rewrite (H i Hi) in Hc. congruence.
Qed.

(** *** The recursion *)

Definition flags_ok (vx vy : list bool) : Prop :=
  length X = length vx /\ length Y = length vy /\
  length vx = length (real_from 0 d0) /\ length vy = length (real_from 0 d1).

Theorem compareseq_spec fuel xoff xlim yoff ylim find_minimal st vx vy :
  flags_ok vx vy -> changed0 st = merge d0 vx -> changed1 st = merge d1 vy ->
  0 <= xoff <= xlim -> xlim <= zlen X -> 0 <= yoff <= ylim -> ylim <= zlen Y ->
  zlen X + zlen Y < OFFSET_MAX ->
  unmarked vx xoff xlim -> unmarked vy yoff ylim ->
  (xlim - xoff) + (ylim - yoff) < Z.of_nat fuel ->
  exists st' vx' vy',
    compareseq ctxt (real_from 0 d0) (real_from 0 d1) fuel xoff xlim yoff ylim find_minimal st
      = Some st' /\
    changed0 st' = merge d0 vx' /\ changed1 st' = merge d1 vy' /\
    compared xoff xlim yoff ylim vx vy vx' vy' /\ (find_minimal = true -> fewest xoff xlim yoff ylim vx').
Proof.
  revert xoff xlim yoff ylim find_minimal st vx vy.
  induction fuel as [|fuel IH]; intros xoff xlim yoff ylim fm st vx vy
    (Hlx & Hly & Hrx & Hry) Hc0 Hc1 Hx1 Hx2 Hy1 Hy2 Hbig Hux Huy Hfuel; [lia|].
  simpl.
  destruct (fwd_snake_spec ctxt xlim ylim xoff yoff) as (k & Hk & -> & Hall & Hend).
  assert (xoff + k <= xlim /\ yoff + k <= ylim) as [Hkx Hky].
  { destruct (decide (k = 0)); [lia|]. destruct (Hall (k - 1)) as (?&?&?); lia. }
  destruct (bwd_snake_spec ctxt (xoff + k) (yoff + k) xlim ylim) as (k' & Hk' & -> & Hall' & Hend').
  assert (xoff + k <= xlim - k' /\ yoff + k <= ylim - k') as [Hkx' Hky'].
  { destruct (decide (k' = 0)); [lia|]. destruct (Hall' k') as (?&?&?); lia. }
  assert (compared xoff (xoff + k) yoff (yoff + k) vx vy vx vy) as Hlow.
  { apply compared_match; try done; try lia; try (eapply unmarked_sub; eauto; lia).
    intros t Ht. apply Hall. lia. }
  assert (forall vx' vy', length X = length vx' -> length Y = length vy' ->
    compared (xoff + k) (xlim - k') (yoff + k) (ylim - k') vx vy vx' vy' ->
    (fm = true -> fewest (xoff + k) (xlim - k') (yoff + k) (ylim - k') vx') ->
    compared xoff xlim yoff ylim vx vy vx' vy' /\ (fm = true -> fewest xoff xlim yoff ylim vx')) as Hframe.
  { intros vx' vy' Hl1 Hl2 Hcore Hmin. split.
    2: { intros Hfm. apply (fewest_frame _ _ _ _ k k'); try done; try lia; [..|by apply Hmin];
           intros i Hi; rewrite (cmp_outx _ _ _ _ _ _ _ _ Hcore) by lia; apply Hux; lia. }
    apply (compared_trans _ _ _ _ vx vy Hlx Hly (xoff + k) (yoff + k) vx vy); try lia; [done|].
    apply (compared_trans _ _ _ _ vx vy Hlx Hly (xlim - k') (ylim - k') vx' vy'); try lia; [done|].
    apply compared_match; try done; try lia.
    - intros i Hi. rewrite (cmp_outx _ _ _ _ _ _ _ _ Hcore) by lia. apply Hux. lia.
    - intros i Hi. rewrite (cmp_outy _ _ _ _ _ _ _ _ Hcore) by lia. apply Huy. lia.
    - intros t Ht. destruct (Hall' (k' - t)) as (_ & _ & He); [lia|].
      replace (xlim - (k' - t)) with (xlim - k' + t) in He by lia.
      by replace (ylim - (k' - t)) with (ylim - k' + t) in He by lia. }
  destruct (Z.eqb_spec (xoff + k) (xlim - k')) as [Hxe|Hxne].
  { destruct (note_changes_spec d1 (Z.to_nat (ylim - k' - (yoff + k))) (yoff + k) vy)
      as (vy' & Hn & Hl & Ho & Hi); [done|lia|lia|].
    rewrite Hc1, Hn. exists (CState (fdiag st) (bdiag st) (changed0 st) (merge d1 vy')), vx, vy'. 
    split; [done|]. split; [done|]. split; [done|]. apply Hframe; [done|congruence| |intros _; apply fewest_empty; lia].
    split; try done.
    - intros i Hni. apply Ho. lia.
    - rewrite (marked_slice Y vy'); [|lia|intros i Hi'; apply Hi; lia].
      by rewrite slice_empty by lia. }
  destruct (Z.eqb_spec (yoff + k) (ylim - k')) as [Hye|Hyne].
  { destruct (note_changes_spec d0 (Z.to_nat (xlim - k' - (xoff + k))) (xoff + k) vx)
      as (vx' & Hn & Hl & Ho & Hi); [done|lia|lia|].
    rewrite Hc0, Hn. exists (CState (fdiag st) (bdiag st) (merge d0 vx') (changed1 st)), vx', vy.
    split; [done|]. split; [done|]. split; [done|]. apply Hframe; [congruence|done| |intros _; apply fewest_empty; lia].
    split; try done.
    - intros i Hni. apply Ho. lia.
    - rewrite (marked_slice X vx'); [|lia|intros i Hi'; apply Hi; lia].
      by rewrite slice_empty by lia. }
  assert (xref_yref_equal ctxt (xoff + k) (yoff + k) = false) as Hfirst.
  { destruct (xref_yref_equal ctxt (xoff + k) (yoff + k)); [|done].
    rewrite andb_true_r in Hend. zify_bool. destruct Hend; zify_bool; lia. }
  assert (xref_yref_equal ctxt (xlim - k' - 1) (ylim - k' - 1) = false) as Hlast.
  { destruct (xref_yref_equal ctxt (xlim - k' - 1) (ylim - k' - 1)); [|done].
    rewrite andb_true_r in Hend'. zify_bool. destruct Hend'; zify_bool; lia. }
  destruct (diag_spec ctxt (xoff + k) (xlim - k') (yoff + k) (ylim - k')
    ltac:(lia) ltac:(lia) ltac:(lia) ltac:(lia) ltac:(lia) Hfirst Hlast fm (fdiag st) (bdiag st))
    as (p & s & Hdiag & Hp1 & Hp2 & Hp3 & Hp4).
  rewrite Hdiag.
  destruct (IH (xoff + k) (xmid p) (yoff + k) (ymid p) (lo_minimal p)
    (CState (fd s) (bd s) (changed0 st) (changed1 st)) vx vy)
    as (st1 & vx1 & vy1 & -> & Hc01 & Hc11 & Hcmp1 & Hmin1); try done; try lia;
    try (eapply unmarked_sub; eauto; lia).
  pose proof (cmp_lenx _ _ _ _ _ _ _ _ Hcmp1). pose proof (cmp_leny _ _ _ _ _ _ _ _ Hcmp1).
  destruct (IH (xmid p) (xlim - k') (ymid p) (ylim - k') (hi_minimal p) st1 vx1 vy1)
    as (st2 & vx2 & vy2 & -> & Hc02 & Hc12 & Hcmp2 & Hmin2); try done; try lia.
  { split; [congruence|]. split; [congruence|]. split; congruence. }
  { intros i Hi. rewrite (cmp_outx _ _ _ _ _ _ _ _ Hcmp1) by lia. apply Hux. lia. }
  { intros i Hi. rewrite (cmp_outy _ _ _ _ _ _ _ _ Hcmp1) by lia. apply Huy. lia. }
  pose proof (cmp_lenx _ _ _ _ _ _ _ _ Hcmp2). pose proof (cmp_leny _ _ _ _ _ _ _ _ Hcmp2).
  exists st2, vx2, vy2. split; [done|]. split; [done|]. split; [done|].
  apply Hframe; [congruence|congruence| |].
  { apply (compared_trans _ _ _ _ vx vy Hlx Hly (xmid p) (ymid p) vx1 vy1); try done; lia. }
  intros ->. destruct (diag_opt ctxt (xoff + k) (xlim - k') (yoff + k) (ylim - k') ltac:(lia) ltac:(lia) ltac:(lia)
    ltac:(lia) ltac:(lia) Hfirst Hlast _ _ _ _ Hdiag) as (Hon & Hlo & Hhi).
  apply (fewest_trans _ _ _ _ (xmid p) (ymid p)); [congruence|lia|lia|lia|done| |by apply Hmin2].
  intros e He. rewrite (kept_ext vx2 vx1); [by apply Hmin1|lia|]. intros i Hi.
  apply (cmp_outx _ _ _ _ _ _ _ _ Hcmp2). lia.
Qed.
End Correct.

(** ** Common subsequences as paths *)

(** A common subsequence of two vectors is a path that passes its elements. *)
Lemma path_sublist ctxt x y l p0 p1 : xvec ctxt = p0 ++ x -> yvec ctxt = p1 ++ y -> l `sublist_of` x -> l `sublist_of` y ->
  path (fmatch ctxt) (zlen p0) (zlen p1) (zlen (xvec ctxt)) (zlen (yvec ctxt)) (zlen x + zlen y - 2 * zlen l).
Proof.
  assert (forall p0 p1 x y, xvec ctxt = p0 ++ x -> yvec ctxt = p1 ++ y ->
    path (fmatch ctxt) (zlen p0) (zlen p1) (zlen (xvec ctxt)) (zlen (yvec ctxt)) (zlen x + zlen y - 2 * zlen (@nil Z))) as Hnil.
  { intros q0 q1 x' y' -> ->. rewrite !length_app. match goal with |- path _ _ _ _ _ ?e =>
      replace e with (zlen q0 + zlen x' - zlen q0 + (zlen q1 + zlen y' - zlen q1)) by (simpl; lia) end.
    rewrite !Nat2Z.inj_add. apply path_straight; lia. }
  assert (forall (q : list Z) a r, zlen (q ++ [a]) = zlen q + 1 /\ q ++ a :: r = (q ++ [a]) ++ r) as Hsnoc.
  { intros q a r. rewrite length_app, <- app_assoc. simpl. split; [lia|done]. }
  revert y l p0 p1. induction x as [|a x IHx]; intros y l p0 p1 Ex Ey Hx.
  { intros _. inversion Hx; subst. by apply Hnil. }
  revert l p1 Ey Hx. induction y as [|b y IHy]; intros l p1 Ey Hx Hy.
  { inversion Hy; subst. by apply Hnil. }
  destruct (Hsnoc p0 a x) as [La Ea]. destruct (Hsnoc p1 b y) as [Lb Eb]. rewrite Ea in Ex.
  assert (l `sublist_of` x -> path (fmatch ctxt) (zlen p0) (zlen p1) (zlen (xvec ctxt)) (zlen (yvec ctxt))
    (zlen (a :: x) + zlen (b :: y) - 2 * zlen l)) as Hskip.
  { intros Hx'. pose proof (IHx (b :: y) l (p0 ++ [a]) p1 Ex Ey Hx' Hy) as Hp. rewrite La in Hp. apply path_delete in Hp.
    same_path Hp. }
  inversion Hx as [|? ? ? Hx'|? ? ? Hx']; subst; [|by apply Hskip].
  inversion Hy as [|? ? ? Hy'|? ? ? Hy']; subst.
  - pose proof (IHx y _ (p0 ++ [b]) (p1 ++ [b]) Ex ltac:(by rewrite <- Eb) Hx' Hy') as Hp. rewrite La, Lb in Hp.
    eapply path_match in Hp; [same_path Hp|].
    unfold fmatch, xref_yref_equal, zget. rewrite !(proj2 (Z.ltb_ge _ _)) by lia. rewrite Ex, Ey, !Nat2Z.id, <- app_assoc. simpl.
    rewrite !list_lookup_middle by done. apply Z.eqb_refl.
  - pose proof (IHy _ (p1 ++ [b]) ltac:(by rewrite <- Eb) Hx Hy') as Hp. rewrite Lb in Hp. apply path_insert in Hp.
    same_path Hp.
Qed.
