(* ===== verification/Analyze.v ===== *)
(** * diff/analyze.c: from two vectors of words to an edit script

    [discard_confusing_lines] takes out lines that cannot or should not take
    part in the comparison, [compareseq] compares the rest, [shift_boundaries]
    moves the changes to nicer places and [build_script] turns the flags into
    a list of changes.  Arrays are lists that are read and written with a
    bounds check: [None] stands for an access outside an array or for a loop
    that exceeds its bound.  AnalyzeProofs shows that neither happens. *)

From S2P Require Import Prelude DiffSeq EditScript.

(** ** Data (diff.h) *)

(** [struct change]; the links of the chain are the list structure. *)
Record change := Change {
  line0 : Z;
  line1 : Z;
  deleted : Z;
  inserted : Z
}.

(** The inputs of a comparison in [struct file_data]. *)
Record file_data := FileData {
  buffered_lines : Z;
  equivs : list Z
}.

(** A checked write. *)
Definition put {A} (l : list A) (i : Z) (v : A) : option (list A) :=
  let? _ := zget l i in Some (zset l i v).

(** ** discard_confusing_lines *)

(** [++equiv_count[f][equivs[i]]] for every line. *)
Fixpoint equiv_count (counts : list Z) (equivs : list Z) : option (list Z) :=
  match equivs with
  | [] => Some counts
  | e :: equivs' =>
      let? n := zget counts e in
      let? counts' := put counts e (n + 1) in
      equiv_count counts' equivs'
  end.

(** [while ((tem = tem >> 2) > 0) many *= 2;] on a 64-bit [size_t], which is
    zero after at most 32 shifts. *)
Fixpoint many_loop (n : nat) (tem many : Z) : Z :=
  match n with
  | O => many
  | S n' =>
      let tem := Z.shiftr tem 2 in
      if 0 <? tem then many_loop n' tem (many * 2) else many
  end.

Definition many (end_ : Z) : Z := many_loop 33 (end_ / 64) 5.

(** The first table: 1 for a line without a match in the other file, 2 for a
    line with many matches.  Lines of class 0 are never marked. *)
Fixpoint mark_discards (many : Z) (counts : list Z) (equivs : list Z) : option (list Z) :=
  match equivs with
  | [] => Some []
  | e :: equivs' =>
      let? d :=
        (if e =? 0 then Some 0
         else
           let? nmatch := zget counts e in
           Some (if nmatch =? 0 then 1 else if many <? nmatch then 2 else 0)) in
      let? ds := mark_discards many counts equivs' in
      Some (d :: ds)
  end.

(** Find the end of a run of discardable lines and count the provisional
    ones: [(j, provisional)]. *)
Fixpoint run_end (n : nat) (discards : list Z) (j provisional : Z) : option (Z * Z) :=
  match n with
  | O => Some (j, provisional)
  | S n' =>
      let? d := zget discards j in
      if d =? 0 then Some (j, provisional)
      else run_end n' discards (j + 1) (if d =? 2 then provisional + 1 else provisional)
  end.

(** [while (j > i && discards[j - 1] == 2) discards[--j] = 0, --provisional;] *)
Fixpoint shrink_run (n : nat) (discards : list Z) (i j provisional : Z)
  : option (list Z * Z * Z) :=
  match n with
  | O => Some (discards, j, provisional)
  | S n' =>
      if i <? j then
        let? d := zget discards (j - 1) in
        if d =? 2 then
          let? discards' := put discards (j - 1) 0 in
          shrink_run n' discards' i (j - 1) (provisional - 1)
        else Some (discards, j, provisional)
      else Some (discards, j, provisional)
  end.

(** [while (j > i) if (discards[--j] == 2) discards[j] = 0;] *)
Fixpoint cancel_all (n : nat) (discards : list Z) (i j : Z) : option (list Z) :=
  match n with
  | O => Some discards
  | S n' =>
      if i <? j then
        let? d := zget discards (j - 1) in
        let? discards' := (if d =? 2 then put discards (j - 1) 0 else Some discards) in
        cancel_all n' discards' i (j - 1)
      else Some discards
  end.

(** [while (0 < (tem >>= 2)) minimum <<= 1; minimum++;] *)
Fixpoint minimum_loop (n : nat) (tem minimum : Z) : Z :=
  match n with
  | O => minimum
  | S n' =>
      let tem := Z.shiftr tem 2 in
      if 0 <? tem then minimum_loop n' tem (Z.shiftl minimum 1) else minimum
  end.

Definition minimum_of (length_ : Z) : Z := minimum_loop 33 (Z.shiftr length_ 2) 1 + 1.

(** Cancel any subrun of [minimum] or more provisionals: when the subrun is
    found long enough, [j] goes back to its start. *)
Fixpoint cancel_subruns (n : nat) (discards : list Z) (i length_ minimum j consec : Z)
  : option (list Z) :=
  match n with
  | O => None
  | S n' =>
      if j <? length_ then
        let? d := zget discards (i + j) in
        if negb (d =? 2) then cancel_subruns n' discards i length_ minimum (j + 1) 0
        else
          let consec := consec + 1 in
          if minimum =? consec then
            cancel_subruns n' discards i length_ minimum (j - consec + 1) consec
          else if minimum <? consec then
            let? discards' := put discards (i + j) 0 in
            cancel_subruns n' discards' i length_ minimum (j + 1) consec
          else cancel_subruns n' discards i length_ minimum (j + 1) consec
      else Some discards
  end.

(** Cancel provisionals from one end of the run until three nonprovisionals in
    a row, or the first one at least 8 lines in: [dir] is 1 from the beginning
    ([discards[i + j]]) and -1 from the end ([discards[i - j]]). *)
Fixpoint cancel_edge (n : nat) (discards : list Z) (i dir length_ j consec : Z)
  : option (list Z) :=
  match n with
  | O => Some discards
  | S n' =>
      if j <? length_ then
        let? d := zget discards (i + dir * j) in
        if (8 <=? j) && (d =? 1) then Some discards
        else
          let? discards' := (if d =? 2 then put discards (i + dir * j) 0 else Some discards) in
          let consec := if d =? 2 then 0 else if d =? 0 then 0 else consec + 1 in
          if consec =? 3 then Some discards'
          else cancel_edge n' discards' i dir length_ (j + 1) consec
      else Some discards
  end.

(** The handling of the run that starts at [i]: the new table and the index of
    the last line dealt with. *)
Definition cancel_run (discards : list Z) (i end_ : Z) : option (list Z * Z) :=
  let? (j, provisional) := run_end (Z.to_nat (end_ - i)) discards i 0 in
  let? (discards, j, provisional) := shrink_run (Z.to_nat (j - i)) discards i j provisional in
  let length_ := j - i in
  if length_ <? provisional * 4 then
    let? discards := cancel_all (Z.to_nat (j - i)) discards i j in
    Some (discards, i)
  else
    let minimum := minimum_of length_ in
    let? discards :=
      cancel_subruns (S (2 * Z.to_nat length_)) discards i length_ minimum 0 0 in
    let? discards := cancel_edge (Z.to_nat length_) discards i 1 length_ 0 0 in
    let i := i + (length_ - 1) in
    let? discards := cancel_edge (Z.to_nat length_) discards i (-1) length_ 0 0 in
    Some (discards, i).

(** Don't really discard the provisional lines except in the middle of a run
    of discardables. *)
Fixpoint cancel_provisional (n : nat) (discards : list Z) (i end_ : Z) : option (list Z) :=
  match n with
  | O => None
  | S n' =>
      if i <? end_ then
        let? d := zget discards i in
        if d =? 2 then
          let? discards' := put discards i 0 in
          cancel_provisional n' discards' (i + 1) end_
        else if negb (d =? 0) then
          let? (discards', i') := cancel_run discards i end_ in
          cancel_provisional n' discards' (i' + 1) end_
        else cancel_provisional n' discards (i + 1) end_
      else Some discards
  end.

(** Which lines of a file are discarded. *)
Definition discards_of (minimal : bool) (f : file_data) (other_counts : list Z)
  : option (list bool) :=
  let? discards := mark_discards (many (buffered_lines f)) other_counts (equivs f) in
  let? discards :=
    cancel_provisional (S (length discards)) discards 0 (buffered_lines f) in
  Some (map (fun d => negb (minimal || (d =? 0))) discards).

(** What [discard_confusing_lines] fills in for each file: the [undiscarded]
    and [realindexes] vectors and the [changed] flags. *)
Record discarded := Discarded {
  undiscarded : list Z;
  realindexes : list Z;
  dchanged : list bool
}.

Definition actually_discard (f : file_data) (ds : list bool) : discarded :=
  Discarded (keep (equivs f) ds) (real_from 0 ds) ds.

Definition discard_confusing_lines (minimal : bool) (equiv_max : Z) (f0 f1 : file_data)
  : option (discarded * discarded) :=
  let? counts0 := equiv_count (replicate (Z.to_nat equiv_max) 0) (equivs f0) in
  let? counts1 := equiv_count (replicate (Z.to_nat equiv_max) 0) (equivs f1) in
  let? ds0 := discards_of minimal f0 counts1 in
  let? ds1 := discards_of minimal f1 counts0 in
  Some (actually_discard f0 ds0, actually_discard f1 ds1).

(** ** shift_boundaries *)

(** A read of the [changed] flags, which have an extra element, always 0, at
    each end. *)
Definition flag (c : list bool) (i : Z) : option bool :=
  if (i =? -1) || (i =? zlen c) then Some false else zget c i.

(** [while (c[i]) i++;] *)
Fixpoint run_up (n : nat) (c : list bool) (i : Z) : option Z :=
  match n with
  | O => None
  | S n' => let? b := flag c i in if b : bool then run_up n' c (i + 1) else Some i
  end.

(** [while (c[i - 1]) i--;] *)
Fixpoint run_down (n : nat) (c : list bool) (i : Z) : option Z :=
  match n with
  | O => None
  | S n' => let? b := flag c (i - 1) in if b : bool then run_down n' c (i - 1) else Some i
  end.

Definition up (c : list bool) (i : Z) : option Z := run_up (S (length c)) c i.
Definition down (c : list bool) (i : Z) : option Z := run_down (S (length c)) c i.

(** [while (c[j++]) continue;] *)
Definition skip_next (c : list bool) (j : Z) : option Z :=
  let? j := up c j in Some (j + 1).

(** [while (c[--j]) continue;] *)
Definition skip_prev (c : list bool) (j : Z) : option Z :=
  let? j := down c j in Some (j - 1).

Section Shift.
Context (equivs : list Z) (other_changed : list bool) (i_end : Z).

(** Scan forwards to the beginning of another run of changes. *)
Fixpoint scan_unchanged (n : nat) (changed : list bool) (i j : Z) : option (Z * Z) :=
  match n with
  | O => None
  | S n' =>
      if i <? i_end then
        let? b := flag changed i in
        if b : bool then Some (i, j)
        else
          let? j := skip_next other_changed j in
          scan_unchanged n' changed (i + 1) j
      else Some (i, j)
  end.

(** Move the changed region back, so long as the previous unchanged line
    matches the last changed one. *)
Fixpoint move_back (n : nat) (changed : list bool) (start i j : Z)
  : option (list bool * Z * Z * Z) :=
  match n with
  | O => None
  | S n' =>
      if start =? 0 then Some (changed, start, i, j)
      else
        let? a := zget equivs (start - 1) in
        let? b := zget equivs (i - 1) in
        if a =? b then
          let? changed := put changed (start - 1) true in
          let? changed := put changed (i - 1) false in
          let? start := down changed (start - 1) in
          let? j := skip_prev other_changed j in
          move_back n' changed start (i - 1) j
        else Some (changed, start, i, j)
  end.

(** Move the changed region forward, so long as the first changed line
    matches the following unchanged one. *)
Fixpoint move_forward (n : nat) (changed : list bool) (start i j corresponding : Z)
  : option (list bool * Z * Z * Z * Z) :=
  match n with
  | O => None
  | S n' =>
      if i =? i_end then Some (changed, start, i, j, corresponding)
      else
        let? a := zget equivs start in
        let? b := zget equivs i in
        if a =? b then
          let? changed := put changed start false in
          let? changed := put changed i true in
          let? i := up changed (i + 1) in
          let? j' := up other_changed (j + 1) in
          let corresponding := if j + 1 <? j' then i else corresponding in
          move_forward n' changed (start + 1) i j' corresponding
        else Some (changed, start, i, j, corresponding)
  end.

(** The [do ... while (runlength != i - start)] loop. *)
Fixpoint slide (n : nat) (changed : list bool) (start i j : Z)
  : option (list bool * Z * Z * Z * Z) :=
  match n with
  | O => None
  | S n' =>
      let runlength := i - start in
      let? (changed, start, i, j) := move_back (S (length changed)) changed start i j in
      let? b := flag other_changed (j - 1) in
      let corresponding := if b : bool then i else i_end in
      let? (changed, start, i, j, corresponding) :=
        move_forward (S (length changed)) changed start i j corresponding in
      if runlength =? i - start then Some (changed, start, i, j, corresponding)
      else slide n' changed start i j
  end.

(** Move the fully-merged run of changes back to a corresponding run in the
    other file. *)
Fixpoint move_corresponding (n : nat) (changed : list bool) (start i j corresponding : Z)
  : option (list bool * Z * Z) :=
  match n with
  | O => None
  | S n' =>
      if corresponding <? i then
        let? changed := put changed (start - 1) true in
        let? changed := put changed (i - 1) false in
        let? j := skip_prev other_changed j in
        move_corresponding n' changed (start - 1) (i - 1) j corresponding
      else Some (changed, i, j)
  end.

(** The [while (1)] loop of one file. *)
Fixpoint shift_runs (n : nat) (changed : list bool) (i j : Z) : option (list bool) :=
  match n with
  | O => None
  | S n' =>
      let? (i, j) := scan_unchanged (S (length changed)) changed i j in
      if i =? i_end then Some changed
      else
        let start := i in
        let? i := up changed (i + 1) in
        let? j := up other_changed j in
        let? (changed, start, i, j, corresponding) :=
          slide (S (length changed)) changed start i j in
        let? (changed, i, j) :=
          move_corresponding (S (length changed)) changed start i j corresponding in
        shift_runs n' changed i j
  end.
End Shift.

Definition shift_file (f : file_data) (changed other_changed : list bool) : option (list bool) :=
  shift_runs (equivs f) other_changed (buffered_lines f) (S (length changed)) changed 0 0.

Definition shift_boundaries (f0 f1 : file_data) (changed0 changed1 : list bool)
  : option (list bool * list bool) :=
  let? changed0 := shift_file f0 changed0 changed1 in
  let? changed1 := shift_file f1 changed1 changed0 in
  Some (changed0, changed1).

(** ** build_script *)

Definition add_change (line0 line1 deleted inserted : Z) (old : list change) : list change :=
  Change line0 line1 deleted inserted :: old.

Fixpoint build_loop (n : nat) (changed0 changed1 : list bool) (i0 i1 : Z) (script : list change)
  : option (list change) :=
  match n with
  | O => None
  | S n' =>
      if (0 <=? i0) || (0 <=? i1) then
        let? b0 := flag changed0 (i0 - 1) in
        let? b1 := flag changed1 (i1 - 1) in
        if (b0 || b1 : bool) then
          let line0 := i0 in
          let line1 := i1 in
          let? i0 := down changed0 i0 in
          let? i1 := down changed1 i1 in
          build_loop n' changed0 changed1 (i0 - 1) (i1 - 1)
            (add_change i0 i1 (line0 - i0) (line1 - i1) script)
        else build_loop n' changed0 changed1 (i0 - 1) (i1 - 1) script
      else Some script
  end.

Definition build_script (f0 f1 : file_data) (changed0 changed1 : list bool)
  : option (list change) :=
  build_loop (S (S (length changed0))) changed0 changed1
    (buffered_lines f0) (buffered_lines f1) [].

(** ** diff_2_files *)

(** [for (; diags != 0; diags >>= 2) too_expensive <<= 1;] on a 64-bit [lin]. *)
Fixpoint too_expensive_loop (n : nat) (diags too_expensive : Z) : Z :=
  match n with
  | O => too_expensive
  | S n' =>
      if diags =? 0 then too_expensive
      else too_expensive_loop n' (Z.shiftr diags 2) (Z.shiftl too_expensive 1)
  end.

Definition too_expensive_of (diags : Z) : Z := Z.max 256 (too_expensive_loop 33 diags 1).

(** The options [minimal] and [speed_large_files] are globals that [doDiff]
    sets.  [fdiag] and [bdiag] are uninitialised memory. *)
Definition diff_2_files (minimal speed_large_files : bool) (equiv_max : Z)
    (mem : memory) (f0 f1 : file_data) : option (list change) :=
  let? (d0, d1) := discard_confusing_lines minimal equiv_max f0 f1 in
  let n0 := zlen (undiscarded d0) in
  let n1 := zlen (undiscarded d1) in
  let ctxt := MkContext (undiscarded d0) (undiscarded d1) speed_large_files
                (too_expensive_of (n0 + n1 + 3)) (mem_outside mem) in
  let? st :=
    compareseq ctxt (realindexes d0) (realindexes d1) (S (Z.to_nat (n0 + n1)))
      0 n0 0 n1 minimal (CState (mem_fdiag mem) (mem_bdiag mem) (dchanged d0) (dchanged d1)) in
  let? (changed0, changed1) := shift_boundaries f0 f1 (changed0 st) (changed1 st) in
  build_script f0 f1 changed0 changed1.

Example diff_2_files_small :
  diff_2_files false false 8 zero_memory
    (FileData 5 [1; 2; 3; 4; 5]) (FileData 5 [1; 6; 3; 5; 7])
  = Some [Change 1 1 1 1; Change 3 3 1 0; Change 5 4 0 1].
Proof. vm_compute. reflexivity. Qed.

(** A run that slides down to the last line that matches. *)
Example shift_small :
  shift_boundaries (FileData 4 [1; 1; 1; 2]) (FileData 3 [1; 1; 2])
    [true; false; false; false] [false; false; false]
  = Some ([false; false; true; false], [false; false; false]).
Proof. vm_compute. reflexivity. Qed.
