(* ===== verification/FlagCounts.v ===== *)
(** * Counting unchanged lines

    Positions of the two files correspond when the same number of unchanged
    lines precedes them.  [kc c k] counts those lines; the lemmas say how it
    moves along the flags, how it reacts to an update and how it indexes the
    kept lines.  The file ends with the specifications of the flag scans of
    analyze.c. *)

From S2P Require Import Prelude EditScript Analyze.

Fixpoint kcn (c : list bool) (k : nat) : Z :=
  match c, k with
  | b :: c', S k' => (if b then 0 else 1) + kcn c' k'
  | _, _ => 0
  end.

Definition kc (c : list bool) (k : Z) : Z := kcn c (Z.to_nat k).

(** The flag at [k], with the zeroes around the vector. *)
Definition fl (c : list bool) (k : Z) : bool := default false (zget c k).

Lemma kcn_S c k (b : bool) : c !! k = Some b -> kcn c (S k) = kcn c k + (if b then 0 else 1).
Proof.
  revert k. induction c as [|a c IH]; intros [|k]; simpl; try done.
  - intros [= ->]. destruct c; simpl; lia.
  - intros H%IH. simpl in H. lia.
Qed.

Lemma kcn_ge c k : (length c <= k)%nat -> kcn c k = kcn c (length c).
Proof. revert k. induction c as [|a c IH]; intros [|k]; simpl; try done; try lia. intros. rewrite IH; lia. Qed.

Lemma kcn_bounds c k : 0 <= kcn c k <= Z.of_nat k.
Proof.
  revert k. induction c as [|a c IH]; intros [|k]; simpl; try lia.
  specialize (IH k). destruct a; lia.
Qed.

Lemma kcn_insert c p (v b : bool) k : c !! p = Some b ->
  kcn (<[p := v]> c) k
  = kcn c k + (if decide (p < k)%nat then (if v : bool then 0 else 1) - (if b : bool then 0 else 1) else 0).
Proof.
  revert p k. induction c as [|a c IH]; intros [|p] [|k]; simpl; try done.
  - intros [= ->]. lia.
  - intros H. specialize (IH _ k H). repeat case_decide; lia.
Qed.

Lemma fl_flag c k : -1 <= k <= zlen c -> flag c k = Some (fl c k).
Proof.
  intros H. unfold flag, fl. case_if.
  - destruct E; zify_bool; subst; unfold zget; simpl; [done|].
    case_if; [lia|]. rewrite lookup_ge_None_2 by lia. done.
  - destruct (zget_Some c k) as [b Hb]; [lia|]. by rewrite Hb.
Qed.

Lemma fl_zget c k : 0 <= k < zlen c -> zget c k = Some (fl c k).
Proof. intros H. unfold fl. destruct (zget_Some c k H) as [b ->]. done. Qed.

Lemma fl_out c k : k < 0 \/ zlen c <= k -> fl c k = false.
Proof.
  intros H. unfold fl, zget. case_if; [done|]. rewrite lookup_ge_None_2; [done|lia].
Qed.

Lemma fl_true c k : fl c k = true -> 0 <= k < zlen c.
Proof.
  intros H. destruct (decide (0 <= k < zlen c)); [done|]. rewrite fl_out in H by lia. done.
Qed.

Lemma fl_zset c p v k : 0 <= p < zlen c -> fl (zset c p v) k = if k =? p then v else fl c k.
Proof.
  intros Hp. unfold fl. case_if; subst; [by rewrite zget_zset_eq|].
  by rewrite zget_zset_ne by lia.
Qed.

Lemma put_ok {A} (c : list A) p v : 0 <= p < zlen c -> put c p v = Some (zset c p v).
Proof. intros H. unfold put. destruct (zget_Some c p H) as [b ->]. done. Qed.

Lemma kc_0 c : kc c 0 = 0.
Proof. unfold kc. simpl. by destruct c. Qed.

Lemma kc_succ c k : 0 <= k < zlen c -> kc c (k + 1) = kc c k + (if fl c k then 0 else 1).
Proof.
  intros H. unfold kc. replace (Z.to_nat (k + 1)) with (S (Z.to_nat k)) by lia.
  apply kcn_S. pose proof (fl_zget c k H) as E. unfold zget in E. by destruct (k <? 0).
Qed.

Lemma kc_pred c k : 0 < k <= zlen c -> kc c k = kc c (k - 1) + (if fl c (k - 1) then 0 else 1).
Proof. intros H. pose proof (kc_succ c (k - 1) ltac:(lia)) as E. by replace (k - 1 + 1) with k in E by lia. Qed.

Lemma kc_bounds c k : 0 <= k -> 0 <= kc c k <= k.
Proof. intros H. unfold kc. pose proof (kcn_bounds c (Z.to_nat k)). lia. Qed.

Lemma kc_zset c p v k : 0 <= p < zlen c -> 0 <= k ->
  kc (zset c p v) k
  = kc c k + (if p <? k then (if v then 0 else 1) - (if fl c p then 0 else 1) else 0).
Proof.
  intros Hp Hk. unfold kc. pose proof (fl_zget c p Hp) as E. unfold zget in E.
  unfold zset. destruct (p <? 0) eqn:Ep; [done|].
  rewrite (kcn_insert c _ v (fl c p)) by done. repeat case_if; case_decide; lia.
Qed.

(** A stretch of changed lines does not count. *)
Lemma kc_run c a b : 0 <= a <= b -> b <= zlen c ->
  (forall k, a <= k < b -> fl c k = true) -> kc c b = kc c a.
Proof.
  intros Hab Hb. remember (Z.to_nat (b - a)) as n eqn:Hn. revert b Hab Hb Hn.
  induction n as [|n IH]; intros b Hab Hb Hn Htrue.
  - by replace b with a by lia.
  - rewrite kc_pred by lia. rewrite Htrue by lia. rewrite (IH (b - 1)); try lia.
    intros. apply Htrue. lia.
Qed.

Lemma kc_mono c a b : 0 <= a <= b -> b <= zlen c -> kc c a <= kc c b.
Proof.
  intros Hab Hb. remember (Z.to_nat (b - a)) as n eqn:Hn. revert b Hab Hb Hn.
  induction n as [|n IH]; intros b Hab Hb Hn.
  - replace b with a by lia. lia.
  - rewrite (kc_pred c b) by lia. specialize (IH (b - 1)). destruct (fl c (b - 1)); lia.
Qed.

Lemma kc_slope c a b : 0 <= a <= b -> b <= zlen c -> kc c b - kc c a <= b - a.
Proof.
  intros Hab Hb. remember (Z.to_nat (b - a)) as n eqn:Hn. revert b Hab Hb Hn.
  induction n as [|n IH]; intros b Hab Hb Hn.
  - replace b with a by lia. lia.
  - rewrite (kc_pred c b) by lia. specialize (IH (b - 1)). destruct (fl c (b - 1)); lia.
Qed.

(** ** Kept lines *)

Lemma kcn_keep {A} (l : list A) c :
  length l = length c -> kcn c (length c) = zlen (keep l c).
Proof.
  revert c. induction l as [|x l IH]; intros [|[] c]; simpl; try done; intros [=].
  - by rewrite IH.
  - rewrite IH by done. lia.
Qed.

Lemma kc_keep {A} (l : list A) c : length l = length c -> kc c (zlen c) = zlen (keep l c).
Proof. intros. unfold kc. rewrite Nat2Z.id. by apply kcn_keep. Qed.

Lemma keep_lookup {A} (l : list A) c k x :
  l !! k = Some x -> c !! k = Some false -> keep l c !! Z.to_nat (kcn c k) = Some x.
Proof.
  revert c k. induction l as [|y l IH]; intros [|b c] [|k]; simpl; try done.
  - intros [= ->] [= ->]. done.
  - intros Hl Hc. specialize (IH _ _ Hl Hc). pose proof (kcn_bounds c k).
    destruct b; simpl; [done|]. by replace (Z.to_nat (1 + kcn c k)) with (S (Z.to_nat (kcn c k))) by lia.
Qed.

(** Corresponding unchanged lines are equal. *)
Lemma keep_matched {A} (l l' : list A) c c' i j :
  length l = length c -> length l' = length c' -> keep l c = keep l' c' ->
  0 <= i < zlen c -> 0 <= j < zlen c' -> fl c i = false -> fl c' j = false ->
  kc c i = kc c' j -> zget l i = zget l' j.
Proof.
  intros Hl Hl' Hk Hi Hj Fi Fj Hc.
  pose proof (fl_zget c i Hi) as Zi. pose proof (fl_zget c' j Hj) as Zj. rewrite Fi in Zi. rewrite Fj in Zj.
  destruct (zget_Some l i) as [x Hx]; [lia|]. destruct (zget_Some l' j) as [y Hy]; [lia|].
  rewrite Hx, Hy. unfold zget, kc in *.
  destruct (i <? 0); [done|]. destruct (j <? 0); [done|].
  pose proof (keep_lookup _ _ _ _ Hx Zi). pose proof (keep_lookup _ _ _ _ Hy Zj). congruence.
Qed.

(** ** The flag scans *)

Lemma run_up_spec n c i : 0 <= i <= zlen c -> zlen c - i < Z.of_nat n ->
  exists i', run_up n c i = Some i' /\ i <= i' <= zlen c /\
    (forall k, i <= k < i' -> fl c k = true) /\ fl c i' = false.
Proof.
  revert i. induction n as [|n IH]; intros i Hi Hn; [lia|]. simpl.
  rewrite fl_flag by lia. simpl. destruct (fl c i) eqn:E.
  - pose proof (fl_true _ _ E). destruct (IH (i + 1)) as (i' & -> & Hb & Ht & Hf); [lia..|].
    exists i'. split; [done|]. split; [lia|]. split; [|done].
    intros k Hk. destruct (decide (k = i)) as [->|]; [done|]. apply Ht. lia.
  - exists i. split; [done|]. split; [lia|]. split; [lia|done].
Qed.

Lemma run_down_spec n c i : 0 <= i <= zlen c -> i < Z.of_nat n ->
  exists i', run_down n c i = Some i' /\ 0 <= i' <= i /\
    (forall k, i' <= k < i -> fl c k = true) /\ fl c (i' - 1) = false.
Proof.
  revert i. induction n as [|n IH]; intros i Hi Hn; [lia|]. simpl.
  rewrite fl_flag by lia. simpl. destruct (fl c (i - 1)) eqn:E.
  - pose proof (fl_true _ _ E). destruct (IH (i - 1)) as (i' & -> & Hb & Ht & Hf); [lia..|].
    exists i'. split; [done|]. split; [lia|]. split; [|done].
    intros k Hk. destruct (decide (k = i - 1)) as [->|]; [done|]. apply Ht. lia.
  - exists i. split; [done|]. split; [lia|]. split; [lia|done].
Qed.

Lemma up_spec c i : 0 <= i <= zlen c ->
  exists i', up c i = Some i' /\ i <= i' <= zlen c /\
    (forall k, i <= k < i' -> fl c k = true) /\ fl c i' = false /\ kc c i' = kc c i.
Proof.
  intros Hi. destruct (run_up_spec (S (length c)) c i) as (i' & H & Hb & Ht & Hf); [lia..|].
  exists i'. repeat split; try done; try lia. apply kc_run; [lia..|done].
Qed.

Lemma down_spec c i : 0 <= i <= zlen c ->
  exists i', down c i = Some i' /\ 0 <= i' <= i /\
    (forall k, i' <= k < i -> fl c k = true) /\ fl c (i' - 1) = false /\ kc c i' = kc c i.
Proof.
  intros Hi. destruct (run_down_spec (S (length c)) c i) as (i' & H & Hb & Ht & Hf); [lia..|].
  exists i'. repeat split; try done; try lia. symmetry. apply kc_run; [lia..|done].
Qed.

(** [skip_next] passes one unchanged line, [skip_prev] goes back to one. *)
Lemma skip_next_spec c j : 0 <= j <= zlen c -> kc c j < kc c (zlen c) ->
  exists j', skip_next c j = Some j' /\ j < j' <= zlen c /\ kc c j' = kc c j + 1.
Proof.
  intros Hj Hk. unfold skip_next. destruct (up_spec c j Hj) as (j' & -> & Hb & Ht & Hf & Hc). simpl.
  destruct (decide (j' = zlen c)) as [->|]; [lia|].
  exists (j' + 1). split; [done|]. split; [lia|]. rewrite kc_succ, Hf by lia. lia.
Qed.

Lemma skip_prev_spec c j : 0 <= j <= zlen c -> 0 < kc c j ->
  exists j', skip_prev c j = Some j' /\ 0 <= j' < j /\ kc c j' = kc c j - 1 /\ fl c j' = false.
Proof.
  intros Hj Hk. unfold skip_prev. destruct (down_spec c j Hj) as (j' & -> & Hb & Ht & Hf & Hc). simpl.
  destruct (decide (j' = 0)) as [->|]; [rewrite kc_0 in Hc; lia|].
  exists (j' - 1). split; [done|]. split; [lia|]. split; [|done].
  pose proof (kc_pred c j' ltac:(lia)) as E. rewrite Hf in E. lia.
Qed.
