(* ===== verification/ShiftProofs.v ===== *)
(** * Correctness of [shift_boundaries]

    Sliding a run of changes over equal lines does not change which lines are
    kept, all array accesses are in range and every loop ends: the inner ones
    because the run moves in one direction, the [do] loop because the run
    grows, the outer one because more changed lines lie behind the position
    reached. *)

From S2P Require Import Prelude EditScript Analyze FlagCounts.

(** ** Exchanging a kept line and a changed one *)

Lemma keep_run {A} (l : list A) c a b :
  0 <= a -> (forall i, a <= i < b -> fl c i = true) -> keep (slice l a b) (slice c a b) = [].
Proof.
  intros Ha H. apply keep_true. intros v Hv.
  apply slice_elem in Hv as (i & Hi & Hv); [|done]. specialize (H i Hi). unfold fl in H.
  by rewrite Hv in H.
Qed.

(** A stretch with a single unchanged line. *)
Lemma one_kept {A} (l : list A) c a p b x :
  length l = length c -> 0 <= a <= p -> p < b -> b <= zlen c -> zget l p = Some x ->
  fl c p = false -> (forall i, a <= i < b -> i <> p -> fl c i = true) ->
  keep (slice l a b) (slice c a b) = [x].
Proof.
  intros Hlen Ha Hp Hb Hx Hf Ht.
  rewrite (slice_split l a p b), (slice_split c a p b) by lia.
  rewrite (slice_split l p (p + 1) b), (slice_split c p (p + 1) b) by lia.
  rewrite !keep_app by (rewrite !slice_length; lia).
  rewrite keep_run; [|lia|intros; apply Ht; lia].
  rewrite (keep_run l c (p + 1)); [|lia|intros; apply Ht; lia].
  rewrite (slice_single l p x Hx), (slice_single c p false); [done|].
  rewrite fl_zget by lia. by rewrite Hf.
Qed.

(** Two flag vectors that differ only in [a, b) and keep the same there. *)
Lemma keep_local {A} (l : list A) c c' a b :
  length l = length c -> length c' = length c -> 0 <= a <= b -> b <= zlen c ->
  (forall i, ~ (a <= i < b) -> zget c' i = zget c i) ->
  keep (slice l a b) (slice c' a b) = keep (slice l a b) (slice c a b) ->
  keep l c' = keep l c.
Proof.
  intros Hl Hc' Ha Hb Hout Hin.
  rewrite <- (slice_all l), <- (slice_all c'), <- (slice_all c), Hl, Hc'.
  rewrite (slice_split l 0 a), (slice_split c' 0 a), (slice_split c 0 a) by lia.
  rewrite (slice_split l a b), (slice_split c' a b), (slice_split c a b) by lia.
  rewrite !keep_app by (rewrite !slice_length; lia).
  rewrite Hin. f_equal; [|f_equal]; f_equal; apply slice_ext; try lia; intros; apply Hout; lia.
Qed.

Lemma keep_back {A} (l : list A) c a b x :
  length l = length c -> 0 <= a < b -> b < zlen c ->
  zget l a = Some x -> zget l b = Some x ->
  fl c a = false -> (forall i, a < i <= b -> fl c i = true) ->
  keep l (zset (zset c a true) b false) = keep l c.
Proof.
  intros Hl Ha Hb Hxa Hxb Fa Ft.
  apply (keep_local _ _ _ a (b + 1)); rewrite ?zset_length; try lia.
  - intros i Hi. by rewrite !zget_zset_ne by lia.
  - rewrite (one_kept l c a a (b + 1) x); try done; try lia; [|intros; apply Ft; lia].
    apply (one_kept _ _ a b); rewrite ?zset_length; try done; try lia.
    + rewrite fl_zset by (rewrite zset_length; lia). by rewrite Z.eqb_refl.
    + intros i Hi Hne. rewrite fl_zset by (rewrite zset_length; lia).
      rewrite fl_zset by lia. repeat case_if; try done; try lia. apply Ft. lia.
Qed.

Lemma keep_forward {A} (l : list A) c a b x :
  length l = length c -> 0 <= a < b -> b < zlen c ->
  zget l a = Some x -> zget l b = Some x ->
  fl c b = false -> (forall i, a <= i < b -> fl c i = true) ->
  keep l (zset (zset c a false) b true) = keep l c.
Proof.
  intros Hl Ha Hb Hxa Hxb Fb Ft.
  apply (keep_local _ _ _ a (b + 1)); rewrite ?zset_length; try lia.
  - intros i Hi. by rewrite !zget_zset_ne by lia.
  - rewrite (one_kept l c a b (b + 1) x); try done; try lia; [|intros; apply Ft; lia].
    apply (one_kept _ _ a a); rewrite ?zset_length; try done; try lia.
    + rewrite fl_zset by (rewrite zset_length; lia). rewrite fl_zset by lia. repeat case_if; try done; lia.
    + intros i Hi Hne. rewrite fl_zset by (rewrite zset_length; lia).
      rewrite fl_zset by lia. repeat case_if; try done; try lia. apply Ft. lia.
Qed.

(** ** A run of changes and its corresponding position *)

Section ShiftFile.
Context (e : list Z) (o : list bool).
Abbreviation n := (zlen e).
Abbreviation m := (zlen o).

(** [start] to [i] is a maximal run of changes and [j] is the corresponding
    position in the other file. *)
Record run (c : list bool) (start i j : Z) : Prop := {
  run_len : length c = length e;
  run_bounds : 0 <= start < i /\ i <= n;
  run_true k : start <= k < i -> fl c k = true;
  run_before : fl c (start - 1) = false;
  run_after : fl c i = false;
  run_j : 0 <= j <= m;
  run_j_kept : fl o j = false;
  run_kc : kc c i = kc o j;
  run_total : kc c n = kc o m
}.

(** The number of changed lines before [i]. *)
Definition behind (c : list bool) (i : Z) : Z := i - kc c i.

Lemma run_kc_start c start i j : run c start i j -> kc c i = kc c start.
Proof. intros R. destruct (run_bounds _ _ _ _ R). apply kc_run; [lia|rewrite (run_len _ _ _ _ R); lia|apply R]. Qed.

Lemma back_step c start i j :
  run c start i j -> 0 < start -> zget e (start - 1) = zget e (i - 1) ->
  exists start' j',
    let c' := zset (zset c (start - 1) true) (i - 1) false in
    put c (start - 1) true = Some (zset c (start - 1) true) /\
    put (zset c (start - 1) true) (i - 1) false = Some c' /\
    down c' (start - 1) = Some start' /\ skip_prev o j = Some j' /\
    start' <= start - 1 /\ run c' start' (i - 1) j' /\ keep e c' = keep e c /\
    behind c' (i - 1) = behind c i.
Proof.
  intros R Hs He. pose proof (run_bounds _ _ _ _ R) as [Hb Hn]. pose proof (run_len _ _ _ _ R) as Hlen.
  pose proof (run_kc_start _ _ _ _ R) as Hks.
  pose proof (kc_pred c start ltac:(lia)) as Hp. rewrite (run_before _ _ _ _ R) in Hp.
  pose proof (kc_bounds c (start - 1) ltac:(lia)).
  set (c' := zset (zset c (start - 1) true) (i - 1) false).
  assert (length c' = length c) as Hlc by (unfold c'; by rewrite !zset_length).
  assert (forall k, fl c' k = if k =? i - 1 then false else if k =? start - 1 then true else fl c k) as Hfl.
  { intros k. unfold c'. rewrite fl_zset by (rewrite zset_length; lia). by rewrite fl_zset by lia. }
  assert (forall k, 0 <= k -> kc c' k = kc c k + (if i - 1 <? k then 1 else 0) - (if start - 1 <? k then 1 else 0)) as Hkc.
  { intros k Hk. unfold c'. rewrite kc_zset by (rewrite ?zset_length; lia). rewrite kc_zset by lia.
    rewrite fl_zset by lia. rewrite (run_before _ _ _ _ R).
    rewrite (run_true _ _ _ _ R (i - 1)) by lia. repeat case_if; try done; lia. }
  destruct (down_spec c' (start - 1)) as (start' & Hd & Hds & Hdt & Hdf & Hdk); [lia|].
  destruct (skip_prev_spec o j) as (j' & Hj & Hjb & Hjk & Hjf);
    [apply (run_j _ _ _ _ R)|rewrite <- (run_kc _ _ _ _ R); lia|].
  exists start', j'. cbv zeta. rewrite !put_ok by (rewrite ?zset_length; lia).
  repeat split; try done; try lia.
  - intros k Hk. rewrite Hfl. repeat case_if; try done; try lia.
    destruct (decide (k < start - 1)); [|apply (run_true _ _ _ _ R); lia].
    specialize (Hdt k ltac:(lia)). revert Hdt. rewrite Hfl. repeat case_if; done || lia.
  - rewrite Hfl. by rewrite Z.eqb_refl.
  - pose proof (run_j _ _ _ _ R). lia.
  - rewrite Hkc by lia. rewrite Hjk. pose proof (run_kc _ _ _ _ R).
    pose proof (kc_pred c i ltac:(lia)) as Hpi. rewrite (run_true _ _ _ _ R (i - 1)) in Hpi by lia.
    repeat case_if; lia.
  - rewrite Hkc by lia. pose proof (run_total _ _ _ _ R). repeat case_if; lia.
  - destruct (zget_Some e (i - 1)) as [x Hx]; [lia|].
    apply (keep_back _ _ _ _ x); try done; try lia; [congruence|apply R|].
    intros k Hk. apply (run_true _ _ _ _ R). lia.
  - unfold behind. rewrite Hkc by lia.
    pose proof (kc_pred c i ltac:(lia)) as Hpi. rewrite (run_true _ _ _ _ R (i - 1)) in Hpi by lia.
    repeat case_if; lia.
Qed.

Lemma forward_step c start i j :
  run c start i j -> i < n -> zget e start = zget e i ->
  exists i' j',
    let c' := zset (zset c start false) i true in
    put c start false = Some (zset c start false) /\
    put (zset c start false) i true = Some c' /\
    up c' (i + 1) = Some i' /\ up o (j + 1) = Some j' /\
    i + 1 <= i' /\ run c' (start + 1) i' j' /\ keep e c' = keep e c /\
    behind c i <= behind c' i' /\
    (forall t, fl c' t = if t =? i then true else if t =? start then false else fl c t).
Proof.
  intros R Hi He. pose proof (run_bounds _ _ _ _ R) as [Hb Hn]. pose proof (run_len _ _ _ _ R) as Hlen.
  pose proof (run_kc _ _ _ _ R) as Hk. pose proof (run_total _ _ _ _ R) as Ht.
  pose proof (run_j _ _ _ _ R) as Hj.
  pose proof (kc_succ c i ltac:(lia)) as Hki. rewrite (run_after _ _ _ _ R) in Hki.
  pose proof (kc_mono c (i + 1) n ltac:(lia) ltac:(lia)) as Hmono.
  assert (j < m) as Hjm. { destruct (decide (j = m)) as [->|]; lia. }
  pose proof (kc_succ o j ltac:(lia)) as Hkj. rewrite (run_j_kept _ _ _ _ R) in Hkj.
  set (c' := zset (zset c start false) i true).
  assert (length c' = length c) as Hlc by (unfold c'; by rewrite !zset_length).
  assert (forall k, fl c' k = if k =? i then true else if k =? start then false else fl c k) as Hfl.
  { intros k. unfold c'. rewrite fl_zset by (rewrite zset_length; lia). by rewrite fl_zset by lia. }
  assert (forall k, 0 <= k -> kc c' k = kc c k + (if start <? k then 1 else 0) - (if i <? k then 1 else 0)) as Hkc.
  { intros k H0. unfold c'. rewrite kc_zset by (rewrite ?zset_length; lia). rewrite kc_zset by lia.
    rewrite fl_zset by lia. rewrite (run_after _ _ _ _ R).
    rewrite (run_true _ _ _ _ R start) by lia. repeat case_if; try done; lia. }
  destruct (up_spec c' (i + 1)) as (i' & Hu & Hub & Hut & Huf & Huk); [lia|].
  destruct (up_spec o (j + 1)) as (j' & Hv & Hvb & Hvt & Hvf & Hvk); [lia|].
  assert (kc c' i' = kc c i + 1) as Hki'. { rewrite Huk, Hkc by lia. repeat case_if; lia. }
  exists i', j'. cbv zeta. rewrite !put_ok by (rewrite ?zset_length; lia).
  repeat split; try done; try lia.
  - intros k H0. destruct (decide (k < i + 1)); [|apply Hut; lia].
    rewrite Hfl. repeat case_if; try done; try lia. apply (run_true _ _ _ _ R). lia.
  - rewrite Hfl. replace (start + 1 - 1) with start by lia. repeat case_if; done || lia.
  - rewrite Hkc by lia. repeat case_if; lia.
  - destruct (zget_Some e i) as [x Hx]; [lia|].
    apply (keep_forward _ _ _ _ x); try done; try lia; [congruence|apply R|apply R].
  - unfold behind. lia.
Qed.

(** ** The loops *)

Lemma move_back_spec k c start i j :
  run c start i j -> i < Z.of_nat k ->
  exists c' start' i' j', move_back e o k c start i j = Some (c', start', i', j') /\
    run c' start' i' j' /\ keep e c' = keep e c /\ behind c' i' = behind c i /\
    i - start <= i' - start'.
Proof.
  revert c start i j. induction k as [|k IH]; intros c start i j R Hi;
    pose proof (run_bounds _ _ _ _ R) as [Hb Hn]; [lia|]. cbn [move_back].
  case_if; [eauto 10 with lia|].
  destruct (zget_Some e (start - 1)) as [x Hx]; [lia|]. destruct (zget_Some e (i - 1)) as [y Hy]; [lia|].
  rewrite Hx, Hy. obind. case_if; [|eauto 10 with lia]. subst y.
  destruct (back_step c start i j R ltac:(lia)) as (start' & j' & H); [congruence|]. cbv zeta in H.
  destruct H as (-> & H2 & H3 & -> & Hs & R' & Hkeep & Hbeh). obind. rewrite H2. obind. rewrite H3. obind.
  destruct (IH _ _ _ _ R' ltac:(lia)) as (c2 & s2 & i2 & j2 & -> & R2 & Hk2 & Hb2 & Hl2).
  exists c2, s2, i2, j2. repeat split; try apply R2; try congruence; lia.
Qed.

Lemma move_forward_spec k c start i j corr :
  run c start i j -> n - i < Z.of_nat k ->
  exists c' start' i' j' corr',
    move_forward e o n k c start i j corr = Some (c', start', i', j', corr') /\
    run c' start' i' j' /\ keep e c' = keep e c /\ behind c i <= behind c' i' /\
    i - start <= i' - start' /\ start <= start' /\
    (forall t, t < start -> fl c' t = fl c t) /\
    (corr' = corr \/ i <= corr' <= i') /\
    (i' - start' = i - start ->
     forall t, start <= t < start' -> fl c' t = false /\ zget e t = zget e (t + (i - start))).
Proof.
  revert c start i j corr. induction k as [|k IH]; intros c start i j corr R Hi;
    pose proof (run_bounds _ _ _ _ R) as [Hb Hn]; [lia|]. cbn [move_forward].
  case_if.
    { eexists _, _, _, _, _. repeat split; try apply R; try done; try lia. }
    destruct (zget_Some e start) as [x Hx]; [lia|]. destruct (zget_Some e i) as [y Hy]; [lia|].
    rewrite Hx, Hy. obind. case_if.
    2: { eexists _, _, _, _, _. repeat split; try apply R; try done; try lia. }
    subst y. destruct (forward_step c start i j R ltac:(lia)) as (i1 & j1 & H); [congruence|]. cbv zeta in H.
    destruct H as (-> & H2 & H3 & -> & Hs & R1 & Hkeep & Hbeh & Hfl). obind. rewrite H2. obind. rewrite H3. obind.
    set (corr1 := if j + 1 <? j1 then i1 else corr).
    destruct (IH _ _ _ _ corr1 R1 ltac:(lia))
      as (c2 & s2 & i2 & j2 & corr2 & -> & R2 & Hk2 & Hb2 & Hl2 & Hs2 & Hfr & Hcorr & Hhist).
    pose proof (run_bounds _ _ _ _ R2).
    exists c2, s2, i2, j2, corr2. split; [done|]. split; [done|]. split; [congruence|].
    split; [lia|]. split; [lia|]. split; [lia|]. split.
    { intros t Ht. rewrite Hfr by lia. rewrite Hfl. repeat case_if; done || lia. }
    split. { unfold corr1 in Hcorr. destruct (j + 1 <? j1); lia. }
    intros Heq t Ht. assert (i1 = i + 1) as -> by lia.
    destruct (decide (t = start)) as [->|].
    + split; [|rewrite Hx, <- Hy; f_equal; lia].
      rewrite Hfr by lia. rewrite Hfl. repeat case_if; done || lia.
    + destruct (Hhist ltac:(lia) t ltac:(lia)) as [Hf ->]. split; [done|]. f_equal. lia.
Qed.

(** The run reached its position from [s0] without a merge, far enough to
    take it back to [corr]. *)
Definition restorable (c : list bool) (start i corr : Z) : Prop :=
  exists s0, 0 <= s0 <= start /\ i - corr <= start - s0 /\ fl c (s0 - 1) = false /\
    forall t, s0 <= t < start -> fl c t = false /\ zget e t = zget e (t + (i - start)).

Lemma slide_spec k c start i j :
  run c start i j -> n - (i - start) < Z.of_nat k ->
  exists c' start' i' j' corr,
    slide e o n k c start i j = Some (c', start', i', j', corr) /\
    run c' start' i' j' /\ keep e c' = keep e c /\ behind c i <= behind c' i' /\
    0 <= corr /\ restorable c' start' i' corr.
Proof.
  revert c start i j. induction k as [|k IH]; intros c start i j R Hf;
    pose proof (run_bounds _ _ _ _ R) as [Hb Hn]; [lia|]. cbn [slide].
  pose proof (run_len _ _ _ _ R).
  destruct (move_back_spec (S (length c)) c start i j R ltac:(lia))
    as (c1 & s1 & i1 & j1 & -> & R1 & Hk1 & Hb1 & Hl1). obind.
  pose proof (run_bounds _ _ _ _ R1) as [Hbd1 Hn1]. pose proof (run_len _ _ _ _ R1).
  rewrite fl_flag by (pose proof (run_j _ _ _ _ R1); lia). obind.
  set (corr1 := if fl o (j1 - 1) then i1 else n).
  destruct (move_forward_spec (S (length c1)) c1 s1 i1 j1 corr1 R1 ltac:(lia))
    as (c2 & s2 & i2 & j2 & corr2 & -> & R2 & Hk2 & Hb2 & Hl2 & Hs2 & Hfr & Hcorr & Hhist). obind.
  pose proof (run_bounds _ _ _ _ R2) as [Hbd2 Hn2]. case_if.
  - exists c2, s2, i2, j2, corr2. split; [done|]. split; [done|]. split; [congruence|].
    split; [lia|]. split; [unfold corr1 in Hcorr; destruct (fl o (j1 - 1)); lia|].
    exists s1. split; [lia|]. split; [unfold corr1 in Hcorr; destruct (fl o (j1 - 1)); lia|].
    split. { rewrite Hfr by lia. apply R1. }
    intros t Ht. destruct (Hhist ltac:(lia) t Ht) as [Hft ->]. split; [done|]. f_equal. lia.
  - destruct (IH c2 s2 i2 j2 R2 ltac:(lia)) as (c3 & s3 & i3 & j3 & corr & Hsl & R3 & Hk3 & Hb3 & Hc & Hr).
    exists c3, s3, i3, j3, corr. split; [done|]. split; [done|]. split; [congruence|]. split; [lia|]. done.
Qed.

Lemma move_corresponding_spec k c start i j corr :
  run c start i j -> restorable c start i corr -> 0 <= corr -> Z.max 0 (i - corr) < Z.of_nat k ->
  exists c' start' i' j',
    move_corresponding o k c start i j corr = Some (c', i', j') /\
    run c' start' i' j' /\ keep e c' = keep e c /\ behind c' i' = behind c i.
Proof.
  revert c start i j. induction k as [|k IH]; intros c start i j R (s0 & Hs0 & Hroom & Hs0f & Hh) Hc0 Hf; [lia|].
  pose proof (run_bounds _ _ _ _ R) as [Hb Hn]. cbn [move_corresponding]. case_if.
  - destruct (Hh (start - 1) ltac:(lia)) as [Hf1 He1].
    replace (start - 1 + (i - start)) with (i - 1) in He1 by lia.
    destruct (back_step c start i j R ltac:(lia) He1) as (start' & j' & H). cbv zeta in H.
    destruct H as (-> & H2 & H3 & -> & Hs & R' & Hkeep & Hbeh). obind. rewrite H2. obind.
    set (c' := zset (zset c (start - 1) true) (i - 1) false) in *.
    assert (forall t, t < start - 1 -> fl c' t = fl c t) as Hfr.
    { intros t Ht. unfold c'. pose proof (run_len _ _ _ _ R).
      rewrite fl_zset by (rewrite zset_length; lia). rewrite fl_zset by lia. repeat case_if; done || lia. }
    assert (fl c (start - 2) = false) as Hf2.
    { destruct (decide (start - 1 = s0)) as [<-|].
      - by replace (start - 1 - 1) with (start - 2) in Hs0f by lia.
      - apply Hh. lia. }
    assert (start' = start - 1) as ->.
    { destruct (decide (start' = start - 1)); [done|]. pose proof (run_bounds _ _ _ _ R').
      pose proof (run_true _ _ _ _ R' (start - 2) ltac:(lia)) as Ht. rewrite Hfr in Ht by lia. congruence. }
    destruct (IH _ _ _ _ R') as (c2 & s2 & i2 & j2 & -> & R2 & Hk2 & Hb2); [|lia|lia|].
    + exists s0. split; [lia|]. split; [lia|]. split; [rewrite Hfr by lia; done|].
      intros t Ht. rewrite Hfr by lia. destruct (Hh t ltac:(lia)) as [? ->]. split; [done|]. f_equal. lia.
    + exists c2, s2, i2, j2. split; [done|]. split; [done|]. split; [congruence|lia].
  - exists c, start, i, j. done.
Qed.

(** Corresponding positions. *)
Record pos (c : list bool) (i j : Z) : Prop := {
  pos_len : length c = length e;
  pos_i : 0 <= i <= n;
  pos_j : 0 <= j <= m;
  pos_kc : kc c i = kc o j;
  pos_total : kc c n = kc o m
}.

Lemma run_pos c start i j : run c start i j -> pos c i j.
Proof. intros []. split; try done. lia. Qed.

Lemma scan_unchanged_spec k c i j :
  pos c i j -> fl c (i - 1) = false \/ fl c i = false -> n - i < Z.of_nat k ->
  exists i' j', scan_unchanged o n k c i j = Some (i', j') /\ pos c i' j' /\
    behind c i' = behind c i /\
    (i' = n \/ i' < n /\ fl c (i' - 1) = false /\ fl c i' = true).
Proof.
  revert i j. induction k as [|k IH]; intros i j P Hpre Hf; pose proof (pos_i _ _ _ P); [lia|].
  pose proof (pos_len _ _ _ P) as Hlen. cbn [scan_unchanged]. case_if.
  2: { exists i, j. repeat split; try apply P. lia. }
  rewrite fl_flag by lia. obind. destruct (fl c i) eqn:Ei.
  { exists i, j. repeat split; try apply P. right. repeat split; try done. by destruct Hpre. }
  pose proof (kc_succ c i ltac:(lia)) as Hk. rewrite Ei in Hk.
  pose proof (kc_mono c (i + 1) n ltac:(lia) ltac:(lia)).
  pose proof (pos_kc _ _ _ P). pose proof (pos_total _ _ _ P).
  destruct (skip_next_spec o j) as (j' & -> & Hj & Hkj); [apply P|lia|]. obind.
  destruct (IH (i + 1) j') as (i' & j2 & Hs & P' & Hb & He); [|left|lia|].
  - pose proof (pos_j _ _ _ P). split; try done; lia.
  - by replace (i + 1 - 1) with i by lia.
  - exists i', j2. split; [done|]. split; [done|]. split; [|done]. unfold behind in *. lia.
Qed.

Lemma shift_runs_spec k c i j :
  pos c i j -> fl c (i - 1) = false \/ fl c i = false ->
  n - kc c n - behind c i < Z.of_nat k ->
  exists c', shift_runs e o n k c i j = Some c' /\ length c' = length c /\ keep e c' = keep e c.
Proof.
  revert c i j. induction k as [|k IH]; intros c i j P Hpre Hf; pose proof (pos_len _ _ _ P) as Hlen.
  { pose proof (kc_slope c i n (pos_i _ _ _ P) ltac:(lia)). unfold behind in Hf. lia. }
  cbn [shift_runs].
  destruct (scan_unchanged_spec (S (length c)) c i j P Hpre) as (i1 & j1 & -> & P1 & Hb1 & Hcase);
    [pose proof (pos_i _ _ _ P); lia|]. obind.
  case_if; [by exists c|]. destruct Hcase as [|(Hi1 & Hbef & Hst)]; [lia|].
  pose proof (pos_i _ _ _ P1).
  destruct (up_spec c (i1 + 1)) as (i2 & -> & Hi2 & Ht2 & Hf2 & Hk2); [lia|]. obind.
  destruct (up_spec o j1 (pos_j _ _ _ P1)) as (j2 & -> & Hj2 & Htj2 & Hfj2 & Hkj2). obind.
  pose proof (kc_succ c i1 ltac:(lia)) as Hks. rewrite Hst in Hks.
  assert (run c i1 i2 j2) as R.
  { pose proof (pos_j _ _ _ P1). pose proof (pos_kc _ _ _ P1). split; try done; try lia.
    - intros t Ht. destruct (decide (t = i1)) as [->|]; [done|]. apply Ht2. lia.
    - apply P1. }
  destruct (slide_spec (S (length c)) c i1 i2 j2 R ltac:(lia))
    as (c3 & s3 & i3 & j3 & corr & -> & R3 & Hk3 & Hb3 & Hc3 & Hr3). obind.
  pose proof (run_bounds _ _ _ _ R3). pose proof (run_len _ _ _ _ R3).
  destruct (move_corresponding_spec (S (length c3)) c3 s3 i3 j3 corr R3 Hr3 Hc3)
    as (c4 & s4 & i4 & j4 & -> & R4 & Hk4 & Hb4); [lia|]. obind.
  pose proof (run_len _ _ _ _ R4).
  destruct (IH c4 i4 j4) as (c5 & -> & Hl5 & Hk5); [by eapply run_pos|right; apply R4| |].
  - pose proof (run_total _ _ _ _ R4). pose proof (run_total _ _ _ _ R). unfold behind in *. lia.
  - exists c5. split; [done|]. split; congruence.
Qed.
End ShiftFile.

(** ** The theorem *)

Lemma shift_file_spec f f' c o :
  buffered_lines f = zlen (equivs f) -> length (equivs f) = length c -> length (equivs f') = length o ->
  keep (equivs f) c = keep (equivs f') o ->
  exists c', shift_file f c o = Some c' /\ length c' = length c /\
    keep (equivs f) c' = keep (equivs f) c.
Proof.
  intros Hb Hl Hl' Hk. unfold shift_file. rewrite Hb.
  apply shift_runs_spec.
  - split; rewrite ?kc_0; try done; try lia. rewrite Hl, (kc_keep (equivs f)), Hk, (kc_keep (equivs f')); done.
  - left. apply fl_out. lia.
  - unfold behind. rewrite kc_0. pose proof (kc_bounds c (zlen (equivs f))). lia.
Qed.

(** The flags keep the same lines of both files, and the operation returns. *)
Lemma shift_boundaries_spec f0 f1 c0 c1 :
  buffered_lines f0 = zlen (equivs f0) -> buffered_lines f1 = zlen (equivs f1) ->
  length (equivs f0) = length c0 -> length (equivs f1) = length c1 ->
  keep (equivs f0) c0 = keep (equivs f1) c1 ->
  exists c0' c1', shift_boundaries f0 f1 c0 c1 = Some (c0', c1') /\
    length c0' = length c0 /\ length c1' = length c1 /\
    keep (equivs f0) c0' = keep (equivs f0) c0 /\ keep (equivs f1) c1' = keep (equivs f1) c1.
Proof.
  intros H0 H1 Hl0 Hl1 Hk. unfold shift_boundaries.
  destruct (shift_file_spec f0 f1 c0 c1) as (c0' & -> & Hl0' & Hk0); [done..|]. obind.
  destruct (shift_file_spec f1 f0 c1 c0') as (c1' & -> & Hl1' & Hk1); [done|done|congruence|congruence|]. obind.
  by exists c0', c1'.
Qed.
