(* ===== verification/ScriptProofs.v ===== *)
(** * Edit scripts and the correctness of [build_script]

    [script_ok] says what the printing code relies on: the changes are in
    order and inside both files, the lines between them are the same in both
    files, there is at least one such line between two changes and no change
    is empty.  [patch] applies a script; a script that is ok turns the first
    file into the second and, read backwards, the second into the first. *)

From S2P Require Import Prelude EditScript Analyze FlagCounts ShiftProofs.

Section Script.
Context {A : Type} (e0 e1 : list A).

(** The rest of a script, from the positions [p0] and [p1] on; with [gap] a
    common line must come before the first change. *)
Fixpoint script_ok (gap : bool) (p0 p1 : Z) (script : list change) : Prop :=
  match script with
  | [] => slice e0 p0 (zlen e0) = slice e1 p1 (zlen e1)
  | ch :: script' =>
      (if gap then p0 < line0 ch else p0 <= line0 ch) /\
      line0 ch - p0 = line1 ch - p1 /\
      slice e0 p0 (line0 ch) = slice e1 p1 (line1 ch) /\
      0 <= deleted ch /\ 0 <= inserted ch /\ 0 < deleted ch + inserted ch /\
      line0 ch + deleted ch <= zlen e0 /\ line1 ch + inserted ch <= zlen e1 /\
      script_ok true (line0 ch + deleted ch) (line1 ch + inserted ch) script'
  end.

(** Apply a script to [old], taking inserted lines from [new]. *)
Fixpoint patch (old new : list A) (p0 : Z) (script : list change) : list A :=
  match script with
  | [] => slice old p0 (zlen old)
  | ch :: script' =>
      slice old p0 (line0 ch) ++ slice new (line1 ch) (line1 ch + inserted ch)
      ++ patch old new (line0 ch + deleted ch) script'
  end.

Lemma script_ok_weaken gap p0 p1 script : script_ok gap p0 p1 script -> script_ok false p0 p1 script.
Proof. destruct gap; [|done]. destruct script; simpl; [done|]. intuition lia. Qed.

Lemma script_ok_patch gap p0 p1 script :
  0 <= p0 -> 0 <= p1 -> p1 <= zlen e1 -> script_ok gap p0 p1 script ->
  patch e0 e1 p0 script = slice e1 p1 (zlen e1).
Proof.
  revert gap p0 p1. induction script as [|ch script IH]; intros gap p0 p1 H0 H1 Hp; simpl; [done|].
  intros (Hg & Hl & Hs & Hd & Hi & Hdi & Hb0 & Hb1 & Hok).
  assert (p0 <= line0 ch) by (destruct gap; lia).
  rewrite (IH true _ (line1 ch + inserted ch)); try done; try lia.
  rewrite (slice_split e1 p1 (line1 ch)), (slice_split e1 (line1 ch) (line1 ch + inserted ch) (zlen e1)) by lia.
  by rewrite Hs.
Qed.

(** A matching pair of lines in front of a script. *)
Lemma script_ok_match gap i0 i1 script :
  0 < i0 <= zlen e0 -> 0 < i1 <= zlen e1 -> zget e0 (i0 - 1) = zget e1 (i1 - 1) ->
  script_ok gap i0 i1 script -> script_ok true (i0 - 1) (i1 - 1) script.
Proof.
  intros H0 H1 He.
  assert (slice e0 (i0 - 1) i0 = slice e1 (i1 - 1) i1) as Hone.
  { apply slice_ext; try lia. intros i Hi. replace i with 0 by lia. by rewrite !Z.add_0_r. }
  destruct script as [|ch script]; simpl.
  - intros Hs. rewrite (slice_split e0 (i0 - 1) i0), (slice_split e1 (i1 - 1) i1) by lia.
    by rewrite Hs, Hone.
  - intros (Hg & Hl & Hs & Hrest). assert (i0 <= line0 ch) by (destruct gap; lia).
    split; [lia|]. split; [lia|]. split; [|done].
    rewrite (slice_split e0 (i0 - 1) i0), (slice_split e1 (i1 - 1) i1) by lia.
    by rewrite Hs, Hone.
Qed.
End Script.

(** The total numbers of deleted and inserted lines. *)
Definition total_deleted (script : list change) : Z := foldr (fun ch n => deleted ch + n) 0 script.
Definition total_inserted (script : list change) : Z := foldr (fun ch n => inserted ch + n) 0 script.

(** The same changes, from the second file to the first. *)
Definition flip_change (ch : change) : change :=
  Change (line1 ch) (line0 ch) (inserted ch) (deleted ch).

(** What a script keeps is a common subsequence of the rests of both files. *)
Lemma script_ok_common {A} (e0 e1 : list A) gap p0 p1 script :
  0 <= p0 -> 0 <= p1 -> p0 <= zlen e0 -> p1 <= zlen e1 -> script_ok e0 e1 gap p0 p1 script ->
  exists l, l `sublist_of` slice e0 p0 (zlen e0) /\ l `sublist_of` slice e1 p1 (zlen e1) /\
    zlen l = zlen e0 - p0 - total_deleted script /\ zlen l = zlen e1 - p1 - total_inserted script.
Proof.
  revert gap p0 p1. induction script as [|ch s IH]; intros gap p0 p1 H0 H1 B0 B1; cbn [script_ok].
  - intros E. exists (slice e0 p0 (zlen e0)). rewrite <- E. do 2 (split; [done|]). pose proof (f_equal length E) as El.
    rewrite !slice_length in El by lia. rewrite slice_length by lia. simpl. lia.
  - intros (G1 & G2 & E & G3 & G4 & G5 & G6 & G7 & Hok). assert (p0 <= line0 ch) by (destruct gap; lia).
    destruct (IH true (line0 ch + deleted ch) (line1 ch + inserted ch) ltac:(lia) ltac:(lia) ltac:(lia) ltac:(lia) Hok) as (l & S0 & S1 & L0 & L1).
    exists (slice e0 p0 (line0 ch) ++ l). rewrite length_app, slice_length by lia.
    cbn [total_deleted total_inserted foldr]. fold (total_deleted s) (total_inserted s). split; [|split; [|lia]].
    + rewrite (slice_split e0 p0 (line0 ch) (zlen e0)), (slice_split e0 (line0 ch) (line0 ch + deleted ch) (zlen e0)) by lia.
      apply sublist_app; [done|]. by apply sublist_inserts_l.
    + rewrite (slice_split e1 p1 (line1 ch) (zlen e1)), (slice_split e1 (line1 ch) (line1 ch + inserted ch) (zlen e1)) by lia. rewrite E.
      apply sublist_app; [done|]. by apply sublist_inserts_l.
Qed.

(** A script can begin earlier, if the lines before it are equal. *)
Lemma script_ok_extend {A} (e0 e1 : list A) gap p0 p1 q0 q1 script :
  0 <= p0 -> 0 <= p1 -> p0 <= q0 <= zlen e0 -> q1 <= zlen e1 -> q0 - p0 = q1 - p1 -> slice e0 p0 q0 = slice e1 p1 q1 ->
  script_ok e0 e1 true q0 q1 script -> script_ok e0 e1 gap p0 p1 script.
Proof.
  intros H0 H1 Hq B1 Hl E. destruct script as [|ch s]; cbn [script_ok].
  - intros Es. by rewrite (slice_split e0 p0 q0), (slice_split e1 p1 q1), E, Es by lia.
  - intros (G1 & G2 & Es & Hrest). split; [destruct gap; lia|]. split; [lia|]. split; [|done].
    by rewrite (slice_split e0 p0 q0), (slice_split e1 p1 q1), E, Es by lia.
Qed.

(** A change between equal lines can be left out. *)
Lemma script_ok_remove {A} (e0 e1 : list A) gap p0 p1 script ch :
  0 <= p0 -> 0 <= p1 -> script_ok e0 e1 gap p0 p1 script -> ch ∈ script -> deleted ch = inserted ch ->
  (forall i, 0 <= i < deleted ch -> zget e0 (line0 ch + i) = zget e1 (line1 ch + i)) ->
  exists script', script_ok e0 e1 gap p0 p1 script' /\ total_deleted script' < total_deleted script.
Proof.
  revert gap p0 p1. induction script as [|c s IH]; intros gap p0 p1 H0 H1 Hok Hin Hd Heq.
  { by apply not_elem_of_nil in Hin. }
  cbn [script_ok] in Hok. destruct Hok as (G1 & G2 & E & G3 & G4 & G5 & G6 & G7 & Hok).
  assert (p0 <= line0 c) by (destruct gap; lia). apply elem_of_cons in Hin as [->|Hin].
  - exists s. split; [|simpl; fold (total_deleted s); lia].
    apply (script_ok_extend e0 e1 gap p0 p1 (line0 c + deleted c) (line1 c + inserted c)); try done; try lia.
    rewrite (slice_split e0 p0 (line0 c)), (slice_split e1 p1 (line1 c)), E by lia. f_equal. apply slice_ext; try lia.
    intros i Hi. apply Heq. lia.
  - destruct (IH true (line0 c + deleted c) (line1 c + inserted c) ltac:(lia) ltac:(lia) Hok Hin Hd Heq) as (s' & Hs' & Ht).
    exists (c :: s'). split; [cbn [script_ok]; tauto|]. simpl. fold (total_deleted s) (total_deleted s'). lia.
Qed.

Lemma script_ok_flip {A} (e0 e1 : list A) gap p0 p1 script :
  script_ok e0 e1 gap p0 p1 script -> script_ok e1 e0 gap p1 p0 (flip_change <$> script).
Proof.
  revert gap p0 p1. induction script as [|ch script IH]; intros gap p0 p1; simpl; [done|].
  intros (Hg & Hl & Hs & Hd & Hi & Hdi & Hb0 & Hb1 & Hok).
  repeat split; try done; try lia; try (by apply IH).
  destruct gap; lia.
Qed.

Lemma script_ok_totals {A} (e0 e1 : list A) gap p0 p1 script :
  script_ok e0 e1 gap p0 p1 script -> 0 <= total_deleted script /\ 0 <= total_inserted script.
Proof.
  revert gap p0 p1. induction script as [|ch s IH]; intros g p0 p1; simpl; [lia|].
  intros (_ & _ & _ & ? & ? & _ & _ & _ & H). apply IH in H. lia.
Qed.

Lemma script_ok_bound {A} (e0 e1 : list A) gap p0 p1 script : script_ok e0 e1 gap p0 p1 script -> p0 <= zlen e0 ->
  p0 + total_deleted script <= zlen e0.
Proof.
  revert gap p0 p1. induction script as [|ch s IH]; intros gap p0 p1; cbn [script_ok]; [simpl; lia|].
  intros (H1 & H2 & H3 & H4 & H5 & H6 & H7 & H8 & H9) Hp. specialize (IH _ _ _ H9 H7). simpl. fold (total_deleted s).
  destruct gap; lia.
Qed.

(** ** build_script *)

Section Build.
Context {A : Type} (e0 e1 : list A) (c0 c1 : list bool).
Context (Hl0 : length e0 = length c0) (Hl1 : length e1 = length c1).
Context (Hkeep : keep e0 c0 = keep e1 c1).

(** The counts of changed lines before [i0] and [i1]. *)
Definition changed_before (c : list bool) (i : Z) : Z := i - kc c i.

Lemma build_loop_spec k i0 i1 script :
  0 <= i0 <= zlen e0 -> 0 <= i1 <= zlen e1 -> kc c0 i0 = kc c1 i1 ->
  script_ok e0 e1 true i0 i1 script -> kc c0 i0 + 1 < Z.of_nat k ->
  exists script', build_loop k c0 c1 i0 i1 script = Some script' /\
    script_ok e0 e1 false 0 0 script' /\
    total_deleted script' = total_deleted script + changed_before c0 i0 /\
    total_inserted script' = total_inserted script + changed_before c1 i1.
Proof.
  revert i0 i1 script. induction k as [|k IH]; intros i0 i1 script H0 H1 Hk Hok Hf;
    pose proof (kc_bounds c0 i0 ltac:(lia)) as Hkb; [lia|]. cbn [build_loop].
  replace ((0 <=? i0) || (0 <=? i1)) with true by (symmetry; apply orb_true_iff; left; apply Z.leb_le; lia).
  rewrite !fl_flag by lia. obind.
  destruct (down_spec c0 i0) as (a0 & Hd0 & Hb0 & Ht0 & Hf0 & Hk0); [lia|].
  destruct (down_spec c1 i1) as (a1 & Hd1 & Hb1 & Ht1 & Hf1 & Hk1); [lia|].
  (* what follows the treatment of the change, if any *)
  assert (forall s, script_ok e0 e1 false a0 a1 s ->
    total_deleted s = total_deleted script + (i0 - a0) ->
    total_inserted s = total_inserted script + (i1 - a1) ->
    exists script', build_loop k c0 c1 (a0 - 1) (a1 - 1) s = Some script' /\
    script_ok e0 e1 false 0 0 script' /\
    total_deleted script' = total_deleted script + changed_before c0 i0 /\
    total_inserted script' = total_inserted script + changed_before c1 i1) as Hnext.
  { intros s Hs Hsd Hsi. unfold changed_before. destruct (decide (a0 = 0)) as [->|].
    - rewrite kc_0 in Hk0. assert (a1 = 0) as ->.
      { destruct (decide (a1 = 0)); [done|]. pose proof (kc_pred c1 a1 ltac:(lia)) as E.
        rewrite Hf1 in E. pose proof (kc_bounds c1 (a1 - 1)). lia. }
      destruct k as [|k]; [lia|]. exists s. split; [done|]. split; [done|]. lia.
    - pose proof (kc_pred c0 a0 ltac:(lia)) as E0. rewrite Hf0 in E0.
      destruct (decide (a1 = 0)) as [->|].
      { rewrite kc_0 in Hk1. pose proof (kc_bounds c0 (a0 - 1)). lia. }
      pose proof (kc_pred c1 a1 ltac:(lia)) as E1. rewrite Hf1 in E1.
      destruct (IH (a0 - 1) (a1 - 1) s) as (s' & -> & Hs' & Hd' & Hi'); try lia.
      + eapply script_ok_match; try done; try lia.
        eapply keep_matched; try exact Hkeep; try done; lia.
      + exists s'. split; [done|]. split; [done|]. unfold changed_before in *. lia. }
  destruct (fl c0 (i0 - 1) || fl c1 (i1 - 1)) eqn:Eb.
  - rewrite Hd0, Hd1. obind. apply Hnext; simpl; [|lia..]. repeat split; try lia.
    + by rewrite !slice_empty by lia.
    + apply orb_true_iff in Eb as [Eb|Eb].
      * destruct (decide (a0 = i0)) as [->|]; [congruence|lia].
      * destruct (decide (a1 = i1)) as [->|]; [congruence|lia].
    + by replace (a0 + (i0 - a0)) with i0 by lia; replace (a1 + (i1 - a1)) with i1 by lia.
  - apply orb_false_iff in Eb as [Eb0 Eb1].
    assert (a0 = i0) as ->. { destruct (decide (a0 = i0)); [done|]. rewrite Ht0 in Eb0 by lia. done. }
    assert (a1 = i1) as ->. { destruct (decide (a1 = i1)); [done|]. rewrite Ht1 in Eb1 by lia. done. }
    apply Hnext; try lia. by apply script_ok_weaken in Hok.
Qed.
End Build.

Lemma build_script_spec f0 f1 c0 c1 :
  buffered_lines f0 = zlen (equivs f0) -> buffered_lines f1 = zlen (equivs f1) ->
  length (equivs f0) = length c0 -> length (equivs f1) = length c1 ->
  keep (equivs f0) c0 = keep (equivs f1) c1 ->
  exists script, build_script f0 f1 c0 c1 = Some script /\
    script_ok (equivs f0) (equivs f1) false 0 0 script /\
    total_deleted script = zlen (equivs f0) - zlen (keep (equivs f0) c0) /\
    total_inserted script = zlen (equivs f1) - zlen (keep (equivs f1) c1).
Proof.
  intros B0 B1 L0 L1 Hk. unfold build_script. rewrite B0, B1.
  pose proof (kc_bounds c0 (zlen c0) ltac:(lia)).
  destruct (build_loop_spec (equivs f0) (equivs f1) c0 c1 L0 L1 Hk (S (S (length c0)))
    (zlen (equivs f0)) (zlen (equivs f1)) []) as (s & Hs & Hok & Hd & Hi); try lia.
  - rewrite L0, L1, (kc_keep (equivs f0)), (kc_keep (equivs f1)) by done. by rewrite Hk.
  - simpl. by rewrite !slice_empty by lia.
  - rewrite L0. lia.
  - exists s. split; [done|]. split; [done|]. rewrite Hd, Hi. unfold changed_before. simpl.
    rewrite L0, L1. rewrite (kc_keep (equivs f0) c0), (kc_keep (equivs f1) c1) by done. lia.
Qed.
