(* ===== verification/DiscardProofs.v ===== *)
(** * Correctness of [discard_confusing_lines]

    The passes over the discard tables stay inside them, end, and only turn
    provisional discards (2) into cancelled ones (0): a line without a match
    in the other file is always discarded and a line with a match is discarded
    only if it has more than [many] of them. *)

From S2P Require Import Prelude EditScript Analyze FlagCounts.

(** ** Cancelling provisional discards *)

Record cleared (d d' : list Z) : Prop := {
  cleared_len : length d' = length d;
  cleared_at i : zget d' i = zget d i \/ (zget d i = Some 2 /\ zget d' i = Some 0)
}.

Lemma cleared_refl d : cleared d d.
Proof. split; [done|]. by left. Qed.

Lemma cleared_trans d1 d2 d3 : cleared d1 d2 -> cleared d2 d3 -> cleared d1 d3.
Proof.
  intros [L1 A1] [L2 A2]. split; [congruence|]. intros i.
  destruct (A1 i) as [E1|[E1 E1']], (A2 i) as [E2|[E2 E2']]; rewrite ?E2; rewrite ?E1; auto.
  right. split; congruence.
Qed.

Lemma cleared_put d i : zget d i = Some 2 -> put d i 0 = Some (zset d i 0) /\ cleared d (zset d i 0).
Proof.
  intros H. pose proof (zget_lt _ _ _ H). split; [by apply put_ok|]. split; [apply zset_length|].
  intros k. destruct (decide (k = i)) as [->|].
  - right. by rewrite zget_zset_eq by lia.
  - left. by rewrite zget_zset_ne by lia.
Qed.

#[local] Hint Resolve cleared_refl cleared_trans : dwdiff.

(** What stays of a nonprovisional entry. *)
Lemma cleared_keep d d' i v : cleared d d' -> zget d i = Some v -> v <> 2 -> zget d' i = Some v.
Proof. intros [_ H] Hi Hv. destruct (H i) as [->|[E _]]; [done|congruence]. Qed.

(** ** The passes *)

Lemma run_end_spec n d j p : 0 <= j -> j + Z.of_nat n <= zlen d ->
  exists j' p', run_end n d j p = Some (j', p') /\ j <= j' <= j + Z.of_nat n /\
    (forall v, (0 < n)%nat -> zget d j = Some v -> v <> 0 -> j < j').
Proof.
  revert j p. induction n as [|n IH]; intros j p H0 Hn.
  - exists j, p. split; [done|]. split; [lia|]. lia.
  - cbn [run_end]. destruct (zget_Some d j) as [v Hv]; [lia|]. rewrite Hv. obind. case_if.
    + exists j, p. split; [done|]. split; [lia|]. intros w _ [= <-]. lia.
    + destruct (IH (j + 1) (if v =? 2 then p + 1 else p)) as (j' & p' & -> & Hj & _); [lia..|].
      exists j', p'. split; [done|]. split; [lia|]. intros; lia.
Qed.

Lemma shrink_run_spec n d i j p : 0 <= i -> j <= zlen d ->
  exists d' j' p', shrink_run n d i j p = Some (d', j', p') /\ cleared d d' /\ j' <= j /\
    (forall v, zget d i = Some v -> v <> 2 -> i < j -> i < j').
Proof.
  revert d j p. induction n as [|n IH]; intros d j p Hi Hj; cbn [shrink_run].
  { exists d, j, p. split; [done|]. split; [apply cleared_refl|]. split; [lia|done]. }
  case_if; [|exists d, j, p; split; [done|]; split; [apply cleared_refl|]; split; [lia|done]].
  destruct (zget_Some d (j - 1)) as [v Hv]; [lia|]. rewrite Hv. obind.
  case_if; [|exists d, j, p; split; [done|]; split; [apply cleared_refl|]; split; [lia|done]].
  subst v. destruct (cleared_put _ _ Hv) as [-> Hc]. obind.
  destruct (IH (zset d (j - 1) 0) (j - 1) (p - 1)) as (d' & j' & p' & -> & Hc' & Hj' & Hpos);
    [lia|rewrite zset_length; lia|].
  exists d', j', p'. split; [done|]. split; [by eapply cleared_trans|]. split; [lia|].
  intros w Hw Hw2 _. destruct (decide (i = j - 1)) as [->|]; [congruence|].
  apply (Hpos w); [|done|lia]. by eapply cleared_keep.
Qed.

Lemma cancel_all_spec n d i j : 0 <= i -> j <= zlen d ->
  exists d', cancel_all n d i j = Some d' /\ cleared d d'.
Proof.
  revert d j. induction n as [|n IH]; intros d j Hi Hj; cbn [cancel_all].
  { exists d. eauto with dwdiff. }
  case_if; [|exists d; eauto with dwdiff].
  destruct (zget_Some d (j - 1)) as [v Hv]; [lia|]. rewrite Hv. obind. case_if.
  - subst v. destruct (cleared_put _ _ Hv) as [-> Hc]. obind.
    destruct (IH (zset d (j - 1) 0) (j - 1)) as (d' & -> & Hc'); [lia|rewrite zset_length; lia|].
    exists d'. eauto with dwdiff.
  - obind. apply IH; lia.
Qed.

(** The state of the subrun scan: counting a subrun that is still too short,
    or clearing one that is known to extend to [B]. *)
Definition counting (d : list Z) (i j consec minimum : Z) : Prop :=
  0 <= consec < minimum /\ consec <= j /\
  forall t, j - consec <= t < j -> zget d (i + t) = Some 2.

Definition clearing (d : list Z) (i j consec minimum B : Z) : Prop :=
  minimum <= consec /\ 0 <= j /\ forall t, j <= t < B -> zget d (i + t) = Some 2.

Lemma cancel_subruns_spec n d i len minimum j consec :
  0 <= i -> i + len <= zlen d -> 0 < minimum -> j <= len ->
  (counting d i j consec minimum /\ 2 * (len - (j - consec)) - consec < Z.of_nat n \/
   exists B, clearing d i j consec minimum B /\ B <= len /\
     2 * (len - Z.max j B) + Z.max 0 (B - j) < Z.of_nat n) ->
  exists d', cancel_subruns n d i len minimum j consec = Some d' /\ cleared d d'.
Proof.
  intros Hi. revert d j consec. induction n as [|n IH]; intros d j consec Hlen Hm Hj Hphase;
    [destruct Hphase as [[(?&?&?) ?]|(B & (?&?&?) & ? & ?)]; lia|].
  cbn [cancel_subruns]. case_if; [|exists d; eauto with dwdiff].
  assert (0 <= j) as Hj0 by (destruct Hphase as [[(?&?&?) ?]|(B & (?&?&?) & ? & ?)]; lia).
  destruct (zget_Some d (i + j)) as [v Hv]; [lia|]. rewrite Hv. obind. case_if.
  - (* not provisional *)
    apply IH; try lia. left. split; [split; [lia|]; split; [lia|]; intros; lia|].
    destruct Hphase as [[(?&?&?) ?]|(B & (?&?&HB) & ? & ?)]; [lia|].
    destruct (decide (j < B)); [|lia]. rewrite HB in Hv by lia. congruence.
  - subst v. case_if; [|case_if].
    + (* the subrun is long enough: back up *)
      destruct Hphase as [[(?&?&Hall) ?]|(B & (?&?&HB) & ? & ?)]; [|lia].
      apply IH; try lia. right. exists (j + 1). split; [|lia].
      split; [lia|]. split; [lia|]. intros t Ht.
      destruct (decide (t = j)) as [->|]; [done|]. apply Hall. lia.
    + (* clear *)
      destruct Hphase as [[(?&?&Hall) ?]|(B & (?&?&HB) & ? & ?)]; [lia|].
      destruct (cleared_put _ _ Hv) as [-> Hc]. obind.
      destruct (IH (zset d (i + j) 0) (j + 1) (consec + 1)) as (d' & -> & Hc'); rewrite ?zset_length; try lia.
      { right. exists B. split; [|lia]. split; [lia|]. split; [lia|]. intros t Ht.
        rewrite zget_zset_ne by lia. apply HB. lia. }
      exists d'. eauto with dwdiff.
    + (* count *)
      destruct Hphase as [[(?&?&Hall) ?]|(B & (?&?&HB) & ? & ?)]; [|lia].
      apply IH; try lia. left. split; [|lia]. split; [lia|]. split; [lia|]. intros t Ht.
      destruct (decide (t = j)) as [->|]; [done|]. apply Hall. lia.
Qed.

Lemma cancel_edge_spec n d i dir len j consec : 0 <= j ->
  (forall t, 0 <= t < len -> 0 <= i + dir * t < zlen d) ->
  exists d', cancel_edge n d i dir len j consec = Some d' /\ cleared d d'.
Proof.
  revert d j consec. induction n as [|n IH]; intros d j consec Hj Hin; cbn [cancel_edge].
  { exists d. eauto with dwdiff. }
  case_if; [|exists d; eauto with dwdiff].
  destruct (zget_Some d (i + dir * j)) as [v Hv]; [apply Hin; lia|]. rewrite Hv. obind.
  destruct ((8 <=? j) && (v =? 1)); [exists d; eauto with dwdiff|]. case_if.
  - subst v. destruct (cleared_put _ _ Hv) as [-> Hc]. obind. case_if; [eauto with dwdiff|].
    destruct (IH (zset d (i + dir * j) 0) (j + 1) 0) as (d' & -> & Hc'); [lia| |].
    { intros t Ht. rewrite zset_length. by apply Hin. }
    exists d'. eauto with dwdiff.
  - obind. destruct (_ =? 3); [eauto with dwdiff|]. apply IH; [lia|done].
Qed.

Lemma minimum_loop_pos n tem m : 0 < m -> 0 < minimum_loop n tem m.
Proof.
  revert tem m. induction n as [|n IH]; intros tem m Hm; cbn [minimum_loop]; [done|].
  case_if; [|done]. apply IH. rewrite Z.shiftl_mul_pow2 by lia. lia.
Qed.

Lemma cancel_run_spec d i end_ v : 0 <= i < end_ -> end_ <= zlen d ->
  zget d i = Some v -> v <> 0 -> v <> 2 ->
  exists d' i', cancel_run d i end_ = Some (d', i') /\ cleared d d' /\ i <= i' < end_.
Proof.
  intros Hi He Hv Hv0 Hv2. unfold cancel_run.
  destruct (run_end_spec (Z.to_nat (end_ - i)) d i 0) as (j & p & -> & Hj & Hpos); [lia..|]. obind.
  specialize (Hpos v ltac:(lia) Hv Hv0).
  destruct (shrink_run_spec (Z.to_nat (j - i)) d i j p) as (d1 & j1 & p1 & -> & Hc1 & Hj1 & Hpos1); [lia..|]. obind.
  specialize (Hpos1 v Hv Hv2 ltac:(lia)). pose proof (cleared_len _ _ Hc1).
  case_if.
  - destruct (cancel_all_spec (Z.to_nat (j1 - i)) d1 i j1) as (d2 & -> & Hc2); [lia..|]. obind.
    exists d2, i. split; [done|]. split; [by eapply cleared_trans|lia].
  - destruct (cancel_subruns_spec (S (2 * Z.to_nat (j1 - i))) d1 i (j1 - i) (minimum_of (j1 - i)) 0 0)
      as (d2 & -> & Hc2); try lia.
    { unfold minimum_of. pose proof (minimum_loop_pos 33 (Z.shiftr (j1 - i) 2) 1). lia. }
    { left. split; [|lia]. split; [|split; [lia|intros; lia]]. unfold minimum_of.
      pose proof (minimum_loop_pos 33 (Z.shiftr (j1 - i) 2) 1). lia. }
    obind. pose proof (cleared_len _ _ Hc2).
    destruct (cancel_edge_spec (Z.to_nat (j1 - i)) d2 i 1 (j1 - i) 0 0) as (d3 & -> & Hc3); [lia|intros; lia|].
    obind. pose proof (cleared_len _ _ Hc3).
    destruct (cancel_edge_spec (Z.to_nat (j1 - i)) d3 (i + (j1 - i - 1)) (-1) (j1 - i) 0 0)
      as (d4 & -> & Hc4); [lia|intros; lia|]. obind.
    exists d4, (i + (j1 - i - 1)). split; [done|]. split; [eauto with dwdiff|lia].
Qed.

Lemma cancel_provisional_spec n d i end_ :
  0 <= i -> end_ <= zlen d -> Z.max 0 (end_ - i) < Z.of_nat n ->
  exists d', cancel_provisional n d i end_ = Some d' /\ cleared d d'.
Proof.
  revert d i. induction n as [|n IH]; intros d i Hi He Hn; [lia|]. cbn [cancel_provisional].
  case_if; [|exists d; eauto with dwdiff].
  destruct (zget_Some d i) as [v Hv]; [lia|]. rewrite Hv. obind. case_if.
  - subst v. destruct (cleared_put _ _ Hv) as [-> Hc]. obind.
    destruct (IH (zset d i 0) (i + 1)) as (d' & -> & Hc'); [lia|rewrite zset_length; lia|lia|].
    exists d'. eauto with dwdiff.
  - destruct (negb (v =? 0)) eqn:Ev; zify_bool; [|apply IH; lia].
    destruct (cancel_run_spec d i end_ v) as (d1 & i1 & -> & Hc1 & Hi1); try done. obind.
    pose proof (cleared_len _ _ Hc1).
    destruct (IH d1 (i1 + 1)) as (d' & -> & Hc'); [lia..|]. exists d'. eauto with dwdiff.
Qed.

(** ** The counts and the first table *)

(** The number of lines of class [e]. *)
Definition occ (e : Z) (l : list Z) : Z := zlen (filter (fun x => x = e) l).

Lemma equiv_count_spec l counts :
  (forall e, e ∈ l -> 0 <= e < zlen counts) ->
  exists counts', equiv_count counts l = Some counts' /\ length counts' = length counts /\
    forall e, zget counts' e = (fun n => n + occ e l) <$> zget counts e.
Proof.
  revert counts. induction l as [|x l IH]; intros counts Hin; cbn [equiv_count].
  - exists counts. split; [done|]. split; [done|]. intros e. destruct (zget counts e); simpl; [|done].
    f_equal. unfold occ. simpl. lia.
  - destruct (zget_Some counts x) as [n Hn]; [apply Hin; set_solver|]. rewrite Hn. obind.
    pose proof (zget_lt _ _ _ Hn) as Hx. rewrite put_ok by done. obind.
    destruct (IH (zset counts x (n + 1))) as (counts' & -> & Hl & Hc).
    { intros e He. rewrite zset_length. apply Hin. set_solver. }
    exists counts'. split; [done|]. split; [by rewrite Hl, zset_length|]. intros e. rewrite Hc.
    unfold occ. rewrite filter_cons. destruct (decide (e = x)) as [->|].
    + rewrite zget_zset_eq by done. rewrite Hn, decide_True by done. simpl. f_equal. lia.
    + rewrite zget_zset_ne by done. rewrite decide_False by done. done.
Qed.

Lemma count_classes equiv_max l :
  (forall e, e ∈ l -> 0 <= e < equiv_max) ->
  exists counts, equiv_count (replicate (Z.to_nat equiv_max) 0) l = Some counts /\
    zlen counts = Z.max 0 equiv_max /\ forall e, 0 <= e < equiv_max -> zget counts e = Some (occ e l).
Proof.
  intros Hin. destruct (equiv_count_spec l (replicate (Z.to_nat equiv_max) 0)) as (c & -> & Hl & Hc).
  { intros e He. rewrite length_replicate. specialize (Hin e He). lia. }
  exists c. rewrite length_replicate in Hl. split; [done|]. split; [lia|].
  intros e He. rewrite Hc. unfold zget. case_if; [lia|].
  rewrite lookup_replicate_2 by lia. simpl. f_equal.
Qed.

(** The mark of one line with [k] matches. *)
Definition mark (many e k : Z) : Z :=
  if e =? 0 then 0 else if k =? 0 then 1 else if many <? k then 2 else 0.

Lemma mark_discards_spec many counts l k :
  (forall e, e ∈ l -> zget counts e = Some (k e)) ->
  mark_discards many counts l = Some (map (fun e => mark many e (k e)) l).
Proof.
  induction l as [|e l IH]; intros Hk; cbn [mark_discards map]; [done|].
  assert ((if e =? 0 then Some 0
           else let? nmatch := zget counts e in
             Some (if nmatch =? 0 then 1 else if many <? nmatch then 2 else 0)) = Some (mark many e (k e))) as ->.
  { unfold mark. case_if; [done|]. rewrite Hk by set_solver. done. }
  obind. rewrite IH by (intros; apply Hk; set_solver). done.
Qed.

(** ** The discarded lines *)

(** What is discarded, against the classes [other] of the other file. *)
Record discards_ok (minimal : bool) (l other : list Z) (ds : list bool) : Prop := {
  dok_len : length ds = length l;
  dok_sound i e : zget ds i = Some true -> zget l i = Some e ->
    minimal = false /\ e <> 0 /\ (occ e other = 0 \/ many (zlen l) < occ e other);
  dok_complete i e : minimal = false -> zget l i = Some e -> e <> 0 -> occ e other = 0 ->
    zget ds i = Some true
}.

Lemma zget_map {A B} (f : A -> B) l i : zget (map f l) i = f <$> zget l i.
Proof. unfold zget. case_if; [done|]. apply list_lookup_fmap. Qed.

Lemma discards_of_spec minimal f other counts :
  buffered_lines f = zlen (equivs f) ->
  (forall e, e ∈ equivs f -> zget counts e = Some (occ e other)) ->
  exists ds, discards_of minimal f counts = Some ds /\ discards_ok minimal (equivs f) other ds.
Proof.
  intros Hb Hc. unfold discards_of. rewrite (mark_discards_spec _ _ _ (fun e => occ e other)) by done. obind.
  set (d := map _ _). assert (length d = length (equivs f)) as Hd by apply length_map.
  destruct (cancel_provisional_spec (S (length d)) d 0 (buffered_lines f)) as (d' & -> & Hcl); [lia..|].
  obind. eexists. split; [done|].
  assert (forall i e, zget (equivs f) i = Some e -> zget d i = Some (mark (many (zlen (equivs f))) e (occ e other))) as Hat.
  { intros i e He. unfold d. rewrite zget_map, He, Hb. done. }
  split.
  - rewrite length_map, (cleared_len _ _ Hcl). done.
  - intros i e Hi He. rewrite zget_map in Hi. specialize (Hat i e He).
    destruct (cleared_at _ _ Hcl i) as [E|[E E']]; [|rewrite E' in Hi; simpl in Hi; destruct minimal; done].
    rewrite E, Hat in Hi. unfold mark in Hi. simpl in Hi. destruct minimal; [done|].
    split; [done|]. destruct (Z.eqb_spec e 0); [done|]. split; [done|].
    destruct (Z.eqb_spec (occ e other) 0); [by left|]. destruct (Z.ltb_spec (many (zlen (equivs f))) (occ e other)); [by right|done].
  - intros i e -> He Hne H0. rewrite zget_map. specialize (Hat i e He). unfold mark in Hat.
    rewrite (proj2 (Z.eqb_neq e 0)), H0 in Hat by done. simpl in Hat.
    rewrite (cleared_keep _ _ _ _ Hcl Hat) by done. done.
Qed.

Lemma discard_confusing_lines_spec minimal equiv_max f0 f1 :
  buffered_lines f0 = zlen (equivs f0) -> buffered_lines f1 = zlen (equivs f1) ->
  (forall e, e ∈ equivs f0 ++ equivs f1 -> 0 <= e < equiv_max) ->
  exists ds0 ds1,
    discard_confusing_lines minimal equiv_max f0 f1
      = Some (actually_discard f0 ds0, actually_discard f1 ds1) /\
    discards_ok minimal (equivs f0) (equivs f1) ds0 /\
    discards_ok minimal (equivs f1) (equivs f0) ds1.
Proof.
  intros B0 B1 Hin. unfold discard_confusing_lines.
  destruct (count_classes equiv_max (equivs f0)) as (c0 & -> & _ & H0); [set_solver|]. obind.
  destruct (count_classes equiv_max (equivs f1)) as (c1 & -> & _ & H1); [set_solver|]. obind.
  destruct (discards_of_spec minimal f0 (equivs f1) c1) as (ds0 & -> & Hd0); [done|intros; apply H1; set_solver|]. obind.
  destruct (discards_of_spec minimal f1 (equivs f0) c0) as (ds1 & -> & Hd1); [done|intros; apply H0; set_solver|]. obind.
  by exists ds0, ds1.
Qed.


(** Without nonprovisional discards every provisional one is cancelled. *)
Lemma cancel_provisional_only n d i end_ d' :
  0 <= i -> end_ <= zlen d -> cancel_provisional n d i end_ = Some d' ->
  (forall k, 0 <= k < i -> k < end_ -> zget d k = Some 0) ->
  (forall k, i <= k < end_ -> zget d k = Some 0 \/ zget d k = Some 2) ->
  forall k, 0 <= k < end_ -> zget d' k = Some 0.
Proof.
  revert d i. induction n as [|n IH]; intros d i Hi He; cbn [cancel_provisional]; [done|].
  case_if; [|intros [= <-] H1 H2 k Hk; apply H1; lia].
  intros Hr Hdone Htodo. destruct (Htodo i ltac:(lia)) as [Hz|Hz]; rewrite Hz in Hr; simpl in Hr.
  - apply (IH d (i + 1)); try done; try lia.
    + intros k Hk Hke. destruct (decide (k = i)) as [->|]; [done|]. apply Hdone; lia.
    + intros k Hk. apply Htodo. lia.
  - rewrite (proj1 (cleared_put _ _ Hz)) in Hr. simpl in Hr.
    apply (IH (zset d i 0) (i + 1)); rewrite ?zset_length; try done; try lia.
    + intros k Hk Hke. destruct (decide (k = i)) as [->|]; [apply zget_zset_eq; lia|].
      rewrite zget_zset_ne by lia. apply Hdone; lia.
    + intros k Hk. rewrite zget_zset_ne by lia. apply Htodo. lia.
Qed.

(** A file whose lines all occur in the other one loses none of them. *)
Lemma discards_of_none minimal f other counts ds :
  buffered_lines f = zlen (equivs f) ->
  (forall e, e ∈ equivs f -> zget counts e = Some (occ e other)) ->
  (forall e, e ∈ equivs f -> occ e other <> 0) ->
  discards_of minimal f counts = Some ds -> ds = replicate (length (equivs f)) false.
Proof.
  intros Hb Hc Hocc. unfold discards_of.
  rewrite (mark_discards_spec _ _ _ (fun e => occ e other)) by done. obind. set (d := map _ _).
  assert (length d = length (equivs f)) as Hd by apply length_map.
  destruct (cancel_provisional_spec (S (length d)) d 0 (buffered_lines f)) as (d' & Hr & Hcl); [lia..|].
  rewrite Hr. obind. intros [= <-].
  pose proof (cleared_len _ _ Hcl).
  assert (forall k, 0 <= k < zlen d -> zget d' k = Some 0) as Hall.
  { rewrite Hd, <- Hb. eapply cancel_provisional_only; [..|exact Hr| |]; try lia.
    intros k Hk. destruct (zget_Some (equivs f) k) as [e He]; [lia|].
    unfold d. rewrite zget_map, He. simpl. unfold mark. rewrite (proj2 (Z.eqb_neq (occ e other) 0)).
    - repeat case_if; auto.
    - apply Hocc. unfold zget in He. destruct (k <? 0); [done|]. by apply list_elem_of_lookup_2 in He. }
  apply list_eq. intros i. rewrite list_lookup_fmap.
  destruct (decide (i < length (equivs f))%nat).
  - specialize (Hall (Z.of_nat i) ltac:(lia)). unfold zget in Hall.
    destruct (Z.of_nat i <? 0) eqn:Ei; zify_bool; [lia|]. rewrite Nat2Z.id in Hall. rewrite Hall. simpl.
    rewrite orb_true_r, lookup_replicate_2 by done. done.
  - rewrite (proj2 (lookup_ge_None d' i)) by lia. symmetry. apply lookup_ge_None. rewrite length_replicate. lia.
Qed.

Lemma occ_self e l : e ∈ l -> occ e l <> 0.
Proof.
  intros He. unfold occ. assert (e ∈ filter (fun x => x = e) l) as Hf by (apply list_elem_of_filter; done).
  destruct (filter _ l); [by apply not_elem_of_nil in Hf|]. simpl. lia.
Qed.

Lemma discard_identical minimal equiv_max f :
  buffered_lines f = zlen (equivs f) -> (forall e, e ∈ equivs f -> 0 <= e < equiv_max) ->
  let d := actually_discard f (replicate (length (equivs f)) false) in
  discard_confusing_lines minimal equiv_max f f = Some (d, d).
Proof.
  intros Hb Hin d. unfold discard_confusing_lines.
  destruct (count_classes equiv_max (equivs f)) as (c & -> & _ & H0); [done|]. obind.
  destruct (discards_of_spec minimal f (equivs f) c) as (ds & Hds & _); [done|intros; apply H0; auto|].
  rewrite Hds. obind. unfold d. rewrite <- (discards_of_none minimal f (equivs f) c ds); try done.
  - intros. apply H0. auto.
  - intros. by apply occ_self.
Qed.
