(* ===== verification/Diff2Files.v ===== *)
(** * Correctness of [diff_2_files]

    The comparison always returns, and the script it returns is ok: it turns
    the first sequence of words into the second one.  Identical sequences give
    an empty script. *)

From S2P Require Import Prelude DiffSeq DiagProofs EditScript CompareSeq.
From S2P Require Import Analyze FlagCounts ShiftProofs ScriptProofs DiscardProofs.

(** ** The flags before and after the comparison *)

Lemma merge_unmarked d i : merge d (replicate (length (real_from i d)) false) = d.
Proof. revert i. induction d as [|[] d IH]; intros i; simpl; f_equal; eauto. Qed.

Lemma unmarked_replicate k : unmarked (replicate k false) 0 (Z.of_nat k).
Proof.
  intros i Hi. unfold zget. case_if; [lia|]. apply lookup_replicate_2. lia.
Qed.

(** What a comparison needs of its input (the vectors that [doDiff] fills). *)
Record input_ok (equiv_max : Z) (f0 f1 : file_data) : Prop := {
  in_lines0 : buffered_lines f0 = zlen (equivs f0);
  in_lines1 : buffered_lines f1 = zlen (equivs f1);
  in_classes : Forall (fun e => 0 <= e < equiv_max) (equivs f0 ++ equivs f1);
  in_size : zlen (equivs f0) + zlen (equivs f1) < OFFSET_MAX
}.

(** No common subsequence of two sequences is longer than [n]. *)
Definition longest_common {A} (e0 e1 : list A) (n : Z) : Prop :=
  forall l, l `sublist_of` e0 -> l `sublist_of` e1 -> zlen l <= n.

(** A minimal comparison of whole vectors keeps a longest common
    subsequence. *)
Lemma fewest_longest ctxt vx : length (xvec ctxt) = length vx ->
  fewest ctxt 0 (zlen (xvec ctxt)) 0 (zlen (yvec ctxt)) vx ->
  longest_common (xvec ctxt) (yvec ctxt) (zlen (keep (xvec ctxt) vx)).
Proof.
  intros Hl Hf l Hx Hy. specialize (Hf _ (path_sublist ctxt (xvec ctxt) (yvec ctxt) l [] [] eq_refl eq_refl Hx Hy)).
  unfold kept in Hf. rewrite Hl, slice_all, <- Hl, slice_all in Hf. lia.
Qed.

Lemma compare_undiscarded f0 f1 ds0 ds1 fd bd heur exp out minimal :
  length ds0 = length (equivs f0) -> length ds1 = length (equivs f1) ->
  zlen (equivs f0) + zlen (equivs f1) < OFFSET_MAX ->
  let d0 := actually_discard f0 ds0 in
  let d1 := actually_discard f1 ds1 in
  let n0 := zlen (undiscarded d0) in
  let n1 := zlen (undiscarded d1) in
  exists st,
    compareseq (MkContext (undiscarded d0) (undiscarded d1) heur exp out) (realindexes d0) (realindexes d1)
      (S (Z.to_nat (n0 + n1))) 0 n0 0 n1 minimal (CState fd bd ds0 ds1) = Some st /\
    length (changed0 st) = length ds0 /\ length (changed1 st) = length ds1 /\
    keep (equivs f0) (changed0 st) = keep (equivs f1) (changed1 st) /\
    (minimal = true -> longest_common (undiscarded d0) (undiscarded d1) (zlen (keep (equivs f0) (changed0 st)))).
Proof.
  intros L0 L1 Hsz d0 d1 n0 n1.
  pose proof (keep_length_real (equivs f0) ds0 0 ltac:(lia)) as Hr0.
  pose proof (keep_length_real (equivs f1) ds1 0 ltac:(lia)) as Hr1.
  pose proof (kc_keep (equivs f0) ds0 ltac:(lia)) as Hk0. pose proof (kc_bounds ds0 (zlen ds0)).
  pose proof (kc_keep (equivs f1) ds1 ltac:(lia)) as Hk1. pose proof (kc_bounds ds1 (zlen ds1)).
  set (vx := replicate (length (real_from 0 ds0)) false).
  set (vy := replicate (length (real_from 0 ds1)) false).
  assert (zlen vx = n0) as Hvx by (unfold vx, n0; rewrite length_replicate; simpl; lia).
  assert (zlen vy = n1) as Hvy by (unfold vy, n1; rewrite length_replicate; simpl; lia).
  destruct (compareseq_spec (MkContext (undiscarded d0) (undiscarded d1) heur exp out) ds0 ds1
    (S (Z.to_nat (n0 + n1))) 0 n0 0 n1 minimal (CState fd bd ds0 ds1) vx vy)
    as (st & vx' & vy' & Hst & Hc0 & Hc1 & [HL0 HL1 _ _ HK] & Hmin); simpl in *; try lia.
  - split; [|split; [|split]]; unfold vx, vy; rewrite ?length_replicate; done.
  - symmetry. apply merge_unmarked.
  - symmetry. apply merge_unmarked.
  - rewrite <- Hvx. unfold vx. rewrite length_replicate. apply unmarked_replicate.
  - rewrite <- Hvy. unfold vy. rewrite length_replicate. apply unmarked_replicate.
  - exists st. split; [done|]. rewrite Hc0, Hc1, !merge_length. split; [done|]. split; [done|].
    rewrite !keep_merge by lia. split.
    2: { intros Hm. apply (fewest_longest (MkContext (undiscarded d0) (undiscarded d1) heur exp out) vx'); simpl; [rewrite Hr0, HL0; unfold vx; by rewrite length_replicate|]. by apply Hmin. }
    unfold n0, n1 in HK. simpl in HK.
    rewrite !slice_all in HK.
    replace (zlen (keep (equivs f0) ds0)) with (zlen vx') in HK by lia.
    replace (zlen (keep (equivs f1) ds1)) with (zlen vy') in HK by lia.
    by rewrite !slice_all in HK.
Qed.

(** Nothing is discarded when a minimal script is asked for. *)
Lemma minimal_discards l other ds : discards_ok true l other ds -> keep l ds = l.
Proof.
  intros [Hl Hs _]. apply keep_false; [done|]. intros b [i Hi]%list_elem_of_lookup. destruct b; [|done].
  assert (zget ds (Z.of_nat i) = Some true) as Hz by (unfold zget; rewrite (proj2 (Z.ltb_ge _ _)) by lia; by rewrite Nat2Z.id).
  destruct (zget_Some l (Z.of_nat i)) as [e He]; [apply lookup_lt_Some in Hi; lia|]. by destruct (Hs _ _ Hz He).
Qed.

Lemma diff_2_files_spec minimal speed equiv_max mem f0 f1 :
  input_ok equiv_max f0 f1 ->
  exists script, diff_2_files minimal speed equiv_max mem f0 f1 = Some script /\
    script_ok (equivs f0) (equivs f1) false 0 0 script /\
    zlen (equivs f0) - total_deleted script = zlen (equivs f1) - total_inserted script /\
    (minimal = true -> longest_common (equivs f0) (equivs f1) (zlen (equivs f0) - total_deleted script)).
Proof.
  intros [B0 B1 Hc Hs]. rewrite Forall_forall in Hc. unfold diff_2_files.
  destruct (discard_confusing_lines_spec minimal equiv_max f0 f1) as (ds0 & ds1 & -> & D0 & D1); [done..|]. obind.
  destruct (compare_undiscarded f0 f1 ds0 ds1 (mem_fdiag mem) (mem_bdiag mem) speed
    (too_expensive_of (zlen (undiscarded (actually_discard f0 ds0)) + zlen (undiscarded (actually_discard f1 ds1)) + 3))
    (mem_outside mem) minimal (dok_len _ _ _ _ D0) (dok_len _ _ _ _ D1) Hs) as (st & Hst & L0 & L1 & Hk & Hmin).
  cbv zeta. simpl dchanged. rewrite Hst. obind.
  destruct (shift_boundaries_spec f0 f1 (changed0 st) (changed1 st)) as (c0 & c1 & -> & LL0 & LL1 & K0 & K1);
    [done|done|rewrite L0, (dok_len _ _ _ _ D0); done|rewrite L1, (dok_len _ _ _ _ D1); done|done|]. obind.
  destruct (build_script_spec f0 f1 c0 c1) as (s & -> & Hok & Hd & Hi); try done.
  - rewrite LL0, L0, (dok_len _ _ _ _ D0). done.
  - rewrite LL1, L1, (dok_len _ _ _ _ D1). done.
  - congruence.
  - exists s. split; [done|]. split; [done|]. rewrite K0 in Hd. rewrite K1 in Hi. rewrite Hk in Hd. split; [lia|].
    intros ->. specialize (Hmin eq_refl). simpl in Hmin. rewrite (minimal_discards _ _ _ D0), (minimal_discards _ _ _ D1) in Hmin.
    replace (zlen (equivs f0) - total_deleted s) with (zlen (keep (equivs f0) (changed0 st))) by (rewrite Hk; lia). done.
Qed.

(** ** Identical files *)

Lemma keep_none {A} (l : list A) : keep l (replicate (length l) false) = l.
Proof. induction l; simpl; congruence. Qed.

(** Equal vectors are matched by the first snake; no flag is set. *)
Lemma compareseq_same ctxt r0 r1 fuel minimal st :
  xvec ctxt = yvec ctxt ->
  compareseq ctxt r0 r1 (S fuel) 0 (zlen (xvec ctxt)) 0 (zlen (xvec ctxt)) minimal st
    = Some (CState (fdiag st) (bdiag st) (changed0 st) (changed1 st)).
Proof.
  intros Heq. cbn [compareseq]. set (n := zlen (xvec ctxt)).
  destruct (fwd_snake_spec ctxt n n 0 0) as (k & Hk & -> & Hall & Hend).
  assert (k = n) as ->.
  { destruct (decide (k < n)) as [Hlt|].
    - unfold xref_yref_equal in Hend. rewrite <- Heq in Hend.
      destruct (zget_Some (xvec ctxt) (0 + k)) as [a Ha]; [unfold n in *; lia|].
      rewrite Ha, Z.eqb_refl in Hend. simpl in Hend. zify_bool. destruct Hend; zify_bool; lia.
    - destruct (decide (k = 0)) as [->|]; [unfold n in *; lia|]. destruct (Hall (k - 1)); lia. }
  destruct (bwd_snake_spec ctxt (0 + n) (0 + n) n n) as (k' & Hk' & -> & Hall' & _).
  assert (k' = 0) as ->. { destruct (decide (k' = 0)); [done|]. destruct (Hall' k'); lia. }
  rewrite (proj2 (Z.eqb_eq (0 + n) (n - 0))) by lia.
  by replace (n - 0 - (0 + n)) with 0 by lia.
Qed.

Lemma scan_all_unchanged k c i_end i :
  c = replicate (length c) false -> i_end = zlen c -> 0 <= i <= i_end -> i_end - i < Z.of_nat k ->
  scan_unchanged c i_end k c i i = Some (i_end, i_end).
Proof.
  intros Hc He. revert i. induction k as [|k IH]; intros i Hi Hk; [lia|].
  cbn [scan_unchanged]. case_if; [|by replace i with i_end by lia].
  assert (fl c i = false) as Hf.
  { unfold fl, zget. case_if; [done|]. rewrite Hc. rewrite lookup_replicate_2 by lia. done. }
  rewrite fl_flag by lia. obind. rewrite Hf. unfold skip_next, up. cbn [run_up].
  rewrite fl_flag by lia. obind. rewrite Hf. obind. apply IH; lia.
Qed.

Lemma shift_unchanged f :
  buffered_lines f = zlen (equivs f) ->
  let c := replicate (length (equivs f)) false in shift_file f c c = Some c.
Proof.
  intros Hb c. unfold shift_file. cbn [shift_runs].
  rewrite scan_all_unchanged; unfold c; rewrite ?length_replicate; try done; try lia.
  obind. by rewrite Z.eqb_refl.
Qed.

Lemma diff_2_files_same minimal speed equiv_max mem f :
  input_ok equiv_max f f -> diff_2_files minimal speed equiv_max mem f f = Some [].
Proof.
  intros [B _ Hc Hs]. rewrite Forall_forall in Hc. unfold diff_2_files.
  rewrite discard_identical by (try done; intros; apply Hc; set_solver). obind. cbv zeta.
  simpl undiscarded. simpl dchanged. simpl realindexes. rewrite keep_none.
  rewrite (compareseq_same (MkContext (equivs f) (equivs f) _ _ _)) by done. obind.
  cbn [changed0 changed1]. unfold shift_boundaries. rewrite shift_unchanged by done. obind.
  rewrite shift_unchanged by done. obind.
  destruct (build_script_spec f f (replicate (length (equivs f)) false) (replicate (length (equivs f)) false))
    as (s & -> & Hok & Hd & Hi); rewrite ?length_replicate; try done.
  rewrite keep_none in Hd, Hi. destruct s as [|ch s]; [done|]. exfalso.
  simpl in *. destruct Hok as (_ & _ & _ & ? & ? & ? & _ & _ & Hok).
  apply script_ok_totals in Hok. lia.
Qed.

(** ** The theorems *)

(** C3: for every pair of word sequences and all options, the comparison
    returns a script, the script is ok (in order, in bounds, with common words
    between the changes), applying it to the first sequence gives the second,
    and applying it backwards to the second gives the first. *)
Theorem diff_2_files_correct minimal speed equiv_max mem f0 f1 :
  input_ok equiv_max f0 f1 ->
  exists script, diff_2_files minimal speed equiv_max mem f0 f1 = Some script /\
    script_ok (equivs f0) (equivs f1) false 0 0 script /\
    patch (equivs f0) (equivs f1) 0 script = equivs f1 /\
    patch (equivs f1) (equivs f0) 0 (flip_change <$> script) = equivs f0.
Proof.
  intros Hin. destruct (diff_2_files_spec minimal speed equiv_max mem f0 f1 Hin) as (s & -> & Hok & _).
  exists s. split; [done|]. split; [done|]. split.
  - rewrite (script_ok_patch _ _ false 0 0) by (done || lia). apply slice_all.
  - rewrite (script_ok_patch _ _ false 0 0) by (by apply script_ok_flip || lia). apply slice_all.
Qed.

Lemma diff_2_files_correct_witness :
  let f0 := FileData 5 [1; 2; 3; 4; 5] in
  let f1 := FileData 5 [1; 6; 3; 5; 7] in
  input_ok 8 f0 f1 /\
  exists script, diff_2_files false true 8 zero_memory f0 f1 = Some script /\
    script_ok (equivs f0) (equivs f1) false 0 0 script /\
    patch (equivs f0) (equivs f1) 0 script = equivs f1 /\
    patch (equivs f1) (equivs f0) 0 (flip_change <$> script) = equivs f0.
Proof.
  assert (input_ok 8 (FileData 5 [1; 2; 3; 4; 5]) (FileData 5 [1; 6; 3; 5; 7])) as Hin.
  { split; [reflexivity|reflexivity|simpl; repeat constructor; lia|reflexivity]. }
  split; [exact Hin|]. exact (diff_2_files_correct false true 8 _ _ _ Hin).
Defined.

(** Comparing a sequence of words with itself gives an empty script. *)
Theorem diff_2_files_identical minimal speed equiv_max mem f :
  input_ok equiv_max f f -> diff_2_files minimal speed equiv_max mem f f = Some [].
Proof. apply diff_2_files_same. Qed.

Lemma diff_2_files_identical_witness :
  diff_2_files false false 4 zero_memory (FileData 4 [1; 2; 3; 2]) (FileData 4 [1; 2; 3; 2]) = Some [].
Proof.
  apply diff_2_files_identical.
  split; [reflexivity|reflexivity|simpl; repeat constructor; lia|reflexivity].
Defined.

(** C4: the script for a minimal comparison is as short as possible: what it
    keeps is a common subsequence of both sequences of words, and there is no
    longer one. *)
Theorem diff_2_files_minimal speed equiv_max mem f0 f1 :
  input_ok equiv_max f0 f1 ->
  exists script, diff_2_files true speed equiv_max mem f0 f1 = Some script /\
    script_ok (equivs f0) (equivs f1) false 0 0 script /\
    zlen (equivs f0) - total_deleted script = zlen (equivs f1) - total_inserted script /\
    (forall l, l `sublist_of` equivs f0 -> l `sublist_of` equivs f1 -> zlen l <= zlen (equivs f0) - total_deleted script) /\
    (forall script', script_ok (equivs f0) (equivs f1) false 0 0 script' ->
       total_deleted script + total_inserted script <= total_deleted script' + total_inserted script').
Proof.
  intros Hin. destruct (diff_2_files_spec true speed equiv_max mem f0 f1 Hin) as (s & -> & Hok & Ht & Hmin).
  specialize (Hmin eq_refl). exists s. split; [done|]. split; [done|]. split; [done|]. split; [exact Hmin|].
  intros s' Hs'. destruct (script_ok_common (equivs f0) (equivs f1) false 0 0 s' ltac:(lia) ltac:(lia) ltac:(lia) ltac:(lia) Hs') as (l & H0 & H1 & Hl0 & Hl1).
  rewrite slice_all in H0, H1. specialize (Hmin l H0 H1). lia.
Qed.

Lemma diff_2_files_minimal_witness :
  exists script,
    diff_2_files true false 4 zero_memory (FileData 2 [1; 2]) (FileData 3 [1; 3; 2]) = Some script /\
    script_ok [1; 2] [1; 3; 2] false 0 0 script /\
    2 - total_deleted script = 3 - total_inserted script /\
    (forall l, l `sublist_of` [1; 2] -> l `sublist_of` [1; 3; 2] -> zlen l <= 2 - total_deleted script) /\
    (forall script', script_ok [1; 2] [1; 3; 2] false 0 0 script' ->
       total_deleted script + total_inserted script <= total_deleted script' + total_inserted script').
Proof.
  apply (diff_2_files_minimal false 4 zero_memory (FileData 2 [1; 2]) (FileData 3 [1; 3; 2])).
  split; [reflexivity|reflexivity|simpl; repeat constructor; lia|reflexivity].
Defined.

(** C22: [compareseq], run on the undiscarded lines with any discards, any
    contents of the diagonal vectors and any options, returns with flags whose
    unmarked lines are the same in both files; a minimal comparison leaves a
    longest common subsequence unmarked. *)
Theorem compareseq_correct f0 f1 ds0 ds1 fd bd heur exp out minimal :
  length ds0 = length (equivs f0) -> length ds1 = length (equivs f1) ->
  zlen (equivs f0) + zlen (equivs f1) < OFFSET_MAX ->
  let d0 := actually_discard f0 ds0 in
  let d1 := actually_discard f1 ds1 in
  let n0 := zlen (undiscarded d0) in
  let n1 := zlen (undiscarded d1) in
  exists st,
    compareseq (MkContext (undiscarded d0) (undiscarded d1) heur exp out) (realindexes d0) (realindexes d1)
      (S (Z.to_nat (n0 + n1))) 0 n0 0 n1 minimal (CState fd bd ds0 ds1) = Some st /\
    length (changed0 st) = length ds0 /\ length (changed1 st) = length ds1 /\
    keep (equivs f0) (changed0 st) = keep (equivs f1) (changed1 st) /\
    (minimal = true -> longest_common (undiscarded d0) (undiscarded d1) (zlen (keep (equivs f0) (changed0 st)))).
Proof. apply compare_undiscarded. Qed.

Lemma compareseq_correct_witness :
  let f0 := FileData 4 [1; 2; 3; 4] in
  let f1 := FileData 3 [2; 5; 4] in
  exists st,
    compareseq (MkContext [1; 3; 4] [2; 5; 4] true 256 (fun _ _ => true)) [0; 2; 3] [0; 1; 2] 7 0 3 0 3 true
      (CState (fun _ => 0) (fun _ => 0) [false; true; false; false] [false; false; false]) = Some st /\
    length (changed0 st) = 4%nat /\ length (changed1 st) = 3%nat /\
    keep (equivs f0) (changed0 st) = keep (equivs f1) (changed1 st) /\
    (true = true -> longest_common [1; 3; 4] [2; 5; 4] (zlen (keep (equivs f0) (changed0 st)))).
Proof.
  exact (compareseq_correct (FileData 4 [1; 2; 3; 4]) (FileData 3 [2; 5; 4])
    [false; true; false; false] [false; false; false] (fun _ => 0) (fun _ => 0) true 256 (fun _ _ => true) true
    eq_refl eq_refl eq_refl).
Defined.

(** C23: [shift_boundaries] returns (no access leaves a vector, every loop
    ends) and moves changes without changing which words are kept. *)
Theorem shift_boundaries_correct f0 f1 c0 c1 :
  buffered_lines f0 = zlen (equivs f0) -> buffered_lines f1 = zlen (equivs f1) ->
  length (equivs f0) = length c0 -> length (equivs f1) = length c1 ->
  keep (equivs f0) c0 = keep (equivs f1) c1 ->
  exists c0' c1', shift_boundaries f0 f1 c0 c1 = Some (c0', c1') /\
    length c0' = length c0 /\ length c1' = length c1 /\
    keep (equivs f0) c0' = keep (equivs f0) c0 /\ keep (equivs f1) c1' = keep (equivs f1) c1.
Proof. apply shift_boundaries_spec. Qed.

Lemma shift_boundaries_correct_witness :
  exists c0' c1',
    shift_boundaries (FileData 4 [1; 1; 1; 2]) (FileData 3 [1; 1; 2])
      [true; false; false; false] [false; false; false] = Some (c0', c1') /\
    length c0' = 4%nat /\ length c1' = 3%nat /\
    keep [1; 1; 1; 2] c0' = [1; 1; 2] /\ keep [1; 1; 2] c1' = [1; 1; 2].
Proof.
  exact (shift_boundaries_correct (FileData 4 [1; 1; 1; 2]) (FileData 3 [1; 1; 2])
    [true; false; false; false] [false; false; false] eq_refl eq_refl eq_refl eq_refl eq_refl).
Defined.

(** From flags that keep the same words of both files, [build_script]
    returns a script that is ok and accounts for every flag. *)
Theorem build_script_correct f0 f1 c0 c1 :
  buffered_lines f0 = zlen (equivs f0) -> buffered_lines f1 = zlen (equivs f1) ->
  length (equivs f0) = length c0 -> length (equivs f1) = length c1 ->
  keep (equivs f0) c0 = keep (equivs f1) c1 ->
  exists script, build_script f0 f1 c0 c1 = Some script /\
    script_ok (equivs f0) (equivs f1) false 0 0 script /\
    total_deleted script = zlen (equivs f0) - zlen (keep (equivs f0) c0) /\
    total_inserted script = zlen (equivs f1) - zlen (keep (equivs f1) c1).
Proof. apply build_script_spec. Qed.

Lemma build_script_correct_witness :
  exists script,
    build_script (FileData 2 [1; 2]) (FileData 2 [2; 3]) [true; false] [false; true] = Some script /\
    script_ok [1; 2] [2; 3] false 0 0 script /\ total_deleted script = 1 /\ total_inserted script = 1.
Proof.
  exact (build_script_correct (FileData 2 [1; 2]) (FileData 2 [2; 3]) [true; false] [false; true]
    eq_refl eq_refl eq_refl eq_refl eq_refl).
Defined.

(** [discard_confusing_lines] returns tables in which a word of the first
    file without an occurrence in the second is discarded, unless a minimal
    script is asked for, and a word with occurrences only when it has more
    than [many] of them; and the other way round. *)
Theorem discard_confusing_lines_correct minimal equiv_max f0 f1 :
  input_ok equiv_max f0 f1 ->
  exists ds0 ds1,
    discard_confusing_lines minimal equiv_max f0 f1
      = Some (actually_discard f0 ds0, actually_discard f1 ds1) /\
    discards_ok minimal (equivs f0) (equivs f1) ds0 /\
    discards_ok minimal (equivs f1) (equivs f0) ds1.
Proof.
  intros [? ? Hc _]. rewrite Forall_forall in Hc. by apply discard_confusing_lines_spec.
Qed.

Lemma discard_confusing_lines_correct_witness :
  exists ds0 ds1,
    discard_confusing_lines false 5 (FileData 3 [1; 2; 3]) (FileData 2 [1; 4])
      = Some (actually_discard (FileData 3 [1; 2; 3]) ds0, actually_discard (FileData 2 [1; 4]) ds1) /\
    discards_ok false [1; 2; 3] [1; 4] ds0 /\ discards_ok false [1; 4] [1; 2; 3] ds1.
Proof.
  apply (discard_confusing_lines_correct false 5 (FileData 3 [1; 2; 3]) (FileData 2 [1; 4])).
  split; [reflexivity|reflexivity|simpl; repeat constructor; lia|reflexivity].
Defined.
