(* ===== verification/HashTable.v ===== *)
(** * vector.h and hashtable.c: growing vectors and the table of words

    The table gives every distinct word a number, in the order in which the
    words are first seen.  The detailed model has the hash chains and the
    blocks that tuples are carved from; [WordTable] is what the tokenizer and
    the context tokens rely on, and the table of hashtable.c is an instance of
    it. *)

From S2P Require Import Prelude EditScript.

(** ** vector.h *)

Definition VECTOR_INITIAL_SIZE : Z := 32.

(** [data] holds the [used] first elements; [allocated] is the capacity. *)
Record vector (A : Type) := Vector {
  data : list A;
  allocated : Z
}.
Arguments Vector {A}.
Arguments data {A}.
Arguments allocated {A}.

Definition used {A} (v : vector A) : Z := zlen (data v).

Definition VECTOR_INIT {A} : vector A := Vector [] 0.
Definition VECTOR_INIT_ALLOCATED {A} : vector A := Vector [] VECTOR_INITIAL_SIZE.

Definition VECTOR_APPEND {A} (v : vector A) (value : A) : vector A :=
  let allocated' :=
    if allocated v <=? used v then
      (if allocated v =? 0 then VECTOR_INITIAL_SIZE else allocated v * 2)
    else allocated v in
  Vector (data v ++ [value]) allocated'.

(** [while (allocated <= used + value) allocated *= 2;] *)
Fixpoint grow (n : nat) (allocated need : Z) : Z :=
  match n with
  | O => allocated
  | S n' => if allocated <=? need then grow n' (allocated * 2) need else allocated
  end.

Definition VECTOR_ALLOCATE {A} (v : vector A) (value : Z) : vector A :=
  if used v + value <? allocated v then v
  else
    let a := if allocated v =? 0 then VECTOR_INITIAL_SIZE else allocated v in
    Vector (data v) (grow (Z.to_nat (used v + value + 1)) a (used v + value)).

Definition vector_ok {A} (v : vector A) : Prop := used v <= allocated v.

Lemma VECTOR_APPEND_ok {A} (v : vector A) x : vector_ok v -> vector_ok (VECTOR_APPEND v x).
Proof.
  unfold vector_ok, VECTOR_APPEND, used, VECTOR_INITIAL_SIZE. simpl. rewrite length_app. simpl.
  intros H. repeat case_if; lia.
Qed.

Lemma grow_enough n a need : 0 < a -> need < a + Z.of_nat n -> need < grow n a need /\ a <= grow n a need.
Proof.
  revert a. induction n as [|n IH]; intros a Ha Hn; simpl; [lia|]. case_if; [|lia].
  destruct (IH (a * 2)); lia.
Qed.

Lemma VECTOR_ALLOCATE_ok {A} (v : vector A) k : vector_ok v -> 0 <= k ->
  data (VECTOR_ALLOCATE v k) = data v /\ used v + k < allocated (VECTOR_ALLOCATE v k).
Proof.
  unfold vector_ok, VECTOR_ALLOCATE, VECTOR_INITIAL_SIZE. intros H Hk. pose proof (Nat2Z.is_nonneg (length (data v))).
  case_if; [done|]. split; [done|]. simpl allocated. unfold used in *.
  apply grow_enough; case_if; lia.
Qed.

(** ** The memory blocks *)

Definition MEMBLOCK_SIZE : Z := 32768.
(** [ALIGNOF(Tuple)], [sizeof(MemBlock)] and [sizeof(Tuple)] with 64-bit
    pointers, [size_t] and [ValueType]. *)
Definition ALIGNOF_Tuple : Z := 8.
Definition sizeof_MemBlock : Z := 24.
Definition sizeof_Tuple : Z := 32.

Definition ROUNDUP (x to : Z) : Z := ((x + (to - 1)) / to) * to.

Record MemBlock := MkMemBlock {
  size : Z;
  idx : Z
}.

(** An address: the number of the block, counted from the oldest, and the
    offset in it. *)
Record address := Address {
  block : nat;
  offset : Z
}.

Definition allocFromBlock (head : list MemBlock) (size_ : Z) : list MemBlock * address :=
  let size_ := ROUNDUP size_ ALIGNOF_Tuple in
  let newBlock :=
    MkMemBlock (if 2048 <? size_ then size_ + sizeof_MemBlock else MEMBLOCK_SIZE)
      (ROUNDUP sizeof_MemBlock ALIGNOF_Tuple) in
  let head :=
    match head with
    | [] => [newBlock]
    | b :: _ => if size b - idx b <? size_ then newBlock :: head else head
    end in
  match head with
  | b :: rest => (MkMemBlock (size b) (idx b + size_) :: rest, Address (length rest) (idx b))
  | [] => ([], Address 0 0)
  end.

(** ** The table *)

Definition HASHTABLE_SIZE : Z := 8091.
(** [VALUE_MAX], the largest [ptrdiff_t]. *)
Definition VALUE_MAX : Z := 2 ^ 63 - 1.

Record Tuple := MkTuple {
  value : Z;
  string : list Z;
  where_ : address
}.

(** The static variables: the chains, the next value and the blocks. *)
Record table := Table {
  hashtable : Z -> list Tuple;
  nextValue : Z;
  head : list MemBlock
}.

Definition empty_table : table := Table (fun _ => []) 0 [].

(** djb2 on 32-bit unsigned integers. *)
Definition hash (data : list Z) : Z :=
  foldl (fun hashValue c => (Z.shiftl hashValue 5 + hashValue + c) mod 2 ^ 32) 5381 data.

Definition same_string (data : list Z) (t : Tuple) : bool := bool_decide (data = string t).

(** Search the singly linked list. *)
Fixpoint search_chain (data : list Z) (chain : list Tuple) : option Tuple :=
  match chain with
  | [] => None
  | t :: chain' => if same_string data t then Some t else search_chain data chain'
  end.

(** The message of [ASSERT(nextValue != VALUE_MAX)]. *)
Definition too_many_values : positive := 1.

Definition getValue (t : table) (data : list Z) : result (table * Z) :=
  let hashValue := hash data mod HASHTABLE_SIZE in
  match search_chain data (hashtable t hashValue) with
  | Some tuple => Ok (t, value tuple)
  | None =>
      if nextValue t =? VALUE_MAX then Fatal too_many_values
      else
        let '(head', a) := allocFromBlock (head t) (sizeof_Tuple - 1 + zlen data) in
        let tuple := MkTuple (nextValue t) data a in
        Ok (Table (upd (hashtable t) hashValue (tuple :: hashtable t hashValue))
              (nextValue t + 1) head', value tuple)
  end.

Definition getHashMax (t : table) : table * Z :=
  (Table (fun _ => []) 0 [], nextValue t).

(** ** What clients rely on *)

(** The abstract state is the list of words seen, in order of appearance; the
    value of a word is its position. *)
Fixpoint position (w : list Z) (ws : list (list Z)) : option nat :=
  match ws with
  | [] => None
  | w' :: ws' => if bool_decide (w = w') then Some O else S <$> position w ws'
  end.

Definition intern (ws : list (list Z)) (w : list Z) : list (list Z) * Z :=
  match position w ws with
  | Some k => (ws, Z.of_nat k)
  | None => (ws ++ [w], zlen ws)
  end.

Class WordTable (T : Type) := {
  wt_get : T -> list Z -> result (T * Z);
  wt_reset : T -> T * Z;
  wt_rep : T -> list (list Z) -> Prop;
  wt_get_intern t ws w : wt_rep t ws -> zlen ws < VALUE_MAX ->
    exists t', wt_get t w = Ok (t', (intern ws w).2) /\ wt_rep t' (intern ws w).1;
  wt_reset_spec t ws : wt_rep t ws -> (wt_reset t).2 = zlen ws /\ wt_rep (wt_reset t).1 []
}.

Lemma position_Some w ws k : position w ws = Some k -> ws !! k = Some w.
Proof.
  revert k. induction ws as [|w' ws IH]; intros k; simpl; [done|].
  case_bool_decide; [intros [= <-]; by subst|]. destruct (position w ws); simpl; [|done].
  intros [= <-]. simpl. by apply IH.
Qed.

Lemma position_None w ws : position w ws = None <-> w ∉ ws.
Proof.
  induction ws as [|w' ws IH]; simpl; [split; [intros _; apply not_elem_of_nil|done]|].
  rewrite not_elem_of_cons. case_bool_decide; [naive_solver|].
  destruct (position w ws); simpl; naive_solver.
Qed.

Lemma position_lookup w ws k : NoDup ws -> ws !! k = Some w -> position w ws = Some k.
Proof.
  intros Hnd Hk. destruct (position w ws) as [k'|] eqn:E.
  - apply position_Some in E. f_equal. by eapply NoDup_lookup.
  - apply position_None in E. exfalso. apply E. by eapply list_elem_of_lookup_2.
Qed.

Lemma intern_NoDup ws w : NoDup ws -> NoDup (intern ws w).1.
Proof.
  intros H. unfold intern. destruct (position w ws) eqn:E; [done|]. simpl.
  apply position_None in E. apply NoDup_app. split; [done|]. split; [|apply NoDup_singleton]. set_solver.
Qed.

Lemma intern_value ws w : (intern ws w).1 !! Z.to_nat (intern ws w).2 = Some w /\ 0 <= (intern ws w).2.
Proof.
  unfold intern. destruct (position w ws) as [k|] eqn:E; simpl.
  - rewrite Nat2Z.id. split; [by apply position_Some|lia].
  - rewrite Nat2Z.id. split; [|lia]. rewrite lookup_app_r by lia. by rewrite Nat.sub_diag.
Qed.

Lemma intern_prefix ws w : ws `prefix_of` (intern ws w).1.
Proof. unfold intern. destruct (position w ws); simpl; [done|by apply prefix_app_r]. Qed.

Lemma intern_bound ws w : (intern ws w).2 < zlen (intern ws w).1.
Proof.
  destruct (intern_value ws w) as [H ?]. apply lookup_lt_Some in H. lia.
Qed.
