(* ===== verification/HashProofs.v ===== *)
(** * Correctness of the table of words

    The chains of hashtable.c implement the abstract numbering of
    [WordTable], and the tuples lie in disjoint, aligned parts of their
    blocks. *)

From S2P Require Import Prelude EditScript HashTable.

(** ** The chains *)

Lemma hash_bucket w : 0 <= hash w mod HASHTABLE_SIZE < HASHTABLE_SIZE.
Proof. apply Z.mod_pos_bound. done. Qed.

(** The chains hold exactly the words seen, each in the chain of its hash
    value and with its position as value. *)
Record table_rep (t : table) (ws : list (list Z)) : Prop := {
  rep_nodup : NoDup ws;
  rep_next : nextValue t = zlen ws;
  rep_sound b tup : tup ∈ hashtable t b ->
    hash (string tup) mod HASHTABLE_SIZE = b /\
    exists k, ws !! k = Some (string tup) /\ value tup = Z.of_nat k;
  rep_complete w : w ∈ ws ->
    exists tup, tup ∈ hashtable t (hash w mod HASHTABLE_SIZE) /\ string tup = w
}.

Lemma search_chain_Some d chain tup :
  search_chain d chain = Some tup -> tup ∈ chain /\ string tup = d.
Proof.
  induction chain as [|x chain IH]; simpl; [done|]. unfold same_string.
  case_bool_decide; [intros [= <-]; split; [left|done]|]. intros [? ?]%IH. split; [by right|done].
Qed.

Lemma search_chain_None d chain : search_chain d chain = None -> forall tup, tup ∈ chain -> string tup <> d.
Proof.
  induction chain as [|x chain IH]; simpl; intros H tup.
  - by intros ?%not_elem_of_nil.
  - unfold same_string in H. case_bool_decide; [done|]. intros [->|Hin]%elem_of_cons; [done|]. by apply IH.
Qed.

Lemma getValue_intern t ws w : table_rep t ws -> zlen ws < VALUE_MAX ->
  exists t', getValue t w = Ok (t', (intern ws w).2) /\ table_rep t' (intern ws w).1.
Proof.
  intros [Hnd Hnext Hs Hc] Hmax. unfold getValue, intern.
  destruct (search_chain w _) as [tup|] eqn:E.
  - apply search_chain_Some in E as [Hin Hstr]. destruct (Hs _ _ Hin) as (_ & k & Hk & Hv).
    rewrite Hstr in Hk. rewrite (position_lookup _ _ _ Hnd Hk). exists t. simpl. rewrite Hv.
    split; [done|]. by split.
  - assert (w ∉ ws) as Hnin.
    { intros Hin. destruct (Hc _ Hin) as (tup & Ht & Hstr). by eapply search_chain_None in E. }
    rewrite (proj2 (position_None w ws) Hnin). rewrite (proj2 (Z.eqb_neq _ _)) by lia.
    destruct (allocFromBlock _ _) as [head' a]. simpl. eexists. split; [by rewrite Hnext|]. split; simpl.
    + apply NoDup_app. split; [done|]. split; [set_solver|apply NoDup_singleton].
    + rewrite length_app. simpl. lia.
    + intros b tup. unfold upd. case_if; subst.
      * intros [->|Hin]%elem_of_cons.
        -- simpl. split; [done|]. exists (length ws). split; [|done].
           rewrite lookup_app_r by lia. by rewrite Nat.sub_diag.
        -- destruct (Hs _ _ Hin) as (Hh & k & Hk & Hv). split; [done|]. exists k. split; [|done]. by apply lookup_app_l_Some.
      * intros Hin. destruct (Hs _ _ Hin) as (Hh & k & Hk & Hv). split; [done|]. exists k. split; [|done]. by apply lookup_app_l_Some.
    + intros w' [Hin|Hin]%elem_of_app.
      * destruct (Hc _ Hin) as (tup & Ht & Hstr). exists tup. split; [|done].
        unfold upd. case_if; [|done]. rewrite <- E0. by right.
      * apply list_elem_of_singleton in Hin as ->. eexists. rewrite upd_eq. split; [by left|done].
Qed.

Lemma no_words_rep h : table_rep (Table (fun _ => []) 0 h) [].
Proof. split; simpl; [apply NoDup_nil_2|done| |]; intros; exfalso; by eapply not_elem_of_nil. Qed.

Lemma getHashMax_spec t ws : table_rep t ws -> (getHashMax t).2 = zlen ws /\ table_rep (getHashMax t).1 [].
Proof. intros H. split; [apply H|apply no_words_rep]. Qed.

#[export] Instance hash_WordTable : WordTable table := {
  wt_get := getValue;
  wt_reset := getHashMax;
  wt_rep := table_rep;
  wt_get_intern := getValue_intern;
  wt_reset_spec := getHashMax_spec
}.

(** ** Numbering a sequence of words *)

(** The calls of [getValue] for a sequence of words. *)
Fixpoint getValues (t : table) (l : list (list Z)) : result (table * list Z) :=
  match l with
  | [] => Ok (t, [])
  | w :: l' =>
      let* (t, v) := getValue t w in
      let* (t, vs) := getValues t l' in
      Ok (t, v :: vs)
  end.

Lemma getValues_spec t ws l : table_rep t ws -> zlen ws + zlen l <= VALUE_MAX ->
  exists t' ws' vs, getValues t l = Ok (t', vs) /\ table_rep t' ws' /\ ws `prefix_of` ws' /\
    zlen ws' <= zlen ws + zlen l /\
    Forall2 (fun w v => 0 <= v /\ ws' !! Z.to_nat v = Some w) l vs.
Proof.
  revert t ws. induction l as [|w l IH]; intros t ws Ht Hb; simpl in *.
  - exists t, ws, []. split; [done|]. split; [done|]. split; [done|]. split; [lia|constructor].
  - destruct (getValue_intern t ws w Ht ltac:(lia)) as (t1 & -> & Ht1). simpl.
    assert (zlen (intern ws w).1 <= zlen ws + 1).
    { unfold intern. destruct (position w ws); simpl; rewrite ?length_app; simpl; lia. }
    destruct (IH t1 (intern ws w).1 Ht1 ltac:(lia)) as (t' & ws' & vs & -> & Ht' & Hp & Hl & Hvs). simpl.
    exists t', ws', ((intern ws w).2 :: vs). split; [done|]. split; [done|].
    split; [etrans; [apply intern_prefix|done]|]. split; [lia|]. constructor; [|done].
    destruct (intern_value ws w) as [Hv Hnn]. split; [done|]. by eapply prefix_lookup_Some.
Qed.

(** ** The blocks *)

(** The part of a block that a tuple occupies. *)
Definition extent (a : address) (n : Z) : nat * Z * Z := (block a, offset a, offset a + n).

Definition overlap (e1 e2 : nat * Z * Z) : Prop :=
  e1.1.1 = e2.1.1 /\ e1.1.2 < e2.2 /\ e2.1.2 < e1.2.

Definition block_ok (b : MemBlock) : Prop :=
  sizeof_MemBlock <= idx b <= size b /\ idx b mod ALIGNOF_Tuple = 0.

(** Everything allocated so far lies below the index of its block. *)
Definition below (blocks : list MemBlock) (e : nat * Z * Z) : Prop :=
  exists b, rev blocks !! e.1.1 = Some b /\ sizeof_MemBlock <= e.1.2 /\ e.2 <= idx b.

Lemma ROUNDUP_spec n : n <= ROUNDUP n ALIGNOF_Tuple < n + 8 /\ ROUNDUP n ALIGNOF_Tuple mod 8 = 0.
Proof. unfold ROUNDUP, ALIGNOF_Tuple. lia. Qed.

Lemma rev_head_lookup (b b' : MemBlock) rest k x :
  rev (b :: rest) !! k = Some x -> (k < length rest)%nat -> rev (b' :: rest) !! k = Some x.
Proof. simpl. intros H Hk. rewrite lookup_app_l in H |- * by (rewrite length_rev; done). done. Qed.

Lemma allocFromBlock_spec blocks n :
  0 <= n -> Forall block_ok blocks ->
  let '(blocks', a) := allocFromBlock blocks n in
  Forall block_ok blocks' /\ offset a mod ALIGNOF_Tuple = 0 /\
  below blocks' (extent a n) /\
  (forall e, below blocks e -> below blocks' e) /\
  (forall e, below blocks e -> ~ overlap e (extent a n)).
Proof.
  intros Hn Hok. unfold allocFromBlock.
  destruct (ROUNDUP_spec n) as [Hr Hr8]. set (sz := ROUNDUP n ALIGNOF_Tuple) in *.
  set (nb := MkMemBlock _ _).
  assert (block_ok nb /\ sz <= size nb - idx nb) as [Hnb Hroom].
  { unfold nb, block_ok, MEMBLOCK_SIZE, sizeof_MemBlock, ROUNDUP, ALIGNOF_Tuple. simpl. case_if; lia. }
  assert (exists b rest, (match blocks with [] => [nb] | b :: _ => if size b - idx b <? sz then nb :: blocks else blocks end)
     = b :: rest /\ Forall block_ok (b :: rest) /\ sz <= size b - idx b /\
     (forall e, below blocks e -> exists b', rev (b :: rest) !! e.1.1 = Some b' /\ sizeof_MemBlock <= e.1.2 /\ e.2 <= idx b'))
    as (b & rest & -> & Hall & Hfit & Hkeep).
  { destruct blocks as [|b rest].
    - exists nb, []. split; [done|]. split; [by constructor|]. split; [done|].
      intros e (b' & Hb' & _). by destruct e.1.1.
    - case_if.
      + exists nb, (b :: rest). split; [done|]. split; [by constructor|]. split; [done|].
        intros e (b' & Hb' & ?). exists b'. split; [|done]. simpl. by apply lookup_app_l_Some.
      + exists b, rest. split; [done|]. split; [done|]. split; [lia|]. intros e He. apply He. }
  apply Forall_cons in Hall as [[Hb Hal] Hrest]. unfold ALIGNOF_Tuple in *.
  split; [constructor; [|done]; unfold block_ok, ALIGNOF_Tuple in *; simpl; lia|].
  split; [done|]. split; [|split].
  - exists (MkMemBlock (size b) (idx b + sz)). simpl. split; [|lia].
    rewrite lookup_app_r, length_rev, Nat.sub_diag by (rewrite length_rev; lia). done.
  - intros e He. destruct (Hkeep e He) as (b' & Hb' & Hlo & Hhi).
    destruct (decide (e.1.1 < length rest)%nat) as [Hlt|Hge].
    + exists b'. split; [by eapply rev_head_lookup|done].
    + simpl in Hb'. rewrite lookup_app_r in Hb' by (rewrite length_rev; lia). rewrite length_rev in Hb'.
      destruct (e.1.1 - length rest)%nat as [|k] eqn:Ek; simpl in Hb'; [|done]. injection Hb' as <-.
      exists (MkMemBlock (size b) (idx b + sz)). split; [|simpl; lia].
      simpl. rewrite lookup_app_r by (rewrite length_rev; lia). by rewrite length_rev, Ek.
  - intros e He [Hblk [Ho1 Ho2]]. simpl in *. destruct (Hkeep e He) as (b' & Hb' & Hlo & Hhi).
    rewrite Hblk, lookup_app_r, length_rev, Nat.sub_diag in Hb' by (rewrite length_rev; lia).
    injection Hb' as <-. lia.
Qed.

(** The allocations for a sequence of sizes: the part each one gets, and the
    blocks at the end. *)
Fixpoint allocate_all (blocks : list MemBlock) (sizes : list Z) : list (nat * Z * Z) * list MemBlock :=
  match sizes with
  | [] => ([], blocks)
  | n :: sizes' =>
      let '(blocks', a) := allocFromBlock blocks n in
      let '(es, last) := allocate_all blocks' sizes' in
      (extent a n :: es, last)
  end.

(** The part [e] lies behind the header of its block and before its end. *)
Definition inside_block (blocks : list MemBlock) (e : nat * Z * Z) : Prop :=
  exists b, rev blocks !! e.1.1 = Some b /\ sizeof_MemBlock <= e.1.2 /\ e.1.2 mod ALIGNOF_Tuple = 0 /\ e.2 <= size b.

Lemma below_inside blocks e : Forall block_ok blocks -> e.1.2 mod ALIGNOF_Tuple = 0 -> below blocks e -> inside_block blocks e.
Proof.
  intros Hok Ha (b & Hb & H1 & H2). exists b. split; [done|]. split; [done|]. split; [done|].
  apply Forall_rev in Hok. rewrite Forall_lookup in Hok. destruct (Hok _ _ Hb). lia.
Qed.

Lemma allocate_all_below blocks sizes e :
  Forall block_ok blocks -> Forall (fun n => 0 <= n) sizes -> below blocks e ->
  Forall (fun e' => ~ overlap e e') (allocate_all blocks sizes).1 /\ below (allocate_all blocks sizes).2 e.
Proof.
  revert blocks. induction sizes as [|n sizes IH]; intros blocks Hok Hs He; simpl; [done|].
  apply Forall_cons in Hs as [Hn Hs]. pose proof (allocFromBlock_spec blocks n Hn Hok) as H.
  destruct (allocFromBlock blocks n) as [blocks' a]. destruct H as (Hok' & _ & _ & Hkeep & Hdis).
  destruct (IH blocks' Hok' Hs (Hkeep e He)) as [H1 H2]. destruct (allocate_all blocks' sizes) as [es last].
  split; [|done]. constructor; [by apply Hdis|done].
Qed.

Lemma allocate_all_disjoint blocks sizes :
  Forall block_ok blocks -> Forall (fun n => 0 <= n) sizes ->
  let '(es, last) := allocate_all blocks sizes in
  ForallOrdPairs (fun e e' => ~ overlap e e') es /\ Forall block_ok last /\ Forall (inside_block last) es.
Proof.
  revert blocks. induction sizes as [|n sizes IH]; intros blocks Hok Hs; simpl; [by repeat constructor|].
  apply Forall_cons in Hs as [Hn Hs]. pose proof (allocFromBlock_spec blocks n Hn Hok) as H.
  destruct (allocFromBlock blocks n) as [blocks' a]. destruct H as (Hok' & Ha8 & Ha & _ & _).
  destruct (allocate_all_below blocks' sizes _ Hok' Hs Ha) as [H1 H2]. specialize (IH blocks' Hok' Hs).
  destruct (allocate_all blocks' sizes) as [es last]. destruct IH as (IH1 & IH2 & IH3).
  split; [by constructor|]. split; [done|]. constructor; [|done]. by apply below_inside.
Qed.

(** ** The theorems *)

(** C33: numbering a sequence of words never fails below the largest value;
    two words get the same number exactly when they are the same bytes, and
    every number is below the value that [getHashMax] returns. *)
Theorem getValues_classes (l : list (list Z)) : zlen l <= VALUE_MAX ->
  exists t vs, getValues empty_table l = Ok (t, vs) /\ length vs = length l /\
    (forall i j w w' v v', l !! i = Some w -> l !! j = Some w' -> vs !! i = Some v -> vs !! j = Some v' ->
       (v = v' <-> w = w')) /\
    Forall (fun v => 0 <= v < (getHashMax t).2) vs.
Proof.
  intros Hl. destruct (getValues_spec empty_table [] l) as (t & ws & vs & -> & Ht & _ & _ & Hvs);
    [apply no_words_rep|simpl; lia|].
  exists t, vs. split; [done|]. split; [symmetry; by eapply Forall2_length|]. split.
  - intros i j w w' v v' Hi Hj Hvi Hvj.
    destruct (Forall2_lookup_lr _ _ _ _ _ _ Hvs Hi Hvi) as [H0 H1].
    destruct (Forall2_lookup_lr _ _ _ _ _ _ Hvs Hj Hvj) as [H0' H1'].
    split; [intros ->; congruence|]. intros ->.
    pose proof (NoDup_lookup _ _ _ _ (rep_nodup _ _ Ht) H1 H1'). lia.
  - apply Forall_lookup. intros i v Hv. destruct (Forall2_lookup_r _ _ _ _ _ Hvs Hv) as (w & _ & H0 & H1).
    apply lookup_lt_Some in H1. destruct (getHashMax_spec t ws Ht) as [-> _]. lia.
Qed.

Lemma getValues_classes_witness :
  zlen [[97]; [98; 99]; [97]] <= VALUE_MAX /\
  exists t vs, getValues empty_table [[97]; [98; 99]; [97]] = Ok (t, vs) /\ length vs = 3%nat.
Proof.
  split; [vm_compute; discriminate|].
  destruct (getValues_classes [[97]; [98; 99]; [97]]) as (t & vs & H & Hl & _); [vm_compute; discriminate|].
  exists t, vs. split; [exact H|exact Hl].
Defined.

(** [getValue] implements the abstract numbering: a word seen before
    keeps its position, a new word gets the next one, and the chains stay
    consistent with the words seen. *)
Theorem getValue_refines t ws w : table_rep t ws -> zlen ws < VALUE_MAX ->
  exists t', getValue t w = Ok (t', (intern ws w).2) /\ table_rep t' (intern ws w).1.
Proof. apply getValue_intern. Qed.

Lemma getValue_refines_witness :
  exists t', getValue empty_table [104; 105] = Ok (t', 0) /\ table_rep t' [[104; 105]].
Proof. exact (getValue_refines empty_table [] [104; 105] (no_words_rep []) eq_refl). Defined.

(** C34: the tuples allocated for any sequence of word sizes never overlap,
    whether they share a block or get one of their own, and each of them is
    aligned and lies in the memory of its block, between the header and the
    size that was allocated. *)
Theorem allocFromBlock_disjoint sizes : Forall (fun n => 0 <= n) sizes ->
  let '(es, blocks) := allocate_all [] sizes in
  ForallOrdPairs (fun e e' => ~ overlap e e') es /\ Forall (inside_block blocks) es.
Proof.
  intros Hs. pose proof (allocate_all_disjoint [] sizes ltac:(constructor) Hs) as H.
  destruct (allocate_all [] sizes) as [es blocks]. tauto.
Qed.

Lemma allocFromBlock_disjoint_witness :
  let '(es, blocks) := allocate_all [] [40; 3000; 40; 32700] in
  ForallOrdPairs (fun e e' => ~ overlap e e') es /\ Forall (inside_block blocks) es.
Proof. exact (allocFromBlock_disjoint [40; 3000; 40; 32700] ltac:(repeat constructor; lia)). Defined.
