(* ===== verification/FileIO.v ===== *)
(** * file.c: buffered files

    A [File] buffers a file descriptor for reading or for writing.  The
    operating system is a parameter of every call: a list of events that says
    how the next system calls behave (a transfer of at most [k] bytes, or a
    failure with an error number).  When the list is used up calls succeed and
    transfer as much as possible. *)

From S2P Require Import Prelude EditScript.

Definition EOF : Z := -1.
Definition EINTR : Z := 4.
Definition FILE_BUFFER_SIZE : Z := 4096.

Inductive FileMode := FILE_READ | FILE_WRITE.
Inductive EOFState := EOF_NO | EOF_COMING | EOF_HIT.

#[export] Instance FileMode_eq_dec : EqDecision FileMode.
Proof. solve_decision. Defined.
#[export] Instance EOFState_eq_dec : EqDecision EOFState.
Proof. solve_decision. Defined.

(** ** The operating system *)

Inductive io_event :=
  | Transfer (k : Z)
  | Errno (e : Z).

(** An open file: its contents and the position. *)
Record fd_state := Fd {
  contents : list Z;
  fpos : Z
}.

(** read(2): at the end of the file 0 bytes, otherwise at least one. *)
Definition sys_read (os : list io_event) (fd : fd_state) (n : Z)
  : list io_event * fd_state * (list Z + Z) :=
  let transfer k :=
    let d := slice (contents fd) (fpos fd) (fpos fd + Z.max 1 (Z.min k n)) in
    (Fd (contents fd) (fpos fd + zlen d), inl d) in
  match os with
  | [] => let '(fd', r) := transfer n in ([], fd', r)
  | Transfer k :: os' => let '(fd', r) := transfer k in (os', fd', r)
  | Errno e :: os' => (os', fd, inr e)
  end.

(** write(2) at the position: the number of bytes written. *)
Definition sys_write (os : list io_event) (fd : fd_state) (d : list Z)
  : list io_event * fd_state * (Z + Z) :=
  let transfer k :=
    let k := Z.max 0 (Z.min k (zlen d)) in
    let old := contents fd in
    (Fd (slice old 0 (fpos fd) ++ slice d 0 k ++ slice old (fpos fd + k) (zlen old)) (fpos fd + k), inl k) in
  match os with
  | [] => let '(fd', r) := transfer (zlen d) in ([], fd', r)
  | Transfer k :: os' => let '(fd', r) := transfer k in (os', fd', r)
  | Errno e :: os' => (os', fd, inr e)
  end.

(** ** struct File *)

(** [buffer] holds the [bufferFill] bytes in use. *)
Record File := MkFile {
  fd : fd_state;
  errNo : Z;
  mode : FileMode;
  buffer : list Z;
  bufferIndex : Z;
  eof : EOFState
}.

Definition bufferFill (f : File) : Z := zlen (buffer f).

Definition fileWrapFD (fd : fd_state) (mode : FileMode) : File := MkFile fd 0 mode [] 0 EOF_NO.

(** Messages of failed assertions. *)
Definition wrong_mode : positive := 2.
Definition nothing_written : positive := 3.
Definition nothing_to_unget : positive := 4.

Definition set_errNo (f : File) (e : Z) : File :=
  MkFile (fd f) e (mode f) (buffer f) (bufferIndex f) (eof f).
Definition set_eof (f : File) (s : EOFState) : File :=
  MkFile (fd f) (errNo f) (mode f) (buffer f) (bufferIndex f) s.
Definition set_fd (f : File) (d : fd_state) : File :=
  MkFile d (errNo f) (mode f) (buffer f) (bufferIndex f) (eof f).

(** The loop that fills the buffer: the bytes read so far are [got]; the loop
    ends at the end of the file, at an error or with a full buffer. *)
Fixpoint fill_buffer (n : nat) (os : list io_event) (f : File) (got : list Z)
  : option (list io_event * File * list Z) :=
  match n with
  | O => None
  | S n' =>
      let '(os, d, r) := sys_read os (fd f) (FILE_BUFFER_SIZE - zlen got) in
      match r with
      | inr e =>
          if e =? EINTR then fill_buffer n' os f got
          else Some (os, set_errNo f e, got)
      | inl [] => Some (os, set_eof (set_fd f d) EOF_COMING, got)
      | inl bytes =>
          let got := got ++ bytes in
          if zlen got =? FILE_BUFFER_SIZE then Some (os, set_fd f d, got)
          else fill_buffer n' os (set_fd f d) got
      end
  end.

Definition next_buffered (f : File) : File * Z :=
  match zget (buffer f) (bufferIndex f) with
  | Some c => (MkFile (fd f) (errNo f) (mode f) (buffer f) (bufferIndex f + 1) (eof f), c)
  | None => (f, EOF)
  end.

(** The next character, or [EOF]. *)
Definition fileGetc (os : list io_event) (f : File) : option (result (list io_event * File * Z)) :=
  if bool_decide (mode f = FILE_READ) then
    if negb (errNo f =? 0) then Some (Ok (os, f, EOF))
    else if bufferFill f <=? bufferIndex f then
      if negb (bool_decide (eof f = EOF_NO)) then Some (Ok (os, set_eof f EOF_HIT, EOF))
      else
        let? (os, f, got) := fill_buffer (S (S (S (length os)))) os f [] in
        if negb (errNo f =? 0) then Some (Ok (os, f, EOF))
        else if zlen got =? 0 then Some (Ok (os, set_eof f EOF_HIT, EOF))
        else
          let '(f, c) := next_buffered (MkFile (fd f) (errNo f) (mode f) got 0 (eof f)) in
          Some (Ok (os, f, c))
    else let '(f, c) := next_buffered f in Some (Ok (os, f, c))
  else Some (Fatal wrong_mode).

Definition fileUngetc (f : File) (c : Z) : result (File * Z) :=
  if bool_decide (mode f = FILE_READ) then
    if negb (errNo f =? 0) then Ok (f, EOF)
    else if 0 <? bufferIndex f then
      let c := c mod 256 in
      Ok (MkFile (fd f) (errNo f) (mode f) (zset (buffer f) (bufferIndex f - 1) c) (bufferIndex f - 1) (eof f), c)
    else Fatal nothing_to_unget
  else Fatal wrong_mode.

(** The loop that writes the buffer; [done_] is [bytesWritten]. *)
Fixpoint write_buffer (n : nat) (os : list io_event) (f : File) (done_ : Z)
  : option (result (list io_event * File * bool)) :=
  match n with
  | O => None
  | S n' =>
      let '(os, d, r) := sys_write os (fd f) (slice (buffer f) done_ (bufferFill f)) in
      match r with
      | inr e =>
          if e =? EINTR then write_buffer n' os f done_
          else Some (Ok (os, set_errNo f e, false))
      | inl k =>
          if k =? 0 then Some (Fatal nothing_written)
          else
            let done_ := done_ + k in
            if done_ =? bufferFill f then Some (Ok (os, set_fd f d, true))
            else write_buffer n' os (set_fd f d) done_
      end
  end.

(** The number of bytes written, or [EOF]. *)
Definition flushBuffer (os : list io_event) (f : File) : option (result (list io_event * File * Z)) :=
  if bool_decide (mode f = FILE_READ) then Some (Ok (os, f, 0))
  else if negb (errNo f =? 0) then Some (Ok (os, f, EOF))
  else if bufferFill f =? 0 then Some (Ok (os, f, 0))
  else
    let? r := write_buffer (S (S (length os))) os f 0 in
    Some (
      let* (os, f', ok) := r in
      if ok : bool then
        Ok (os, MkFile (fd f') (errNo f') (mode f') [] (bufferIndex f') (eof f'), bufferFill f)
      else Ok (os, f', EOF)).

Definition fileFlush (os : list io_event) (f : File) : option (result (list io_event * File * Z)) :=
  let? r := flushBuffer os f in
  Some (let* (os, f, n) := r in Ok (os, f, if n =? EOF then -1 else 0)).

Definition append_buffer (f : File) (d : list Z) : File :=
  MkFile (fd f) (errNo f) (mode f) (buffer f ++ d) (bufferIndex f) (eof f).

Definition filePutc (os : list io_event) (f : File) (c : Z)
  : option (result (list io_event * File * Z)) :=
  if bool_decide (mode f = FILE_WRITE) then
    if negb (errNo f =? 0) then Some (Ok (os, f, EOF))
    else if FILE_BUFFER_SIZE <=? bufferFill f then
      let? r := flushBuffer os f in
      Some (
        let* (os, f, n) := r in
        if n =? EOF then Ok (os, f, EOF) else Ok (os, append_buffer f [c mod 256], 0))
    else Some (Ok (os, append_buffer f [c mod 256], 0))
  else Some (Fatal wrong_mode).

(** The loop of [fileWrite]: fill the buffer and flush it until all of [d] is
    in. *)
Fixpoint write_loop (n : nat) (os : list io_event) (f : File) (d : list Z)
  : option (result (list io_event * File * Z)) :=
  match n with
  | O => None
  | S n' =>
      let minLength := if FILE_BUFFER_SIZE - bufferFill f <? zlen d
                       then FILE_BUFFER_SIZE - bufferFill f else zlen d in
      let f := append_buffer f (slice d 0 minLength) in
      if zlen d - minLength =? 0 then Some (Ok (os, f, 0))
      else
        let? r := flushBuffer os f in
        match r with
        | Fatal e => Some (Fatal e)
        | Ok (os, f, k) =>
            if k =? EOF then Some (Ok (os, f, EOF))
            else write_loop n' os f (slice d minLength (zlen d))
        end
  end.

Definition fileWrite (os : list io_event) (f : File) (d : list Z)
  : option (result (list io_event * File * Z)) :=
  if bool_decide (mode f = FILE_WRITE) then
    if negb (errNo f =? 0) then Some (Ok (os, f, EOF))
    else write_loop (S (S (length d))) os f d
  else Some (Fatal wrong_mode).

(** [filePuts] writes the bytes of a C string. *)
Definition filePuts (os : list io_event) (f : File) (s : list Z)
  : option (result (list io_event * File * Z)) :=
  if bool_decide (mode f = FILE_WRITE) then
    if negb (errNo f =? 0) then Some (Ok (os, f, EOF)) else fileWrite os f s
  else Some (Fatal wrong_mode).

(** [seek_errno] is what lseek(2) reports, 0 for success. *)
Definition fileRewind (os : list io_event) (f : File) (m : FileMode) (seek_errno : Z)
  : option (result (list io_event * File * Z)) :=
  if bool_decide (m = FILE_READ) || (bool_decide (mode f = FILE_WRITE) && bool_decide (m = FILE_WRITE)) then
    let? r := flushBuffer os f in
    Some (
      let* (os, f, n) := r in
      if negb (n =? 0) then Ok (os, f, -1)
      else if negb (seek_errno =? 0) then Ok (os, set_errNo f seek_errno, -1)
      else Ok (os, MkFile (Fd (contents (fd f)) 0) (errNo f) m (buffer f) (bufferIndex f) EOF_NO, 0))
  else Some (Fatal wrong_mode).

(** [fileClose]: the result of flushing and closing; [close_errno] is what
    close(2) reports, 0 for success. *)
Definition fileClose (os : list io_event) (f : File) (close_errno : Z)
  : option (result (list io_event * File * Z)) :=
  let? r := flushBuffer os f in
  Some (let* (os, f, n) := r in
        Ok (os, f, if negb (close_errno =? 0) && (n =? 0) then close_errno else 0)).

Definition fileError (f : File) : bool := negb (errNo f =? 0).
Definition fileEof (f : File) : bool := bool_decide (eof f = EOF_HIT).
Definition fileGetErrno (f : File) : Z := errNo f.
Definition fileClearEof (f : File) : File := set_eof f EOF_COMING.
