(* ===== verification/FileProofs.v ===== *)
(** * Correctness of the buffered files

    As long as the system calls do not fail for good, short transfers and
    interrupted calls do not show: what is written to a file, flushed and
    rewound is read back byte for byte, and the end of the file is reported
    after the last byte and not before. *)

From S2P Require Import Prelude EditScript FileIO.

(** Transfers of at least a byte and interruptions, but no other errors. *)
Definition benign (ev : io_event) : Prop :=
  match ev with
  | Transfer k => 1 <= k
  | Errno e => e = EINTR
  end.

Lemma slice_drop {A} (l : list A) a : 0 <= a -> slice l a (zlen l) = drop (Z.to_nat a) l.
Proof. intros. unfold slice. apply take_ge. rewrite length_drop. lia. Qed.

Lemma slice_take {A} (l : list A) b : slice l 0 b = take (Z.to_nat b) l.
Proof. unfold slice. rewrite Z.sub_0_r. simpl. by rewrite drop_0. Qed.

(** ** Reading *)

(** The bytes still to be returned. *)
Definition rest (d : fd_state) : list Z := drop (Z.to_nat (fpos d)) (contents d).
Definition unread (f : File) : list Z := drop (Z.to_nat (bufferIndex f)) (buffer f) ++ rest (fd f).

Record read_ok (f : File) : Prop := {
  rd_mode : mode f = FILE_READ;
  rd_err : errNo f = 0;
  rd_index : 0 <= bufferIndex f <= bufferFill f;
  rd_pos : 0 <= fpos (fd f);
  rd_eof : eof f <> EOF_NO -> rest (fd f) = []
}.

(** What a successful read returns; a transfer that is not cut short reaches
    the requested length or the end of the file. *)
Definition read_prefix (d d' : fd_state) (n : Z) (bytes : list Z) : Prop :=
  rest d = bytes ++ rest d' /\ zlen bytes <= n /\ (bytes = [] -> rest d = []) /\ 0 <= fpos d'.

Lemma transfer_prefix d n k :
  0 <= fpos d -> 1 <= n ->
  let bytes := slice (contents d) (fpos d) (fpos d + Z.max 1 (Z.min k n)) in
  let d' := Fd (contents d) (fpos d + zlen bytes) in
  read_prefix d d' n bytes /\ (n <= k -> zlen bytes = n \/ rest d' = []).
Proof.
  intros Hp Hn bytes d'. set (m := Z.to_nat (Z.max 1 (Z.min k n))).
  assert (bytes = take m (rest d)) as Hb.
  { unfold bytes, slice, rest. f_equal. lia. }
  assert (rest d' = drop (length bytes) (rest d)) as Hr.
  { unfold rest, d'. simpl. rewrite drop_drop. f_equal. lia. }
  assert (0 <= fpos d') by (unfold d'; simpl; lia).
  clearbody d' bytes. subst bytes. rewrite length_take in *.
  unfold read_prefix. rewrite Hr. split; [split; [|split; [|split]]|].
  - rewrite <- (take_drop m (rest d)) at 1. f_equal.
    destruct (decide (length (rest d) <= m)%nat); [rewrite !drop_ge by lia; done|f_equal; lia].
  - rewrite length_take. lia.
  - destruct (rest d) as [|x r]; [done|]. assert (1 <= m)%nat by lia. by destruct m; [lia|].
  - done.
  - intros Hk. destruct (decide (n <= zlen (rest d))); [left; lia|right]. apply drop_ge. lia.
Qed.

Lemma sys_read_spec os d n : Forall benign os -> 0 <= fpos d -> 1 <= n ->
  exists os' d' r, sys_read os d n = (os', d', r) /\ Forall benign os' /\
    match r with
    | inl bytes => read_prefix d d' n bytes /\
        (os = [] /\ os' = [] /\ (zlen bytes = n \/ rest d' = []) \/ length os = S (length os'))
    | inr e => e = EINTR /\ d' = d /\ length os = S (length os')
    end.
Proof.
  intros Hos Hp Hn. destruct os as [|ev os].
  - eexists _, _, _. split; [done|]. split; [done|].
    destruct (transfer_prefix d n n Hp Hn) as [Hpre Hfull]. split; [done|]. left. auto with lia.
  - apply Forall_cons in Hos as [Hev Hos]. destruct ev as [k|e]; simpl in *.
    + eexists _, _, _. split; [done|]. split; [done|]. split; [by apply transfer_prefix|]. by right.
    + eexists _, _, _. split; [done|]. split; [done|]. done.
Qed.

Lemma fill_buffer_spec n os f got :
  Forall benign os -> read_ok f -> eof f = EOF_NO -> zlen got < FILE_BUFFER_SIZE ->
  (length os + (if decide (rest (fd f) = []) then 0 else 1) < n)%nat ->
  exists os' f' got', fill_buffer n os f got = Some (os', f', got') /\ Forall benign os' /\
    (mode f' = FILE_READ /\ buffer f' = buffer f /\ bufferIndex f' = bufferIndex f) /\
    errNo f' = 0 /\ 0 <= fpos (fd f') /\
    got ++ rest (fd f) = got' ++ rest (fd f') /\
    (eof f' = EOF_NO \/ eof f' = EOF_COMING /\ rest (fd f') = []) /\
    (got' = [] -> eof f' = EOF_COMING /\ rest (fd f) = []).
Proof.
  revert os f got. induction n as [|n IH]; intros os f got Hos R He Hg Hn; [lia|]. cbn [fill_buffer].
  destruct (sys_read_spec os (fd f) (FILE_BUFFER_SIZE - zlen got) Hos (rd_pos _ R) ltac:(lia))
    as (os' & d' & r & -> & Hos' & Hr).
  destruct r as [bytes|e].
  - destruct Hr as [(Hpre & Hlen & Hnil & Hpos) Hcase]. destruct bytes as [|b bytes].
    + eexists os', _, got. split; [done|]. simpl. split; [done|]. split; [split; [apply R|done]|]. split; [apply R|].
      split; [done|]. rewrite Hpre. split; [done|]. split; [right; split; [done|]; by rewrite <- (Hnil eq_refl), Hpre|].
      intros _. split; [done|]. rewrite <- Hpre. auto.
    + case_if.
      * eexists os', _, _. split; [done|]. simpl. split; [done|]. split; [split; [apply R|done]|]. split; [apply R|].
        split; [done|]. rewrite Hpre, <- app_assoc. split; [done|]. split; [by left|]. by destruct got.
      * assert (zlen (got ++ b :: bytes) < FILE_BUFFER_SIZE) by (rewrite length_app in *; lia).
        destruct (IH os' (set_fd f d') (got ++ b :: bytes)) as (os2 & f2 & got2 & -> & H1 & H2 & H3 & H4 & H5 & H6 & H7);
          try done.
        { split; simpl; try apply R; done. }
        { simpl. destruct Hcase as [(-> & -> & [Hf|Hf])|Hl].
          - rewrite length_app in *. lia.
          - rewrite decide_True by done. rewrite decide_False in Hn by (rewrite Hpre; done). simpl in *. lia.
          - rewrite decide_False in Hn by (rewrite Hpre; done). case_decide; lia. }
        eexists os2, f2, got2. split; [done|]. split; [done|]. split; [done|]. split; [done|]. split; [done|].
        split; [rewrite Hpre; by rewrite <- H5, <- app_assoc|]. split; [done|].
        intros ->. destruct (H7 eq_refl) as [Hco Hre].
        destruct H6 as [|[_ Hr0]]; [congruence|]. rewrite Hr0 in H5.
        apply (f_equal length) in H5. rewrite !length_app in H5. simpl in H5. lia.
  - destruct Hr as (-> & -> & Hl). rewrite Z.eqb_refl. apply IH; try done. lia.
Qed.

Lemma zget_drop {A} (l : list A) i : 0 <= i < zlen l ->
  exists x, zget l i = Some x /\ drop (Z.to_nat i) l = x :: drop (Z.to_nat (i + 1)) l.
Proof.
  intros Hi. destruct (zget_Some l i Hi) as [x Hx]. exists x. split; [done|].
  unfold zget in Hx. destruct (i <? 0); [done|]. rewrite (drop_S _ _ _ Hx).
  do 2 f_equal. lia.
Qed.

Lemma fileGetc_spec os f : Forall benign os -> read_ok f ->
  exists os' f', Forall benign os' /\ read_ok f' /\
    match unread f with
    | c :: l => fileGetc os f = Some (Ok (os', f', c)) /\ unread f' = l /\ (eof f <> EOF_HIT -> eof f' <> EOF_HIT)
    | [] => fileGetc os f = Some (Ok (os', f', EOF)) /\ unread f' = [] /\ fileEof f' = true
    end.
Proof.
  intros Hos R. pose proof (rd_index _ R). unfold bufferFill in *. unfold fileGetc.
  rewrite bool_decide_eq_true_2 by apply R. rewrite (rd_err _ R). simpl negb. cbv iota. unfold bufferFill.
  case_if.
  - unfold unread. rewrite (drop_ge (buffer f)) by lia. simpl app. case_bool_decide as Ee.
    + simpl negb. cbv iota.
      destruct (fill_buffer_spec (S (S (S (length os)))) os f [] Hos R Ee) as
        (os' & f' & got & -> & H1 & H2 & H3 & H4 & H5 & H6 & H7); [done|case_decide; lia|].
      obind. rewrite H3. simpl negb. cbv iota. simpl in H5. case_if.
      * assert (got = []) as -> by (destruct got; simpl in *; [done|lia]). destruct (H7 eq_refl) as [Hc Hr].
        rewrite Hr in H5 |- *. simpl in H5. exists os', (set_eof f' EOF_HIT). destruct H2 as (H2 & Hbuf & Hidx).
        split; [done|]. split; [|split; [done|]].
        { split; simpl; try done. unfold bufferFill. simpl. by rewrite Hbuf, Hidx. }
        split; [|done]. unfold unread. simpl. rewrite Hbuf, Hidx, drop_ge by lia. by rewrite <- H5.
      * destruct got as [|x got]; [done|]. rewrite H5. simpl. eexists os', _. split; [done|].
        split; [|split; [done|]; split; [simpl; by rewrite drop_0|]].
        { split; simpl; try done; [apply H2|unfold bufferFill; simpl; lia|].
          intros Hne. destruct H6 as [|[_ Hr]]; [congruence|done]. }
        simpl. destruct H6 as [->|[-> _]]; done.
    + simpl negb. cbv iota. rewrite (rd_eof _ R Ee). exists os, (set_eof f EOF_HIT). split; [done|].
      split; [|].
      { split; simpl; try apply R. intros _. by apply R. }
      split; [done|]. split; [|done]. unfold unread. simpl. rewrite drop_ge by lia. by rewrite (rd_eof _ R Ee).
  - destruct (zget_drop (buffer f) (bufferIndex f)) as (x & Hx & Hd); [lia|].
    unfold unread. rewrite Hd. unfold next_buffered. rewrite Hx.
    eexists os, _. split; [done|]. split; [|split; [done|]; split; [done|done]].
    split; simpl; try apply R. unfold bufferFill. simpl. lia.
Qed.

(** [while ((c = fileGetc(f)) != EOF) ...], at most [n] characters. *)
Fixpoint getc_all (n : nat) (os : list io_event) (f : File) : option (list io_event * File * list Z) :=
  match n with
  | O => None
  | S n' =>
      let? r := fileGetc os f in
      match r with
      | Fatal _ => None
      | Ok (os, f, c) =>
          if c =? EOF then Some (os, f, [])
          else let? (os, f, l) := getc_all n' os f in Some (os, f, c :: l)
      end
  end.

Definition bytes_ok (l : list Z) : Prop := Forall (fun c => 0 <= c < 256) l.

Lemma getc_all_spec n os f : Forall benign os -> read_ok f -> bytes_ok (unread f) ->
  (length (unread f) < n)%nat ->
  exists os' f', getc_all n os f = Some (os', f', unread f) /\ Forall benign os' /\ read_ok f' /\ fileEof f' = true.
Proof.
  revert os f. induction n as [|n IH]; intros os f Hos R Hb Hn; [lia|]. cbn [getc_all].
  destruct (fileGetc_spec os f Hos R) as (os' & f' & Hos' & R' & H).
  destruct (unread f) as [|c l] eqn:E.
  - destruct H as (-> & Hu & He). obind. rewrite Z.eqb_refl. by exists os', f'.
  - apply Forall_cons in Hb as [Hc Hb]. destruct H as (-> & Hu & _). obind.
    rewrite (proj2 (Z.eqb_neq c EOF)) by (unfold EOF; lia).
    destruct (IH os' f' Hos' R') as (os2 & f2 & -> & Hos2 & R2 & He2); [by rewrite Hu|rewrite Hu; simpl in Hn; lia|].
    obind. rewrite Hu. by exists os2, f2.
Qed.

(** ** Writing *)

(** Everything written: what is in the file and what is in the buffer. *)
Definition written (f : File) : list Z := contents (fd f) ++ buffer f.

Record write_ok (f : File) : Prop := {
  wr_mode : mode f = FILE_WRITE;
  wr_err : errNo f = 0;
  wr_fill : bufferFill f <= FILE_BUFFER_SIZE;
  wr_index : bufferIndex f = 0;
  wr_pos : fpos (fd f) = zlen (contents (fd f))
}.

(** Writing at the end of a file appends. *)
Lemma append_at_end (old d : list Z) k :
  slice old 0 (zlen old) ++ slice d 0 k ++ slice old (zlen old + k) (zlen old) = old ++ slice d 0 k \/ k < 0.
Proof.
  destruct (decide (k < 0)); [by right|left]. rewrite slice_all. rewrite (slice_empty old) by lia. by rewrite app_nil_r.
Qed.

Lemma sys_write_spec os d bytes : Forall benign os -> fpos d = zlen (contents d) -> bytes <> [] ->
  exists os' d' r, sys_write os d bytes = (os', d', r) /\ Forall benign os' /\
    match r with
    | inl k => 1 <= k <= zlen bytes /\ contents d' = contents d ++ slice bytes 0 k /\
        fpos d' = zlen (contents d') /\ (k = zlen bytes \/ length os = S (length os'))
    | inr e => e = EINTR /\ d' = d /\ length os = S (length os')
    end.
Proof.
  intros Hos Hp Hne. assert (1 <= zlen bytes) by (destruct bytes; simpl; [done|lia]).
  assert (forall k, 1 <= k <= zlen bytes ->
    let d' := Fd (slice (contents d) 0 (fpos d) ++ slice bytes 0 k ++ slice (contents d) (fpos d + k) (zlen (contents d)))
      (fpos d + k) in
    contents d' = contents d ++ slice bytes 0 k /\ fpos d' = zlen (contents d')) as Happ.
  { intros k Hk d'. unfold d'. simpl. rewrite Hp. destruct (append_at_end (contents d) bytes k) as [->|]; [|lia].
    split; [done|]. rewrite length_app, slice_length by lia. lia. }
  destruct os as [|ev os].
  - eexists _, _, _. split; [done|]. split; [done|].
    replace (Z.max 0 (Z.min (zlen bytes) (zlen bytes))) with (zlen bytes) by lia.
    destruct (Happ (zlen bytes) ltac:(lia)) as [H1 H2]. split; [lia|]. auto.
  - apply Forall_cons in Hos as [Hev Hos]. destruct ev as [k|e]; simpl in Hev.
    + eexists _, _, _. split; [done|]. split; [done|].
      destruct (Happ (Z.max 0 (Z.min k (zlen bytes))) ltac:(lia)) as [H1 H2]. split; [lia|]. auto.
    + eexists _, _, _. split; [done|]. split; [done|]. done.
Qed.

Lemma write_buffer_spec n os f done_ :
  Forall benign os -> write_ok f -> 0 <= done_ < bufferFill f -> (length os < n)%nat ->
  exists os' f', write_buffer n os f done_ = Some (Ok (os', f', true)) /\ Forall benign os' /\
    errNo f' = 0 /\ mode f' = FILE_WRITE /\ bufferIndex f' = 0 /\ eof f' = eof f /\
    contents (fd f') = contents (fd f) ++ slice (buffer f) done_ (bufferFill f) /\
    fpos (fd f') = zlen (contents (fd f')).
Proof.
  revert os f done_. induction n as [|n IH]; intros os f done_ Hos W Hd Hn; [lia|]. cbn [write_buffer].
  unfold bufferFill in *.
  assert (zlen (slice (buffer f) done_ (zlen (buffer f))) = zlen (buffer f) - done_) as Hlen
    by (rewrite slice_length; lia).
  destruct (sys_write_spec os (fd f) (slice (buffer f) done_ (zlen (buffer f))) Hos (wr_pos _ W))
    as (os' & d' & r & -> & Hos' & Hr); [intros Hnil; rewrite Hnil in Hlen; simpl in Hlen; lia|].
  destruct r as [k|e].
  - destruct Hr as (Hk & Hc & Hpos & Hcase). rewrite (proj2 (Z.eqb_neq k 0)) by lia.
    assert (slice (slice (buffer f) done_ (zlen (buffer f))) 0 k = slice (buffer f) done_ (done_ + k)) as Hsl.
    { rewrite slice_take. unfold slice. rewrite take_take. f_equal. lia. }
    rewrite Hsl in Hc. case_if.
    + exists os', (set_fd f d'). split; [done|]. split; [done|]. simpl. repeat split; try apply W; try done.
      rewrite Hc. do 2 f_equal. lia.
    + destruct (IH os' (set_fd f d') (done_ + k)) as (os2 & f2 & -> & H1 & H2 & H3 & H4 & H5 & H6 & H7);
        simpl; try done; try lia; [split; simpl; try apply W; done|].
      exists os2, f2. repeat split; try done. rewrite H6. simpl. rewrite Hc, <- app_assoc. f_equal.
      symmetry. apply slice_split; lia.
  - destruct Hr as (-> & -> & Hl). rewrite Z.eqb_refl. apply IH; try done. lia.
Qed.

Lemma flushBuffer_spec os f : Forall benign os -> write_ok f ->
  exists os' f' k, flushBuffer os f = Some (Ok (os', f', k)) /\ k = bufferFill f /\ Forall benign os' /\
    write_ok f' /\ buffer f' = [] /\ written f' = written f /\ eof f' = eof f.
Proof.
  intros Hos W. unfold flushBuffer. rewrite bool_decide_eq_false_2 by (rewrite (wr_mode _ W); done).
  rewrite (wr_err _ W). simpl negb. cbv iota. case_if.
  - exists os, f, 0. unfold bufferFill in *. repeat split; try apply W; try done. by destruct (buffer f).
  - unfold bufferFill in *.
    destruct (write_buffer_spec (S (S (length os))) os f 0 Hos W) as (os' & f' & -> & H1 & H2 & H3 & H4 & H5 & H6 & H7);
      unfold bufferFill; [lia|lia|]. obind. simpl.
    eexists os', _, _. split; [done|]. split; [done|]. split; [done|]. split; [|split; [done|]].
    { split; simpl; try done. }
    split; [|done]. unfold written. simpl. rewrite app_nil_r, H6. unfold bufferFill. by rewrite slice_all.
Qed.

Lemma append_buffer_written f d : written (append_buffer f d) = written f ++ d.
Proof. unfold written. simpl. by rewrite app_assoc. Qed.

Lemma append_buffer_ok f d : write_ok f -> bufferFill f + zlen d <= FILE_BUFFER_SIZE -> write_ok (append_buffer f d).
Proof.
  intros W H. split; simpl; try apply W. unfold bufferFill in *. simpl. rewrite length_app. lia.
Qed.

Lemma filePutc_spec os f c : Forall benign os -> write_ok f ->
  exists os' f', filePutc os f c = Some (Ok (os', f', 0)) /\ Forall benign os' /\ write_ok f' /\
    written f' = written f ++ [c mod 256] /\ eof f' = eof f.
Proof.
  intros Hos W. unfold filePutc. rewrite bool_decide_eq_true_2 by apply W. rewrite (wr_err _ W). simpl negb. cbv iota.
  case_if.
  - destruct (flushBuffer_spec os f Hos W) as (os' & f' & k & -> & -> & Hos' & W' & Hb & Hw & He). obind. simpl.
    rewrite (proj2 (Z.eqb_neq (bufferFill f) EOF)) by (unfold EOF, FILE_BUFFER_SIZE in *; lia).
    eexists os', _. split; [done|]. split; [done|]. split; [|split; [|done]].
    + apply append_buffer_ok; [done|]. unfold bufferFill. rewrite Hb. done.
    + by rewrite append_buffer_written, Hw.
  - eexists os, _. split; [done|]. split; [done|]. split; [|split; [|done]].
    + apply append_buffer_ok; [done|]. simpl. unfold bufferFill in *. lia.
    + by rewrite append_buffer_written.
Qed.

Lemma write_loop_spec n os f d : Forall benign os -> write_ok f ->
  (length d + (if decide (bufferFill f = FILE_BUFFER_SIZE) then 1 else 0) < n)%nat ->
  exists os' f', write_loop n os f d = Some (Ok (os', f', 0)) /\ Forall benign os' /\ write_ok f' /\
    written f' = written f ++ d /\ eof f' = eof f.
Proof.
  revert os f d. induction n as [|n IH]; intros os f d Hos W Hn; [lia|]. cbn [write_loop].
  pose proof (wr_fill _ W) as Hfill. set (m := if _ <? _ then _ else _).
  assert (0 <= m <= zlen d /\ bufferFill f + m <= FILE_BUFFER_SIZE) as [Hm Hm'].
  { unfold m, bufferFill in *. case_if; lia. }
  assert (write_ok (append_buffer f (slice d 0 m))) as W1.
  { apply append_buffer_ok; [done|]. rewrite slice_length by lia. lia. }
  case_if.
  - eexists os, _. split; [done|]. split; [done|]. split; [done|]. split; [|done].
    rewrite append_buffer_written. f_equal. replace m with (zlen d) by lia. apply slice_all.
  - destruct (flushBuffer_spec os _ Hos W1) as (os' & f' & k & -> & Hk & Hos' & W' & Hb & Hw & He). obind.
    assert (m = FILE_BUFFER_SIZE - bufferFill f) as Hmeq by (unfold m in *; destruct (_ <? _); [done|lia]).
    rewrite (proj2 (Z.eqb_neq k EOF)) by (rewrite Hk; unfold EOF, bufferFill; lia).
    destruct (IH os' f' (slice d m (zlen d)) Hos' W') as (os2 & f2 & -> & Hos2 & W2 & Hw2 & He2).
    { assert (bufferFill f' = 0) as Hz by (unfold bufferFill; by rewrite Hb).
      rewrite slice_length by lia. rewrite (decide_False (P := bufferFill f' = _)) by (rewrite Hz; done).
      case_decide; lia. }
    exists os2, f2. split; [done|]. split; [done|]. split; [done|]. split; [|by rewrite He2, He].
    rewrite Hw2, Hw, append_buffer_written, <- app_assoc. f_equal. rewrite <- slice_split by lia. apply slice_all.
Qed.

Lemma fileWrite_spec os f d : Forall benign os -> write_ok f ->
  exists os' f', fileWrite os f d = Some (Ok (os', f', 0)) /\ Forall benign os' /\ write_ok f' /\
    written f' = written f ++ d /\ eof f' = eof f.
Proof.
  intros Hos W. unfold fileWrite. rewrite bool_decide_eq_true_2 by apply W. rewrite (wr_err _ W). simpl negb. cbv iota.
  apply write_loop_spec; [done|done|case_decide; lia].
Qed.

(** After a flush nothing is pending and rewinding succeeds. *)
Lemma fileRewind_spec os f : Forall benign os -> write_ok f -> buffer f = [] ->
  exists f', fileRewind os f FILE_READ 0 = Some (Ok (os, f', 0)) /\ read_ok f' /\
    unread f' = written f /\ eof f' = EOF_NO.
Proof.
  intros Hos W Hb. unfold fileRewind. simpl orb. cbv iota.
  unfold flushBuffer. rewrite bool_decide_eq_false_2 by (rewrite (wr_mode _ W); done).
  rewrite (wr_err _ W). unfold bufferFill. rewrite Hb. simpl. rewrite (wr_err _ W).
  eexists _. split; [done|]. split; [|split; [|done]].
  - split; simpl; try done. unfold bufferFill. simpl. rewrite (wr_index _ W). lia.
  - unfold unread, written, rest. simpl. rewrite Hb, drop_nil, drop_0, app_nil_r. done.
Qed.

(** ** The theorems *)

(** A sequence of writes: characters and blocks. *)
Inductive write_op :=
  | PutC (c : Z)
  | WriteBytes (d : list Z).

Definition op_bytes (o : write_op) : list Z :=
  match o with
  | PutC c => [c mod 256]
  | WriteBytes d => d
  end.

Fixpoint do_writes (os : list io_event) (f : File) (ops : list write_op)
  : option (list io_event * File) :=
  match ops with
  | [] => Some (os, f)
  | o :: ops' =>
      let? r := (match o with PutC c => filePutc os f c | WriteBytes d => fileWrite os f d end) in
      match r with
      | Ok (os, f, 0) => do_writes os f ops'
      | _ => None
      end
  end.

Lemma do_writes_spec os f ops : Forall benign os -> write_ok f ->
  exists os' f', do_writes os f ops = Some (os', f') /\ Forall benign os' /\ write_ok f' /\
    written f' = written f ++ concat (op_bytes <$> ops).
Proof.
  revert os f. induction ops as [|o ops IH]; intros os f Hos W; cbn [do_writes].
  - exists os, f. by rewrite app_nil_r.
  - assert (exists os1 f1, (match o with PutC c => filePutc os f c | WriteBytes d => fileWrite os f d end)
        = Some (Ok (os1, f1, 0)) /\ Forall benign os1 /\ write_ok f1 /\ written f1 = written f ++ op_bytes o)
      as (os1 & f1 & -> & Hos1 & W1 & Hw1).
    { destruct o as [c|d].
      - destruct (filePutc_spec os f c Hos W) as (? & ? & ? & ? & ? & ? & ?). eauto 10.
      - destruct (fileWrite_spec os f d Hos W) as (? & ? & ? & ? & ? & ? & ?). eauto 10. }
    obind. destruct (IH os1 f1 Hos1 W1) as (os2 & f2 & -> & Hos2 & W2 & Hw2).
    exists os2, f2. split; [done|]. split; [done|]. split; [done|]. rewrite Hw2, Hw1. simpl. by rewrite app_assoc.
Qed.

(** What readFile does with a temporary file: write, flush, rewind; then read
    it to the end. *)
Definition write_then_read (os : list io_event) (ops : list write_op) (n : nat)
  : option (list Z * bool) :=
  let? (os, f) := do_writes os (fileWrapFD (Fd [] 0) FILE_WRITE) ops in
  let? r := fileFlush os f in
  match r with
  | Ok (os, f, 0) =>
      let? r := fileRewind os f FILE_READ 0 in
      match r with
      | Ok (os, f, 0) => let? (os, f, l) := getc_all n os f in Some (l, fileEof f)
      | _ => None
      end
  | _ => None
  end.

(** C35: whatever short transfers and interruptions occur, the characters and
    blocks written to a temporary file, flushed and rewound are read back byte
    for byte, followed by the end of the file. *)
Theorem write_read_roundtrip os ops n :
  Forall benign os -> bytes_ok (concat (op_bytes <$> ops)) -> (length (concat (op_bytes <$> ops)) < n)%nat ->
  write_then_read os ops n = Some (concat (op_bytes <$> ops), true).
Proof.
  intros Hos Hb Hn. unfold write_then_read.
  destruct (do_writes_spec os (fileWrapFD (Fd [] 0) FILE_WRITE) ops Hos) as (os1 & f1 & -> & Hos1 & W1 & Hw1);
    [by split|]. obind. unfold fileFlush.
  destruct (flushBuffer_spec os1 f1 Hos1 W1) as (os2 & f2 & k & -> & -> & Hos2 & W2 & Hbuf & Hw2 & _). obind. simpl.
  rewrite (proj2 (Z.eqb_neq (bufferFill f1) EOF)) by (unfold EOF, bufferFill; lia).
  destruct (fileRewind_spec os2 f2 Hos2 W2 Hbuf) as (f3 & -> & R3 & Hu & _). obind.
  rewrite Hw2, Hw1 in Hu. simpl in Hu.
  destruct (getc_all_spec n os2 f3 Hos2 R3) as (os4 & f4 & -> & _ & _ & He); [by rewrite Hu..|]. obind.
  by rewrite Hu, He.
Qed.

Lemma write_read_roundtrip_witness :
  write_then_read [Transfer 1; Errno EINTR; Transfer 2; Errno EINTR; Transfer 3]
    [PutC 104; WriteBytes [105; 0; 255]; PutC 10] 6 = Some ([104; 105; 0; 255; 10], true).
Proof.
  apply (write_read_roundtrip _ [PutC 104; WriteBytes [105; 0; 255]; PutC 10]).
  - repeat constructor; simpl; lia.
  - simpl. repeat constructor; lia.
  - simpl. lia.
Defined.

(** An error sticks: once [errNo] is set, reading, writing and putting
    back return [EOF] and touch neither the file nor its state. *)
Theorem error_is_sticky os f c d :
  errNo f <> 0 ->
  (mode f = FILE_READ -> fileGetc os f = Some (Ok (os, f, EOF)) /\ fileUngetc f c = Ok (f, EOF)) /\
  (mode f = FILE_WRITE -> filePutc os f c = Some (Ok (os, f, EOF)) /\ fileWrite os f d = Some (Ok (os, f, EOF)) /\
     fileFlush os f = Some (Ok (os, f, -1))).
Proof.
  intros He. apply Z.eqb_neq in He. split; intros Hm.
  - unfold fileGetc, fileUngetc. rewrite bool_decide_eq_true_2, He by done. done.
  - unfold filePutc, fileWrite, fileFlush, flushBuffer.
    rewrite (bool_decide_eq_true_2 (mode f = FILE_WRITE)), (bool_decide_eq_false_2 (mode f = FILE_READ)) by congruence.
    rewrite He. done.
Qed.

Lemma error_is_sticky_witness :
  fileGetc [] (MkFile (Fd [1] 0) 5 FILE_READ [] 0 EOF_NO) = Some (Ok ([], MkFile (Fd [1] 0) 5 FILE_READ [] 0 EOF_NO, EOF)).
Proof. apply (error_is_sticky [] (MkFile (Fd [1] 0) 5 FILE_READ [] 0 EOF_NO) 0 []); [discriminate|reflexivity]. Defined.

(** Rewinding a file with pending output does not rewind it: the output
    is written, -1 is returned, and mode and position stay those of a file
    being written. *)
Theorem rewind_pending os f : Forall benign os -> write_ok f -> buffer f <> [] ->
  exists os' f', fileRewind os f FILE_READ 0 = Some (Ok (os', f', -1)) /\
    mode f' = FILE_WRITE /\ contents (fd f') = written f /\ fpos (fd f') = zlen (written f).
Proof.
  intros Hos W Hb. unfold fileRewind. simpl orb. cbv iota.
  destruct (flushBuffer_spec os f Hos W) as (os' & f' & k & -> & -> & _ & W' & Hb' & Hw & _). obind. simpl.
  assert (bufferFill f <> 0) as Hf by (unfold bufferFill; destruct (buffer f); simpl; [done|lia]).
  apply Z.eqb_neq in Hf. rewrite Hf. simpl. exists os', f'. split; [done|]. split; [apply W'|].
  unfold written in Hw at 1. rewrite Hb', app_nil_r in Hw. rewrite <- Hw. split; [done|apply W'].
Qed.

Lemma rewind_pending_witness :
  exists os' f', fileRewind [] (MkFile (Fd [] 0) 0 FILE_WRITE [65] 0 EOF_NO) FILE_READ 0 = Some (Ok (os', f', -1)) /\
    mode f' = FILE_WRITE /\ contents (fd f') = [65] /\ fpos (fd f') = 1.
Proof.
  apply (rewind_pending [] (MkFile (Fd [] 0) 0 FILE_WRITE [65] 0 EOF_NO)); [constructor| |discriminate].
  split; (reflexivity || (vm_compute; discriminate)).
Defined.
