(* ===== verification/ContextBuffer.v ===== *)
(** * buffer.c: output with a limited number of context lines

    With the -C option only lines near a change are printed.  Common text is
    kept in a ring of [contextLines + 1] line buffers until a change shows
    that it is needed.  This file has the operations; ContextProofs relates
    them to a specification that looks ahead instead of buffering. *)

From S2P Require Import Prelude EditScript HashTable.

Inductive PrintState :=
  | PRINTING_CHANGED
  | PRINTING_AFTER_CONTEXT
  | PRE_BUFFERING
  | BUFFERING
  | PRE_BUFFERING_INITIAL
  | BUFFERING_INITIAL.

#[export] Instance PrintState_eq_dec : EqDecision PrintState.
Proof. solve_decision. Defined.

(** The static variables, what has been written to [option.output], and what
    has been written to standard output if that is another file. *)
Record outstate := OutState {
  state : PrintState;
  contextBuffers : list (vector Z);
  bufferIndex : Z;
  afterContextLines : Z;
  output : list Z;
  std_output : list Z
}.

Definition newline : Z := 10.
(** The separator between blocks of output: two dashes and a newline. *)
Definition separator : list Z := [45; 45; 10].

Definition is_buffering (s : PrintState) : bool :=
  match s with
  | PRINTING_CHANGED | PRINTING_AFTER_CONTEXT => false
  | _ => true
  end.

Definition set_state (o : outstate) (s : PrintState) : outstate :=
  OutState s (contextBuffers o) (bufferIndex o) (afterContextLines o) (output o) (std_output o).
Definition set_index (o : outstate) (i : Z) : outstate :=
  OutState (state o) (contextBuffers o) i (afterContextLines o) (output o) (std_output o).
Definition set_after (o : outstate) (n : Z) : outstate :=
  OutState (state o) (contextBuffers o) (bufferIndex o) n (output o) (std_output o).
Definition set_buffers (o : outstate) (l : list (vector Z)) : outstate :=
  OutState (state o) l (bufferIndex o) (afterContextLines o) (output o) (std_output o).
Definition write_out (o : outstate) (l : list Z) : outstate :=
  OutState (state o) (contextBuffers o) (bufferIndex o) (afterContextLines o) (output o ++ l) (std_output o).
(** [printf], [puts] and [putchar]; [here] says that [option.output] is the
    standard output. *)
Definition write_std (here : bool) (o : outstate) (l : list Z) : outstate :=
  if here then write_out o l
  else OutState (state o) (contextBuffers o) (bufferIndex o) (afterContextLines o) (output o) (std_output o ++ l).

(** The buffers [a] to [b], one after the other. *)
Definition buffers_text (bufs : list (vector Z)) (a b : Z) : list Z :=
  concat (data <$> slice bufs a (b + 1)).

Section Output.
Context (context : bool) (contextLines : Z).

Definition initContextBuffers : outstate :=
  OutState PRE_BUFFERING_INITIAL (replicate (Z.to_nat (contextLines + 1)) VECTOR_INIT) 0 0 [] [].

(** Replace the buffer in use; [None] if the index is outside the ring. *)
Definition update_buffer (o : outstate) (f : vector Z -> vector Z) : option outstate :=
  let? b := zget (contextBuffers o) (bufferIndex o) in
  Some (set_buffers o (zset (contextBuffers o) (bufferIndex o) (f b))).

(** Print the buffered output because of a character that is not common. *)
Definition flush_context (o : outstate) : outstate :=
  match state o with
  | PRINTING_CHANGED | PRINTING_AFTER_CONTEXT => o
  | BUFFERING =>
      write_out o (separator ++ buffers_text (contextBuffers o) (bufferIndex o + 1) contextLines
                   ++ buffers_text (contextBuffers o) 0 (bufferIndex o))
  | BUFFERING_INITIAL =>
      write_out o (buffers_text (contextBuffers o) (bufferIndex o + 1) contextLines
                   ++ buffers_text (contextBuffers o) 0 (bufferIndex o))
  | PRE_BUFFERING | PRE_BUFFERING_INITIAL =>
      write_out o (buffers_text (contextBuffers o) 0 (bufferIndex o))
  end.

(** The change of state at the end of a line. *)
Definition end_of_line (o : outstate) : outstate :=
  match state o with
  | PRINTING_CHANGED =>
      if contextLines =? 0 then set_state o PRE_BUFFERING
      else set_after (set_state o PRINTING_AFTER_CONTEXT) 0
  | PRINTING_AFTER_CONTEXT =>
      let o := set_after o (afterContextLines o + 1) in
      if afterContextLines o =? contextLines then set_index (set_state o PRE_BUFFERING) 0 else o
  | PRE_BUFFERING_INITIAL | PRE_BUFFERING =>
      let o' := set_index o (bufferIndex o + 1) in
      if contextLines <? bufferIndex o' then
        set_index (set_state o' (if bool_decide (state o = PRE_BUFFERING) then BUFFERING else BUFFERING_INITIAL)) 0
      else o'
  | BUFFERING_INITIAL | BUFFERING =>
      let o' := set_index o (bufferIndex o + 1) in
      if contextLines <? bufferIndex o' then set_index o' 0 else o'
  end.

Definition addchar (o : outstate) (c : Z) (common : bool) : option outstate :=
  if negb context then Some (write_out o [c])
  else
    let o := if common then o else set_state (flush_context o) PRINTING_CHANGED in
    let? o :=
      (if is_buffering (state o) then update_buffer o (fun b => VECTOR_APPEND b c)
       else Some (write_out o [c])) in
    if c =? newline then
      update_buffer (end_of_line o) (fun b => Vector [] (allocated b))
    else Some o.

(** Print a string, buffering if necessary. *)
Definition writeString (o : outstate) (s : list Z) : option outstate :=
  if negb context then Some (write_out o s)
  else if is_buffering (state o) then
    update_buffer o (fun b =>
      let b := VECTOR_ALLOCATE b (zlen s) in Vector (data b ++ s) (allocated b))
  else Some (write_out o s).

(** ** Line numbers *)

(** The decimal digits of a natural number. *)
Fixpoint digits (n : nat) (v : Z) : list Z :=
  match n with
  | O => []
  | S n' => if v <? 10 then [48 + v] else digits n' (v / 10) ++ [48 + v mod 10]
  end.

(** [%d], for a C [int]. *)
Definition decimal (v : Z) : list Z :=
  if v <? 0 then 45 :: digits 11 (- v) else digits 11 v.

Definition spaces (n : Z) : list Z := replicate (Z.to_nat n) 32.

(** [LINENUMBERS_FMT_ARGS]: a colon between a right-aligned and a left-aligned
    number, and a space. *)
Definition linenumbers_text (width old new : Z) : list Z :=
  let o := decimal old in
  let n := decimal new in
  spaces (width - zlen o) ++ o ++ [58] ++ n ++ spaces (width - zlen n) ++ [32].

(** [snprintf(data + used, size, ...)]: at most [size - 1] characters and a
    null byte; the result is the length of the whole text. *)
Definition snprintf (size : Z) (text : list Z) : list Z :=
  if size <=? 0 then [] else if zlen text <? size then text else slice text 0 (size - 1) ++ [0].

Definition printLineNumbers (here : bool) (width : Z) (o : outstate) (old new : Z) : option outstate :=
  let text := linenumbers_text width old new in
  if negb context then Some (write_std here o text)
  else if is_buffering (state o) then
    update_buffer o (fun b =>
      let allowed := allocated b - used b in
      let b := VECTOR_ALLOCATE b 4 in
      let printed := zlen text in
      if allowed <? printed then
        let b := VECTOR_ALLOCATE b printed in
        let allowed := allocated b - used b in
        Vector (data b ++ take (length text) (snprintf allowed text)) (allocated b)
      else Vector (data b ++ take (length text) (snprintf allowed text)) (allocated b))
  else Some (write_std here o text).
End Output.
