(* ===== verification/ContextProofs.v ===== *)
(** * Correctness of the context buffers

    The ring of buffers implements a list of pending lines ([rep]), and the
    machine that works on lines prints exactly what a specification that looks
    ahead prints ([in_context]): the lines with a change, [contextLines] lines
    before and after each of them, and a separator where lines are left out
    between two printed ones. *)

From S2P Require Import Prelude EditScript HashTable ContextBuffer.

Section Context_.
Context (C : Z) (HC : 0 <= C).

(** ** The ring as a list of lines *)

(** The pending lines, oldest first; the last one is not complete. *)
Definition pending (o : outstate) : list (list Z) :=
  let bufs := data <$> contextBuffers o in
  match state o with
  | PRINTING_CHANGED | PRINTING_AFTER_CONTEXT => []
  | PRE_BUFFERING | PRE_BUFFERING_INITIAL => slice bufs 0 (bufferIndex o + 1)
  | BUFFERING | BUFFERING_INITIAL => slice bufs (bufferIndex o + 1) (C + 1) ++ slice bufs 0 (bufferIndex o + 1)
  end.

(** Whether a separator precedes the pending lines. *)
Definition gap (o : outstate) : bool := bool_decide (state o = BUFFERING).

Record ring_ok (o : outstate) : Prop := {
  ring_len : zlen (contextBuffers o) = C + 1;
  ring_idx : 0 <= bufferIndex o <= C;
  ring_vec : Forall vector_ok (contextBuffers o);
  ring_after : state o = PRINTING_AFTER_CONTEXT -> 0 <= afterContextLines o < C
}.

Lemma flush_context_spec o : ring_ok o ->
  flush_context C o = write_out o ((if gap o then separator else []) ++ concat (pending o)).
Proof.
  intros R. unfold flush_context, gap, pending, buffers_text. destruct o as [s bufs i a out].
  destruct s; simpl; unfold write_out; simpl; rewrite ?app_nil_r; try done;
    rewrite ?slice_fmap, ?concat_app; done.
Qed.

(** The part of [pending] before the current line, and the current line. *)
Definition pending_front (o : outstate) : list (list Z) :=
  let bufs := data <$> contextBuffers o in
  match state o with
  | PRINTING_CHANGED | PRINTING_AFTER_CONTEXT => []
  | PRE_BUFFERING | PRE_BUFFERING_INITIAL => slice bufs 0 (bufferIndex o)
  | BUFFERING | BUFFERING_INITIAL => slice bufs (bufferIndex o + 1) (C + 1) ++ slice bufs 0 (bufferIndex o)
  end.

Lemma pending_current o b : ring_ok o -> is_buffering (state o) = true ->
  zget (contextBuffers o) (bufferIndex o) = Some b -> pending o = pending_front o ++ [data b].
Proof.
  intros R Hbuf Hb. pose proof (ring_idx _ R) as Hi. unfold pending, pending_front.
  rewrite (slice_snoc _ 0 (bufferIndex o) (data b)); [|lia|by rewrite zget_fmap, Hb].
  destruct (state o); try done; by rewrite app_assoc.
Qed.

Lemma update_buffer_spec o f : ring_ok o -> (forall b, vector_ok b -> vector_ok (f b)) ->
  exists b o', zget (contextBuffers o) (bufferIndex o) = Some b /\ vector_ok b /\
    update_buffer o f = Some o' /\ ring_ok o' /\
    (state o' = state o /\ bufferIndex o' = bufferIndex o) /\
    (afterContextLines o' = afterContextLines o /\ output o' = output o) /\
    pending_front o' = pending_front o /\
    zget (contextBuffers o') (bufferIndex o') = Some (f b).
Proof.
  intros R Hf. pose proof (ring_idx _ R) as Hi. pose proof (ring_len _ R) as Hl.
  destruct (zget_Some (contextBuffers o) (bufferIndex o)) as [b Hb]; [lia|].
  assert (vector_ok b) as Hv.
  { apply (proj1 (Forall_lookup _ _) (ring_vec _ R) (Z.to_nat (bufferIndex o))).
    unfold zget in Hb. by destruct (_ <? 0). }
  exists b. eexists. split; [done|]. split; [done|]. unfold update_buffer. rewrite Hb. obind. split; [done|]. split.
  { split; simpl; [rewrite zset_length; done|done| |apply R].
    unfold zset. case_if; [lia|]. apply Forall_insert; [apply R|by apply Hf]. }
  split; [done|]. split; [done|]. split; [|simpl; apply zget_zset_eq; lia].
  unfold pending_front. simpl. rewrite zset_fmap.
  destruct (state o); try done; rewrite !slice_zset_out by lia; done.
Qed.

(** ** The machine on lines *)

(** Printing a line with a change, printing the [k]-th line after one, or
    holding lines back; [initial] before the first output, [dropped] when a
    line has been forgotten. *)
Inductive lview :=
  | LPrint
  | LAfter (k : Z)
  | LHold (initial dropped : bool) (lines : list (list Z)).

Definition view (o : outstate) : lview :=
  match state o with
  | PRINTING_CHANGED => LPrint
  | PRINTING_AFTER_CONTEXT => LAfter (afterContextLines o)
  | PRE_BUFFERING => LHold false false (pending o)
  | BUFFERING => LHold false true (pending o)
  | PRE_BUFFERING_INITIAL => LHold true false (pending o)
  | BUFFERING_INITIAL => LHold true true (pending o)
  end.

(** What is printed when a change turns up. *)
Definition lflush (v : lview) : list Z :=
  match v with
  | LHold initial dropped lines =>
      (if dropped && negb initial then separator else []) ++ concat lines
  | _ => []
  end.

(** Text added to the current line. *)
Definition ltext (v : lview) (t : list Z) : lview * list Z :=
  match v with
  | LHold initial dropped lines =>
      (LHold initial dropped (removelast lines ++ [default [] (last lines) ++ t]), [])
  | _ => (v, t)
  end.

Definition lnewline (v : lview) : lview :=
  match v with
  | LPrint => if C =? 0 then LHold false false [[]] else LAfter 0
  | LAfter k => if k + 1 =? C then LHold false false [[]] else LAfter (k + 1)
  | LHold initial dropped lines =>
      let lines' := lines ++ [[]] in
      if C + 1 <? zlen lines' then LHold initial true (tail lines') else LHold initial dropped lines'
  end.

Definition lchar (v : lview) (c : Z) (common : bool) : lview * list Z :=
  let '(v, out1) := if common then (v, []) else (LPrint, lflush v) in
  let '(v, out2) := ltext v [c] in
  (if c =? newline then lnewline v else v, out1 ++ out2).

(** ** The ring implements it *)

Lemma view_flush o : ring_ok o -> flush_context C o = write_out o (lflush (view o)).
Proof.
  intros R. rewrite flush_context_spec by done. unfold gap, view, pending. f_equal. by destruct (state o).
Qed.

Lemma view_update o f t : ring_ok o -> is_buffering (state o) = true ->
  (forall b, vector_ok b -> vector_ok (f b) /\ data (f b) = data b ++ t) ->
  exists o', update_buffer o f = Some o' /\ ring_ok o' /\ is_buffering (state o') = true /\ output o' = output o /\
    view o' = (ltext (view o) t).1 /\ (ltext (view o) t).2 = [].
Proof.
  intros R Hbuf Hf.
  destruct (update_buffer_spec o f R) as (b & o' & Hb & Hv & -> & R' & [Hs Hi] & [Ha Ho] & Hpf & Hb'); [intros; by apply Hf|].
  exists o'. split; [done|]. split; [done|]. split; [by rewrite Hs|]. split; [done|].
  pose proof (pending_current o b R Hbuf Hb) as Hp.
  pose proof (pending_current o' (f b) R' ltac:(by rewrite Hs) Hb') as Hp'.
  rewrite (proj2 (Hf b Hv)), Hpf in Hp'.
  unfold view. rewrite Hs. destruct (state o); try done; simpl; rewrite Hp, Hp'.
  all: rewrite removelast_last, last_snoc; simpl; done.
Qed.

(** Reset of the current buffer after the change of state. *)
Lemma view_reset o : ring_ok o ->
  exists o', update_buffer o (fun b => Vector [] (allocated b)) = Some o' /\ ring_ok o' /\ output o' = output o /\
    state o' = state o /\ afterContextLines o' = afterContextLines o /\
    (is_buffering (state o) = true -> pending o' = pending_front o ++ [[]]).
Proof.
  intros R.
  destruct (update_buffer_spec o (fun b => Vector [] (allocated b)) R) as (b & o' & Hb & Hv & -> & R' & [Hs Hi] & [Ha Ho] & Hpf & Hb').
  { intros b Hb. unfold vector_ok, used in *. simpl. lia. }
  exists o'. split; [done|]. split; [done|]. split; [done|]. split; [done|]. split; [done|].
  intros Hbuf. rewrite (pending_current o' _ R' ltac:(by rewrite Hs) Hb'), Hpf. done.
Qed.

Lemma slice_head {A} (l : list A) a b : 0 <= a < b -> b <= zlen l ->
  exists x, slice l a b = x :: slice l (a + 1) b.
Proof.
  intros Ha Hb. destruct (zget_Some l a) as [x Hx]; [lia|]. exists x.
  rewrite (slice_split l a (a + 1) b) by lia. by rewrite (slice_single l a x).
Qed.

Lemma end_of_line_ok o : ring_ok o -> ring_ok (end_of_line C o).
Proof.
  intros [Hl Hi Hv Ha]. unfold end_of_line. destruct (state o) eqn:Es; simpl; repeat case_if; simpl in *.
  all: split; simpl; try done; try lia; try (intros; congruence); try (intros; specialize (Ha eq_refl); lia).
  all: case_bool_decide; done.
Qed.

Lemma view_newline o : ring_ok o ->
  exists o', update_buffer (end_of_line C o) (fun b => Vector [] (allocated b)) = Some o' /\ ring_ok o' /\
    output o' = output o /\ view o' = lnewline (view o).
Proof.
  intros R. destruct (view_reset _ (end_of_line_ok o R)) as (o' & -> & R' & Ho & Hs & Ha & Hp).
  exists o'. split; [done|]. split; [done|].
  pose proof (ring_len _ R) as Hl. pose proof (ring_idx _ R) as Hi. pose proof (ring_after _ R) as Hk.
  assert (zlen (data <$> contextBuffers o) = C + 1) as Hl' by (rewrite length_fmap; done).
  revert Ho Hs Ha Hp. unfold view, end_of_line, pending_front.
  destruct o as [s bufs i a out]; simpl in *. set (l := data <$> bufs) in *.
  assert (forall x y : Z, 0 <= x <= y -> y <= C + 1 -> zlen (slice l x y) = y - x) as Hsl
    by (intros; rewrite slice_length; lia).
  destruct s; simpl; fold l.
  - case_if; simpl; intros -> Hs Ha Hp; rewrite Hs, ?Ha; (split; [done|]); [|done]. rewrite Hp by done. by rewrite ?slice_empty by lia.
  - case_if; simpl; intros -> Hs Ha Hp; rewrite Hs, ?Ha; (split; [done|]); [|done]. rewrite Hp by done. by rewrite ?slice_empty by lia.
  - pose proof (Hsl 0 (i + 1)).
    case_if; simpl; intros -> Hs Ha Hp; rewrite Hs, ?Ha; (split; [done|]); rewrite (Hp eq_refl);
      unfold pending; simpl; fold l; rewrite !length_app; simpl; case_if; try lia; try done.
    destruct (slice_head l 0 (i + 1)) as [x ->]; [lia..|]. simpl. rewrite (slice_empty l 0 0) by lia.
    rewrite app_nil_r. do 3 f_equal. lia.
  - pose proof (Hsl 0 (i + 1)). pose proof (Hsl (i + 1) (C + 1)).
    case_if; simpl; intros -> Hs Ha Hp; rewrite Hs, ?Ha; (split; [done|]); rewrite (Hp eq_refl);
      unfold pending; simpl; fold l; rewrite !length_app; simpl; case_if; try lia; try done.
    + rewrite (slice_empty l (i + 1)), (slice_empty l 0 0) by lia. simpl.
      destruct (slice_head l 0 (i + 1)) as [x ->]; [lia..|]. simpl. rewrite app_nil_r. do 3 f_equal. lia.
    + destruct (slice_head l (i + 1) (C + 1)) as [x ->]; [lia..|]. simpl. by rewrite ?app_assoc.
  - pose proof (Hsl 0 (i + 1)).
    case_if; simpl; intros -> Hs Ha Hp; rewrite Hs, ?Ha; (split; [done|]); rewrite (Hp eq_refl);
      unfold pending; simpl; fold l; rewrite !length_app; simpl; case_if; try lia; try done.
    destruct (slice_head l 0 (i + 1)) as [x ->]; [lia..|]. simpl. rewrite (slice_empty l 0 0) by lia.
    rewrite app_nil_r. do 3 f_equal. lia.
  - pose proof (Hsl 0 (i + 1)). pose proof (Hsl (i + 1) (C + 1)).
    case_if; simpl; intros -> Hs Ha Hp; rewrite Hs, ?Ha; (split; [done|]); rewrite (Hp eq_refl);
      unfold pending; simpl; fold l; rewrite !length_app; simpl; case_if; try lia; try done.
    + rewrite (slice_empty l (i + 1)), (slice_empty l 0 0) by lia. simpl.
      destruct (slice_head l 0 (i + 1)) as [x ->]; [lia..|]. simpl. rewrite app_nil_r. do 3 f_equal. lia.
    + destruct (slice_head l (i + 1) (C + 1)) as [x ->]; [lia..|]. simpl. by rewrite ?app_assoc.
Qed.

(** The room left in the buffer of the current line. *)
Definition room (o : outstate) : Z :=
  match zget (contextBuffers o) (bufferIndex o) with
  | Some b => allocated b - used b
  | None => 0
  end.

(** Calls of [addchar] and [writeString]. *)
Inductive item :=
  | Ch (c : Z) (common : bool)
  | Str (t : list Z).

Definition do_item (o : outstate) (it : item) : option outstate :=
  match it with
  | Ch c common => addchar true C o c common
  | Str t => writeString true o t
  end.

Definition litem (v : lview) (it : item) : lview * list Z :=
  match it with
  | Ch c common => lchar v c common
  | Str t => ltext v t
  end.

Lemma VECTOR_APPEND_data {A} (b : vector A) c : vector_ok b ->
  vector_ok (VECTOR_APPEND b c) /\ data (VECTOR_APPEND b c) = data b ++ [c].
Proof. split; [by apply VECTOR_APPEND_ok|done]. Qed.

Lemma ring_write_out o l : ring_ok o -> ring_ok (write_out o l).
Proof. intros [? ? ? ?]. by split. Qed.

Lemma ring_write_std here o l : ring_ok o -> ring_ok (write_std here o l).
Proof. destruct here; [apply ring_write_out|]. intros [? ? ? ?]. by split. Qed.

(** Text goes to the current line or to the output. *)
Lemma view_text o f t : ring_ok o ->
  (forall b, vector_ok b -> vector_ok (f b) /\ data (f b) = data b ++ t) ->
  exists o', (if is_buffering (state o) then update_buffer o f else Some (write_out o t)) = Some o' /\
    ring_ok o' /\ view o' = (ltext (view o) t).1 /\ output o' = output o ++ (ltext (view o) t).2.
Proof.
  intros R Hf. destruct (is_buffering (state o)) eqn:Eb.
  - destruct (view_update o f t R Eb Hf) as (o' & -> & R' & _ & Ho & Hv & Hn).
    exists o'. split; [done|]. split; [done|]. split; [done|]. by rewrite Hn, app_nil_r, Ho.
  - exists (write_out o t). split; [done|]. split; [by apply ring_write_out|].
    unfold view, pending. simpl. by destruct (state o).
Qed.

Lemma addchar_view o c common : ring_ok o ->
  exists o', addchar true C o c common = Some o' /\ ring_ok o' /\
    view o' = (lchar (view o) c common).1 /\ output o' = output o ++ (lchar (view o) c common).2.
Proof.
  intros R. unfold addchar, lchar. simpl negb. cbv iota.
  set (o1 := if common then o else set_state (flush_context C o) PRINTING_CHANGED).
  set (p := if common then (view o, []) else (LPrint, lflush (view o))).
  assert (ring_ok o1 /\ view o1 = p.1 /\ output o1 = output o ++ p.2) as (R1 & Hv1 & Ho1).
  { unfold o1, p. destruct common; simpl; [split; [done|]; split; [done|]; by rewrite app_nil_r|].
    rewrite view_flush by done. destruct R. split; [by split|]. done. }
  destruct p as [v out1]. simpl in Hv1, Ho1. rewrite <- Hv1.
  destruct (view_text o1 (fun b => VECTOR_APPEND b c) [c] R1 ltac:(intros; by apply VECTOR_APPEND_data))
    as (o2 & -> & R2 & Hv2 & Ho2). obind.
  destruct (ltext (view o1) [c]) as [v2 out2]. simpl in *. subst v2. case_if.
  - destruct (view_newline o2 R2) as (o3 & -> & R3 & Ho3 & Hv3). exists o3.
    split; [done|]. split; [done|]. split; [done|]. by rewrite Ho3, Ho2, Ho1, app_assoc.
  - exists o2. split; [done|]. split; [done|]. split; [done|]. by rewrite Ho2, Ho1, app_assoc.
Qed.

Lemma writeString_view o t : ring_ok o ->
  exists o', writeString true o t = Some o' /\ ring_ok o' /\
    view o' = (ltext (view o) t).1 /\ output o' = output o ++ (ltext (view o) t).2.
Proof.
  intros R. unfold writeString. simpl negb. cbv iota. apply (view_text o _ t R).
  intros b Hb. destruct (VECTOR_ALLOCATE_ok b (zlen t) Hb ltac:(lia)) as [Hd Ha]. cbv zeta. simpl.
  rewrite Hd. split; [|done]. unfold vector_ok, used in *. simpl. rewrite length_app. lia.
Qed.

Lemma linenumbers_nonempty w old new : 1 <= zlen (linenumbers_text w old new).
Proof. unfold linenumbers_text. rewrite !length_app. simpl. lia. Qed.

Lemma snprintf_fits size text : zlen text < size -> take (length text) (snprintf size text) = text.
Proof. intros H. unfold snprintf. repeat case_if; try lia. apply take_ge. lia. Qed.

(** Line numbers are text of the current line, unless they fill its buffer
    exactly: then a null byte takes the place of the final space.  What is not
    buffered goes to the standard output. *)
Lemma printLineNumbers_view here w o old new : ring_ok o ->
  let text := linenumbers_text w old new in
  let text' := if is_buffering (state o) && (room o =? zlen text)
               then removelast text ++ [0] else text in
  exists o', printLineNumbers true here w o old new = Some o' /\ ring_ok o' /\
    view o' = (ltext (view o) text').1 /\
    output o' = output (write_std here o (ltext (view o) text').2) /\ std_output o' = std_output (write_std here o (ltext (view o) text').2).
Proof.
  intros R text text'. unfold printLineNumbers. simpl negb. cbv iota. fold text.
  pose proof (linenumbers_nonempty w old new) as Hne. fold text in Hne.
  destruct (is_buffering (state o)) eqn:Eb.
  2: { unfold text'. simpl. eexists. split; [done|]. split; [by apply ring_write_std|].
       unfold view, pending. destruct here; simpl; by destruct (state o). }
  destruct (zget_Some (contextBuffers o) (bufferIndex o)) as [b0 Hb0];
    [pose proof (ring_idx _ R); pose proof (ring_len _ R); lia|].
  assert (room o = allocated b0 - used b0) as Hroom by (unfold room; by rewrite Hb0).
  match goal with |- exists o', update_buffer o ?g = _ /\ _ => set (f := g) end.
  (* the function only matters on the current buffer *)
  assert (forall b, vector_ok b -> allocated b - used b = room o -> vector_ok (f b) /\ data (f b) = data b ++ text') as Hf.
  { intros b Hb Hr. unfold f, text'. cbv zeta. rewrite Hr. simpl andb.
    destruct (VECTOR_ALLOCATE_ok b 4 Hb ltac:(lia)) as [Hd4 Ha4].
    assert (vector_ok (VECTOR_ALLOCATE b 4)) as Hv4 by (unfold vector_ok, used in *; rewrite Hd4; lia).
    destruct (VECTOR_ALLOCATE_ok _ (zlen text) Hv4 ltac:(lia)) as [Hd Ha].
    case_if.
    - rewrite (proj2 (Z.eqb_neq _ _)) by lia. rewrite snprintf_fits.
      + simpl. rewrite Hd, Hd4. split; [|done]. unfold vector_ok, used in *. simpl. rewrite Hd4 in *.
        rewrite length_app. lia.
      + unfold used in *. rewrite Hd. lia.
    - assert (zlen (take (length text) (snprintf (room o) text)) <= zlen text) as Hlen by (rewrite length_take; lia).
      split.
      { unfold vector_ok, used in *. simpl. rewrite Hd4, length_app in *. unfold VECTOR_ALLOCATE in Ha4 |- *.
        destruct (used b + 4 <? allocated b) eqn:E4; simpl in *; unfold used in *; zify_bool; lia. }
      simpl. rewrite Hd4. f_equal. destruct (Z.eqb_spec (room o) (zlen text)) as [He|He].
      + rewrite He. unfold snprintf. rewrite (proj2 (Z.leb_gt _ _)), (proj2 (Z.ltb_ge _ _)) by lia.
        rewrite take_ge by (rewrite length_app, slice_length; simpl; lia). f_equal.
        unfold slice. rewrite removelast_firstn_len. simpl. rewrite drop_0. f_equal. lia.
      + apply snprintf_fits. lia. }
  set (g := fun b => if allocated b - used b =? room o then f b else Vector (data b ++ text') (allocated b + zlen text')).
  assert (update_buffer o f = update_buffer o g) as ->.
  { unfold update_buffer. rewrite Hb0. obind. unfold g. by rewrite Hroom, Z.eqb_refl. }
  destruct (view_update o g text' R Eb) as (o' & Hup & R' & _ & Ho & Hv & Hn).
  - intros b Hb. unfold g. case_if; [by apply Hf|]. unfold vector_ok, used in *. simpl. rewrite length_app. split; [lia|done].
  - exists o'. split; [done|]. split; [done|]. split; [done|]. rewrite Hn. unfold update_buffer in Hup. rewrite Hb0 in Hup.
    injection Hup as <-. unfold write_std. by destruct here; simpl; rewrite ?app_nil_r.
Qed.

Fixpoint do_items (o : outstate) (its : list item) : option outstate :=
  match its with
  | [] => Some o
  | it :: its' => let? o := do_item o it in do_items o its'
  end.

Fixpoint litems (v : lview) (its : list item) : lview * list Z :=
  match its with
  | [] => (v, [])
  | it :: its' =>
      let '(v, out1) := litem v it in
      let '(v, out2) := litems v its' in (v, out1 ++ out2)
  end.

Lemma do_items_view o its : ring_ok o ->
  exists o', do_items o its = Some o' /\ ring_ok o' /\
    view o' = (litems (view o) its).1 /\ output o' = output o ++ (litems (view o) its).2.
Proof.
  revert o. induction its as [|it its IH]; intros o R; simpl; [exists o; by rewrite app_nil_r|].
  assert (exists o1, do_item o it = Some o1 /\ ring_ok o1 /\
    view o1 = (litem (view o) it).1 /\ output o1 = output o ++ (litem (view o) it).2)
    as (o1 & -> & R1 & Hv1 & Ho1) by (destruct it; [by apply addchar_view|by apply writeString_view]).
  obind. destruct (IH o1 R1) as (o2 & -> & R2 & Hv2 & Ho2). exists o2. split; [done|]. split; [done|].
  rewrite Hv1 in Hv2, Ho2. destruct (litem (view o) it) as [v1 out1]. simpl in *.
  destruct (litems v1 its) as [v2 out2]. simpl in *. split; [done|]. by rewrite Ho2, Ho1, app_assoc.
Qed.

(** ** The specification that looks ahead *)

(** A line of output: the calls before its newline, and the newline. *)
Record line := Line {
  body : list item;
  nl_common : bool
}.

Definition item_text (it : item) : list Z :=
  match it with
  | Ch c _ => [c]
  | Str t => t
  end.
Definition item_changed (it : item) : bool :=
  match it with
  | Ch _ common => negb common
  | Str _ => false
  end.
Definition not_newline (it : item) : bool :=
  match it with
  | Ch c _ => negb (c =? newline)
  | Str _ => true
  end.

Definition line_items (l : line) : list item := body l ++ [Ch newline (nl_common l)].
Definition line_text (l : line) : list Z := concat (item_text <$> line_items l).
Definition line_changed (l : line) : bool := existsb item_changed (line_items l).
Definition line_ok (l : line) : bool := forallb not_newline (body l).

(** [remaining]: lines still to print after the last change; [printed]: there
    has been output; [skipped]: the line before was left out. *)
Fixpoint in_context (remaining : Z) (printed skipped : bool) (ls : list line) : list Z :=
  let sep := if printed && skipped then separator else [] in
  match ls with
  | [] => []
  | l :: ls' =>
      if line_changed l then sep ++ line_text l ++ in_context C true false ls'
      else if 0 <? remaining then line_text l ++ in_context (remaining - 1) true false ls'
      else if existsb line_changed (take (Z.to_nat C) ls') then
        sep ++ line_text l ++ in_context 0 true false ls'
      else in_context 0 printed true ls'
  end.

(** *** The machine on whole lines *)

(** A part of a line without its newline. *)
Lemma litems_print its : forallb not_newline its = true ->
  litems LPrint its = (LPrint, concat (item_text <$> its)).
Proof.
  induction its as [|it its IH]; simpl; [done|]. intros [Hn Hr]%andb_true_iff.
  destruct it as [c common|t]; simpl in *; [|by rewrite IH].
  unfold lchar. destruct common; simpl; apply negb_true_iff in Hn; rewrite Hn, IH; done.
Qed.

Lemma litems_after k its : forallb not_newline its = true ->
  litems (LAfter k) its = (if existsb item_changed its then LPrint else LAfter k, concat (item_text <$> its)).
Proof.
  induction its as [|it its IH]; simpl; [done|]. intros [Hn Hr]%andb_true_iff.
  destruct it as [c common|t]; simpl in *; [|by rewrite IH].
  apply negb_true_iff in Hn. unfold lchar. destruct common; simpl; rewrite Hn.
  - by rewrite IH.
  - by rewrite litems_print.
Qed.

Lemma litems_hold ini d front cur its : forallb not_newline its = true ->
  litems (LHold ini d (front ++ [cur])) its =
    if existsb item_changed its
    then (LPrint, lflush (LHold ini d (front ++ [cur])) ++ concat (item_text <$> its))
    else (LHold ini d (front ++ [cur ++ concat (item_text <$> its)]), []).
Proof.
  revert cur. induction its as [|it its IH]; intros cur; simpl; [by rewrite app_nil_r|].
  intros [Hn Hr]%andb_true_iff.
  assert (forall t, ltext (LHold ini d (front ++ [cur])) t = (LHold ini d (front ++ [cur ++ t]), [])) as Ht.
  { intros t. simpl. by rewrite removelast_last, last_snoc. }
  assert (forall t, (let '(v, out2) := litems (LHold ini d (front ++ [cur ++ t])) its in (v, [] ++ out2))
    = if existsb item_changed its
      then (LPrint, lflush (LHold ini d (front ++ [cur])) ++ t ++ concat (item_text <$> its))
      else (LHold ini d (front ++ [cur ++ t ++ concat (item_text <$> its)]), [])) as Hgo.
  { intros t. rewrite IH by done. destruct (existsb item_changed its); simpl; [|by rewrite app_assoc].
    f_equal. rewrite !concat_app. simpl. rewrite !app_nil_r, <- !app_assoc. done. }
  destruct it as [c common|t].
  - simpl in Hn. apply negb_true_iff in Hn. simpl litem. unfold lchar. destruct common.
    + cbv beta iota. rewrite Ht, Hn. simpl item_changed. rewrite orb_false_l. apply Hgo.
    + simpl. rewrite Hn, litems_print by done. by rewrite <- app_assoc.
  - cbn [litem]. rewrite Ht. apply Hgo.
Qed.

Lemma litems_app v its1 its2 :
  litems v (its1 ++ its2) =
    let '(v, out1) := litems v its1 in let '(v, out2) := litems v its2 in (v, out1 ++ out2).
Proof.
  revert v. induction its1 as [|it its1 IH]; intros v; simpl.
  - by destruct (litems v its2).
  - destruct (litem v it) as [v1 o1]. rewrite IH. destruct (litems v1 its1) as [v2 o2].
    destruct (litems v2 its2) as [v3 o3]. by rewrite app_assoc.
Qed.

(** The effect of a whole line. *)
Lemma lline_after k l : line_ok l = true ->
  litems (LAfter k) (line_items l) =
    (if line_changed l then lnewline LPrint else lnewline (LAfter k), line_text l).
Proof.
  intros Hok. unfold line_items, line_changed, line_text. rewrite litems_app, litems_after by done.
  unfold line_items. rewrite existsb_app, fmap_app, concat_app. simpl. rewrite orb_false_r.
  unfold lchar. destruct (existsb item_changed (body l)), (nl_common l); done.
Qed.

Lemma lline_hold ini d front l : line_ok l = true ->
  litems (LHold ini d (front ++ [[]])) (line_items l) =
    if line_changed l
    then (lnewline LPrint, lflush (LHold ini d front) ++ line_text l)
    else (lnewline (LHold ini d (front ++ [line_text l])), []).
Proof.
  intros Hok. unfold line_items, line_changed, line_text. rewrite litems_app, litems_hold by done.
  unfold line_items. rewrite existsb_app, fmap_app, concat_app. simpl existsb. rewrite orb_false_r.
  assert (forall cur, lflush (LHold ini d (front ++ [cur])) = lflush (LHold ini d front) ++ cur) as Hfl.
  { intros cur. simpl. rewrite concat_app. simpl. by rewrite app_nil_r, <- app_assoc. }
  destruct (existsb item_changed (body l)) eqn:Eb.
  - rewrite Hfl, app_nil_r. cbn -[lflush]. unfold lchar. destruct (nl_common l); cbn -[lflush]; by rewrite <- app_assoc.
  - cbn -[lflush lnewline]. unfold lchar. destruct (nl_common l); cbn -[lflush lnewline ltext].
    + simpl ltext. rewrite removelast_last, last_snoc. done.
    + rewrite Hfl. cbn -[lflush lnewline]. by rewrite app_nil_r, <- app_assoc.
Qed.

(** *** Whole texts *)

Definition quiet (P : list line) : Prop := Forall (fun l => line_changed l = false) P.

Lemma quiet_take P n : quiet P -> existsb line_changed (take n P) = false.
Proof.
  revert n. induction P as [|l P IH]; intros [|n]; simpl; try done.
  intros [Hl HP]%Forall_cons. by rewrite Hl, IH.
Qed.

Lemma in_context_quiet pr sk P : quiet P -> in_context 0 pr sk P = [].
Proof.
  revert pr sk. induction P as [|l P IH]; intros pr sk; simpl; [done|].
  intros [Hl HP]%Forall_cons. rewrite Hl, quiet_take by done. by apply IH.
Qed.

Lemma in_context_change pr sk P l ls : quiet P -> zlen P <= C -> line_changed l = true ->
  in_context 0 pr sk (P ++ l :: ls) =
    (if pr && sk then separator else []) ++ concat (line_text <$> P) ++ line_text l ++ in_context C true false ls.
Proof.
  revert pr sk. induction P as [|p P IH]; intros pr sk HP Hlen Hl; simpl; [by rewrite Hl|].
  apply Forall_cons in HP as [Hp HP]. simpl in Hlen. rewrite Hp.
  assert (existsb line_changed (take (Z.to_nat C) (P ++ l :: ls)) = true) as ->.
  { apply existsb_exists. exists l. split; [|done]. apply list_elem_of_In.
    apply list_elem_of_lookup. exists (length P). rewrite lookup_take_lt by lia.
    rewrite lookup_app_r by lia. by rewrite Nat.sub_diag. }
  rewrite IH by (done || lia). simpl. by rewrite <- app_assoc.
Qed.

Lemma in_context_skip pr sk l P ls : line_changed l = false -> quiet P -> zlen P = C ->
  in_context 0 pr sk (l :: P ++ ls) = in_context 0 pr true (P ++ ls).
Proof.
  intros Hl HP Hlen. simpl. rewrite Hl, take_app_le by lia. by rewrite quiet_take.
Qed.

Fixpoint llines (v : lview) (ls : list line) : list Z :=
  match ls with
  | [] => []
  | l :: ls' => let '(v, out) := litems v (line_items l) in out ++ llines v ls'
  end.

Lemma llines_spec ls : forallb line_ok ls = true ->
  (forall ini d P, quiet P -> zlen P <= C -> (d = true -> zlen P = C) ->
     llines (LHold ini d ((line_text <$> P) ++ [[]])) ls = in_context 0 (negb ini) d (P ++ ls)) /\
  (forall k, 0 <= k < C -> llines (LAfter k) ls = in_context (C - k) true false ls).
Proof.
  induction ls as [|l ls IH]; intros Hok; simpl in Hok.
  - split; [|done]. intros ini d P HP _ _. rewrite app_nil_r, in_context_quiet by done. done.
  - apply andb_true_iff in Hok as [Hl Hok]. destruct (IH Hok) as [IHh IHa]. clear IH.
    assert (forall ini d, (d = true -> C = 0) -> llines (LHold ini d [[]]) ls = in_context 0 (negb ini) d ls) as IH0.
    { intros ini d Hd. apply (IHh ini d []); [constructor|simpl; lia|intros ->; simpl; specialize (Hd eq_refl); lia]. }
    assert (llines (lnewline LPrint) ls = in_context C true false ls) as Hprint.
    { simpl. case_if; [rewrite IH0 by done; by rewrite E|].
      rewrite IHa by lia. f_equal. lia. }
    split.
    + intros ini d P HP Hlen Hd. simpl llines. rewrite lline_hold by done.
      destruct (line_changed l) eqn:El.
      * rewrite Hprint, in_context_change by done. simpl lflush. rewrite (andb_comm d), <- !app_assoc. done.
      * simpl lnewline. rewrite !length_app, length_fmap. simpl. case_if.
        -- destruct P as [|p P].
           ++ simpl. rewrite IH0 by (intros; simpl in *; lia).
              symmetry. apply (in_context_skip _ d l []); [done|constructor|simpl in *; lia].
           ++ apply Forall_cons in HP as [Hp HP]. simpl in Hlen, E. simpl.
              assert (quiet (P ++ [l])) as HP' by (apply Forall_app; split; [done|by constructor]).
              pose proof (IHh ini true (P ++ [l]) HP') as H. rewrite fmap_app, length_app in H. simpl in H.
              etrans; [apply H; lia|]. symmetry.
              replace (P ++ l :: ls) with ((P ++ [l]) ++ ls) by (by rewrite <- app_assoc).
              apply (in_context_skip _ d p); [done|done|rewrite length_app; simpl; lia].
        -- pose proof (IHh ini d (P ++ [l])) as H. rewrite fmap_app, length_app in H. simpl in H.
           rewrite H; [by rewrite <- app_assoc| |lia|].
           ++ apply Forall_app; split; [done|by constructor].
           ++ intros ->. specialize (Hd eq_refl). lia.
    + intros k Hk. simpl llines. rewrite lline_after by done. simpl in_context. destruct (line_changed l) eqn:El.
      * by rewrite Hprint.
      * rewrite (proj2 (Z.ltb_lt 0 (C - k))) by lia. f_equal. simpl lnewline. case_if.
        -- rewrite IH0 by done. simpl. f_equal. lia.
        -- rewrite IHa by lia. f_equal. lia.
Qed.

Lemma llines_litems v ls :
  (litems v (concat (line_items <$> ls))).2 = llines v ls.
Proof.
  revert v. induction ls as [|l ls IH]; intros v; simpl; [done|].
  rewrite litems_app. destruct (litems v (line_items l)) as [v1 o1]. rewrite <- IH.
  by destruct (litems v1 _).
Qed.

Lemma init_ring : ring_ok (initContextBuffers C) /\ view (initContextBuffers C) = LHold true false [[]] /\
  output (initContextBuffers C) = [].
Proof.
  unfold initContextBuffers. split; [|split; [|done]].
  - split; simpl; [rewrite length_replicate; lia|lia| |done]. apply Forall_replicate. done.
  - unfold view, pending. simpl. f_equal. replace (Z.to_nat (C + 1)) with (S (Z.to_nat C)) by lia. done.
Qed.
End Context_.

Lemma context_lines C ls : 0 <= C -> forallb line_ok ls = true ->
  exists o, do_items C (initContextBuffers C) (concat (line_items <$> ls)) = Some o /\
    output o = in_context C 0 false false ls.
Proof.
  intros HC Hok. destruct (init_ring C HC) as (R & Hv & Ho).
  destruct (do_items_view C HC (initContextBuffers C) (concat (line_items <$> ls)) R) as (o & H & _ & _ & Hout).
  exists o. split; [done|]. rewrite Hout, Ho, Hv, (llines_litems C). simpl.
  destruct (llines_spec C HC ls Hok) as [Hh _]. apply (Hh true false []); [constructor|simpl; lia|done].
Qed.

(** ** The theorems *)

(** C20: for complete lines of output, characters and marker strings in any
    order, the buffering machine prints exactly the lines with a change and
    the lines within [C] lines of one, in order, with a separator where lines
    were left out between two printed blocks; it never leaves its ring. *)
Theorem context_output C ls : 0 <= C -> forallb line_ok ls = true ->
  exists o, do_items C (initContextBuffers C) (concat (line_items <$> ls)) = Some o /\
    output o = in_context C 0 false false ls.
Proof. apply context_lines. Qed.

Lemma context_output_witness :
  let l c b := Line [Ch c b] true in
  exists o, do_items 1 (initContextBuffers 1) (concat (line_items <$> [l 97 true; l 98 true; l 99 false; l 100 true])) = Some o /\
    output o = [98; 10; 99; 10; 100; 10].
Proof.
  exact (context_output 1 [Line [Ch 97 true] true; Line [Ch 98 true] true; Line [Ch 99 false] true; Line [Ch 100 true] true]
    ltac:(lia) eq_refl).
Defined.

(** One call of [addchar] on the ring of buffers is one step of the
    machine on pending lines, in every state. *)
Theorem addchar_refines C o c common : 0 <= C -> ring_ok C o ->
  exists o', addchar true C o c common = Some o' /\ ring_ok C o' /\
    view C o' = (lchar C (view C o) c common).1 /\ output o' = output o ++ (lchar C (view C o) c common).2.
Proof. intros HC. by apply addchar_view. Qed.

Lemma addchar_refines_witness :
  exists o', addchar true 2 (initContextBuffers 2) 97 true = Some o' /\ ring_ok 2 o' /\
    view 2 o' = LHold true false [[97]] /\ output o' = [].
Proof. exact (addchar_refines 2 (initContextBuffers 2) 97 true ltac:(lia) (proj1 (init_ring 2 ltac:(lia)))). Defined.

(** Line numbers become part of the current line like any other text,
    except when they fill its buffer exactly; then the final space is replaced
    by a null byte.  What is not kept goes to standard output ([here]: that is
    [option.output]). *)
Theorem printLineNumbers_text C here w o old new : 0 <= C -> ring_ok C o ->
  let text := linenumbers_text w old new in
  let text' := if is_buffering (state o) && (room o =? zlen text) then removelast text ++ [0] else text in
  exists o', printLineNumbers true here w o old new = Some o' /\ ring_ok C o' /\
    view C o' = (ltext (view C o) text').1 /\
    output o' = output (write_std here o (ltext (view C o) text').2) /\ std_output o' = std_output (write_std here o (ltext (view C o) text').2).
Proof. intros HC R. by apply printLineNumbers_view. Qed.

(** With 13 columns for a number, the line number of the first line has 28
    characters.  After the 4 characters of the reset sequence in a fresh buffer of 32
    it does not fit with its null byte. *)
Lemma printLineNumbers_text_witness :
  exists o', printLineNumbers true true 13
      (OutState PRE_BUFFERING_INITIAL [Vector [27; 91; 48; 109] 32] 0 0 [] []) 1 1 = Some o' /\
    view 0 o' = LHold true false [[27; 91; 48; 109] ++ removelast (linenumbers_text 13 1 1) ++ [0]].
Proof.
  destruct (printLineNumbers_text 0 true 13 (OutState PRE_BUFFERING_INITIAL [Vector [27; 91; 48; 109] 32] 0 0 [] []) 1 1)
    as (o' & H & _ & Hv & _); [lia| |].
  - split; simpl; [reflexivity|lia|repeat constructor; vm_compute; discriminate|discriminate].
  - exists o'. split; [exact H|exact Hv].
Defined.
