(* ===== verification/Streams.v ===== *)
(** * stream.c: streams of characters

    A stream reads from a file or from a string.  Its source is represented by
    the bytes it has still to deliver (FileProofs shows that a file delivers
    its unread bytes and then reports the end of the file); the other fields
    are those of [struct Stream]. *)

From S2P Require Import Prelude EditScript FileIO FileProofs.

Inductive vtable := fileVtable | stringVtable.

#[export] Instance vtable_eq_dec : EqDecision vtable.
Proof. solve_decision. Defined.

Record Stream := MkStream {
  svtable : vtable;
  consumed : list Z;       (* the bytes delivered, last one first *)
  remaining : list Z;      (* the bytes to come *)
  seof : bool;             (* fileEof of a file *)
  bufferedChar : Z;
  lastClusterCategory : Z;
  highSurrogate : Z;
  nextChar : Z
}.

Definition newFileStream (bytes : list Z) : Stream :=
  MkStream fileVtable [] bytes false (-1) 0 0 (-1).

Definition newStringStream (bytes : list Z) : Stream :=
  MkStream stringVtable [] bytes false (-1) 0 0 (-1).

Definition isFileStream (s : Stream) : bool := bool_decide (svtable s = fileVtable).

Definition set_source (s : Stream) (c r : list Z) (e : bool) : Stream :=
  MkStream (svtable s) c r e (bufferedChar s) (lastClusterCategory s) (highSurrogate s) (nextChar s).
Definition set_bufferedChar (s : Stream) (c : Z) : Stream :=
  MkStream (svtable s) (consumed s) (remaining s) (seof s) c (lastClusterCategory s) (highSurrogate s) (nextChar s).
Definition set_category (s : Stream) (c : Z) : Stream :=
  MkStream (svtable s) (consumed s) (remaining s) (seof s) (bufferedChar s) c (highSurrogate s) (nextChar s).
Definition set_nextChar (s : Stream) (c : Z) : Stream :=
  MkStream (svtable s) (consumed s) (remaining s) (seof s) (bufferedChar s) (lastClusterCategory s) (highSurrogate s) c.

(** [getCharFile] and [getCharString]. *)
Definition getChar (s : Stream) : Stream * Z :=
  match remaining s with
  | [] => (set_source s (consumed s) [] (isFileStream s), EOF)
  | c :: r => (set_source s (c :: consumed s) r (seof s), c)
  end.

(** The message of the assertion in [ungetCharString]. *)
Definition wrong_unget : positive := 6.

(** A [char] is signed: the value of the byte [b]. *)
Definition signed_char (b : Z) : Z := if b <? 128 then b else b - 256.

(** [ungetCharFile] puts [c] in front of the buffer; [ungetCharString] steps
    back and compares the character it finds, a [char], with [c], an [int]. *)
Definition ungetChar (s : Stream) (c : Z) : result (Stream * Z) :=
  match svtable s, consumed s with
  | fileVtable, _ :: before => Ok (set_source s before (c mod 256 :: remaining s) (seof s), c mod 256)
  | fileVtable, [] => Fatal nothing_to_unget
  | stringVtable, b :: before =>
      if signed_char b =? c then Ok (set_source s before (b :: remaining s) (seof s), c)
      else Fatal wrong_unget
  | stringVtable, [] => Ok (s, EOF)
  end.

(** [fileClearEof] of the file under a stream. *)
Definition sclear_eof (s : Stream) : Stream := set_source s (consumed s) (remaining s) false.

(** [sfeof] *)
Definition sfeof (s : Stream) : bool := seof s.

(** Reading a character and putting it back. *)
Lemma getChar_unget s c : remaining s = c :: tail (remaining s) -> 0 <= c < 256 ->
  svtable s = fileVtable \/ c < 128 ->
  exists s', ungetChar (getChar s).1 (getChar s).2 = Ok (s', c) /\ remaining s' = remaining s /\ consumed s' = consumed s.
Proof.
  intros Hr Hc Hcase. unfold getChar. rewrite Hr. simpl. unfold ungetChar. simpl.
  destruct (svtable s) eqn:Ev.
  - rewrite Z.mod_small by lia. eexists. split; [done|]. simpl. done.
  - destruct Hcase as [|Hlt]; [done|]. unfold signed_char. rewrite (proj2 (Z.ltb_lt c 128)) by done.
    rewrite Z.eqb_refl. eexists. split; [done|]. simpl. done.
Qed.

(** The same on a [File]: the character is the next one again. *)
Lemma fileUngetc_spec f c : read_ok f -> 0 < bufferIndex f -> 0 <= c < 256 ->
  exists f', fileUngetc f c = Ok (f', c) /\ read_ok f' /\ unread f' = c :: unread f.
Proof.
  intros R Hi Hc. pose proof (rd_index _ R) as Hb. unfold bufferFill in *. unfold fileUngetc.
  rewrite bool_decide_eq_true_2 by apply R. rewrite (rd_err _ R). simpl negb. cbv iota.
  rewrite (proj2 (Z.ltb_lt 0 _)) by lia. rewrite Z.mod_small by lia.
  eexists. split; [done|]. split.
  - split; simpl; [apply R|done|unfold bufferFill; simpl; rewrite zset_length; lia|by apply R|apply R].
  - unfold unread. simpl.
    destruct (zget_drop (zset (buffer f) (bufferIndex f - 1) c) (bufferIndex f - 1)) as (x & Hx & ->);
      [rewrite zset_length; lia|].
    rewrite zget_zset_eq in Hx by lia. injection Hx as <-. simpl. f_equal. f_equal.
    replace (bufferIndex f - 1 + 1) with (bufferIndex f) by lia.
    rewrite <- !slice_drop by lia. rewrite zset_length. apply slice_zset_out; lia.
Qed.
