(* ===== verification/Unicode.v ===== *)
(** * unicode.c: UTF-8, UTF-16 and grapheme clusters

    Characters are read from UTF-8 with errors as negative numbers, turned
    into clusters of UTF-16 units, and written back as UTF-8.  The character
    properties and the normalization of the ICU library are parameters. *)

From S2P Require Import Prelude EditScript HashTable FileIO Streams.

Definition UEOF : Z := -1.
Definition UEOVERLONG : Z := -2.
Definition UEINVALID : Z := -3.
Definition UETOOLARGE : Z := -4.

Definition char_out_of_range : positive := 7.

(** ** Input *)

(** The continuation bytes of a character. *)
Fixpoint getuc_rest (bytesLeft : nat) (s : Stream) (retval : Z) : result (Stream * Z) :=
  match bytesLeft with
  | O => Ok (s, retval)
  | S n =>
      let '(s, c) := getChar s in
      if c =? EOF then Ok (s, UEINVALID)
      else if negb (Z.land c 0xC0 =? 0x80) then
        let* (s, _) := ungetChar s c in Ok (s, UEINVALID)
      else getuc_rest n s (Z.lor (Z.shiftl retval 6) (Z.land c 0x3F))
  end.

Definition getuc (s : Stream) : result (Stream * Z) :=
  let '(s, c) := getChar s in
  if c =? EOF then Ok (s, EOF)
  else
    let multi (least : Z) (bytesLeft : nat) (retval : Z) :=
      let* (s, retval) := getuc_rest bytesLeft s retval in
      if retval <? 0 then Ok (s, retval)
      else if retval <? least then Ok (s, UEOVERLONG)
      else if 0x10FFFF <? retval then Ok (s, UETOOLARGE)
      else Ok (s, retval) in
    if (0 <=? c) && (c <=? 127) then Ok (s, c)
    else if (128 <=? c) && (c <=? 191) then Ok (s, UEINVALID)
    else if (192 <=? c) && (c <=? 193) then Ok (s, UEOVERLONG)
    else if (194 <=? c) && (c <=? 223) then multi 0x80 1%nat (Z.land c 0x1F)
    else if (224 <=? c) && (c <=? 239) then multi 0x800 2%nat (Z.land c 0x0F)
    else if (240 <=? c) && (c <=? 244) then multi 0x10000 3%nat (Z.land c 0x07)
    else if (245 <=? c) && (c <=? 255) then Ok (s, UETOOLARGE)
    else Fatal char_out_of_range.

Definition REPLACEMENT_CHARACTER : Z := 0xFFFD.

(** Strange characters become [REPLACEMENT_CHARACTER]. *)
Definition getucFiltered (s : Stream) : result (Stream * Z) :=
  let* (s, c) :=
    (if 0 <=? nextChar s then Ok (set_nextChar s (-1), nextChar s) else getuc s) in
  if c <? 0 then Ok (s, if c =? EOF then EOF else REPLACEMENT_CHARACTER)
  else if Z.land c 0xF800 =? 0xD800 then
    if Z.land c 0xDC00 =? 0xDC00 then Ok (s, REPLACEMENT_CHARACTER)
    else
      let* (s, clow) := getuc s in
      if negb (Z.land clow 0xFC00 =? 0xDC00) then Ok (set_nextChar s clow, REPLACEMENT_CHARACTER)
      else Ok (s, clow + Z.shiftl c 10 + 0x10000 - Z.shiftl 0xD800 10 - 0xDC00)
  else Ok (s, c).

(** ** Output *)

(** The loop that fills [buffer] from the end, with 6 bits per byte. *)
Fixpoint utf8_bytes (i : nat) (c : Z) (acc : list Z) : list Z :=
  match i with
  | O => acc
  | S i' => utf8_bytes i' (Z.shiftr c 6) (Z.lor (Z.land c 0x3F) 0x80 :: acc)
  end.

(** [buffer[0] |= 0xF0 << (4 - bytes)] on a [char]. *)
Definition mark_first (bytes : nat) (l : list Z) : list Z :=
  match l with
  | [] => []
  | b :: l' => Z.lor b (Z.shiftl 0xF0 (4 - Z.of_nat bytes)) mod 256 :: l'
  end.

Definition convertToUTF8 (c : Z) : list Z :=
  let multi bytes := mark_first bytes (utf8_bytes bytes c []) in
  if 0x10000 <? c then multi 4%nat
  else if 0x800 <? c then multi 3%nat
  else if 0x80 <? c then multi 2%nat
  else [c mod 256].

Definition lone_low_surrogate : positive := 8.

(** The bytes written and the new value of [*highSurrogate]. *)
Definition filteredConvertToUTF8 (c highSurrogate : Z) : result (list Z * Z) :=
  if Z.land c 0xFC00 =? 0xD800 then Ok ([], c)
  else if Z.land c 0xFC00 =? 0xDC00 then
    if highSurrogate =? 0 then Fatal lone_low_surrogate
    else
      Ok (convertToUTF8 (c + Z.shiftl highSurrogate 10 + 0x10000 - Z.shiftl 0xD800 10 - 0xDC00), 0)
  else Ok (convertToUTF8 c, highSurrogate).

(** [putuc]: the bytes handed to [fileWrite], the surrogate kept in the stream
    and the value returned when [fileWrite] returns [written]. *)
Definition putuc (highSurrogate c : Z) (written : list Z -> Z) : result (list Z * Z * Z) :=
  let* (encoded, hs) := filteredConvertToUTF8 c highSurrogate in
  let bytes := zlen encoded in
  if bytes =? 0 then Ok ([], hs, 0)
  else Ok (encoded, hs, if written encoded <? bytes then EOF else 0).

(** A UTF-16 string as UTF-8: the loop of [addCharData], [writeTokenCharUTF8]
    and the others. *)
Fixpoint utf16_to_utf8 (units : list Z) (highSurrogate : Z) : result (list Z) :=
  match units with
  | [] => Ok []
  | u :: units' =>
      let* (bytes, hs) := filteredConvertToUTF8 u highSurrogate in
      let* l := utf16_to_utf8 units' hs in
      Ok (bytes ++ l)
  end.

(** ** Grapheme clusters *)

Definition MAX_GCB_CLASS : Z := 13.

Definition clusterContinuationTable : list (list bool) := Eval cbv in
  map (map (fun n => negb (Nat.eqb n 0)))
  [[0; 0; 0; 1; 0; 0; 0; 0; 0; 0; 1; 0; 0];
   [0; 0; 0; 0; 0; 0; 0; 0; 0; 0; 0; 0; 0];
   [0; 0; 0; 0; 0; 0; 0; 0; 0; 0; 0; 0; 0];
   [0; 0; 0; 1; 0; 0; 0; 0; 0; 0; 1; 0; 0];
   [0; 0; 0; 1; 1; 0; 1; 1; 0; 1; 1; 0; 0];
   [0; 0; 0; 0; 0; 0; 0; 0; 0; 0; 0; 0; 0];
   [0; 0; 0; 1; 0; 0; 0; 0; 1; 1; 1; 0; 0];
   [0; 0; 0; 1; 0; 0; 0; 0; 1; 0; 1; 0; 0];
   [0; 0; 0; 1; 0; 0; 0; 0; 1; 0; 1; 0; 0];
   [0; 0; 0; 1; 0; 0; 0; 0; 1; 1; 1; 0; 0];
   [0; 0; 0; 1; 0; 0; 0; 0; 0; 0; 1; 0; 0];
   [1; 0; 0; 1; 1; 0; 1; 1; 1; 1; 1; 1; 1];
   [0; 0; 0; 1; 0; 0; 0; 0; 0; 0; 1; 0; 1]]%nat.

Definition backspaceContinuationTable : list (list bool) := Eval cbv in
  map (map (fun n => negb (Nat.eqb n 0)))
  [[0; 0; 0; 1; 0; 0; 0; 0; 0; 0; 0; 0; 0];
   [0; 0; 0; 0; 0; 0; 0; 0; 0; 0; 0; 0; 0];
   [0; 0; 0; 0; 0; 0; 0; 0; 0; 0; 0; 0; 0];
   [0; 0; 0; 1; 0; 0; 0; 0; 0; 0; 0; 0; 0];
   [0; 0; 0; 1; 1; 0; 1; 1; 0; 1; 0; 0; 0];
   [0; 0; 0; 0; 0; 0; 0; 0; 0; 0; 0; 0; 0];
   [0; 0; 0; 1; 0; 0; 0; 0; 1; 1; 0; 0; 0];
   [0; 0; 0; 1; 0; 0; 0; 0; 1; 0; 0; 0; 0];
   [0; 0; 0; 1; 0; 0; 0; 0; 1; 0; 0; 0; 0];
   [0; 0; 0; 1; 0; 0; 0; 0; 1; 1; 0; 0; 0];
   [0; 0; 0; 0; 0; 0; 0; 0; 0; 0; 0; 0; 0];
   [0; 0; 0; 0; 0; 0; 0; 0; 0; 0; 0; 0; 0];
   [0; 0; 0; 0; 0; 0; 0; 0; 0; 0; 0; 0; 0]]%nat.

(** The units appended to a [UTF16Buffer]. *)
Definition addUCS4ToUTF16Buffer (c : Z) : list Z :=
  if 0x10000 <? c then
    [(0xD800 - Z.shiftr 0x10000 10 + Z.shiftr c 10) mod 65536; Z.lor 0xDC00 (Z.land c 0x3FF)]
  else [c mod 65536].

Section Clusters.
(** [u_getIntPropertyValue(c, UCHAR_GRAPHEME_CLUSTER_BREAK)] of ICU. *)
Context (gcb : Z -> Z).

Definition getClusterCategory (c : Z) : Z :=
  let category := gcb c in if MAX_GCB_CLASS <=? category then 0 else category.

Definition continues (table : list (list bool)) (a b : Z) : option bool :=
  let? row := zget table a in zget row b.

(** The [do] loop: [buf] is the cluster so far; [None] when a category is
    outside the table or the fuel is used up. *)
Fixpoint cluster_loop (n : nat) (table : list (list bool)) (s : Stream) (newCategory : Z) (buf : list Z)
  : option (result (Stream * list Z)) :=
  match n with
  | O => None
  | S n' =>
      let s := set_category s newCategory in
      let buf := buf ++ addUCS4ToUTF16Buffer (bufferedChar s) in
      match getucFiltered s with
      | Fatal e => Some (Fatal e)
      | Ok (s, c) =>
          let s := set_bufferedChar s c in
          if c <? 0 then
            let s := if isFileStream s then sclear_eof s else s in
            Some (Ok (set_category s 0, buf))
          else
            let newCategory := getClusterCategory c in
            let? more := continues table (lastClusterCategory s) newCategory in
            if more : bool then cluster_loop n' table s newCategory buf
            else Some (Ok (set_category s newCategory, buf))
      end
  end.

(** The cluster, or [None] at the end of the stream. *)
Definition getClusterInternal (table : list (list bool)) (s : Stream)
  : option (result (Stream * option (list Z))) :=
  let fuel := S (S (length (remaining s))) in
  let finish (r : option (result (Stream * list Z))) :=
    let? r := r in
    Some (let* (s, buf) := r in Ok (s, Some buf)) in
  if bufferedChar s <? 0 then
    match getucFiltered s with
    | Fatal e => Some (Fatal e)
    | Ok (s, c) =>
        let s := set_bufferedChar s c in
        if c <? 0 then Some (Ok (s, None))
        else finish (cluster_loop fuel table s (getClusterCategory c) [])
    end
  else finish (cluster_loop fuel table s (lastClusterCategory s) []).

Definition getCluster : Stream -> option (result (Stream * option (list Z))) :=
  getClusterInternal clusterContinuationTable.
Definition getBackspaceCluster : Stream -> option (result (Stream * option (list Z))) :=
  getClusterInternal backspaceContinuationTable.
End Clusters.

(** ** UTF16Buffer operations *)

(** A conversion of ICU with the preflighting protocol: the result and the
    required length; nothing is stored beyond the capacity.  [grow_to] is the
    capacity after the required length turned out to be too large. *)
Definition convert_with_retry (convert : list Z -> list Z) (grow_to : Z -> Z) (src : list Z) (dst : vector Z)
  : option (vector Z) :=
  let res := convert src in
  let requiredLength := zlen res in
  if allocated dst <? requiredLength then
    let capacity := grow_to requiredLength in
    if capacity <? requiredLength then None else Some (Vector res capacity)
  else Some (Vector res (allocated dst)).

(** [decomposeChar]: [normalize] is [unorm2_normalize] with the option's
    normalizer.  [VECTOR_ALLOCATE] counts bytes as elements here. *)
Definition decomposeChar (normalize : list Z -> list Z) (original : list Z) (converted : vector Z)
  : option (vector Z) :=
  convert_with_retry normalize (fun n => allocated (VECTOR_ALLOCATE converted (n * 2))) original converted.

(** [casefoldChar]: [foldCase] is [u_strFoldCase]. *)
Definition casefoldChar (foldCase : list Z -> list Z) (converted : list Z) (casefolded : vector Z)
  : option (vector Z) :=
  convert_with_retry foldCase (fun n => n) converted casefolded.

(** The bytes of UTF-16 units in memory (little-endian). *)
Definition unit_bytes (l : list Z) : list Z := flat_map (fun u => [u mod 256; u / 256]) l.

(** [memcmp]: the difference of the first bytes that differ. *)
Fixpoint memcmp (a b : list Z) : Z :=
  match a, b with
  | x :: a', y :: b' => if x =? y then memcmp a' b' else x - y
  | _, _ => 0
  end.

Definition compareUTF16Buffer (a b : list Z) : Z :=
  let minlen := Z.min (zlen a) (zlen b) in
  let result := memcmp (unit_bytes (slice a 0 minlen)) (unit_bytes (slice b 0 minlen)) in
  if negb (result =? 0) then result
  else if minlen <? zlen b then -1
  else if minlen <? zlen a then 1
  else 0.

Definition lone_high_surrogate : positive := 9.

(** [UTF16CharCondition]: all characters of the buffer satisfy [condition]. *)
Fixpoint isUTF16 (condition : Z -> bool) (l : list Z) : result bool :=
  match l with
  | [] => Ok true
  | u :: l' =>
      if Z.land u 0xFC00 =? 0xD800 then
        match l' with
        | [] => Fatal lone_high_surrogate
        | v :: l'' =>
            if condition (Z.shiftl (Z.land u 0x3FF) 10 + 0x10000 + Z.land v 0x3FF)
            then isUTF16 condition l'' else Ok false
        end
      else if condition u then isUTF16 condition l' else Ok false
  end.
