(* ===== verification/UnicodeProofs.v ===== *)
(** * Correctness of the UTF-8 and UTF-16 routines

    Decoding is sound and complete with respect to the UTF-8 encoding form;
    encoding agrees with it except at the first character of each length
    (U+0080, U+0800 and U+10000); clusters partition the characters of a
    stream. *)

From S2P Require Import Prelude EditScript HashTable FileIO FileProofs Streams Unicode.

(** ** The UTF-8 encoding form *)

Definition utf8 (c : Z) : list Z :=
  if c <? 0x80 then [c]
  else if c <? 0x800 then [192 + c / 64; 128 + c mod 64]
  else if c <? 0x10000 then [224 + c / 4096; 128 + c / 64 mod 64; 128 + c mod 64]
  else [240 + c / 262144; 128 + c / 4096 mod 64; 128 + c / 64 mod 64; 128 + c mod 64].

Definition codepoint (c : Z) : Prop := 0 <= c <= 0x10FFFF.

(** *** Bits *)

Lemma land_3F c : Z.land c 0x3F = c mod 64.
Proof. apply (Z.land_ones c 6). done. Qed.

Lemma cont_byte c : Z.lor (Z.land c 0x3F) 0x80 = 128 + c mod 64.
Proof.
  rewrite land_3F, Z.lor_comm. change 0x80 with (2 * 2 ^ 6).
  rewrite lor_add; [done|lia|]. change (2 ^ 6) with 64. apply Z.mod_pos_bound. lia.
Qed.

Lemma is_cont c : 0 <= c < 256 -> (Z.land c 0xC0 =? 0x80) = ((128 <=? c) && (c <? 192)).
Proof.
  intros Hc. apply eqb_prop. revert c Hc. apply byte_forall. vm_compute. reflexivity.
Qed.

Lemma shift_add r c : Z.lor (Z.shiftl r 6) (Z.land c 0x3F) = r * 64 + c mod 64.
Proof.
  rewrite land_3F, Z.shiftl_mul_pow2 by lia. rewrite lor_add; [done|lia|].
  change (2 ^ 6) with 64. apply Z.mod_pos_bound. lia.
Qed.

(** The lead byte: [x] are the bits it carries, [n] the number of bytes. *)
Lemma lead_byte n x : In n [2; 3; 4] -> 0 <= x < 2 ^ (7 - n) ->
  Z.lor (128 + x) (Z.shiftl 0xF0 (4 - n)) mod 256 = (256 - 2 ^ (8 - n)) + x.
Proof.
  intros Hn Hx. apply Z.eqb_eq.
  assert (x < 256) by (destruct Hn as [<-|[<-|[<-|[]]]]; simpl in Hx; lia).
  pose proof (byte_forall (fun x => (2 ^ (7 - n) <=? x) ||
    (Z.lor (128 + x) (Z.shiftl 0xF0 (4 - n)) mod 256 =? (256 - 2 ^ (8 - n)) + x))) as H'.
  specialize (H' ltac:(destruct Hn as [<-|[<-|[<-|[]]]]; vm_compute; reflexivity) x ltac:(lia)). simpl in H'.
  destruct (Z.leb_spec (2 ^ (7 - n)) x); [lia|done].
Qed.

(** *** Encoding *)

Definition first_of_length (c : Z) : bool := (c =? 0x80) || (c =? 0x800) || (c =? 0x10000).

Lemma convertToUTF8_utf8 c : codepoint c -> first_of_length c = false -> convertToUTF8 c = utf8 c.
Proof.
  unfold codepoint, first_of_length. intros Hc Hf. zify_bool.
  unfold convertToUTF8, utf8. cbn [utf8_bytes mark_first]. rewrite !cont_byte, !Z.shiftr_div_pow2 by lia.
  change (2 ^ 6) with 64. rewrite !Z.div_div by lia. simpl Z.mul.
  repeat case_if; try lia.
  - rewrite (lead_byte 4) by (simpl; (auto || lia)). f_equal. simpl. lia.
  - rewrite (lead_byte 3) by (simpl; (auto || lia)). f_equal. simpl. lia.
  - rewrite (lead_byte 2) by (simpl; (auto || lia)). f_equal. simpl. lia.
  - by rewrite Z.mod_small by lia.
Qed.

(** *** Decoding *)

(** The stream after [bytes] have been delivered. *)
Definition advance (s : Stream) (bytes r : list Z) : Stream :=
  set_source s (rev bytes ++ consumed s) r (seof s).

Lemma getChar_cons s b r : remaining s = b :: r -> getChar s = (advance s [b] r, b).
Proof. intros H. unfold getChar. by rewrite H. Qed.

Lemma advance_twice s l1 l2 r1 r2 : advance (advance s l1 r1) l2 r2 = advance s (l1 ++ l2) r2.
Proof. unfold advance, set_source. simpl. by rewrite rev_app_distr, app_assoc. Qed.

Lemma getuc_rest_cont n s v b r : remaining s = b :: r -> 128 <= b < 192 ->
  getuc_rest (S n) s v = getuc_rest n (advance s [b] r) (v * 64 + (b - 128)).
Proof.
  intros Hr Hb. cbn [getuc_rest]. rewrite (getChar_cons s b r Hr).
  rewrite (proj2 (Z.eqb_neq b EOF)) by (unfold EOF; lia). rewrite is_cont by lia.
  rewrite (proj2 (Z.leb_le 128 b)), (proj2 (Z.ltb_lt b 192)) by lia. simpl negb. cbv iota.
  rewrite shift_add. do 2 f_equal. lia.
Qed.

Lemma land_low_bits b m : In m [3; 4; 5] -> 0 <= b -> Z.land b (2 ^ m - 1) = b mod 2 ^ m.
Proof.
  intros Hm Hb. replace (2 ^ m - 1) with (Z.ones m) by (rewrite Z.ones_equiv; lia).
  apply Z.land_ones. destruct Hm as [<-|[<-|[<-|[]]]]; lia.
Qed.

Lemma getuc_utf8 s c r : codepoint c -> remaining s = utf8 c ++ r ->
  getuc s = Ok (advance s (utf8 c) r, c).
Proof.
  unfold codepoint, utf8. intros Hc Hr. unfold getuc.
  destruct (Z.ltb_spec c 0x80) as [H1|H1]; [|destruct (Z.ltb_spec c 0x800) as [H2|H2];
    [|destruct (Z.ltb_spec c 0x10000) as [H3|H3]]]; simpl app in Hr; rewrite (getChar_cons _ _ _ Hr);
    rewrite (proj2 (Z.eqb_neq _ EOF)) by (unfold EOF; lia).
  - rewrite (proj2 (Z.leb_le 0 c)), (proj2 (Z.leb_le c 127)) by lia. done.
  - repeat (case_if; [lia|]). case_if; [|lia]. change 0x1F with (2 ^ 5 - 1). rewrite land_low_bits by (simpl; auto || lia).
    rewrite (getuc_rest_cont 0 _ _ (128 + c mod 64) r) by (done || lia). simpl. rewrite advance_twice.
    repeat (case_if; [lia|]). repeat f_equal. lia.
  - repeat (case_if; [lia|]). case_if; [|lia]. change 0x0F with (2 ^ 4 - 1). rewrite land_low_bits by (simpl; auto || lia).
    rewrite (getuc_rest_cont 1 _ _ (128 + c / 64 mod 64) (128 + c mod 64 :: r)) by (done || lia).
    rewrite (getuc_rest_cont 0 _ _ (128 + c mod 64) r) by (done || lia). simpl. rewrite !advance_twice.
    repeat (case_if; [lia|]). repeat f_equal. lia.
  - repeat (case_if; [lia|]). case_if; [|lia]. change 0x07 with (2 ^ 3 - 1). rewrite land_low_bits by (simpl; auto || lia).
    rewrite (getuc_rest_cont 2 _ _ (128 + c / 4096 mod 64) (128 + c / 64 mod 64 :: 128 + c mod 64 :: r)) by (done || lia).
    rewrite (getuc_rest_cont 1 _ _ (128 + c / 64 mod 64) (128 + c mod 64 :: r)) by (done || lia).
    rewrite (getuc_rest_cont 0 _ _ (128 + c mod 64) r) by (done || lia). simpl. rewrite !advance_twice.
    repeat (case_if; [lia|]). repeat f_equal. lia.
Qed.

(** The fields that reading bytes leaves alone. *)
Definition same_fields (s s' : Stream) : Prop :=
  svtable s' = svtable s /\ bufferedChar s' = bufferedChar s /\
  lastClusterCategory s' = lastClusterCategory s /\ highSurrogate s' = highSurrogate s /\
  nextChar s' = nextChar s.

Lemma same_fields_trans s1 s2 s3 : same_fields s1 s2 -> same_fields s2 s3 -> same_fields s1 s3.
Proof. unfold same_fields. intuition congruence. Qed.

Lemma advance_fields s l r : same_fields s (advance s l r).
Proof. done. Qed.

(** The continuation bytes of a character: either all of them are there, or
    the character is invalid and the byte that is not one stays. *)
Definition cont_value (v : Z) (l : list Z) : Z := foldl (fun v b => v * 64 + (b - 128)) v l.

Lemma getuc_rest_spec n s v : svtable s = fileVtable -> bytes_ok (remaining s) -> 0 <= v ->
  exists s' w l, getuc_rest n s v = Ok (s', w) /\ remaining s = l ++ remaining s' /\ same_fields s s' /\
    (w = UEINVALID \/
     length l = n /\ Forall (fun b => 128 <= b < 192) l /\ w = cont_value v l).
Proof.
  revert s v. induction n as [|n IH]; intros s v Hf Hb Hv; cbn [getuc_rest].
  - exists s, v, []. split; [done|]. split; [done|]. split; [done|]. right. done.
  - destruct (remaining s) as [|b r] eqn:Er.
    + unfold getChar. rewrite Er. simpl. eexists _, _, []. split; [done|]. simpl. split; [done|]. split; [done|]. by left.
    + apply Forall_cons in Hb as [Hb0 Hb]. rewrite (getChar_cons _ _ _ Er).
      rewrite (proj2 (Z.eqb_neq b EOF)) by (unfold EOF; lia). rewrite is_cont by done.
      destruct ((128 <=? b) && (b <? 192)) eqn:Ec; simpl negb; cbv iota; zify_bool.
      * destruct (IH (advance s [b] r) (Z.lor (Z.shiftl v 6) (Z.land b 0x3F))) as (s' & w & l & -> & Hr & Hs & Hw);
          [done|done|rewrite shift_add; lia|].
        exists s', w, (b :: l). split; [done|]. simpl in Hr. split; [by rewrite Hr|].
        split; [by eapply same_fields_trans|]. destruct Hw as [->|(Hl & Hc & ->)]; [by left|right].
        simpl. split; [lia|]. split; [by constructor|]. rewrite shift_add. unfold cont_value. do 2 f_equal. lia.
      * unfold ungetChar. simpl. rewrite Hf. simpl. eexists _, _, []. split; [done|]. simpl.
        rewrite Z.mod_small by lia. split; [done|]. split; [done|]. by left.
Qed.

Lemma utf8_2 a b : 194 <= a < 224 -> 128 <= b < 192 ->
  utf8 (cont_value (a mod 32) [b]) = [a; b] /\ 0x80 <= cont_value (a mod 32) [b] < 0x800.
Proof.
  intros Ha Hb. unfold cont_value. simpl. unfold utf8.
  assert (0x80 <= a mod 32 * 64 + (b - 128) < 0x800) by lia. repeat case_if; try lia. split; [|lia].
  repeat f_equal; lia.
Qed.

Lemma utf8_3 a b1 b2 : 224 <= a < 240 -> 128 <= b1 < 192 -> 128 <= b2 < 192 ->
  0x800 <= cont_value (a mod 16) [b1; b2] ->
  utf8 (cont_value (a mod 16) [b1; b2]) = [a; b1; b2] /\ cont_value (a mod 16) [b1; b2] < 0x10000.
Proof.
  intros Ha Hb1 Hb2. unfold cont_value. simpl. unfold utf8. intros Hl.
  assert ((a mod 16 * 64 + (b1 - 128)) * 64 + (b2 - 128) < 0x10000) by lia. repeat case_if; try lia. split; [|lia].
  repeat f_equal; lia.
Qed.

Lemma utf8_4 a b1 b2 b3 : 240 <= a < 245 -> 128 <= b1 < 192 -> 128 <= b2 < 192 -> 128 <= b3 < 192 ->
  0x10000 <= cont_value (a mod 8) [b1; b2; b3] -> cont_value (a mod 8) [b1; b2; b3] <= 0x10FFFF ->
  utf8 (cont_value (a mod 8) [b1; b2; b3]) = [a; b1; b2; b3].
Proof.
  intros Ha Hb1 Hb2 Hb3. unfold cont_value. simpl. unfold utf8. intros Hl Hu. repeat case_if; try lia.
  repeat f_equal; lia.
Qed.

(** Decoding a file: the end of the file, a character with its encoding, or
    an error; at least one byte is consumed. *)
Lemma getuc_spec s : svtable s = fileVtable -> bytes_ok (remaining s) ->
  exists s' c l, getuc s = Ok (s', c) /\ remaining s = l ++ remaining s' /\ same_fields s s' /\
    (remaining s = [] -> c = EOF) /\
    (remaining s <> [] -> l <> [] /\
       (codepoint c /\ l = utf8 c \/ c = UEOVERLONG \/ c = UEINVALID \/ c = UETOOLARGE)).
Proof.
  intros Hf Hb. unfold getuc. destruct (remaining s) as [|b r] eqn:Er.
  { unfold getChar. rewrite Er. simpl. eexists _, _, []. repeat split; try done. }
  apply Forall_cons in Hb as [Hb0 Hb]. rewrite (getChar_cons _ _ _ Er).
  rewrite (proj2 (Z.eqb_neq b EOF)) by (unfold EOF; lia).
  assert (forall c, (codepoint c /\ [b] = utf8 c \/ c = UEOVERLONG \/ c = UEINVALID \/ c = UETOOLARGE) ->
    exists s' c' l, Ok (advance s [b] r, c) = Ok (s', c') /\ b :: r = l ++ remaining s' /\ same_fields s s' /\
    (b :: r = [] -> c' = EOF) /\ (b :: r <> [] -> l <> [] /\
       (codepoint c' /\ l = utf8 c' \/ c' = UEOVERLONG \/ c' = UEINVALID \/ c' = UETOOLARGE))) as Hone.
  { intros c Hc. eexists _, _, [b]. repeat split; done. }
  assert (forall least n v, 0 <= v ->
    (forall l, length l = n -> Forall (fun b => 128 <= b < 192) l -> least <= cont_value v l <= 0x10FFFF ->
       codepoint (cont_value v l) /\ b :: l = utf8 (cont_value v l)) ->
    exists s' c' l, (let* (s, retval) := getuc_rest n (advance s [b] r) v in
      if retval <? 0 then Ok (s, retval) else if retval <? least then Ok (s, UEOVERLONG)
      else if 0x10FFFF <? retval then Ok (s, UETOOLARGE) else Ok (s, retval)) = Ok (s', c') /\
    b :: r = l ++ remaining s' /\ same_fields s s' /\
    (b :: r = [] -> c' = EOF) /\ (b :: r <> [] -> l <> [] /\
       (codepoint c' /\ l = utf8 c' \/ c' = UEOVERLONG \/ c' = UEINVALID \/ c' = UETOOLARGE))) as Hmulti.
  { intros least n v Hv Hval.
    destruct (getuc_rest_spec n (advance s [b] r) v Hf Hb Hv) as (s' & w & l & -> & Hr & Hs & Hw). simpl.
    simpl in Hr. destruct Hw as [->|(Hn & Hl & ->)].
    - eexists _, _, (b :: l). split; [done|]. split; [by rewrite Hr|]. split; [done|]. split; [done|].
      intros _. split; [done|]. right. by right; left.
    - repeat case_if; eexists _, _, (b :: l); (split; [done|]); (split; [by rewrite Hr|]); (split; [done|]);
        (split; [done|]); intros _; (split; [done|]).
      + exfalso. revert E. clear -Hv Hl. revert v Hv.
        induction l as [|x l IH]; intros v Hv; unfold cont_value; simpl; [lia|].
        apply Forall_cons in Hl as [Hx Hl]. apply IH; [done|lia].
      + right. by left.
      + right. by right; right.
      + left. apply Hval; try done; lia. }
  repeat case_if; try lia.
  - apply Hone. left. unfold codepoint, utf8. split; [lia|]. case_if; [done|lia].
  - apply Hone. right. by right; left.
  - apply Hone. right. by left.
  - change 0x1F with (2 ^ 5 - 1). rewrite land_low_bits by (simpl; auto || lia). change (2 ^ 5) with 32. apply Hmulti; [lia|].
    intros [|b1 [|]] Hn Hl Hv; try done. apply Forall_cons in Hl as [Hb1 _].
    destruct (utf8_2 b b1 ltac:(lia) Hb1) as [-> ?]. split; [unfold codepoint; lia|done].
  - change 0x0F with (2 ^ 4 - 1). rewrite land_low_bits by (simpl; auto || lia). change (2 ^ 4) with 16. apply Hmulti; [lia|].
    intros [|b1 [|b2 [|]]] Hn Hl Hv; try done. apply Forall_cons in Hl as [Hb1 [Hb2 _]%Forall_cons].
    destruct (utf8_3 b b1 b2 ltac:(lia) Hb1 Hb2 ltac:(lia)) as [-> ?]. split; [unfold codepoint; lia|done].
  - change 0x07 with (2 ^ 3 - 1). rewrite land_low_bits by (simpl; auto || lia). change (2 ^ 3) with 8. apply Hmulti; [lia|].
    intros [|b1 [|b2 [|b3 [|]]]] Hn Hl Hv; try done. apply Forall_cons in Hl as [Hb1 [Hb2 [Hb3 _]%Forall_cons]%Forall_cons].
    rewrite (utf8_4 b b1 b2 b3 ltac:(lia) Hb1 Hb2 Hb3) by lia. split; [unfold codepoint; lia|done].
  - apply Hone. right. by right; right.
Qed.

(** ** Surrogates *)

(** Characters that [getucFiltered] passes on unchanged. *)
Definition plain (c : Z) : Prop := codepoint c /\ (c / 2048) mod 32 <> 27.

Lemma surrogate_mask c : (Z.land c 0xF800 =? 0xD800) = ((c / 2048) mod 32 =? 27).
Proof.
  change 0xF800 with (Z.shiftl (Z.ones 5) 11). rewrite land_field by lia. change (2 ^ 11) with 2048. change (2 ^ 5) with 32.
  destruct (Z.eqb_spec ((c / 2048) mod 32) 27); [apply Z.eqb_eq; lia|apply Z.eqb_neq; lia].
Qed.

Lemma getucFiltered_valid s c r : nextChar s = -1 -> plain c -> remaining s = utf8 c ++ r ->
  getucFiltered s = Ok (advance s (utf8 c) r, c).
Proof.
  intros Hn [Hc Hp] Hr. unfold getucFiltered. rewrite Hn. simpl. rewrite (getuc_utf8 s c r Hc Hr). simpl.
  unfold codepoint in Hc. case_if; [lia|]. rewrite surrogate_mask. rewrite (proj2 (Z.eqb_neq _ _) Hp). done.
Qed.

Lemma getucFiltered_eof s : nextChar s = -1 -> remaining s = [] ->
  exists s', getucFiltered s = Ok (s', EOF) /\ remaining s' = [] /\ same_fields s s' /\ seof s' = isFileStream s.
Proof.
  intros Hn Hr. unfold getucFiltered. rewrite Hn. simpl. unfold getuc, getChar. rewrite Hr. simpl.
  eexists. split; [done|]. done.
Qed.

(** ** UTF-16 *)

Lemma land_3FF c : Z.land c 0x3FF = c mod 1024.
Proof. apply (Z.land_ones c 10). done. Qed.

Lemma unit_mask u : Z.land u 0xFC00 = u / 1024 mod 64 * 1024.
Proof. change 0xFC00 with (Z.shiftl (Z.ones 6) 10). by rewrite land_field by lia. Qed.

Lemma supplementary_units c : 0x10000 < c <= 0x10FFFF ->
  addUCS4ToUTF16Buffer c = [0xD800 + (c - 0x10000) / 1024; 0xDC00 + c mod 1024].
Proof.
  intros Hc. unfold addUCS4ToUTF16Buffer. case_if; [|lia]. rewrite land_3FF, !Z.shiftr_div_pow2 by lia.
  change (2 ^ 10) with 1024. change (65536 / 1024) with 64.
  change 0xDC00 with (55 * 2 ^ 10). rewrite lor_add; [|lia|change (2 ^ 10) with 1024; lia].
  change (2 ^ 10) with 1024. f_equal. lia.
Qed.

(** Writing the units of a character gives its UTF-8 encoding. *)
Lemma units_utf8 c l : plain c -> first_of_length c = false ->
  utf16_to_utf8 (addUCS4ToUTF16Buffer c ++ l) 0 = let* r := utf16_to_utf8 l 0 in Ok (utf8 c ++ r).
Proof.
  intros [Hc Hp] Hf. unfold codepoint in Hc. destruct (Z.ltb_spec 0x10000 c).
  - rewrite supplementary_units by lia. cbn [utf16_to_utf8 app]. unfold filteredConvertToUTF8 at 1.
    rewrite unit_mask. rewrite (proj2 (Z.eqb_eq _ 0xD800)) by lia. simpl rbind. unfold filteredConvertToUTF8.
    rewrite unit_mask. rewrite (proj2 (Z.eqb_neq _ 0xD800)), (proj2 (Z.eqb_eq _ 0xDC00)) by lia.
    rewrite (proj2 (Z.eqb_neq _ 0)) by lia. simpl rbind. rewrite !Z.shiftl_mul_pow2 by lia.
    change (2 ^ 10) with 1024.
    replace (56320 + c mod 1024 + (55296 + (c - 65536) / 1024) * 1024 + 65536 - 55296 * 1024 - 56320) with c by lia.
    rewrite convertToUTF8_utf8 by (unfold codepoint; done || lia). destruct (utf16_to_utf8 l 0); done.
  - unfold addUCS4ToUTF16Buffer. case_if; [lia|]. unfold first_of_length in Hf. zify_bool.
    rewrite Z.mod_small by lia. cbn [utf16_to_utf8 app]. unfold filteredConvertToUTF8.
    rewrite unit_mask. rewrite (proj2 (Z.eqb_neq _ 0xD800)), (proj2 (Z.eqb_neq _ 0xDC00)) by lia. simpl.
    rewrite convertToUTF8_utf8; [|unfold codepoint; lia|unfold first_of_length; repeat (apply orb_false_iff; split); apply Z.eqb_neq; lia].
    destruct (utf16_to_utf8 l 0); done.
Qed.

(** ** Clusters *)

Section ClusterProofs.
Context (gcb : Z -> Z) (Hgcb : forall c, 0 <= gcb c).

Definition units (cs : list Z) : list Z := concat (addUCS4ToUTF16Buffer <$> cs).
Definition encoded (cs : list Z) : list Z := concat (utf8 <$> cs).

(** A stream with the characters [cs] still to come, the first of which may
    have been read already. *)
Definition upcoming (s : Stream) (cs : list Z) : Prop :=
  nextChar s = -1 /\ seof s = false /\
  (bufferedChar s = -1 /\ remaining s = encoded cs \/
   exists c cs', cs = c :: cs' /\ bufferedChar s = c /\ remaining s = encoded cs' /\
     lastClusterCategory s = getClusterCategory gcb c).

(** The categories of controls, carriage return and line feed. *)
Definition breaks (category : Z) : bool := (category =? 1) || (category =? 2) || (category =? 5).

(** The characters of a cluster: a control character is one by itself. *)
Definition one_cluster (c : Z) (cs : list Z) : Prop :=
  Forall (fun d => breaks (getClusterCategory gcb d) = false) cs /\
  (breaks (getClusterCategory gcb c) = true -> cs = []).

(** Nothing continues a control character, and it continues nothing. *)
Definition table_clean (table : list (list bool)) : bool :=
  forallb (fun a => forallb (fun b => match continues table a b with
                                      | Some true => negb (breaks a) && negb (breaks b)
                                      | _ => true
                                      end) (map Z.of_nat (seq 0 13))) (map Z.of_nat (seq 0 13)).

Definition table_ok (table : list (list bool)) : Prop :=
  zlen table = MAX_GCB_CLASS /\ Forall (fun row => zlen row = MAX_GCB_CLASS) table /\ table_clean table = true.

Lemma continues_clean table a b : table_ok table -> 0 <= a < MAX_GCB_CLASS -> 0 <= b < MAX_GCB_CLASS ->
  continues table a b = Some true -> breaks a = false /\ breaks b = false.
Proof.
  intros (_ & _ & Hc) Ha Hb H. unfold table_clean in Hc. unfold MAX_GCB_CLASS in *. rewrite forallb_forall in Hc.
  specialize (Hc a). rewrite forallb_forall in Hc. specialize (fun H1 => Hc H1 b). rewrite H in Hc.
  rewrite andb_true_iff, !negb_true_iff in Hc.
  apply Hc; apply in_map_iff; [exists (Z.to_nat a)|exists (Z.to_nat b)]; (split; [lia|apply in_seq; lia]).
Qed.

Lemma continues_Some table a b : table_ok table -> 0 <= a < MAX_GCB_CLASS -> 0 <= b < MAX_GCB_CLASS ->
  exists m, continues table a b = Some m.
Proof.
  intros (Hl & Hrows & _) Ha Hb. unfold continues. destruct (zget_Some table a) as [row Hrow]; [lia|]. rewrite Hrow. obind.
  apply zget_Some. unfold zget in Hrow. destruct (a <? 0); [done|].
  rewrite (proj1 (Forall_lookup _ _) Hrows _ _ Hrow). lia.
Qed.

Lemma category_range c : 0 <= getClusterCategory gcb c < MAX_GCB_CLASS.
Proof. unfold getClusterCategory. specialize (Hgcb c). unfold MAX_GCB_CLASS in *. case_if; lia. Qed.

Lemma cluster_loop_spec n table s cat buf cs : table_ok table -> Forall plain cs ->
  nextChar s = -1 -> seof s = false -> remaining s = encoded cs -> 0 <= cat < MAX_GCB_CLASS -> (length cs < n)%nat ->
  exists s' cs1 cs2, cluster_loop gcb n table s cat buf
      = Some (Ok (s', buf ++ addUCS4ToUTF16Buffer (bufferedChar s) ++ units cs1)) /\
    cs = cs1 ++ cs2 /\ upcoming s' cs2 /\ svtable s' = svtable s /\
    Forall (fun d => breaks (getClusterCategory gcb d) = false) cs1 /\ (breaks cat = true -> cs1 = []).
Proof.
  intros Ht. revert s cat buf cs. induction n as [|n IH]; intros s cat buf cs Hp Hnx Heof Hr Hcat Hn; [lia|].
  cbn [cluster_loop]. set (s0 := set_category s cat). destruct cs as [|c cs].
  - destruct (getucFiltered_eof s0) as (s1 & -> & Hr1 & (Hv & _ & _ & _ & Hn1) & He1); [done|done|]. simpl.
    eexists _, [], []. split; [by rewrite app_nil_r|]. split; [done|]. split; [|split; [|by repeat constructor]].
    + unfold upcoming. simpl in Hv, Hn1. unfold isFileStream in *. simpl in *. rewrite Hv.
      destruct (bool_decide (svtable s = fileVtable)) eqn:Ef; simpl; (split; [congruence|]); (split; [congruence|by left]).
    + unfold isFileStream. simpl in *. by destruct (bool_decide _).
  - apply Forall_cons in Hp as [Hc Hp].
    rewrite (getucFiltered_valid s0 c (encoded cs)) by done. pose proof (proj1 Hc) as Hcp. unfold codepoint in Hcp.
    rewrite (proj2 (Z.ltb_ge c 0)) by lia. simpl.
    destruct (continues_Some table cat (getClusterCategory gcb c) Ht Hcat (category_range c)) as [more Hmore]. rewrite Hmore. obind.
    destruct more.
    + destruct (continues_clean table cat _ Ht Hcat (category_range c) Hmore) as [Hb1 Hb2].
      destruct (IH (set_bufferedChar (advance s0 (utf8 c) (encoded cs)) c) (getClusterCategory gcb c)
        (buf ++ addUCS4ToUTF16Buffer (bufferedChar s)) cs) as (s' & cs1 & cs2 & -> & -> & Hd & Hv & Hall & _); try done;
        [apply category_range|simpl in Hn; lia|].
      exists s', (c :: cs1), cs2. split; [|split; [done|]]; [|split; [done|split; [done|split; [by constructor|congruence]]]].
      simpl. unfold units. simpl. by rewrite !app_assoc.
    + eexists _, [], (c :: cs). split; [by rewrite app_nil_r|]. split; [done|]. split; [|by repeat constructor].
      split; [done|]. split; [done|]. right. exists c, cs. done.
Qed.

Lemma encoded_length cs : (length cs <= length (encoded cs))%nat.
Proof.
  induction cs as [|c cs IH]; [done|]. change (encoded (c :: cs)) with (utf8 c ++ encoded cs). rewrite length_app.
  assert (1 <= length (utf8 c))%nat by (unfold utf8; repeat case_if; simpl; lia). simpl. lia.
Qed.

(** One cluster: a non-empty prefix of the characters to come, or the end. *)
Lemma getClusterInternal_spec table s cs : table_ok table -> Forall plain cs -> upcoming s cs ->
  match cs with
  | [] => exists s', getClusterInternal gcb table s = Some (Ok (s', None)) /\ sfeof s' = isFileStream s
  | c :: cs' => exists s' cs1 cs2, getClusterInternal gcb table s = Some (Ok (s', Some (units (c :: cs1)))) /\
      cs' = cs1 ++ cs2 /\ upcoming s' cs2 /\ svtable s' = svtable s /\ one_cluster c cs1
  end.
Proof.
  intros Ht Hp (Hnx & Heof & Hd). unfold getClusterInternal. cbv zeta.
  destruct Hd as [[Hb Hr]|(c & cs' & -> & Hb & Hr & Hcat)].
  - rewrite Hb. change (-1 <? 0) with true. cbv iota. destruct cs as [|c cs].
    + destruct (getucFiltered_eof s Hnx Hr) as (s1 & -> & _ & _ & He). simpl. eauto.
    + apply Forall_cons in Hp as [Hc Hp]. rewrite (getucFiltered_valid s c (encoded cs)) by done.
      pose proof (proj1 Hc) as Hcp. unfold codepoint in Hcp. rewrite (proj2 (Z.ltb_ge c 0)) by lia.
      destruct (cluster_loop_spec (S (S (length (remaining s)))) table
        (set_bufferedChar (advance s (utf8 c) (encoded cs)) c) (getClusterCategory gcb c) [] cs)
        as (s' & cs1 & cs2 & -> & -> & Hd' & Hv & Hone); try done; [apply category_range| |].
      { rewrite Hr. change (encoded (c :: cs)) with (utf8 c ++ encoded cs). rewrite length_app. pose proof (encoded_length cs). lia. }
      obind. simpl. exists s', cs1, cs2. by split.
  - apply Forall_cons in Hp as [Hc Hp]. pose proof (proj1 Hc) as Hcp. unfold codepoint in Hcp.
    rewrite Hb, (proj2 (Z.ltb_ge c 0)) by lia.
    destruct (cluster_loop_spec (S (S (length (remaining s)))) table s (lastClusterCategory s) [] cs')
      as (s' & cs1 & cs2 & -> & -> & Hd' & Hv & Hone); try done; [rewrite Hcat; apply category_range| |].
    { rewrite Hr. pose proof (encoded_length cs'). lia. }
    obind. simpl. rewrite Hb. rewrite Hcat in Hone. exists s', cs1, cs2. by split.
Qed.

(** Reading a stream cluster by cluster to its end. *)
Fixpoint clusters (n : nat) (table : list (list bool)) (s : Stream) : option (list (list Z)) :=
  match n with
  | O => None
  | S n' =>
      let? r := getClusterInternal gcb table s in
      match r with
      | Fatal _ => None
      | Ok (_, None) => Some []
      | Ok (s, Some buf) => let? l := clusters n' table s in Some (buf :: l)
      end
  end.

(** The characters [cs] of a cluster. *)
Definition is_cluster (cs : list Z) : Prop :=
  match cs with
  | [] => False
  | c :: cs' => one_cluster c cs'
  end.

Lemma clusters_spec n table s cs : table_ok table -> Forall plain cs -> upcoming s cs -> (length cs < n)%nat ->
  exists css, clusters n table s = Some (units <$> css) /\ concat css = cs /\ Forall is_cluster css.
Proof.
  intros Ht. revert s cs. induction n as [|n IH]; intros s cs Hp Hd Hn; [lia|]. cbn [clusters].
  pose proof (getClusterInternal_spec table s cs Ht Hp Hd) as H. destruct cs as [|c cs].
  - destruct H as (s' & -> & _). obind. exists []. done.
  - destruct H as (s' & cs1 & cs2 & -> & -> & Hd' & _ & Hone). obind.
    apply Forall_cons in Hp as [Hc Hp]. apply Forall_app in Hp as [Hp1 Hp2].
    destruct (IH s' cs2 Hp2 Hd') as (css & -> & Hl & Hne); [simpl in Hn; rewrite length_app in Hn; lia|]. obind.
    exists ((c :: cs1) :: css). split; [done|]. split; [simpl; by rewrite Hl|by constructor].
Qed.

(** Reading cluster by cluster and writing each cluster as UTF-8. *)
Definition copy_clusters (n : nat) (table : list (list bool)) (s : Stream) : option (list Z) :=
  let? l := clusters n table s in
  let? bs := mapM (fun u => match utf16_to_utf8 u 0 with Ok b => Some b | Fatal _ => None end) l in
  Some (concat bs).

Lemma units_roundtrip cs : Forall (fun c => plain c /\ first_of_length c = false) cs ->
  utf16_to_utf8 (units cs) 0 = Ok (encoded cs).
Proof.
  induction cs as [|c cs IH]; intros H; [done|]. apply Forall_cons in H as [[Hp Hf] H].
  change (units (c :: cs)) with (addUCS4ToUTF16Buffer c ++ units cs).
  rewrite units_utf8, IH by done. done.
Qed.

Lemma copy_clusters_spec n table s cs : table_ok table ->
  Forall (fun c => plain c /\ first_of_length c = false) cs -> upcoming s cs -> (length cs < n)%nat ->
  copy_clusters n table s = Some (encoded cs).
Proof.
  intros Ht Hcs Hd Hn. unfold copy_clusters.
  destruct (clusters_spec n table s cs Ht) as (css & -> & Hcc & _); [|done|done|].
  { eapply Forall_impl; [exact Hcs|]. by intros c [? _]. }
  obind. subst cs. clear Hd Hn.
  assert (mapM (fun u => match utf16_to_utf8 u 0 with Ok b => Some b | Fatal _ => None end) (units <$> css)
    = Some (encoded <$> css)) as ->.
  { apply mapM_Some_2, Forall2_fmap_2. induction css as [|x css IH]; [constructor|].
    simpl in Hcs. apply Forall_app in Hcs as [Hx Hcs]. constructor; [by rewrite units_roundtrip|by apply IH]. }
  obind. f_equal. clear. induction css as [|x css IH]; [done|].
  change (encoded x ++ concat (encoded <$> css) = encoded (x ++ concat css)). rewrite IH.
  unfold encoded. by rewrite fmap_app, concat_app.
Qed.
End ClusterProofs.

Lemma cluster_tables_ok : table_ok clusterContinuationTable /\ table_ok backspaceContinuationTable.
Proof. split; (split; [reflexivity|]); (split; [repeat constructor|reflexivity]). Qed.

(** ** Comparing buffers *)

(** The lexicographic order on the bytes in memory. *)
Fixpoint lex (a b : list Z) : Z :=
  match a, b with
  | [], [] => 0
  | [], _ :: _ => -1
  | _ :: _, [] => 1
  | x :: a', y :: b' => if x =? y then lex a' b' else x - y
  end.

Lemma compare_cons u v a b :
  compareUTF16Buffer (u :: a) (v :: b) =
    if u mod 256 =? v mod 256 then
      if u / 256 =? v / 256 then compareUTF16Buffer a b else u / 256 - v / 256
    else u mod 256 - v mod 256.
Proof.
  unfold compareUTF16Buffer.
  assert (forall w (l : list Z), slice (w :: l) 0 (Z.min (zlen (u :: a)) (zlen (v :: b)))
    = w :: slice l 0 (Z.min (zlen a) (zlen b))) as Hs.
  { intros w l. rewrite !slice_take. replace (Z.to_nat (Z.min (zlen (u :: a)) (zlen (v :: b))))
      with (S (Z.to_nat (Z.min (zlen a) (zlen b)))) by (simpl length; lia). done. }
  rewrite !Hs. simpl unit_bytes. cbn [memcmp app].
  assert (forall (l : list Z) x, (Z.min (zlen (u :: a)) (zlen (v :: b)) <? zlen (x :: l)) = (Z.min (zlen a) (zlen b) <? zlen l)) as Hl.
  { intros l x. apply eq_true_iff_eq. rewrite !Z.ltb_lt. simpl length. lia. }
  rewrite !Hl. destruct (u mod 256 =? v mod 256) eqn:E1.
  - destruct (u / 256 =? v / 256) eqn:E2; [done|]. zify_bool. rewrite (proj2 (Z.eqb_neq (u / 256 - v / 256) 0)) by lia. done.
  - zify_bool. rewrite (proj2 (Z.eqb_neq (u mod 256 - v mod 256) 0)) by lia. done.
Qed.

Lemma compare_lex a b : compareUTF16Buffer a b = lex (unit_bytes a) (unit_bytes b).
Proof.
  revert b. induction a as [|u a IH]; intros [|v b]; try done.
  rewrite compare_cons. simpl. repeat case_if; try done.
Qed.

Lemma lex_eq a b : lex a b = 0 <-> a = b.
Proof.
  revert b. induction a as [|x a IH]; intros [|y b]; simpl; try done.
  case_if; [subst; rewrite IH; split; congruence|]. split; [lia|congruence].
Qed.

Lemma lex_sym a b : lex a b < 0 <-> 0 < lex b a.
Proof.
  revert b. induction a as [|x a IH]; intros [|y b]; simpl; try lia.
  rewrite (Z.eqb_sym y x). case_if; [apply IH|lia].
Qed.

Lemma lex_trans a b c : lex a b < 0 -> lex b c < 0 -> lex a c < 0.
Proof.
  revert b c. induction a as [|x a IH]; intros [|y b] [|z c]; simpl; try lia.
  repeat case_if; try lia; eauto.
Qed.

Lemma unit_bytes_inj a b : unit_bytes a = unit_bytes b -> a = b.
Proof.
  revert b. induction a as [|u a IH]; intros [|v b]; try done. simpl. intros H.
  injection H as H1 H2 H3. f_equal; [|by apply IH]. lia.
Qed.

(** ** The theorems *)

(** C36: a character written by [convertToUTF8] is read back by [getuc], and
    exactly its bytes are consumed; the first characters of the longer forms
    (U+0080, U+0800, U+10000) are the only exceptions. *)
Theorem utf8_roundtrip s c r : codepoint c -> first_of_length c = false ->
  remaining s = convertToUTF8 c ++ r -> getuc s = Ok (advance s (convertToUTF8 c) r, c).
Proof. intros Hc Hf. rewrite convertToUTF8_utf8 by done. by apply getuc_utf8. Qed.

Lemma utf8_roundtrip_witness :
  getuc (newFileStream (convertToUTF8 0x20AC ++ [97])) =
    Ok (advance (newFileStream (convertToUTF8 0x20AC ++ [97])) (convertToUTF8 0x20AC) [97], 0x20AC).
Proof. apply utf8_roundtrip; [unfold codepoint; lia|reflexivity|reflexivity]. Defined.

(** The three exceptions are written with one byte too few, the result is
    not read back as the character, and U+10000 becomes U+0000 in a UTF-16
    buffer. *)
Theorem utf8_first_of_length c : first_of_length c = true ->
  zlen (convertToUTF8 c) = zlen (utf8 c) - 1 /\
  (exists s e, getuc (newFileStream (convertToUTF8 c)) = Ok (s, e) /\ e < 0) /\
  addUCS4ToUTF16Buffer 0x10000 = [0].
Proof.
  unfold first_of_length. intros H. repeat (apply orb_true_iff in H as [H|H]); apply Z.eqb_eq in H as ->;
    (split; [reflexivity|]; split; [|reflexivity]); eexists _, _; (split; [vm_compute; reflexivity|lia]).
Qed.

Lemma utf8_first_of_length_witness :
  zlen (convertToUTF8 0x80) = zlen (utf8 0x80) - 1 /\
  (exists s e, getuc (newFileStream (convertToUTF8 0x80)) = Ok (s, e) /\ e < 0) /\ addUCS4ToUTF16Buffer 0x10000 = [0].
Proof. apply utf8_first_of_length. reflexivity. Defined.

(** C37: on any bytes, decoding a file never fails with an assertion; at the
    end it returns [EOF], otherwise it consumes at least one byte and returns
    an error code or a code point, and a code point only for exactly its
    UTF-8 encoding. *)
Theorem getuc_decodes s : svtable s = fileVtable -> bytes_ok (remaining s) ->
  exists s' c l, getuc s = Ok (s', c) /\ remaining s = l ++ remaining s' /\
    (remaining s = [] -> c = EOF) /\
    (remaining s <> [] -> l <> [] /\
       (codepoint c /\ l = utf8 c \/ c = UEOVERLONG \/ c = UEINVALID \/ c = UETOOLARGE)).
Proof.
  intros Hf Hb. destruct (getuc_spec s Hf Hb) as (s' & c & l & H & Hr & _ & He & Hn). by exists s', c, l.
Qed.

Lemma getuc_decodes_witness :
  exists s' c l, getuc (newFileStream [0xE2; 0x82; 65]) = Ok (s', c) /\ [0xE2; 0x82; 65] = l ++ remaining s'.
Proof.
  destruct (getuc_decodes (newFileStream [0xE2; 0x82; 65])) as (s' & c & l & H & Hr & _ & _);
    [reflexivity|repeat constructor; lia|]. exists s', c, l. split; [exact H|exact Hr].
Defined.

(** C38: text without surrogates (and their look-alikes) and without the three
    exceptions survives: reading it cluster by cluster, with either table and
    any character properties, and writing the clusters gives the same bytes. *)
Theorem cluster_roundtrip gcb cs table : (forall c, 0 <= gcb c) ->
  table = clusterContinuationTable \/ table = backspaceContinuationTable ->
  Forall (fun c => plain c /\ first_of_length c = false) cs ->
  copy_clusters gcb (S (length cs)) table (newFileStream (encoded cs)) = Some (encoded cs).
Proof.
  intros Hg Ht Hcs. apply copy_clusters_spec; [done| |done|by split; [done|split; [done|left]]|lia].
  destruct cluster_tables_ok. by destruct Ht as [->| ->].
Qed.

Lemma cluster_roundtrip_witness :
  copy_clusters (fun c => if c =? 0x301 then 3 else 0) 4 clusterContinuationTable
    (newFileStream (encoded [0x65; 0x301; 0x1F600])) = Some (encoded [0x65; 0x301; 0x1F600]).
Proof.
  apply (cluster_roundtrip (fun c => if c =? 0x301 then 3 else 0) [0x65; 0x301; 0x1F600]).
  - intros c. destruct (c =? 0x301); lia.
  - left. reflexivity.
  - repeat constructor; try reflexivity; try (unfold codepoint; lia); vm_compute; discriminate.
Defined.

(** C39: the comparison that sorts and searches the lists of characters is a
    total order that is zero exactly for equal buffers. *)
Theorem compareUTF16Buffer_order a b c :
  (compareUTF16Buffer a b = 0 <-> a = b) /\
  (compareUTF16Buffer a b < 0 <-> 0 < compareUTF16Buffer b a) /\
  (compareUTF16Buffer a b < 0 -> compareUTF16Buffer b c < 0 -> compareUTF16Buffer a c < 0).
Proof.
  rewrite !compare_lex. split; [|split].
  - rewrite lex_eq. split; [apply unit_bytes_inj|congruence].
  - apply lex_sym.
  - apply lex_trans.
Qed.

(** A supplementary character whose low bits look like a low surrogate
    (U+1DC00, for instance) is delivered as the replacement character. *)
Theorem surrogate_lookalike s c r : codepoint c -> 0x10000 <= c -> Z.land c 0xDC00 = 0xDC00 -> (c / 2048) mod 32 = 27 ->
  nextChar s = -1 -> remaining s = utf8 c ++ r ->
  getucFiltered s = Ok (advance s (utf8 c) r, REPLACEMENT_CHARACTER).
Proof.
  intros Hc Hge Hlow Hm Hn Hr. unfold getucFiltered. rewrite Hn. simpl. rewrite (getuc_utf8 s c r Hc Hr). simpl.
  unfold codepoint in Hc. case_if; [lia|]. by rewrite surrogate_mask, Hm, Hlow.
Qed.

Lemma surrogate_lookalike_witness :
  getucFiltered (newFileStream (utf8 0x1DC00)) = Ok (advance (newFileStream (utf8 0x1DC00)) (utf8 0x1DC00) [], REPLACEMENT_CHARACTER).
Proof. apply surrogate_lookalike; try reflexivity; unfold codepoint; lia. Defined.
