(* ===== verification/Tokenizer.v ===== *)
(** * dwdiff.c: splitting the input into words and whitespace

    [readFile] separates a file into a file of tokens, a file of whitespace
    and a vector with the number of each token.  The characters and what is
    written for them depend on the dispatch table (dispatch.h), a class here:
    single bytes ([SC]) or grapheme clusters ([UTF8]).  [splitDiffInput] takes
    unified diffs apart. *)

From S2P Require Import Prelude EditScript HashTable HashProofs FileIO Streams Unicode.

Inductive MatchState := NONE | WHITESPACE | WORD.
Inductive category := CAT_OTHER | CAT_DELIMITER | CAT_WHITESPACE.

#[export] Instance MatchState_eq_dec : EqDecision MatchState.
Proof. solve_decision. Defined.
#[export] Instance category_eq_dec : EqDecision category.
Proof. solve_decision. Defined.

(** ** The dispatch table *)

(** What the tokenizer does with a character: the tests, and the bytes that
    [writeTokenChar] adds to the current word and to the token file and
    [writeWhitespaceChar] to the whitespace buffer. *)
Class Dispatch (Char : Type) := {
  isWhitespace : Char -> result bool;
  isDelimiter : Char -> result bool;
  word_bytes : Char -> result (list Z);
  token_bytes : Char -> result (list Z);
  whitespace_bytes : Char -> result (list Z)
}.

(** [TEST_BIT] on a bitmap of 32 bytes. *)
Definition TEST_BIT (x : list Z) (b : Z) : bool :=
  negb (Z.land (default 0 (zget x (Z.shiftr b 3))) (Z.shiftl 1 (Z.land b 7)) =? 0).
Definition SET_BIT (x : list Z) (b : Z) : list Z :=
  zset x (Z.shiftr b 3) (Z.lor (default 0 (zget x (Z.shiftr b 3))) (Z.shiftl 1 (Z.land b 7))).
Definition RESET_BIT (x : list Z) (b : Z) : list Z :=
  zset x (Z.shiftr b 3) (Z.land (default 0 (zget x (Z.shiftr b 3))) (255 - Z.shiftl 1 (Z.land b 7))).

(** Bytes 0 and 1 are escaped by a 1, since 0 ends a token and 1 escapes. *)
Definition escape (c : Z) : list Z := if (c =? 0) || (c =? 1) then [1; c] else [c].

Section SingleChar.
Context (whitespace delimiters : list Z) (ignoreCase : bool) (tolower : Z -> Z).

Definition isWhitespaceSC (c : Z) : bool := TEST_BIT whitespace c.
Definition isDelimiterSC (c : Z) : bool := TEST_BIT delimiters c.
Definition writeTokenCharSC (c : Z) : list Z * list Z :=
  ([(if ignoreCase then tolower c else c) mod 256], escape c).
Definition writeWhitespaceCharSC (c : Z) : list Z := escape c.

Definition SCDispatch : Dispatch Z := {|
  isWhitespace c := Ok (isWhitespaceSC c);
  isDelimiter c := Ok (isDelimiterSC c);
  word_bytes c := Ok (writeTokenCharSC c).1;
  token_bytes c := Ok (writeTokenCharSC c).2;
  whitespace_bytes c := Ok (writeWhitespaceCharSC c)
|}.
End SingleChar.

(** Space and newline. *)
Definition space_bitmap : list Z := SET_BIT (SET_BIT (replicate 32 0) 32) 10.

(** [bsearch] in the sorted list of an option: whether the buffer is in it. *)
Definition in_list (l : list (list Z)) (b : list Z) : bool :=
  existsb (fun x => compareUTF16Buffer b x =? 0) l.

Section UTF8Mode.
Context (whitespaceSet : bool) (whitespaceList delimiterList : list (list Z)).
Context (punctuationMask : bool) (isPunct isUWhiteSpace : Z -> bool).
Context (ignoreCase : bool) (normalize foldCase : list Z -> list Z).

Definition converted (original : list Z) : list Z := normalize original.

Definition isWhitespaceUTF8 (original : list Z) : result bool :=
  if whitespaceSet then Ok (in_list whitespaceList (converted original))
  else isUTF16 isUWhiteSpace (converted original).

Definition isDelimiterUTF8 (original : list Z) : result bool :=
  if in_list delimiterList (converted original) then Ok true
  else if punctuationMask then isUTF16 isPunct (converted original) else Ok false.

(** What is compared: the normalized cluster, case-folded if asked for. *)
Definition wordBufferUTF8 (original : list Z) : result (list Z) :=
  utf16_to_utf8 (if ignoreCase then foldCase (converted original) else converted original) 0.

(** What is written: the original cluster; 0 and 1 are always clusters of
    their own. *)
Definition writeClusterUTF8 (original : list Z) : result (list Z) :=
  match original with
  | u :: _ => if (u =? 0) || (u =? 1) then Ok [1; u] else utf16_to_utf8 original 0
  | [] => Ok []
  end.

Definition UTF8Dispatch : Dispatch (list Z) := {|
  isWhitespace := isWhitespaceUTF8;
  isDelimiter := isDelimiterUTF8;
  word_bytes := wordBufferUTF8;
  token_bytes := writeClusterUTF8;
  whitespace_bytes := writeClusterUTF8
|}.
End UTF8Mode.

(** ** readFile *)

Section Read.
Context {Char T : Type} `{Dispatch Char} `{WordTable T}.
Context (paraDelim : bool).

(** The input file's vectors and the static variables. *)
Record rstate := RState {
  rtokens : list Z;           (* the file of tokens *)
  rwhitespace : list Z;       (* the file of whitespace *)
  diffTokens : list Z;
  rtable : T;
  currentWord : list Z;
  whitespaceBuffer : list Z;
  tokenWritten : bool;
  rmatch : MatchState;
  wordCount : Z
}.

Definition writeEndOfToken (r : rstate) : result rstate :=
  let* (t, wordValue) := wt_get (rtable r) (currentWord r) in
  Ok (RState (rtokens r ++ [0]) (rwhitespace r) (diffTokens r ++ [wordValue]) t []
        (whitespaceBuffer r) true (rmatch r) (wordCount r)).

Definition writeTokenChar (r : rstate) (c : Char) : result rstate :=
  let* w := word_bytes c in
  let* t := token_bytes c in
  Ok (RState (rtokens r ++ t) (rwhitespace r) (diffTokens r) (rtable r) (currentWord r ++ w)
        (whitespaceBuffer r) (tokenWritten r) (rmatch r) (wordCount r)).

Definition writeWhitespaceChar (r : rstate) (c : Char) : result rstate :=
  let* w := whitespace_bytes c in
  Ok (RState (rtokens r) (rwhitespace r) (diffTokens r) (rtable r) (currentWord r)
        (whitespaceBuffer r ++ w) (tokenWritten r) (rmatch r) (wordCount r)).

(** A block of whitespace followed by [writeWhitespaceDelimiter]. *)
Definition put_whitespace (r : rstate) (w : list Z) : rstate :=
  RState (rtokens r) (rwhitespace r ++ w ++ [0]) (diffTokens r) (rtable r) (currentWord r)
    (whitespaceBuffer r) (tokenWritten r) (rmatch r) (wordCount r).

Definition clear_whitespace (r : rstate) : rstate :=
  RState (rtokens r) (rwhitespace r) (diffTokens r) (rtable r) (currentWord r)
    [] (tokenWritten r) (rmatch r) (wordCount r).

Definition set_match (r : rstate) (m : MatchState) : rstate :=
  RState (rtokens r) (rwhitespace r) (diffTokens r) (rtable r) (currentWord r)
    (whitespaceBuffer r) (tokenWritten r) m (wordCount r).

(** [wordCount] is an [int]. *)
Definition count_words (r : rstate) (n : Z) : rstate :=
  RState (rtokens r) (rwhitespace r) (diffTokens r) (rtable r) (currentWord r)
    (whitespaceBuffer r) (tokenWritten r) (rmatch r) (int32 (wordCount r + n)).

(** The scan for the first two newlines from position [i]: the first one, if
    any, and the position where the scan stops. *)
Fixpoint scan_newlines (l : list Z) (i : Z) (first : option Z) : option Z * Z :=
  match l with
  | [] => (first, i)
  | c :: l' =>
      if negb (c =? 10) then scan_newlines l' (i + 1) first
      else match first with
           | None => scan_newlines l' (i + 1) (Some i)
           | Some _ => (first, i)
           end
  end.

Definition handleWhitespaceEnd (r : rstate) : result rstate :=
  let buf := whitespaceBuffer r in
  let split_at (k : Z) :=
    let r := put_whitespace r (slice buf 0 k) in
    let r := put_whitespace r (slice buf k (zlen buf)) in
    let* r := writeEndOfToken r in
    Ok (clear_whitespace r) in
  let default_ := Ok (clear_whitespace (put_whitespace r buf)) in
  if paraDelim then
    let '(first, i) := scan_newlines buf 0 None in
    match first with
    | Some k =>
        if negb (tokenWritten r) then split_at k
        else if negb (i =? zlen buf) then split_at (k + 1)
        else default_
    | None => default_
    end
  else default_.

Definition classifyChar (c : Char) : result category :=
  let* d := isDelimiter c in
  if d : bool then Ok CAT_DELIMITER
  else let* w := isWhitespace c in Ok (if w : bool then CAT_WHITESPACE else CAT_OTHER).

(** One character of the input. *)
Definition read_char (r : rstate) (c : Char) : result rstate :=
  let* cat := classifyChar c in
  match rmatch r with
  | NONE =>
      match cat with
      | CAT_WHITESPACE => let* r := writeWhitespaceChar r c in Ok (set_match r WHITESPACE)
      | _ =>
          let* r := handleWhitespaceEnd r in
          let* r := writeTokenChar r c in
          match cat with
          | CAT_DELIMITER => let* r := writeEndOfToken r in Ok (set_match r WHITESPACE)
          | _ => Ok (set_match r WORD)
          end
      end
  | WORD =>
      match cat with
      | CAT_WHITESPACE =>
          let* r := writeEndOfToken (count_words r 1) in
          let* r := writeWhitespaceChar r c in Ok (set_match r WHITESPACE)
      | CAT_DELIMITER =>
          let* r := writeEndOfToken (count_words r 2) in
          let* r := writeTokenChar r c in
          let* r := writeEndOfToken r in
          let* r := handleWhitespaceEnd r in Ok (set_match r WHITESPACE)
      | CAT_OTHER => writeTokenChar r c
      end
  | WHITESPACE =>
      match cat with
      | CAT_WHITESPACE => writeWhitespaceChar r c
      | CAT_DELIMITER =>
          let* r := writeTokenChar (count_words r 1) c in
          let* r := writeEndOfToken r in
          handleWhitespaceEnd r
      | CAT_OTHER =>
          let* r := handleWhitespaceEnd r in
          let* r := writeTokenChar r c in Ok (set_match r WORD)
      end
  end.

Fixpoint read_chars (r : rstate) (cs : list Char) : result rstate :=
  match cs with
  | [] => Ok r
  | c :: cs' => let* r := read_char r c in read_chars r cs'
  end.

(** The whole file; [currentWord] and [whitespaceBuffer] are empty between
    files. *)
Definition readFile (t : T) (cs : list Char) : result rstate :=
  let* r := read_chars (RState [] [] [] t [] [] false NONE 0) cs in
  let* r := handleWhitespaceEnd r in
  if bool_decide (rmatch r = WORD) then writeEndOfToken (count_words r 1) else Ok r.
End Read.
Arguments rstate : clear implicits.

(** ** splitDiffInput *)

Inductive DiffInputMode := FIRST_HEADER | FIRST | OLD | NEW | COMMON | HEADER | LINE_COUNTS.

(** What is written: characters to the output, and the pair of files that is
    compared when a hunk ends. *)
Inductive diff_event :=
  | PutChar (c : Z)
  | Compare (old new : list Z).

Record dstate := DState {
  dmode : DiffInputMode;
  dold : list Z;
  dnew : list Z;
  devents : list diff_event
}.

Definition split_char (d : dstate) (c : Z) : dstate :=
  let next m := if c =? 10 then FIRST else m in
  match dmode d with
  | FIRST_HEADER =>
      DState (if negb (c =? 64) then HEADER else LINE_COUNTS) (dold d) (dnew d) (devents d ++ [PutChar c])
  | FIRST =>
      if c =? 43 then DState NEW (dold d) (dnew d ++ [32]) (devents d)
      else if c =? 45 then DState OLD (dold d ++ [32]) (dnew d) (devents d)
      else if c =? 32 then DState COMMON (dold d ++ [32]) (dnew d ++ [32]) (devents d)
      else
        DState (if c =? 64 then LINE_COUNTS else HEADER) [] []
          (devents d ++ [Compare (dold d) (dnew d); PutChar c])
  | OLD => DState (next OLD) (dold d ++ [c]) (dnew d) (devents d)
  | NEW => DState (next NEW) (dold d) (dnew d ++ [c]) (devents d)
  | COMMON => DState (next COMMON) (dold d ++ [c]) (dnew d ++ [c]) (devents d)
  | HEADER => DState (if c =? 10 then FIRST_HEADER else HEADER) (dold d) (dnew d) (devents d ++ [PutChar c])
  | LINE_COUNTS => DState (next LINE_COUNTS) (dold d) (dnew d) (devents d ++ [PutChar c])
  end.

Definition splitDiffInput (input : list Z) : list diff_event :=
  let d := foldl split_char (DState FIRST_HEADER [] [] []) input in
  devents d ++ [Compare (dold d) (dnew d)].

(** ** Statistics (main) *)

Record Statistics := MkStatistics {
  added : Z;
  deleted_ : Z;
  oldChanged : Z;
  newChanged : Z;
  oldTotal : Z;
  newTotal : Z
}.

(** A percentage, computed with [int]s. *)
Definition percentage (n total : Z) : Z := Z.quot (int32 (n * 100)) total.

(** The numbers of the line for the old file, [None] for 0 words: the total,
    and count and percentage of common, deleted and changed words. *)
Definition statistics_line (total gone changed : Z) : option (list Z) :=
  if total =? 0 then None
  else
    let common := int32 (total - gone - changed) in
    Some [total; common; percentage common total; gone; percentage gone total; changed; percentage changed total].

(** More than 21474836 common words: the multiplication by 100 overflows. *)
Example percentage_overflow : statistics_line 30000000 0 0 = Some [30000000; 30000000; -43; 0; 0; 0; 0].
Proof. vm_compute. reflexivity. Qed.

Definition old_statistics (s : Statistics) : option (list Z) :=
  statistics_line (oldTotal s) (deleted_ s) (oldChanged s).
Definition new_statistics (s : Statistics) : option (list Z) :=
  statistics_line (newTotal s) (added s) (newChanged s).
