(* ===== verification/SplitDiff.v ===== *)
(** * Unified diffs

    [splitDiffInput] goes through a unified diff character by character.  The
    specification builds the text of a diff from its parts: header lines, the
    line with the line counts, and lines that begin with a space, a minus or a
    plus.  On such a text the state machine copies the headers and the line
    counts and compares the two sides of every hunk. *)

From S2P Require Import Prelude EditScript Tokenizer.

Abbreviation newline := 10.
Abbreviation at_sign := 64.

(** ** The specification *)

Inductive side := OldSide | NewSide | BothSides.

Record body_line := BodyLine {
  bl_side : side;
  bl_text : list Z
}.

(** A hunk with the header lines before it. *)
Record section := Hunk {
  headers : list (list Z);
  counts : list Z;
  body : list body_line
}.

Definition side_char (s : side) : Z := match s with OldSide => 45 | NewSide => 43 | BothSides => 32 end.
Definition end_line (l : list Z) : list Z := l ++ [newline].
Definition line_text (b : body_line) : list Z := side_char (bl_side b) :: end_line (bl_text b).

(** What is copied: the headers, and "@" with the rest of its line. *)
Definition header_text (s : section) : list Z := concat (end_line <$> headers s) ++ at_sign :: end_line (counts s).
Definition section_text (s : section) : list Z := header_text s ++ concat (line_text <$> body s).
Definition diff_text (ss : list section) : list Z := concat (section_text <$> ss).

(** The lines of one side, each after a space. *)
Definition on_side (new : bool) (b : body_line) : bool :=
  match bl_side b with OldSide => negb new | NewSide => new | BothSides => true end.
Definition side_text (new : bool) (ls : list body_line) : list Z :=
  concat ((fun b => if on_side new b then 32 :: end_line (bl_text b) else []) <$> ls).

Definition section_events (s : section) : list diff_event :=
  (PutChar <$> header_text s) ++ [Compare (side_text false (body s)) (side_text true (body s))].

(** *** Which texts these are *)

Definition one_line (l : list Z) : Prop := newline ∉ l.

(** A header line is not empty and does not begin with "@". *)
Definition header_ok (l : list Z) : Prop := one_line l /\ exists c l', l = c :: l' /\ c <> at_sign.

(** What comes after a hunk does not look like one of its lines. *)
Definition ends_hunk (l : list Z) : Prop := forall c, head l = Some c -> c <> 43 /\ c <> 45 /\ c <> 32.

Record section_ok (s : section) : Prop := {
  so_headers : Forall header_ok (headers s);
  so_counts : one_line (counts s);
  so_body : Forall (fun b => one_line (bl_text b)) (body s)
}.

(** ** The machine on lines *)

Abbreviation run := (foldl split_char).

Lemma run_app d l1 l2 : run d (l1 ++ l2) = run (run d l1) l2.
Proof. apply foldl_app. Qed.

Lemma fmap_put c (l : list Z) : PutChar <$> (c :: l) = PutChar c :: (PutChar <$> l).
Proof. done. Qed.

(** To the end of a line that is copied. *)
Lemma run_copied m next l o n ev : one_line l ->
  (m, next) = (HEADER, FIRST_HEADER) \/ (m, next) = (LINE_COUNTS, FIRST) ->
  run (DState m o n ev) (end_line l) = DState next o n (ev ++ (PutChar <$> end_line l)).
Proof.
  intros Hl Hm. unfold end_line. revert ev. induction l as [|c l IH]; intros ev.
  - by destruct Hm as [[= -> ->]|[= -> ->]].
  - apply not_elem_of_cons in Hl as [Hc Hl]. cbn [app foldl]. rewrite fmap_cons.
    rewrite (cons_middle (PutChar c)), app_assoc, <- IH by done.
    f_equal. unfold split_char. cbn [dmode dold dnew devents]. destruct Hm as [[= -> ->]|[= -> ->]];
      by rewrite (proj2 (Z.eqb_neq c newline)) by congruence.
Qed.

(** To the end of a line of a hunk. *)
Definition side_mode (s : side) : DiffInputMode := match s with OldSide => OLD | NewSide => NEW | BothSides => COMMON end.
Definition add_to (s : side) (new : bool) (l : list Z) : list Z := if on_side new (BodyLine s []) then l else [].

Lemma run_side s l o n ev : one_line l ->
  run (DState (side_mode s) o n ev) (end_line l) = DState FIRST (o ++ add_to s false (end_line l)) (n ++ add_to s true (end_line l)) ev.
Proof.
  intros Hl. unfold end_line. revert o n. induction l as [|c l IH]; intros o n.
  - by destruct s; unfold add_to; simpl; rewrite ?app_nil_r.
  - apply not_elem_of_cons in Hl as [Hc Hl]. cbn [app foldl].
    assert (split_char (DState (side_mode s) o n ev) c = DState (side_mode s) (o ++ add_to s false [c]) (n ++ add_to s true [c]) ev) as ->.
    { unfold split_char. destruct s; cbn [dmode dold dnew devents side_mode]; rewrite (proj2 (Z.eqb_neq c newline)) by congruence;
        unfold add_to; simpl; by rewrite ?app_nil_r. }
    rewrite IH by done. rewrite <- !app_assoc. by destruct s.
Qed.

Lemma run_body ls o n ev : Forall (fun b => one_line (bl_text b)) ls ->
  run (DState FIRST o n ev) (concat (line_text <$> ls)) = DState FIRST (o ++ side_text false ls) (n ++ side_text true ls) ev.
Proof.
  intros Hls. revert o n. induction Hls as [|[s t] ls Ht _ IH]; intros o n; [by rewrite !app_nil_r|].
  rewrite fmap_cons. cbn [concat]. rewrite run_app. unfold line_text at 1. cbn [bl_side bl_text foldl].
  assert (split_char (DState FIRST o n ev) (side_char s) = DState (side_mode s) (o ++ add_to s false [32]) (n ++ add_to s true [32]) ev) as ->.
  { destruct s; unfold add_to; simpl; by rewrite ?app_nil_r. }
  rewrite run_side, IH by done. unfold side_text. rewrite !fmap_cons. cbn [concat]. rewrite <- !app_assoc. by destruct s.
Qed.

(** Header lines, where the first character of the diff, or of a line after a
    header, is expected. *)
Lemma run_headers ls o n ev : Forall header_ok ls ->
  run (DState FIRST_HEADER o n ev) (concat (end_line <$> ls)) = DState FIRST_HEADER o n (ev ++ (PutChar <$> concat (end_line <$> ls))).
Proof.
  intros Hls. revert ev. induction Hls as [|l ls (Hl & c & l' & -> & Hc) _ IH]; intros ev; [by rewrite app_nil_r|].
  rewrite fmap_cons. cbn [concat]. rewrite run_app, fmap_app, app_assoc, <- IH. f_equal.
  unfold end_line. cbn [app foldl]. unfold split_char at 2. cbn [dmode dold dnew devents].
  rewrite (proj2 (Z.eqb_neq c at_sign)) by done. cbn [negb].
  apply not_elem_of_cons in Hl as [_ Hl]. rewrite (run_copied HEADER FIRST_HEADER l') by auto. by rewrite <- app_assoc.
Qed.

Lemma run_counts l o n ev : one_line l ->
  run (DState FIRST_HEADER o n ev) (at_sign :: end_line l) = DState FIRST o n (ev ++ (PutChar <$> at_sign :: end_line l)).
Proof.
  intros Hl. cbn [foldl]. change (split_char (DState FIRST_HEADER o n ev) at_sign) with (DState LINE_COUNTS o n (ev ++ [PutChar at_sign])).
  rewrite (run_copied LINE_COUNTS FIRST) by auto. by rewrite <- app_assoc.
Qed.

Lemma run_header_text s o n ev : section_ok s ->
  run (DState FIRST_HEADER o n ev) (header_text s) = DState FIRST o n (ev ++ (PutChar <$> header_text s)).
Proof.
  intros [H1 H2 _]. unfold header_text. by rewrite run_app, run_headers, run_counts, fmap_app, <- app_assoc.
Qed.

(** After a hunk the first character of a header ends it: it is compared. *)
Lemma run_next s o n ev : section_ok s -> ends_hunk (header_text s) ->
  run (DState FIRST o n ev) (header_text s) = DState FIRST [] [] (ev ++ Compare o n :: (PutChar <$> header_text s)).
Proof.
  intros Hs He. rewrite (cons_middle (Compare o n)), app_assoc, <- (run_header_text s [] []) by done.
  assert (exists c l, header_text s = c :: l) as (c & l & E).
  { unfold header_text. destruct (headers s) as [|h hs] eqn:Eh; [by eexists _, _|]. destruct Hs as [Hh _ _]. rewrite Eh in Hh.
    apply Forall_cons in Hh as [(_ & c & l' & -> & _) _]. by eexists c, _. }
  rewrite E in He |- *. destruct (He c eq_refl) as (H1 & H2 & H3). cbn [foldl]. f_equal. unfold split_char. cbn [dmode dold dnew devents].
  rewrite (proj2 (Z.eqb_neq c 43)), (proj2 (Z.eqb_neq c 45)), (proj2 (Z.eqb_neq c 32)) by done. rewrite <- app_assoc.
  by destruct (c =? at_sign).
Qed.

Lemma run_sections ss o n ev : Forall (fun s => section_ok s /\ ends_hunk (header_text s)) ss ->
  let d := run (DState FIRST o n ev) (diff_text ss) in
  devents d ++ [Compare (dold d) (dnew d)] = ev ++ Compare o n :: flat_map section_events ss.
Proof.
  intros Hss. revert o n ev. induction Hss as [|s ss [Hs He] _ IH]; intros o n ev; [done|].
  cbv zeta. unfold diff_text. rewrite fmap_cons. cbn [concat flat_map]. fold (diff_text ss). rewrite run_app.
  assert (run (DState FIRST o n ev) (section_text s) =
    DState FIRST (side_text false (body s)) (side_text true (body s)) (ev ++ Compare o n :: (PutChar <$> header_text s))) as ->.
  { unfold section_text. rewrite run_app, run_next by done. destruct Hs as [_ _ Hb]. by rewrite run_body. }
  cbv zeta in IH. rewrite IH. unfold section_events. by rewrite <- !app_assoc.
Qed.

(** C11: the text of a unified diff, with any number of files and hunks, is taken
    apart exactly: headers and line counts are copied, and for every hunk the
    old lines are compared with the new lines, each with a space in place of
    its first character. *)
Theorem splitDiffInput_unified s ss : section_ok s -> Forall (fun s => section_ok s /\ ends_hunk (header_text s)) ss ->
  splitDiffInput (diff_text (s :: ss)) = flat_map section_events (s :: ss).
Proof.
  intros Hs Hss. unfold splitDiffInput, diff_text. rewrite fmap_cons. cbn [concat flat_map]. fold (diff_text ss). rewrite run_app.
  assert (run (DState FIRST_HEADER [] [] []) (section_text s) =
    DState FIRST (side_text false (body s)) (side_text true (body s)) (PutChar <$> header_text s)) as ->.
  { unfold section_text. rewrite run_app, run_header_text by done. destruct Hs as [_ _ Hb]. by rewrite run_body. }
  cbv zeta. rewrite (run_sections ss _ _ _ Hss). unfold section_events. by rewrite <- app_assoc.
Qed.

(** ** Examples *)

(** A hunk of two files "a" and "b", and one more hunk of the same files. *)
Definition first_hunk : section :=
  Hunk [[45; 45; 45; 32; 97]; [43; 43; 43; 32; 98]] [64; 32] [BodyLine BothSides [120]; BodyLine OldSide [121]; BodyLine NewSide [122]].
Definition second_hunk : section := Hunk [] [64] [BodyLine OldSide []].

Lemma splitDiffInput_unified_witness :
  splitDiffInput (diff_text [first_hunk; second_hunk]) = flat_map section_events [first_hunk; second_hunk].
Proof.
  apply splitDiffInput_unified.
  - split; [|by apply (bool_decide_unpack _)|repeat constructor; by apply (bool_decide_unpack _)].
    repeat constructor; try (by apply (bool_decide_unpack _)); by eexists _, _.
  - repeat constructor; try (by apply (bool_decide_unpack _)); simpl in *; congruence.
Defined.

Example first_hunk_compared : section_events first_hunk =
  (PutChar <$> [45; 45; 45; 32; 97; 10; 43; 43; 43; 32; 98; 10; 64; 64; 32; 10]) ++ [Compare [32; 120; 10; 32; 121; 10] [32; 120; 10; 32; 122; 10]].
Proof. reflexivity. Qed.

(** The marker for a missing newline ends the hunk: the added line after it is
    copied like a header, and is compared with nothing. *)
Definition no_newline_marker : list Z := [64; 10; 45; 97; 10; 92; 32; 78; 10; 43; 98; 10].
Example no_newline_hunk : splitDiffInput no_newline_marker =
  [PutChar 64; PutChar 10; Compare [32; 97; 10] [];
   PutChar 92; PutChar 32; PutChar 78; PutChar 10; PutChar 43; PutChar 98; PutChar 10; Compare [] []].
Proof. reflexivity. Qed.

(** An empty header line makes the line after it a header: its hunk is copied
    and not compared. *)
Example empty_header_line : splitDiffInput [10; 64; 10; 45; 97; 10] =
  [PutChar 10; PutChar 64; PutChar 10; PutChar 45; PutChar 97; PutChar 10; Compare [] []].
Proof. reflexivity. Qed.

(** The line counts are not looked at: the header "--- a" of the next file is
    taken for a deleted line. *)
Example header_after_hunk : splitDiffInput [64; 10; 32; 120; 10; 45; 45; 45; 32; 97; 10; 43; 43; 43; 32; 98; 10] =
  [PutChar 64; PutChar 10; Compare [32; 120; 10; 32; 45; 45; 32; 97; 10] [32; 120; 10; 32; 43; 43; 32; 98; 10]].
Proof. reflexivity. Qed.
