(* ===== verification/Pieces.v ===== *)
(** * Pieces of a text

    The tokenizer cuts a text into pieces, a run of whitespace and a token
    each, and a final run of whitespace; there is only one way to do so.  With
    the paragraph option, an empty token is put into whitespace with an empty
    line: [paragraphs] says where. *)

From S2P Require Import Prelude EditScript Tokenizer.

Section Pieces.
Context {Char : Type} (isW isD : Char -> bool).

Definition kind (c : Char) : category :=
  if isD c then CAT_DELIMITER else if isW c then CAT_WHITESPACE else CAT_OTHER.

(** ** Pieces *)

(** A run of whitespace and the token after it. *)
Record piece := Piece {
  pws : list Char;
  ptok : list Char
}.

Definition white (l : list Char) : Prop := Forall (fun c => kind c = CAT_WHITESPACE) l.

(** A word is a non-empty run of other characters. *)
Definition is_word (l : list Char) : bool :=
  negb (bool_decide (length l = 0%nat)) && forallb (fun c => bool_decide (kind c = CAT_OTHER)) l.

(** A token is a delimiter or a word. *)
Definition token (l : list Char) : Prop :=
  (exists c, l = [c] /\ kind c = CAT_DELIMITER) \/ is_word l = true.

(** There is whitespace between two words. *)
Fixpoint pieces_ok (after_word : bool) (ps : list piece) : Prop :=
  match ps with
  | [] => True
  | p :: ps' =>
      white (pws p) /\ token (ptok p) /\ (after_word && is_word (ptok p) = true -> pws p <> []) /\
      pieces_ok (is_word (ptok p)) ps'
  end.

Definition piece_text (p : piece) : list Char := pws p ++ ptok p.
Definition text (ps : list piece) : list Char := concat (piece_text <$> ps).

Lemma text_snoc ps w t : text (ps ++ [Piece w t]) = text ps ++ w ++ t.
Proof. unfold text. rewrite fmap_app, concat_app. simpl. by rewrite app_nil_r. Qed.

(** Whether the last token is a word: then a word needs whitespace before it. *)
Definition ends_in_word (ps : list piece) : bool :=
  match last ps with
  | Some p => is_word (ptok p)
  | None => false
  end.

Lemma pieces_snoc b ps p : pieces_ok b ps -> white (pws p) -> token (ptok p) ->
  ((if bool_decide (length ps = 0%nat) then b else ends_in_word ps) && is_word (ptok p) = true -> pws p <> []) ->
  pieces_ok b (ps ++ [p]).
Proof.
  revert b. induction ps as [|q ps IH]; intros b Hok Hw Ht Hsep; [done|].
  destruct Hok as (Hqw & Hqt & Hqs & Hok). simpl. split; [done|]. split; [done|]. split; [done|].
  apply IH; try done. intros Hb. apply Hsep. simpl. rewrite <- Hb. f_equal.
  destruct ps as [|q' ps]; [done|]. simpl. unfold ends_in_word. by rewrite last_cons_cons.
Qed.

Lemma word_snoc t c : kind c = CAT_OTHER -> t = [] \/ is_word t = true -> is_word (t ++ [c]) = true.
Proof.
  intros Hc Ht. unfold is_word. apply andb_true_iff. split.
  - apply negb_true_iff, bool_decide_eq_false_2. rewrite length_app. simpl. lia.
  - rewrite forallb_app. simpl. rewrite bool_decide_eq_true_2 by done. rewrite andb_true_r.
    destruct Ht as [->|Ht]; [done|]. by apply andb_true_iff in Ht as [_ ?].
Qed.

Lemma delim_not_word c : kind c = CAT_DELIMITER -> is_word [c] = false.
Proof. intros Hc. unfold is_word. simpl. rewrite bool_decide_eq_false_2; [done|congruence]. Qed.

(** A delimiter at the start of the input is not counted. *)
Definition uncounted (cs : list Char) : Z :=
  match cs with
  | c :: _ => if bool_decide (kind c = CAT_DELIMITER) then 1 else 0
  | [] => 0
  end.

Lemma uncounted_snoc cs c : cs <> [] -> uncounted (cs ++ [c]) = uncounted cs.
Proof. by destruct cs. Qed.

Lemma pieces_count b ps : pieces_ok b ps -> zlen ps <= zlen (text ps).
Proof.
  revert b. induction ps as [|p ps IH]; intros b; [done|]. intros (_ & Ht & _ & Hok). apply IH in Hok.
  change (text (p :: ps)) with (piece_text p ++ text ps). unfold piece_text. rewrite !length_app. simpl.
  assert (1 <= length (ptok p))%nat; [|lia].
  destruct Ht as [(c & -> & _)|Hw]; [simpl; lia|]. destruct (ptok p); [done|simpl; lia].
Qed.

Lemma ends_snoc ps p : ends_in_word (ps ++ [p]) = is_word (ptok p).
Proof. unfold ends_in_word. by rewrite last_snoc. Qed.

(** ** There is only one way to cut a text *)

(** The pieces [ps] and the final whitespace [w] of the text [cs]. *)
Definition cuts (cs : list Char) (ps : list piece) (w : list Char) : Prop :=
  cs = text ps ++ w /\ pieces_ok false ps /\ white w.

(** A run of characters of one kind, up to a character of another kind. *)
Definition stops (k : category) (l : list Char) : Prop :=
  match l with [] => True | c :: _ => kind c <> k end.

Lemma run_unique k (l1 l2 r1 r2 : list Char) : Forall (fun c => kind c = k) l1 -> Forall (fun c => kind c = k) l2 ->
  stops k r1 -> stops k r2 -> l1 ++ r1 = l2 ++ r2 -> l1 = l2 /\ r1 = r2.
Proof.
  revert l2. induction l1 as [|c l1 IH]; intros [|d l2] H1 H2 S1 S2 E; simpl in E.
  - done.
  - subst r1. apply Forall_cons in H2 as [H2 _]. by destruct S1.
  - subst r2. apply Forall_cons in H1 as [H1 _]. by destruct S2.
  - injection E as -> E. apply Forall_cons in H1 as [_ H1]. apply Forall_cons in H2 as [_ H2].
    by destruct (IH l2 H1 H2 S1 S2 E) as [-> ->].
Qed.

Lemma is_word_run t : is_word t = true -> t <> [] /\ Forall (fun c => kind c = CAT_OTHER) t.
Proof.
  unfold is_word. intros [H1 H2]%andb_true_iff. apply negb_true_iff in H1. apply bool_decide_eq_false in H1.
  split; [by destruct t|]. apply Forall_forall. intros c Hc. rewrite forallb_forall in H2.
  eapply bool_decide_eq_true_1. apply H2. by apply list_elem_of_In.
Qed.

Lemma token_stops t r : token t -> stops CAT_WHITESPACE (t ++ r).
Proof.
  intros [(c & -> & Hc)|Hw]; simpl; [by rewrite Hc|]. destruct (is_word_run _ Hw) as [Hne Ha].
  destruct t as [|c t]; [done|]. apply Forall_cons in Ha as [Hc _]. simpl. by rewrite Hc.
Qed.

(** After a word there is no further word character. *)
Lemma after_word_stops ps w : pieces_ok true ps -> white w -> stops CAT_OTHER (text ps ++ w).
Proof.
  intros Hps Hw. destruct ps as [|p ps].
  - destruct w as [|c w]; [done|]. apply Forall_cons in Hw as [Hc _]. simpl. by rewrite Hc.
  - destruct Hps as (H1 & H2 & H3 & _). change (text (p :: ps)) with ((pws p ++ ptok p) ++ text ps).
    rewrite <- !app_assoc. destruct (pws p) as [|c l].
    + destruct H2 as [(c & Hc1 & Hc2)|Hwd]; [rewrite Hc1; simpl; by rewrite Hc2|]. by destruct (H3 Hwd).
    + apply Forall_cons in H1 as [Hc _]. simpl. by rewrite Hc.
Qed.

Lemma token_unique t1 t2 ps1 ps2 w1 w2 : token t1 -> token t2 -> pieces_ok (is_word t1) ps1 -> pieces_ok (is_word t2) ps2 ->
  white w1 -> white w2 -> t1 ++ text ps1 ++ w1 = t2 ++ text ps2 ++ w2 -> t1 = t2 /\ text ps1 ++ w1 = text ps2 ++ w2.
Proof.
  intros [(c1 & -> & Hc1)|Hw1] [(c2 & -> & Hc2)|Hw2] P1 P2 W1 W2 E.
  - by injection E as -> E.
  - destruct (is_word_run _ Hw2) as [Hne Ha]. destruct t2 as [|d t2]; [done|]. injection E as -> _.
    apply Forall_cons in Ha as [Hd _]. congruence.
  - destruct (is_word_run _ Hw1) as [Hne Ha]. destruct t1 as [|d t1]; [done|]. injection E as -> _.
    apply Forall_cons in Ha as [Hd _]. congruence.
  - rewrite Hw1 in P1. rewrite Hw2 in P2. destruct (is_word_run _ Hw1) as [_ A1]. destruct (is_word_run _ Hw2) as [_ A2].
    by apply (run_unique CAT_OTHER); try done; apply after_word_stops.
Qed.

Lemma cuts_unique_from b1 b2 ps1 ps2 w1 w2 : pieces_ok b1 ps1 -> pieces_ok b2 ps2 -> white w1 -> white w2 ->
  text ps1 ++ w1 = text ps2 ++ w2 -> ps1 = ps2 /\ w1 = w2.
Proof.
  revert b1 b2 ps2. induction ps1 as [|p ps1 IH]; intros b1 b2 [|q ps2] P1 P2 W1 W2 E.
  - done.
  - exfalso. destruct P2 as (H1 & H2 & _). change (text (q :: ps2)) with ((pws q ++ ptok q) ++ text ps2) in E.
    simpl in E. rewrite <- !app_assoc in E. subst w1. apply Forall_app in W1 as [_ W1].
    pose proof (token_stops _ (text ps2 ++ w2) H2) as Hs. destruct (ptok q ++ text ps2 ++ w2) as [|c l] eqn:El.
    + apply app_eq_nil in El as [El _]. destruct H2 as [(c & Hc & _)|Hw]; [congruence|]. by apply is_word_run in Hw as [? _].
    + apply Forall_cons in W1 as [W1 _]. by simpl in Hs.
  - exfalso. destruct P1 as (H1 & H2 & _). change (text (p :: ps1)) with ((pws p ++ ptok p) ++ text ps1) in E.
    simpl in E. rewrite <- !app_assoc in E. subst w2. apply Forall_app in W2 as [_ W2].
    pose proof (token_stops _ (text ps1 ++ w1) H2) as Hs. destruct (ptok p ++ text ps1 ++ w1) as [|c l] eqn:El.
    + apply app_eq_nil in El as [El _]. destruct H2 as [(c & Hc & _)|Hw]; [congruence|]. by apply is_word_run in Hw as [? _].
    + apply Forall_cons in W2 as [W2 _]. by simpl in Hs.
  - destruct P1 as (H1 & H2 & _ & P1), P2 as (G1 & G2 & _ & P2).
    change (text (p :: ps1)) with ((pws p ++ ptok p) ++ text ps1) in E.
    change (text (q :: ps2)) with ((pws q ++ ptok q) ++ text ps2) in E. rewrite <- !app_assoc in E.
    destruct (run_unique CAT_WHITESPACE _ _ _ _ H1 G1 (token_stops _ _ H2) (token_stops _ _ G2) E) as [Ew Et].
    destruct (token_unique _ _ _ _ _ _ H2 G2 P1 P2 W1 W2 Et) as [Etok Erest].
    destruct (IH _ _ _ P1 P2 W1 W2 Erest) as [-> ->]. split; [|done]. f_equal. destruct p, q. simpl in *. by subst.
Qed.

Lemma cuts_unique cs ps1 ps2 w1 w2 : cuts cs ps1 w1 -> cuts cs ps2 w2 -> ps1 = ps2 /\ w1 = w2.
Proof. intros (-> & P1 & W1) (E & P2 & W2). by apply (cuts_unique_from false false). Qed.
Lemma white_nil : white [].
Proof. constructor. Qed.

End Pieces.
#[export] Hint Resolve white_nil : core.

(** ** Paragraphs *)

Section Paragraphs.
Context {Char : Type} (isW isD isNL : Char -> bool) (para : bool).
Abbreviation piece := (@piece Char).
Abbreviation is_word := (is_word isW isD).
Abbreviation token := (token isW isD).
Abbreviation pieces_ok := (pieces_ok isW isD).

(** Whitespace cut in front of its first newline. *)
Fixpoint first_newline (w : list Char) : option (list Char * Char * list Char) :=
  match w with
  | [] => None
  | c :: w' =>
      if isNL c then Some ([], c, w')
      else match first_newline w' with
           | Some (a, n, b) => Some (c :: a, n, b)
           | None => None
           end
  end.

(** Where a paragraph ends: at the first newline of the file, if no token
    comes before it ([first]), or behind the first of two newlines. *)
Definition para_split (first : bool) (w : list Char) : option (list Char * list Char) :=
  if para then
    match first_newline w with
    | Some (a, n, b) =>
        if first : bool then Some (a, n :: b)
        else if existsb isNL b then Some (a ++ [n], b) else None
    | None => None
    end
  else None.

(** The pieces that the end of a run of whitespace makes, and the whitespace
    that is left. *)
Definition para_end (first : bool) (w : list Char) : list piece * list Char :=
  match para_split first w with
  | Some (w1, w2) => ([Piece w1 []], w2)
  | None => ([], w)
  end.

(** The paragraph before a delimiter is only noticed behind it. *)
Definition para_piece (first : bool) (p : piece) : list piece :=
  if is_word (ptok p) then
    let '(e, w) := para_end first (pws p) in e ++ [Piece w (ptok p)]
  else
    match para_split false (pws p) with
    | Some (w1, w2) => [Piece w1 (ptok p); Piece w2 []]
    | None => [p]
    end.

Fixpoint para_pieces (first : bool) (ps : list piece) : list piece :=
  match ps with
  | [] => []
  | p :: ps' => para_piece first p ++ para_pieces false ps'
  end.

Definition no_pieces (ps : list piece) : bool := bool_decide (length ps = 0%nat).

(** The pieces and the final whitespace as they are written. *)
Definition paragraphs (ps : list piece) (w : list Char) : list piece * list Char :=
  let '(e, w') := para_end (no_pieces ps) w in (para_pieces true ps ++ e, w').

Abbreviation out ps := (para_pieces true ps).

Lemma para_pieces_snoc b ps p : para_pieces b (ps ++ [p]) = para_pieces b ps ++ para_piece (if no_pieces ps then b else false) p.
Proof.
  revert b. induction ps as [|q ps IH]; intros b; [simpl; by rewrite app_nil_r|].
  cbn [app para_pieces]. rewrite IH, app_assoc. f_equal. unfold no_pieces.
  by destruct ps.
Qed.

Lemma out_snoc ps p : out (ps ++ [p]) = out ps ++ para_piece (no_pieces ps) p.
Proof. rewrite para_pieces_snoc. by destruct (no_pieces ps). Qed.

Lemma first_newline_spec w a n b : first_newline w = Some (a, n, b) -> w = a ++ n :: b /\ isNL n = true /\ Forall (fun c => isNL c = false) a.
Proof.
  revert a. induction w as [|c w IH]; intros a; simpl; [done|]. destruct (isNL c) eqn:Ec.
  - intros [= <- <- <-]. by repeat split.
  - destruct (first_newline w) as [[[a' n'] b']|]; [|done]. intros [= <- <- <-].
    destruct (IH a' eq_refl) as (-> & Hn & Ha). by repeat split; [|constructor].
Qed.

Lemma first_newline_None w : first_newline w = None -> Forall (fun c => isNL c = false) w.
Proof.
  induction w as [|c w IH]; simpl; [constructor|]. destruct (isNL c) eqn:Ec; [done|].
  destruct (first_newline w) as [[[a n] b]|]; [done|]. intros _. by constructor; [|apply IH].
Qed.

Lemma para_split_spec first w w1 w2 : para_split first w = Some (w1, w2) -> w = w1 ++ w2 /\ para = true /\ w <> [].
Proof.
  unfold para_split. destruct para; [|done]. destruct (first_newline w) as [[[a n] b]|] eqn:E; [|done].
  apply first_newline_spec in E as (-> & _ & _). destruct first.
  - intros [= <- <-]. split; [done|]. split; [done|]. by destruct a.
  - destruct (existsb isNL b); [|done]. intros [= <- <-]. rewrite <- app_assoc. split; [done|]. split; [done|]. by destruct a.
Qed.

Lemma para_end_nil first : para_end first [] = ([], []).
Proof. unfold para_end, para_split. by destruct para. Qed.

Lemma para_split_nil first : para_split first [] = None.
Proof. unfold para_split. by destruct para. Qed.

(** No more pieces are made than there are characters. *)
Lemma para_piece_count first p : ptok p <> [] -> zlen (para_piece first p) <= zlen (piece_text p).
Proof.
  intros Ht. unfold piece_text. rewrite length_app. assert (1 <= length (ptok p))%nat by (destruct (ptok p); [done|simpl; lia]).
  unfold para_piece, para_end. destruct (is_word (ptok p)).
  - destruct (para_split first (pws p)) as [[w1 w2]|] eqn:E; simpl; [|lia]. apply para_split_spec in E as (_ & _ & Hw).
    destruct (pws p); [done|simpl; lia].
  - destruct (para_split false (pws p)) as [[w1 w2]|] eqn:E; simpl; [|lia]. apply para_split_spec in E as (_ & _ & Hw).
    destruct (pws p); [done|simpl; lia].
Qed.

Lemma token_nonempty l : token l -> l <> [].
Proof. intros [(c & -> & _)|Hw]; [done|]. by destruct l. Qed.

Lemma out_count b first ps : pieces_ok b ps -> zlen (para_pieces first ps) <= zlen (text ps).
Proof.
  revert b first. induction ps as [|p ps IH]; intros b first; [done|]. intros (_ & Ht & _ & Hok).
  specialize (IH _ false Hok). pose proof (para_piece_count first p (token_nonempty _ Ht)) as Hp.
  change (text (p :: ps)) with (piece_text p ++ text ps). cbn [para_pieces]. rewrite !length_app. lia.
Qed.

Lemma snoc_pieces (o : list piece) (p : piece) : no_pieces (o ++ [p]) = false.
Proof. apply bool_decide_eq_false_2. rewrite length_app. simpl. lia. Qed.

Lemma no_pieces_out ps : no_pieces (out ps) = no_pieces ps.
Proof.
  destruct ps as [|p ps]; [done|]. apply bool_decide_ext. cbn [para_pieces]. rewrite length_app.
  assert (length (para_piece true p) <> 0%nat); [|simpl; lia].
  unfold para_piece. destruct (is_word (ptok p)).
  - destruct (para_end true (pws p)). rewrite length_app. simpl. lia.
  - by destruct (para_split false (pws p)) as [[w1 w2]|].
Qed.

(** Also when the whitespace behind the last token is taken apart. *)
Lemma end_count b first f ps w : pieces_ok b ps ->
  zlen (para_pieces first ps ++ (para_end f w).1) <= zlen (text ps) + zlen w.
Proof.
  intros Hok. pose proof (out_count b first ps Hok) as Ho. rewrite length_app.
  unfold para_end. destruct (para_split f w) as [[w1 w2]|] eqn:E; simpl; [|lia].
  apply para_split_spec in E as (_ & _ & Hw). destruct w; [done|simpl; lia].
Qed.

(** Paragraphs neither move nor lose text. *)
Lemma para_end_text first w : text (para_end first w).1 ++ (para_end first w).2 = w.
Proof.
  unfold para_end. destruct (para_split first w) as [[w1 w2]|] eqn:E; [|done].
  apply para_split_spec in E as (-> & _ & _). unfold text, piece_text. simpl. by rewrite !app_nil_r.
Qed.

Lemma text_app (ps qs : list piece) : text (ps ++ qs) = text ps ++ text qs.
Proof. unfold text. by rewrite fmap_app, concat_app. Qed.

Lemma para_pieces_text first ps : Forall (fun p => is_word (ptok p) = true) ps -> text (para_pieces first ps) = text ps.
Proof.
  revert first. induction ps as [|p ps IH]; intros first Hw; [done|]. apply Forall_cons in Hw as [Hp Hw].
  cbn [para_pieces]. rewrite text_app, IH by done. change (text (p :: ps)) with (piece_text p ++ text ps). f_equal.
  unfold para_piece. rewrite Hp. pose proof (para_end_text first (pws p)) as He.
  destruct (para_end first (pws p)) as [e w]. cbn [fst snd] in He. rewrite text_snoc, app_assoc, He. done.
Qed.

(** Behind a delimiter, text is moved, but nothing is lost. *)
Lemma para_pieces_perm first ps : text (para_pieces first ps) ≡ₚ text ps.
Proof.
  revert first. induction ps as [|p ps IH]; intros first; [done|].
  cbn [para_pieces]. rewrite text_app, IH. change (text (p :: ps)) with (piece_text p ++ text ps). f_equiv.
  unfold para_piece. destruct (is_word (ptok p)).
  - pose proof (para_end_text first (pws p)) as He.
    destruct (para_end first (pws p)) as [e w]. cbn [fst snd] in He. rewrite text_snoc, app_assoc, He. done.
  - destruct (para_split false (pws p)) as [[w1 w2]|] eqn:E; [|unfold text; simpl; by rewrite app_nil_r].
    apply para_split_spec in E as (E & _ & _). unfold piece_text. rewrite E. unfold text, piece_text. simpl.
    rewrite !app_nil_r, <- !app_assoc. f_equiv. apply Permutation_app_comm.
Qed.

Lemma paragraphs_perm ps w : text (paragraphs ps w).1 ++ (paragraphs ps w).2 ≡ₚ text ps ++ w.
Proof.
  unfold paragraphs. pose proof (para_end_text (no_pieces ps) w) as He.
  destruct (para_end (no_pieces ps) w) as [e w']. cbn [fst snd] in *. by rewrite text_app, para_pieces_perm, <- app_assoc, He.
Qed.

(** What holds of the characters of the whitespace and of the tokens. *)
Definition all_chars (P Q : Char -> Prop) (ps : list piece) : Prop := Forall (fun p => Forall P (pws p) /\ Forall Q (ptok p)) ps.

Lemma para_end_all P Q first w : Forall P w -> all_chars P Q (para_end first w).1 /\ Forall P (para_end first w).2.
Proof.
  intros Hw. unfold para_end. destruct (para_split first w) as [[w1 w2]|] eqn:E; [|by split; [constructor|]].
  apply para_split_spec in E as (-> & _ & _). apply Forall_app in Hw as [? ?]. split; [|done]. by repeat constructor.
Qed.

Lemma para_pieces_all P Q first ps : all_chars P Q ps -> all_chars P Q (para_pieces first ps).
Proof.
  revert first. induction ps as [|p ps IH]; intros first; [constructor|]. intros [[Hw Ht] Hps]%Forall_cons.
  cbn [para_pieces]. apply Forall_app. split; [|by apply IH]. unfold para_piece. destruct (is_word (ptok p)).
  - destruct (para_end_all P Q first (pws p) Hw) as [He Hw']. destruct (para_end first (pws p)) as [e w]. cbn [fst snd] in *.
    apply Forall_app. split; [done|]. by repeat constructor.
  - destruct (para_split false (pws p)) as [[w1 w2]|] eqn:E; [|by repeat constructor].
    apply para_split_spec in E as (E & _ & _). rewrite E in Hw. apply Forall_app in Hw as [? ?]. by repeat constructor.
Qed.

Lemma paragraphs_all P Q ps w : all_chars P Q ps -> Forall P w ->
  all_chars P Q (paragraphs ps w).1 /\ Forall P (paragraphs ps w).2.
Proof.
  intros Hps Hw. unfold paragraphs. destruct (para_end_all P Q (no_pieces ps) w Hw) as [He Hw'].
  destruct (para_end (no_pieces ps) w) as [e w']. split; [|done]. apply Forall_app. split; [by apply para_pieces_all|done].
Qed.

Lemma white_all (P : Char -> Prop) w : white isW isD w -> Forall P w -> Forall (fun c => P c /\ isW c = true) w.
Proof.
  intros Hw HP. apply Forall_forall. intros c Hc. unfold white in Hw. rewrite Forall_forall in Hw, HP. split; [by apply HP|].
  specialize (Hw c Hc). unfold kind in Hw. destruct (isD c); [done|]. by destruct (isW c).
Qed.

Lemma pieces_all (P : Char -> Prop) b ps : pieces_ok b ps -> Forall P (text ps) -> all_chars (fun c => P c /\ isW c = true) P ps.
Proof.
  revert b. induction ps as [|p ps IH]; intros b Hok HP; [constructor|]. destruct Hok as (Hw & _ & _ & Hok).
  change (text (p :: ps)) with ((pws p ++ ptok p) ++ text ps) in HP. apply Forall_app in HP as [[Hp1 Hp2]%Forall_app HP].
  constructor; [|by eapply IH]. split; [by apply white_all|done].
Qed.

(** The characters of a text in the pieces that are written. *)
Lemma cuts_all (P : Char -> Prop) cs ps w : cuts isW isD cs ps w -> Forall P cs ->
  all_chars (fun c => P c /\ isW c = true) P (paragraphs ps w).1 /\ Forall (fun c => P c /\ isW c = true) (paragraphs ps w).2.
Proof.
  intros (-> & Hok & Hw) [Hp Hv]%Forall_app. apply paragraphs_all; [by eapply pieces_all|by apply white_all].
Qed.

(** Only paragraph tokens are empty. *)
Definition token_count (ps : list piece) : Z := zlen (filter (fun p => ptok p <> []) ps).

Lemma token_count_app ps qs : token_count (ps ++ qs) = token_count ps + token_count qs.
Proof. unfold token_count. rewrite filter_app, length_app. lia. Qed.

Lemma paragraphs_count ps w b : pieces_ok b ps -> token_count (paragraphs ps w).1 = zlen ps.
Proof.
  intros Hok. assert (forall first w, token_count (para_end first w).1 = 0) as He.
  { intros first w'. unfold para_end. by destruct (para_split first w') as [[w1 w2]|]. }
  assert (forall first b ps, pieces_ok b ps -> token_count (para_pieces first ps) = zlen ps) as Hps.
  { clear Hok b ps w. intros first b ps. revert first b. induction ps as [|p ps IH]; intros first b; [done|].
    intros (_ & Ht & _ & Hok). apply token_nonempty in Ht. cbn [para_pieces]. rewrite token_count_app, (IH _ _ Hok).
    enough (token_count (para_piece first p) = 1) by (simpl length; lia). unfold para_piece, token_count in *. destruct (is_word (ptok p)).
    - specialize (He first (pws p)). destruct (para_end first (pws p)) as [e w]. cbn [fst] in He.
      rewrite filter_app, length_app, filter_cons_True by done. simpl. lia.
    - by destruct (para_split false (pws p)) as [[w1 w2]|]; rewrite filter_cons_True by done. }
  unfold paragraphs. specialize (He (no_pieces ps) w). destruct (para_end (no_pieces ps) w) as [e w']. cbn [fst] in *.
  rewrite token_count_app, (Hps true b ps Hok). lia.
Qed.

(** If all tokens are words, paragraphs neither move nor lose text. *)
Lemma paragraphs_text ps w : Forall (fun p => is_word (ptok p) = true) ps ->
  text (paragraphs ps w).1 ++ (paragraphs ps w).2 = text ps ++ w.
Proof.
  intros Hp. unfold paragraphs. pose proof (para_end_text (no_pieces ps) w) as He.
  destruct (para_end (no_pieces ps) w) as [e w']. cbn [fst snd] in *. by rewrite text_app, para_pieces_text, <- app_assoc, He.
Qed.

End Paragraphs.

(** Without the option there are none. *)
Lemma no_paragraphs {Char} (isW isD isNL : Char -> bool) ps w : paragraphs isW isD isNL false ps w = (ps, w).
Proof.
  unfold paragraphs, para_end, para_split. rewrite app_nil_r. f_equal. generalize true. induction ps as [|p ps IH]; intros f; [done|].
  cbn [para_pieces]. rewrite IH. unfold para_piece, para_end, para_split. destruct (is_word isW isD (ptok p)); by destruct p.
Qed.
