(* ===== verification/TokenizerProofs.v ===== *)
(** * Correctness of the tokenizer

    [readFile] cuts the input into pieces, a run of whitespace and a token
    each, and a final run of whitespace: nothing is lost or moved, tokens are
    single delimiters or runs of other characters, and equal words get equal
    numbers.  With the paragraph option it writes the empty tokens that
    [paragraphs] puts between them. *)

From S2P Require Import Prelude EditScript HashTable HashProofs Tokenizer Pieces.

Section ReadFile.
Context {Char T : Type} {HD : Dispatch Char} {HT : WordTable T}.

(** What the dispatch table does on the characters that occur. *)
Context (valid : Char -> Prop) (isW isD isNL : Char -> bool) (wb tb sb : Char -> list Z).

Record dispatch_ok : Prop := {
  d_ws c : valid c -> isWhitespace c = Ok (isW c);
  d_delim c : valid c -> isDelimiter c = Ok (isD c);
  d_word c : valid c -> word_bytes c = Ok (wb c);
  d_token c : valid c -> token_bytes c = Ok (tb c);
  d_white c : valid c -> whitespace_bytes c = Ok (sb c);
  d_newline c : valid c -> if isNL c then sb c = [10] else ~ (10 ∈ sb c)
}.
Context (D : dispatch_ok) (para : bool).

Abbreviation piece := (@piece Char).
Abbreviation kind := (kind isW isD).
Abbreviation white := (white isW isD).
Abbreviation is_word := (is_word isW isD).
Abbreviation pieces_ok := (pieces_ok isW isD).
Abbreviation uncounted := (uncounted isW isD).
Abbreviation ends_in_word := (ends_in_word isW isD).
Abbreviation para_split := (para_split isNL para).
Abbreviation para_end := (para_end isNL para).
Abbreviation out ps := (para_pieces isW isD isNL para true ps).

Lemma classify_kind c : valid c -> classifyChar c = Ok (kind c).
Proof.
  intros Hc. unfold classifyChar, kind. rewrite (d_delim D c Hc). simpl. destruct (isD c); [done|].
  rewrite (d_ws D c Hc). done.
Qed.

Definition white_bytes (l : list Char) : list Z := concat (sb <$> l) ++ [0].
Definition tok_bytes (l : list Char) : list Z := concat (tb <$> l) ++ [0].
Definition word (l : list Char) : list Z := concat (wb <$> l).

(** The numbers of the tokens refer to their words in the table. *)
Definition numbered (ws : list (list Z)) (ps : list piece) (vs : list Z) : Prop :=
  Forall2 (fun p v => 0 <= v /\ ws !! Z.to_nat v = Some (word (ptok p))) ps vs.

Lemma numbered_prefix ws ws' ps vs : ws `prefix_of` ws' -> numbered ws ps vs -> numbered ws' ps vs.
Proof.
  intros Hp Hn. eapply Forall2_impl; [exact Hn|]. intros p v [? ?]. split; [done|]. by eapply prefix_lookup_Some.
Qed.

Lemma numbered_tokens ws ps qs vs : ptok <$> ps = ptok <$> qs -> numbered ws ps vs -> numbered ws qs vs.
Proof.
  intros E Hn. revert qs E. induction Hn as [|p v ps vs H Hn IH]; intros [|q qs] E; try done; [constructor|].
  injection E as E1 E2. constructor; [by rewrite <- E1|by apply IH].
Qed.

Lemma numbered_snoc ws ws' ps vs w t v : numbered ws ps vs -> ws `prefix_of` ws' ->
  0 <= v -> ws' !! Z.to_nat v = Some (word t) -> numbered ws' (ps ++ [Piece w t]) (vs ++ [v]).
Proof. intros Hn Hp Hv0 Hv. apply Forall2_app; [by eapply numbered_prefix|]. by repeat constructor. Qed.

Lemma concat_snoc_bytes {A} (f : A -> list Z) l x : concat (f <$> (l ++ [x])) = concat (f <$> l) ++ f x.
Proof. rewrite fmap_app, concat_app. simpl. by rewrite app_nil_r. Qed.

(** The scan on the bytes of the whitespace finds the same newlines. *)
Lemma scan_skip l r i f : ~ (10 ∈ l) -> scan_newlines (l ++ r) i f = scan_newlines r (i + zlen l) f.
Proof.
  revert i. induction l as [|c l IH]; intros i Hl; simpl; [by rewrite Z.add_0_r|].
  apply not_elem_of_cons in Hl as [Hc Hl]. rewrite (proj2 (Z.eqb_neq c 10)) by done. simpl. rewrite IH by done. f_equal. lia.
Qed.

Lemma no_newline_bytes w : Forall valid w -> Forall (fun c => isNL c = false) w -> ~ (10 ∈ concat (sb <$> w)).
Proof.
  induction w as [|c w IH]; intros Hv Hn; simpl; [apply not_elem_of_nil|].
  apply Forall_cons in Hv as [Hc Hv]. apply Forall_cons in Hn as [Hnc Hn].
  rewrite elem_of_app. pose proof (d_newline D c Hc) as Hd. rewrite Hnc in Hd. intros [?|?]; [done|]. by apply IH.
Qed.

Lemma scan_second w i k : Forall valid w ->
  exists j, scan_newlines (concat (sb <$> w)) i (Some k) = (Some k, j) /\
    if existsb isNL w then j < i + zlen (concat (sb <$> w)) else j = i + zlen (concat (sb <$> w)).
Proof.
  revert i. induction w as [|c w IH]; intros i Hv; [exists i; split; [done|simpl; lia]|].
  rewrite fmap_cons. cbn [concat existsb]. apply Forall_cons in Hv as [Hc Hv]. pose proof (d_newline D c Hc) as Hd. destruct (isNL c).
  - rewrite Hd. exists i. split; [done|simpl; lia].
  - rewrite (scan_skip _ _ _ _ Hd). cbn [orb]. destruct (IH (i + zlen (sb c)) Hv) as (j & -> & Hj). exists j. split; [done|].
    rewrite length_app. destruct (existsb isNL w); lia.
Qed.

Lemma scan_newlines_split w first : Forall valid w -> para = true ->
  match scan_newlines (concat (sb <$> w)) 0 None with
  | (Some k, i) =>
      match para_split first w with
      | Some (w1, w2) =>
          if first : bool then k = zlen (concat (sb <$> w1))
          else i < zlen (concat (sb <$> w)) /\ k + 1 = zlen (concat (sb <$> w1))
      | None => first = false /\ i = zlen (concat (sb <$> w))
      end
  | (None, _) => para_split first w = None
  end.
Proof.
  intros Hv Hp. unfold Pieces.para_split. rewrite Hp. destruct (first_newline isNL w) as [[[a n] b]|] eqn:E.
  - apply first_newline_spec in E as (-> & Hn & Ha). apply Forall_app in Hv as [Hva [Hvn Hvb]%Forall_cons].
    rewrite fmap_app, fmap_cons, concat_app. cbn [concat]. rewrite (scan_skip _ _ _ _ (no_newline_bytes a Hva Ha)).
    pose proof (d_newline D n Hvn) as Hd. rewrite Hn in Hd. rewrite Hd. simpl app. cbn [scan_newlines].
    change (negb (10 =? 10)) with false. cbv iota.
    destruct (scan_second b (0 + zlen (concat (sb <$> a)) + 1) (0 + zlen (concat (sb <$> a))) Hvb) as (j & -> & Hj).
    destruct first; [lia|]. destruct (existsb isNL b).
    + rewrite concat_snoc_bytes, Hd, !length_app in *. simpl in *. lia.
    + split; [done|]. rewrite length_app. simpl. lia.
  - apply first_newline_None in E.
    rewrite <- (app_nil_r (concat _)). by rewrite (scan_skip _ _ _ _ (no_newline_bytes w Hv E)).
Qed.

(** ** The loop *)

(** No token is being read: the complete pieces [o] and the whitespace [w]
    after them. *)
Record between (ws0 : list (list Z)) (n0 : Z) (r : rstate T) (o : list piece) (w : list Char) : Prop := {
  bt_tokens : rtokens r = concat ((fun p => tok_bytes (ptok p)) <$> o);
  bt_word : currentWord r = [];
  bt_white : rwhitespace r = concat ((fun p => white_bytes (pws p)) <$> o);
  bt_buffer : whitespaceBuffer r = concat (sb <$> w);
  bt_written : tokenWritten r = negb (no_pieces o);
  bt_table : exists ws, wt_rep (rtable r) ws /\ ws0 `prefix_of` ws /\ numbered ws o (diffTokens r) /\
             zlen ws <= n0 + zlen o
}.

(** The whitespace [w] is written, and the characters [t] of the token after it. *)
Record opened (ws0 : list (list Z)) (n0 : Z) (r : rstate T) (o : list piece) (w t : list Char) : Prop := {
  op_tokens : rtokens r = concat ((fun p => tok_bytes (ptok p)) <$> o) ++ concat (tb <$> t);
  op_word : currentWord r = word t;
  op_white : rwhitespace r = concat ((fun p => white_bytes (pws p)) <$> o) ++ white_bytes w;
  op_buffer : whitespaceBuffer r = [];
  op_table : exists ws, wt_rep (rtable r) ws /\ ws0 `prefix_of` ws /\ numbered ws o (diffTokens r) /\
             zlen ws <= n0 + zlen o
}.

Lemma between_match ws0 n0 r o w m : between ws0 n0 r o w -> between ws0 n0 (set_match r m) o w.
Proof. intros []. by split. Qed.

Lemma between_count ws0 n0 r o w k : between ws0 n0 r o w -> between ws0 n0 (count_words r k) o w.
Proof. intros []. by split. Qed.

Lemma opened_match ws0 n0 r o w t m : opened ws0 n0 r o w t -> opened ws0 n0 (set_match r m) o w t.
Proof. intros []. by split. Qed.

Lemma opened_count ws0 n0 r o w t k : opened ws0 n0 r o w t -> opened ws0 n0 (count_words r k) o w t.
Proof. intros []. by split. Qed.

Lemma end_token r ws w : wt_rep (rtable r) ws -> currentWord r = w -> zlen ws < VALUE_MAX ->
  exists t v ws', writeEndOfToken r = Ok (RState (rtokens r ++ [0]) (rwhitespace r) (diffTokens r ++ [v]) t []
      (whitespaceBuffer r) true (rmatch r) (wordCount r)) /\
    wt_rep t ws' /\ ws `prefix_of` ws' /\ 0 <= v /\ ws' !! Z.to_nat v = Some w /\ zlen ws' <= zlen ws + 1.
Proof.
  intros Ht <- Hm. unfold writeEndOfToken.
  destruct (wt_get_intern (rtable r) ws (currentWord r) Ht Hm) as (t & -> & Ht'). simpl.
  destruct (intern_value ws (currentWord r)) as [Hv Hv0].
  exists t, (intern ws (currentWord r)).2, (intern ws (currentWord r)).1. split; [done|]. split; [done|].
  split; [apply intern_prefix|]. split; [done|]. split; [done|].
  unfold intern. destruct (position _ ws); simpl; rewrite ?length_app; simpl; lia.
Qed.

(** The word of the piece [Piece w t] is put into the table. *)
Lemma end_piece ws0 n0 r o w t : (exists ws, wt_rep (rtable r) ws /\ ws0 `prefix_of` ws /\ numbered ws o (diffTokens r) /\
    zlen ws <= n0 + zlen o) -> currentWord r = word t -> n0 + zlen o < VALUE_MAX ->
  exists tb' v, writeEndOfToken r = Ok (RState (rtokens r ++ [0]) (rwhitespace r) (diffTokens r ++ [v]) tb' []
      (whitespaceBuffer r) true (rmatch r) (wordCount r)) /\
    exists ws, wt_rep tb' ws /\ ws0 `prefix_of` ws /\ numbered ws (o ++ [Piece w t]) (diffTokens r ++ [v]) /\
      zlen ws <= n0 + zlen (o ++ [Piece w t]).
Proof.
  intros (ws & Hrep & Hpre & Hnum & Hlen) Hw Hm.
  destruct (end_token r ws (word t) Hrep Hw ltac:(lia)) as (tb' & v & ws' & -> & Hrep' & Hpre' & Hv0 & Hv & Hlen').
  exists tb', v. split; [done|]. exists ws'. split; [done|]. split; [by etrans|].
  split; [by eapply numbered_snoc|]. rewrite length_app. simpl. lia.
Qed.

Lemma opened_char ws0 n0 r o w t c : opened ws0 n0 r o w t -> valid c ->
  exists r', writeTokenChar r c = Ok r' /\ opened ws0 n0 r' o w (t ++ [c]) /\ wordCount r' = wordCount r /\ rmatch r' = rmatch r.
Proof.
  intros [H1 H2 H3 H4 H5] Hc. unfold writeTokenChar. rewrite (d_word D c Hc), (d_token D c Hc). cbn [rbind].
  eexists. split; [done|]. split; [|done]. split; simpl; try done.
  - by rewrite concat_snoc_bytes, H1, app_assoc.
  - unfold word. by rewrite concat_snoc_bytes, H2.
Qed.

Lemma opened_end ws0 n0 r o w t : opened ws0 n0 r o w t -> n0 + zlen o < VALUE_MAX ->
  exists r', writeEndOfToken r = Ok r' /\ between ws0 n0 r' (o ++ [Piece w t]) [] /\ wordCount r' = wordCount r /\ rmatch r' = rmatch r.
Proof.
  intros [H1 H2 H3 H4 H5] Hm. destruct (end_piece ws0 n0 r o w t H5 H2 Hm) as (tb' & v & -> & Htab).
  eexists. split; [done|]. split; [|done]. split; simpl; rewrite ?concat_snoc_bytes; try done.
  - by rewrite H1, <- app_assoc.
  - by rewrite snoc_pieces.
Qed.

Lemma white_end_default r w : para_split (negb (tokenWritten r)) w = None -> Forall valid w ->
  whitespaceBuffer r = concat (sb <$> w) ->
  handleWhitespaceEnd para r = Ok (clear_whitespace (put_whitespace r (concat (sb <$> w)))).
Proof.
  intros Hs Hv Hb. pose proof (scan_newlines_split w (negb (tokenWritten r)) Hv) as Hn. rewrite Hs in Hn.
  unfold handleWhitespaceEnd. rewrite Hb. destruct para; [|done]. specialize (Hn eq_refl).
  destruct (scan_newlines (concat (sb <$> w)) 0 None) as [[k|] i]; [|done].
  destruct Hn as [-> ->]. by rewrite Z.eqb_refl.
Qed.

Lemma white_end_split r w w1 w2 : para_split (negb (tokenWritten r)) w = Some (w1, w2) -> Forall valid w ->
  whitespaceBuffer r = concat (sb <$> w) ->
  handleWhitespaceEnd para r =
    (let* r := writeEndOfToken (put_whitespace (put_whitespace r (concat (sb <$> w1))) (concat (sb <$> w2))) in
     Ok (clear_whitespace r)).
Proof.
  intros Hs Hv Hb. pose proof (scan_newlines_split w (negb (tokenWritten r)) Hv) as Hn. rewrite Hs in Hn.
  pose proof Hs as (Hw & Hp & _)%para_split_spec. specialize (Hn Hp).
  assert (forall k, k = zlen (concat (sb <$> w1)) -> slice (concat (sb <$> w)) 0 k = concat (sb <$> w1) /\
    slice (concat (sb <$> w)) k (zlen (concat (sb <$> w))) = concat (sb <$> w2)) as Hk.
  { intros k ->. rewrite Hw, fmap_app, concat_app. split.
    - unfold slice. rewrite Z.sub_0_r, Nat2Z.id. simpl. by rewrite drop_0, take_app_length.
    - unfold slice. rewrite Nat2Z.id, drop_app_length. apply take_ge. rewrite length_app. lia. }
  unfold handleWhitespaceEnd. rewrite Hb, Hp.
  destruct (scan_newlines (concat (sb <$> w)) 0 None) as [[k|] i]; [|done].
  destruct (tokenWritten r); cbn [negb] in *.
  - destruct Hn as [Hi Hn]. rewrite (proj2 (Z.eqb_neq i _)) by lia. cbn [negb].
    by destruct (Hk (k + 1) ltac:(lia)) as [-> ->].
  - by destruct (Hk k Hn) as [-> ->].
Qed.

(** The end of a run of whitespace, before a word. *)
Lemma white_end ws0 n0 r o w : between ws0 n0 r o w -> Forall valid w -> n0 + zlen o < VALUE_MAX ->
  exists r', handleWhitespaceEnd para r = Ok r' /\
    opened ws0 n0 r' (o ++ (para_end (no_pieces o) w).1) (para_end (no_pieces o) w).2 [] /\
    wordCount r' = wordCount r /\ rmatch r' = rmatch r.
Proof.
  intros [H1 H2 H3 H4 H5 H6] Hv Hm.
  assert (negb (tokenWritten r) = no_pieces o) as Hf by (rewrite H5; apply negb_involutive).
  unfold Pieces.para_end. destruct (para_split (no_pieces o) w) as [[w1 w2]|] eqn:E; rewrite <- Hf in E; cbn [fst snd].
  - rewrite (white_end_split r w w1 w2 E Hv H4).
    destruct (end_piece ws0 n0 (put_whitespace (put_whitespace r (concat (sb <$> w1))) (concat (sb <$> w2))) o w1 [] H6 H2 Hm)
      as (tb' & v & -> & Htab). cbn [rbind].
    eexists. split; [done|]. split; [|done]. split; simpl; rewrite ?concat_snoc_bytes, ?app_nil_r; try done.
    + by rewrite H1.
    + by rewrite H3.
  - rewrite (white_end_default r w E Hv H4). eexists. split; [done|]. split; [|done].
    rewrite app_nil_r. split; simpl; rewrite ?app_nil_r; try done. by rewrite H3.
Qed.

(** A delimiter after whitespace: the token is written first. *)
Lemma delimiter_token ws0 n0 r o w c : between ws0 n0 r o w -> Forall valid w -> valid c -> kind c = CAT_DELIMITER ->
  n0 + zlen o + 1 < VALUE_MAX ->
  exists r', (let* r := writeTokenChar r c in let* r := writeEndOfToken r in handleWhitespaceEnd para r) = Ok r' /\
    between ws0 n0 r' (o ++ para_piece isW isD isNL para (no_pieces o) (Piece w [c])) [] /\
    wordCount r' = wordCount r /\ rmatch r' = rmatch r.
Proof.
  intros [H1 H2 H3 H4 H5 H6] Hv Hc Hk Hm. unfold writeTokenChar. rewrite (d_word D c Hc), (d_token D c Hc). cbn [rbind].
  edestruct (end_piece ws0 n0 (RState (rtokens r ++ tb c) (rwhitespace r) (diffTokens r) (rtable r) (currentWord r ++ wb c)
    (whitespaceBuffer r) (tokenWritten r) (rmatch r) (wordCount r)) o w [c] H6) as (tb' & v & -> & Htab); [|lia|].
  { simpl. rewrite H2. unfold word. simpl. by rewrite app_nil_r. }
  cbn [rbind]. unfold para_piece. cbn [ptok pws]. rewrite (delim_not_word isW isD c Hk).
  match goal with |- exists r', handleWhitespaceEnd para ?r1 = _ /\ _ => set (r1' := r1) end.
  destruct (para_split false w) as [[w1 w2]|] eqn:E.
  - rewrite (white_end_split r1' w w1 w2 E Hv H4).
    assert (zlen (o ++ [Piece w [c]]) = zlen o + 1) as Hl by (rewrite length_app; simpl; lia).
    destruct (end_piece ws0 n0 (put_whitespace (put_whitespace r1' (concat (sb <$> w1))) (concat (sb <$> w2)))
      (o ++ [Piece w1 [c]]) w2 []) as (tb2 & v2 & -> & Htab2).
    { destruct Htab as (ws & Hr & Hp & Hn & Hz). exists ws. split; [done|]. split; [done|]. rewrite !length_app in *. split; [|done].
      apply (numbered_tokens ws (o ++ [Piece w [c]])); [by rewrite !fmap_app|done]. }
    { done. } { rewrite length_app. simpl. lia. }
    cbn [rbind]. eexists. split; [done|]. split; [|done].
    change [Piece w1 [c]; Piece w2 []] with ([Piece w1 [c]] ++ [Piece w2 []]). rewrite app_assoc.
    split; simpl; rewrite ?concat_snoc_bytes; cbn [ptok pws]; try done.
    + rewrite H1. unfold tok_bytes. simpl. by rewrite app_nil_r, <- !app_assoc.
    + rewrite H3. done.
    + by rewrite snoc_pieces.
  - rewrite (white_end_default r1' w E Hv H4). eexists. split; [done|]. split; [|done].
    split; simpl; rewrite ?concat_snoc_bytes; cbn [ptok pws]; try done.
    + rewrite H1. unfold tok_bytes. simpl. by rewrite app_nil_r, <- !app_assoc.
    + by rewrite H3.
    + by rewrite snoc_pieces.
Qed.

Lemma whitespace_char ws0 n0 r o w c : between ws0 n0 r o w -> valid c ->
  exists r', writeWhitespaceChar r c = Ok r' /\ between ws0 n0 r' o (w ++ [c]) /\ wordCount r' = wordCount r /\ rmatch r' = rmatch r.
Proof.
  intros [H1 H2 H3 H4 H5 H6] Hc. unfold writeWhitespaceChar. rewrite (d_white D c Hc). cbn [rbind].
  eexists. split; [done|]. split; [|done]. split; simpl; try done. by rewrite concat_snoc_bytes, H4.
Qed.

(** *** One character *)

(** The invariant of the loop after the characters [cs]. *)
Inductive loop_inv (ws0 : list (list Z)) (n0 : Z) (r : rstate T) : list Char -> Prop :=
  | at_start : rmatch r = NONE -> wordCount r = 0 -> between ws0 n0 r [] [] -> loop_inv ws0 n0 r []
  | in_white ps w : rmatch r = WHITESPACE -> text ps ++ w <> [] -> wordCount r = int32 (zlen ps - uncounted (text ps ++ w)) ->
      pieces_ok false ps -> white w -> (ends_in_word ps = true -> w <> []) ->
      between ws0 n0 r (out ps) w -> loop_inv ws0 n0 r (text ps ++ w)
  | in_word ps w t : rmatch r = WORD -> wordCount r = int32 (zlen ps - uncounted (text ps ++ w ++ t)) ->
      pieces_ok false ps -> white w -> is_word t = true -> (ends_in_word ps = true -> w <> []) ->
      opened ws0 n0 r (out ps ++ (para_end (no_pieces ps) w).1) (para_end (no_pieces ps) w).2 t ->
      loop_inv ws0 n0 r (text ps ++ w ++ t).

Lemma word_piece ps w t : pieces_ok false ps -> white w -> is_word t = true -> (ends_in_word ps = true -> w <> []) ->
  pieces_ok false (ps ++ [Piece w t]).
Proof.
  intros Hok Hw Ht Hsep. apply pieces_snoc; [done|done|by right|]. simpl. destruct ps as [|q ps]; [done|].
  simpl length. rewrite bool_decide_eq_false_2 by done. rewrite Ht, andb_true_r. done.
Qed.

Lemma delimiter_piece ps w c : pieces_ok false ps -> white w -> kind c = CAT_DELIMITER -> pieces_ok false (ps ++ [Piece w [c]]).
Proof.
  intros Hok Hw Hk. apply pieces_snoc; [done|done|left; by exists c|]. simpl. by rewrite delim_not_word, andb_false_r.
Qed.

(** The word is written with the whitespace before it. *)
Lemma out_word ps w t : is_word t = true ->
  out (ps ++ [Piece w t]) = (out ps ++ (para_end (no_pieces ps) w).1) ++ [Piece (para_end (no_pieces ps) w).2 t].
Proof.
  intros Ht. rewrite out_snoc. unfold para_piece. cbn [ptok pws]. rewrite Ht.
  destruct (para_end (no_pieces ps) w) as [e w']. by rewrite <- app_assoc.
Qed.

Lemma out_bound ps w t : pieces_ok false ps ->
  zlen (out ps ++ (para_end (no_pieces ps) w).1) <= zlen (text ps ++ w ++ t) /\ zlen (out ps) <= zlen (text ps ++ w ++ t).
Proof.
  intros Hok. pose proof (end_count isW isD isNL para false true (no_pieces ps) ps w Hok).
  rewrite !length_app in *. lia.
Qed.

(** A character at the start or after whitespace. *)
Lemma word_starts ws0 n0 r ps w c : between ws0 n0 r (out ps) w -> pieces_ok false ps -> Forall valid (text ps ++ w) -> valid c ->
  n0 + zlen (text ps ++ w) + 1 < VALUE_MAX ->
  exists r', (let* r := handleWhitespaceEnd para r in let* r := writeTokenChar r c in Ok (set_match r WORD)) = Ok r' /\
    opened ws0 n0 r' (out ps ++ (para_end (no_pieces ps) w).1) (para_end (no_pieces ps) w).2 [c] /\
    wordCount r' = wordCount r /\ rmatch r' = WORD.
Proof.
  intros B Hok [_ Hv]%Forall_app Hc Hm. destruct (out_bound ps w [] Hok) as [_ Hb]. rewrite app_nil_r in Hb.
  destruct (white_end ws0 n0 r (out ps) w B Hv ltac:(lia)) as (r1 & -> & O1 & Hn1 & _). rewrite no_pieces_out in O1. cbn [rbind].
  destruct (opened_char _ _ _ _ _ _ c O1 Hc) as (r2 & -> & O2 & Hn2 & _). cbn [rbind].
  eexists. split; [done|]. split; [by apply opened_match|]. split; [simpl; lia|done].
Qed.

Lemma start_char ws0 n0 r c : between ws0 n0 r [] [] -> rmatch r = NONE -> wordCount r = 0 -> valid c -> n0 + 1 < VALUE_MAX ->
  exists r', read_char para r c = Ok r' /\ loop_inv ws0 n0 r' [c].
Proof.
  intros B Hm Hn Hc Hmax. unfold read_char. rewrite (classify_kind c Hc), Hm. cbn [rbind]. destruct (kind c) eqn:Ek.
  - destruct (word_starts ws0 n0 r [] [] c B) as (r' & Hr & O & Hn' & Hm'); [done|constructor|done|simpl; lia|]. rewrite Hr.
    eexists. split; [done|]. apply (in_word _ _ _ [] [] [c]); try done;
      [|by apply (word_snoc isW isD []); [|left]].
    rewrite Hn', Hn. simpl. by rewrite bool_decide_eq_false_2 by congruence.
  - destruct (white_end ws0 n0 r [] [] B ltac:(constructor) ltac:(simpl; lia)) as (r1 & -> & O1 & Hn1 & _). cbn [rbind].
    destruct (opened_char _ _ _ _ _ _ c O1 Hc) as (r2 & -> & O2 & Hn2 & _). cbn [rbind].
    rewrite para_end_nil in O2. destruct (opened_end _ _ _ _ _ _ O2 ltac:(simpl; lia)) as (r3 & -> & B3 & Hn3 & _). cbn [rbind].
    eexists. split; [done|]. apply (in_white _ _ _ [Piece [] [c]] []); try done.
    + simpl. rewrite bool_decide_eq_true_2 by done. rewrite Hn3, Hn2, Hn1. by rewrite Hn.
    + by apply (delimiter_piece []).
    + unfold Pieces.ends_in_word. simpl. by rewrite delim_not_word.
    + apply between_match. simpl. unfold para_piece. cbn [ptok pws]. rewrite delim_not_word, para_split_nil by done. done.
  - destruct (whitespace_char ws0 n0 r [] [] c B Hc) as (r' & -> & B' & Hn' & Hm'). cbn [rbind].
    eexists. split; [done|]. apply (in_white _ _ _ [] [c]); try done; [|by constructor|by apply between_match].
    simpl. rewrite bool_decide_eq_false_2 by congruence. by rewrite Hn', Hn.
Qed.

Lemma white_char_step ws0 n0 r ps w c : between ws0 n0 r (out ps) w -> rmatch r = WHITESPACE -> text ps ++ w <> [] ->
  wordCount r = int32 (zlen ps - uncounted (text ps ++ w)) -> pieces_ok false ps -> white w -> (ends_in_word ps = true -> w <> []) ->
  Forall valid (text ps ++ w) -> valid c -> n0 + zlen (text ps ++ w) + 1 < VALUE_MAX ->
  exists r', read_char para r c = Ok r' /\ loop_inv ws0 n0 r' ((text ps ++ w) ++ [c]).
Proof.
  intros B Hm Hne Hn Hok Hw Hsep Hv Hc Hmax. unfold read_char. rewrite (classify_kind c Hc), Hm. cbn [rbind].
  destruct (kind c) eqn:Ek.
  - destruct (word_starts ws0 n0 r ps w c B Hok Hv Hc Hmax) as (r' & Hr & O & Hn' & Hm'). rewrite Hr.
    eexists. split; [done|]. rewrite <- app_assoc. apply in_word; try done; [|by apply (word_snoc isW isD []); [|left]].
    by rewrite app_assoc, uncounted_snoc, Hn'.
  - pose proof (proj2 (proj1 (Forall_app _ _ _) Hv)) as Hvw. destruct (out_bound ps w [] Hok) as [_ Hb]. rewrite app_nil_r in Hb.
    destruct (delimiter_token ws0 n0 (count_words r 1) (out ps) w c (between_count _ _ _ _ _ _ B) Hvw Hc Ek ltac:(lia))
      as (r' & -> & B' & Hn' & Hm').
    eexists. split; [done|].
    assert ((text ps ++ w) ++ [c] = text (ps ++ [Piece w [c]]) ++ []) as E by (rewrite text_snoc, app_nil_r, <- app_assoc; done).
    rewrite E. apply in_white; try done.
    + by rewrite Hm'.
    + rewrite <- E. by destruct (text ps ++ w).
    + rewrite <- E, uncounted_snoc by done. rewrite Hn'. apply (int32_add_eq _ 1 _ _ Hn). rewrite length_app. simpl. lia.
    + by apply delimiter_piece.
    + rewrite ends_snoc. cbn [ptok]. by rewrite delim_not_word.
    + by rewrite out_snoc, <- no_pieces_out with (isW := isW) (isD := isD) (isNL := isNL) (para := para).
  - destruct (whitespace_char ws0 n0 r (out ps) w c B Hc) as (r' & -> & B' & Hn' & Hm'). rewrite <- app_assoc.
    eexists. split; [done|]. apply in_white; try done; rewrite ?app_assoc.
    + congruence.
    + by destruct (text ps ++ w).
    + rewrite uncounted_snoc by done. by rewrite Hn', Hn.
    + apply Forall_app. split; [done|by constructor].
    + by destruct w.
Qed.

Lemma word_char_step ws0 n0 r ps w t c : opened ws0 n0 r (out ps ++ (para_end (no_pieces ps) w).1) (para_end (no_pieces ps) w).2 t ->
  rmatch r = WORD -> wordCount r = int32 (zlen ps - uncounted (text ps ++ w ++ t)) -> pieces_ok false ps -> white w -> is_word t = true ->
  (ends_in_word ps = true -> w <> []) -> valid c -> n0 + zlen (text ps ++ w ++ t) + 1 < VALUE_MAX ->
  exists r', read_char para r c = Ok r' /\ loop_inv ws0 n0 r' ((text ps ++ w ++ t) ++ [c]).
Proof.
  intros O Hm Hn Hok Hw Ht Hsep Hc Hmax. unfold read_char. rewrite (classify_kind c Hc), Hm. cbn [rbind].
  assert (text ps ++ w ++ t <> []) as Hne by (intros [_ [_ ->]%app_eq_nil]%app_eq_nil; done).
  pose proof (word_piece ps w t Hok Hw Ht Hsep) as Hok'. destruct (out_bound ps w t Hok) as [Hb _].
  assert (zlen (ps ++ [Piece w t]) = zlen ps + 1) as Hl by (rewrite length_app; simpl; lia).
  destruct (kind c) eqn:Ek.
  - destruct (opened_char _ _ _ _ _ _ c O Hc) as (r' & -> & O' & Hn' & Hm'). eexists. split; [done|].
    rewrite <- !app_assoc. apply in_word; try done; [congruence| |by apply word_snoc; [|right]].
    rewrite Hn', Hn, <- (uncounted_snoc isW isD (text ps ++ w ++ t) c) by done. by rewrite <- !app_assoc.
  - destruct (opened_end _ _ _ _ _ _ (opened_count _ _ _ _ _ _ 2 O) ltac:(lia)) as (r1 & -> & B1 & Hn1 & Hm1). cbn [rbind].
    rewrite <- (out_word ps w t Ht) in B1. destruct (out_bound (ps ++ [Piece w t]) [] [] Hok') as [_ Hb'].
    rewrite text_snoc, !app_nil_r in Hb'.
    destruct (delimiter_token ws0 n0 r1 _ [] c B1) as (r' & Hr & B' & Hn' & Hm'); [constructor|done|done|lia|].
    destruct (writeTokenChar r1 c) as [r2|]; [|done]. cbn [rbind] in *. destruct (writeEndOfToken r2) as [r3|]; [|done]. cbn [rbind] in *.
    rewrite Hr. cbn [rbind]. eexists. split; [done|].
    assert ((text ps ++ w ++ t) ++ [c] = text ((ps ++ [Piece w t]) ++ [Piece [] [c]]) ++ []) as E by (by rewrite !text_snoc, app_nil_r, !app_nil_l).
    rewrite E. apply in_white; try done.
    + rewrite <- E. by destruct (text ps ++ w ++ t).
    + rewrite <- E, uncounted_snoc by done. cbn [wordCount set_match]. rewrite Hn', Hn1. apply (int32_add_eq _ 2 _ _ Hn). rewrite !length_app. simpl. lia.
    + by apply delimiter_piece.
    + rewrite ends_snoc. cbn [ptok]. by rewrite delim_not_word.
    + apply between_match. rewrite out_snoc, <- (no_pieces_out isW isD isNL para (ps ++ [Piece w t])). done.
  - destruct (opened_end _ _ _ _ _ _ (opened_count _ _ _ _ _ _ 1 O) ltac:(lia)) as (r1 & -> & B1 & Hn1 & Hm1). cbn [rbind].
    rewrite <- (out_word ps w t Ht) in B1.
    destruct (whitespace_char ws0 n0 r1 _ [] c B1 Hc) as (r2 & -> & B2 & Hn2 & Hm2). cbn [rbind].
    eexists. split; [done|].
    assert ((text ps ++ w ++ t) ++ [c] = text (ps ++ [Piece w t]) ++ [c]) as E by (by rewrite text_snoc).
    rewrite E. apply in_white; try done; [..|by apply between_match].
    + rewrite <- E. by destruct (text ps ++ w ++ t).
    + rewrite <- E, uncounted_snoc by done. cbn [wordCount set_match]. rewrite Hn2, Hn1. apply (int32_add_eq _ 1 _ _ Hn). lia.
    + by constructor.
Qed.

Lemma read_char_spec ws0 n0 r cs c : loop_inv ws0 n0 r cs -> Forall valid cs -> valid c -> n0 + zlen cs + 1 < VALUE_MAX ->
  exists r', read_char para r c = Ok r' /\ loop_inv ws0 n0 r' (cs ++ [c]).
Proof.
  intros [Hm Hn B|ps w Hm Hne Hn Hok Hw Hsep B|ps w t Hm Hn Hok Hw Ht Hsep O] Hv Hc Hmax.
  - apply start_char; try done. simpl in Hmax. lia.
  - by apply white_char_step.
  - by apply word_char_step.
Qed.

Lemma read_chars_spec ws0 n0 r cs cs' : loop_inv ws0 n0 r cs -> Forall valid cs -> Forall valid cs' ->
  n0 + zlen (cs ++ cs') + 1 < VALUE_MAX ->
  exists r', read_chars para r cs' = Ok r' /\ loop_inv ws0 n0 r' (cs ++ cs').
Proof.
  revert r cs. induction cs' as [|c cs' IH]; intros r cs Hinv Hv0 Hv Hmax; cbn [read_chars].
  - exists r. by rewrite app_nil_r.
  - apply Forall_cons in Hv as [Hc Hv]. rewrite length_app in Hmax. simpl in Hmax.
    destruct (read_char_spec ws0 n0 r cs c Hinv Hv0 Hc ltac:(lia)) as (r1 & -> & Hinv1). cbn [rbind].
    destruct (IH r1 (cs ++ [c]) Hinv1) as (r2 & -> & Hinv2);
      [apply Forall_app; by repeat constructor|done|rewrite !length_app; simpl; lia|].
    exists r2. split; [done|]. by rewrite <- app_assoc in Hinv2.
Qed.

(** ** The result *)

(** The pieces [ps] and the final whitespace [w] of the text [cs]. *)
Abbreviation cuts := (cuts isW isD).

(** The result of [readFile]: the pieces [o] and the final whitespace [w] that
    are written, and the words in the table. *)
Record read_result (ws0 : list (list Z)) (r : rstate T) (o : list piece) (w : list Char)
    (ws : list (list Z)) : Prop := {
  rr_tokens : rtokens r = concat ((fun p => tok_bytes (ptok p)) <$> o);
  rr_white : rwhitespace r = concat ((fun p => white_bytes (pws p)) <$> o) ++ white_bytes w;
  rr_table : wt_rep (rtable r) ws;
  rr_prefix : ws0 `prefix_of` ws;
  rr_numbers : numbered ws o (diffTokens r)
}.

Abbreviation paragraphs := (paragraphs isW isD isNL para).

Lemma white_result ws0 n0 r ps w : between ws0 n0 r (out ps) w -> rmatch r <> WORD -> pieces_ok false ps ->
  Forall valid w -> n0 + zlen (text ps ++ w) < VALUE_MAX ->
  exists r' ws, (let* r := handleWhitespaceEnd para r in
      if bool_decide (rmatch r = WORD) then writeEndOfToken (count_words r 1) else Ok r) = Ok r' /\
    read_result ws0 r' (paragraphs ps w).1 (paragraphs ps w).2 ws /\ wordCount r' = wordCount r /\
    zlen ws <= n0 + zlen (text ps ++ w).
Proof.
  intros B Hm Hok Hv Hmax. destruct (out_bound ps w [] Hok) as [Hb0 Hb]. rewrite app_nil_r in Hb, Hb0.
  destruct (white_end ws0 n0 r (out ps) w B Hv ltac:(lia)) as (r1 & -> & [H1 H2 H3 H4 (ws & Ht & Hp & Hnum & Hl)] & Hn1 & Hm1).
  cbn [rbind]. rewrite bool_decide_eq_false_2 by congruence. rewrite no_pieces_out in *.
  exists r1, ws. split; [done|]. unfold Pieces.paragraphs. destruct (para_end (no_pieces ps) w) as [e w']. cbn [fst snd] in *.
  split; [|split; [done|lia]]. split; try done. by rewrite H1, app_nil_r.
Qed.

Lemma word_result ws0 n0 r ps w t : opened ws0 n0 r (out ps ++ (para_end (no_pieces ps) w).1) (para_end (no_pieces ps) w).2 t ->
  rmatch r = WORD -> pieces_ok false ps -> is_word t = true -> n0 + zlen (text ps ++ w ++ t) < VALUE_MAX ->
  exists r' ws, (let* r := handleWhitespaceEnd para r in
      if bool_decide (rmatch r = WORD) then writeEndOfToken (count_words r 1) else Ok r) = Ok r' /\
    read_result ws0 r' (out (ps ++ [Piece w t])) [] ws /\ wordCount r' = int32 (wordCount r + 1) /\
    zlen ws <= n0 + zlen (text ps ++ w ++ t) + 1.
Proof.
  intros [H1 H2 H3 H4 H5] Hm Hok Ht Hmax. destruct (out_bound ps w t Hok) as [Hb _].
  rewrite (white_end_default r []); [|by rewrite para_split_nil|constructor|done]. cbn [rbind].
  rewrite bool_decide_eq_true_2 by done.
  edestruct (end_piece ws0 n0 (count_words (clear_whitespace (put_whitespace r (concat (sb <$> [])))) 1) _ (para_end (no_pieces ps) w).2 t H5)
    as (tb' & v & -> & ws & Hrep & Hpre & Hnum & Hl); [done|lia|].
  rewrite <- (out_word ps w t Ht) in Hnum. eexists _, ws. split; [done|]. split; [|split; [done|]].
  - split; simpl; try done; rewrite (out_word ps w t Ht), concat_snoc_bytes; cbn [ptok pws].
    + by rewrite H1, <- app_assoc.
    + by rewrite H3.
  - rewrite length_app in Hl. simpl in Hl. lia.
Qed.

Lemma readFile_spec t ws0 cs : wt_rep t ws0 -> Forall valid cs -> zlen ws0 + zlen cs + 1 < VALUE_MAX ->
  exists r ps w ws, readFile para t cs = Ok r /\ cuts cs ps w /\
    read_result ws0 r (paragraphs ps w).1 (paragraphs ps w).2 ws /\
    wordCount r = int32 (zlen ps - uncounted cs) /\ zlen ws <= zlen ws0 + zlen cs + 1.
Proof.
  intros Ht Hv Hmax. unfold readFile.
  destruct (read_chars_spec ws0 (zlen ws0) (RState [] [] [] t [] [] false NONE 0) [] cs) as (r1 & -> & Hinv); [|done..|].
  { apply at_start; try done. split; try done. exists ws0. split; [done|]. split; [done|]. split; [constructor|simpl; lia]. }
  cbn [rbind]. simpl app in Hinv.
  destruct Hinv as [Hm Hn B|ps w Hm Hne Hn Hok Hw Hsep B|ps w tk Hm Hn Hok Hw Htk Hsep O].
  - destruct (white_result ws0 (zlen ws0) r1 [] [] B) as (r' & ws & Hr & R & Hn' & Hl); [congruence|done|constructor|simpl in *; lia|].
    exists r', [], [], ws. split; [done|]. split; [by repeat split; try constructor|]. split; [done|]. split; [by rewrite Hn', Hn|]. simpl in *; lia.
  - apply Forall_app in Hv as [_ Hv].
    destruct (white_result ws0 (zlen ws0) r1 ps w B) as (r' & ws & Hr & R & Hn' & Hl); [congruence|done|done|lia|].
    exists r', ps, w, ws. split; [done|]. split; [done|]. split; [done|]. split; [by rewrite Hn', Hn|lia].
  - destruct (word_result ws0 (zlen ws0) r1 ps w tk O) as (r' & ws & Hr & R & Hn' & Hl); [done..|lia|].
    exists r', (ps ++ [Piece w tk]), [], ws. split; [done|].
    split; [split; [by rewrite text_snoc, app_nil_r|split; [by apply word_piece|constructor]]|].
    split; [|split; [|done]].
    + unfold Pieces.paragraphs. rewrite para_end_nil, app_nil_r. done.
    + rewrite Hn'. apply (int32_add_eq _ 1 _ _ Hn). rewrite length_app. simpl. lia.
Qed.

End ReadFile.


(** ** Single characters *)

(** Reading an item of a temporary file: up to a 0, with 1 as escape. *)
Fixpoint next_item (l : list Z) : list Z * list Z :=
  match l with
  | [] => ([], [])
  | c :: l1 =>
      if c =? 0 then ([], l1)
      else if c =? 1 then
        match l1 with
        | [] => ([], [])
        | c2 :: l2 => let '(i, r) := next_item l2 in (c2 :: i, r)
        end
      else let '(i, r) := next_item l1 in (c :: i, r)
  end.

Fixpoint all_items (n : nat) (l : list Z) : list (list Z) :=
  match n with
  | O => []
  | S n' => let '(i, r) := next_item l in i :: all_items n' r
  end.

Lemma next_item_escape t r : next_item (concat (escape <$> t) ++ 0 :: r) = (t, r).
Proof.
  induction t as [|c t IH]; [done|].
  change (concat (escape <$> (c :: t))) with (escape c ++ concat (escape <$> t)).
  rewrite <- app_assoc. remember (concat (escape <$> t) ++ 0 :: r) as rest eqn:Hrest. clear Hrest.
  unfold escape. destruct (Z.eqb_spec c 0) as [->|Hc0]; [|destruct (Z.eqb_spec c 1) as [->|Hc1]]; simpl.
  1-2: by rewrite IH.
  rewrite (proj2 (Z.eqb_neq c 0)), (proj2 (Z.eqb_neq c 1)) by done. by rewrite IH.
Qed.

Lemma all_items_escape (ts : list (list Z)) r :
  all_items (length ts) (concat ((fun t => concat (escape <$> t) ++ [0]) <$> ts) ++ r) = ts.
Proof.
  induction ts as [|t ts IH]; [done|]. cbn [length all_items].
  change (concat ((fun t => concat (escape <$> t) ++ [0]) <$> (t :: ts)))
    with ((concat (escape <$> t) ++ [0]) ++ concat ((fun t => concat (escape <$> t) ++ [0]) <$> ts)).
  rewrite <- !app_assoc. match goal with |- context [[0] ++ ?x] => change ([0] ++ x) with (0 :: x) end. rewrite next_item_escape. by rewrite IH.
Qed.

(** Putting tokens and whitespace together again. *)
Fixpoint interleave (ws ts : list (list Z)) : list Z :=
  match ws, ts with
  | w :: ws', t :: ts' => w ++ t ++ interleave ws' ts'
  | w :: _, [] => w
  | [], _ => []
  end.

Lemma interleave_text (ps : list (@piece Z)) w : interleave ((pws <$> ps) ++ [w]) (ptok <$> ps) = text ps ++ w.
Proof.
  induction ps as [|p ps IH]; [done|].
  change (pws p ++ ptok p ++ interleave ((pws <$> ps) ++ [w]) (ptok <$> ps) = text (p :: ps) ++ w). rewrite IH.
  change (text (p :: ps)) with (piece_text p ++ text ps). unfold piece_text. by rewrite <- !app_assoc.
Qed.

Definition byte (c : Z) : Prop := 0 <= c < 256.

Lemma SC_ok W Dl ic tl :
  @dispatch_ok Z (SCDispatch W Dl ic tl) byte (isWhitespaceSC W) (isDelimiterSC Dl) (Z.eqb 10)
    (fun c => (writeTokenCharSC ic tl c).1) escape escape.
Proof.
  split; try done. intros c Hc. unfold escape. destruct (Z.eqb_spec 10 c) as [<-|Hn]; [done|].
  destruct (_ || _); rewrite ?not_elem_of_cons; repeat split; try done; apply not_elem_of_nil.
Qed.

(** The items of the two files. *)
Lemma tok_items (o : list (@piece Z)) l : l = concat ((fun p => tok_bytes escape (ptok p)) <$> o) -> all_items (length o) l = ptok <$> o.
Proof.
  intros ->. rewrite <- (app_nil_r (concat _)).
  replace ((fun p => tok_bytes escape (ptok p)) <$> o) with ((fun t => concat (escape <$> t) ++ [0]) <$> (ptok <$> o))
    by (rewrite <- list_fmap_compose; done).
  rewrite <- (length_fmap ptok o) at 1. apply all_items_escape.
Qed.

Lemma white_items (o : list (@piece Z)) w l : l = concat ((fun p => white_bytes escape (pws p)) <$> o) ++ white_bytes escape w ->
  all_items (S (length o)) l = (pws <$> o) ++ [w].
Proof.
  intros ->. rewrite <- (app_nil_r (_ ++ white_bytes escape w)).
  replace (concat ((fun p => white_bytes escape (pws p)) <$> o) ++ white_bytes escape w)
    with (concat ((fun t => concat (escape <$> t) ++ [0]) <$> ((pws <$> o) ++ [w]))).
  - replace (S (length o)) with (length ((pws <$> o) ++ [w])) by (rewrite length_app, length_fmap; simpl; lia).
    apply all_items_escape.
  - rewrite fmap_app, concat_app, <- list_fmap_compose, list_fmap_singleton. cbn [concat]. by rewrite app_nil_r.
Qed.

(** C5: in single-byte mode [readFile] returns for every input.  It cuts the
    input into words and delimiters with whitespace before and after them, in
    the only possible way; the two files hold these pieces with the paragraph
    tokens that [paragraphs] puts between them, the vector holds the number of
    each word in the table, and the result counts the pieces.  Reading both
    files back and putting them together gives the characters of the input,
    and in their order if there are no paragraph delimiters or if all tokens
    are words. *)
Theorem readFile_roundtrip W Dl ic tl para t ws0 (input : list Z) :
  table_rep t ws0 -> Forall byte input -> zlen ws0 + zlen input + 1 < VALUE_MAX ->
  exists r (ps o : list (@piece Z)) w ow ws,
    @readFile Z table (SCDispatch W Dl ic tl) hash_WordTable para t input = Ok r /\
    cuts (isWhitespaceSC W) (isDelimiterSC Dl) input ps w /\
    paragraphs (isWhitespaceSC W) (isDelimiterSC Dl) (Z.eqb 10) para ps w = (o, ow) /\
    all_items (length o) (rtokens r) = ptok <$> o /\
    all_items (S (length o)) (rwhitespace r) = (pws <$> o) ++ [ow] /\
    (para = false \/ Forall (fun p => is_word (isWhitespaceSC W) (isDelimiterSC Dl) (ptok p) = true) ps ->
     interleave (all_items (S (length o)) (rwhitespace r)) (all_items (length o) (rtokens r)) = input) /\
    interleave (all_items (S (length o)) (rwhitespace r)) (all_items (length o) (rtokens r)) ≡ₚ input /\
    table_rep (rtable r) ws /\ ws0 `prefix_of` ws /\
    numbered (fun c => (writeTokenCharSC ic tl c).1) ws o (diffTokens r) /\
    wordCount r = int32 (zlen ps - uncounted (isWhitespaceSC W) (isDelimiterSC Dl) input).
Proof.
  intros Ht Hin Hmax.
  destruct (readFile_spec (HT := hash_WordTable) byte (isWhitespaceSC W) (isDelimiterSC Dl) (Z.eqb 10)
    (fun c => (writeTokenCharSC ic tl c).1) escape escape (SC_ok W Dl ic tl) para t ws0 input Ht Hin Hmax)
    as (r & ps & w & ws & Hr & Hcut & [H1 H2 H3 H4 H5] & Hn & _).
  pose proof (paragraphs_text (isWhitespaceSC W) (isDelimiterSC Dl) (Z.eqb 10) para ps w) as Htext.
  pose proof (paragraphs_perm (isWhitespaceSC W) (isDelimiterSC Dl) (Z.eqb 10) para ps w) as Hperm.
  pose proof (no_paragraphs (isWhitespaceSC W) (isDelimiterSC Dl) (Z.eqb 10) ps w) as Hno.
  destruct (paragraphs _ _ _ _ ps w) as [o ow] eqn:E. cbn [fst snd] in *.
  exists r, ps, o, w, ow, ws. rewrite (tok_items o _ H1), (white_items o ow _ H2), interleave_text.
  do 5 (split; [done|]). rewrite (proj1 Hcut) at 1 2. split; [|done]. intros [->|Hw]; [|by apply Htext].
  rewrite Hno in E. by injection E as <- <-.
Qed.

(** A line, an empty line and two words, with paragraph delimiters. *)
Definition two_paragraphs : list Z := [97; 10; 10; 98; 32; 99].

Lemma readFile_roundtrip_witness :
  exists r (ps o : list (@piece Z)) w ow ws,
    @readFile Z table (SCDispatch space_bitmap [] false (fun c => c)) hash_WordTable true empty_table two_paragraphs = Ok r /\
    cuts (isWhitespaceSC space_bitmap) (isDelimiterSC []) two_paragraphs ps w /\
    paragraphs (isWhitespaceSC space_bitmap) (isDelimiterSC []) (Z.eqb 10) true ps w = (o, ow) /\
    all_items (length o) (rtokens r) = ptok <$> o /\
    all_items (S (length o)) (rwhitespace r) = (pws <$> o) ++ [ow] /\
    (true = false \/ Forall (fun p => is_word (isWhitespaceSC space_bitmap) (isDelimiterSC []) (ptok p) = true) ps ->
     interleave (all_items (S (length o)) (rwhitespace r)) (all_items (length o) (rtokens r)) = two_paragraphs) /\
    interleave (all_items (S (length o)) (rwhitespace r)) (all_items (length o) (rtokens r)) ≡ₚ two_paragraphs /\
    table_rep (rtable r) ws /\ [] `prefix_of` ws /\
    numbered (fun c => (writeTokenCharSC false (fun c => c) c).1) ws o (diffTokens r) /\
    wordCount r = int32 (zlen ps - uncounted (isWhitespaceSC space_bitmap) (isDelimiterSC []) two_paragraphs).
Proof.
  apply (readFile_roundtrip space_bitmap [] false (fun c => c) true empty_table [] two_paragraphs).
  - exact (no_words_rep []).
  - repeat constructor; unfold byte; lia.
  - vm_compute. reflexivity.
Defined.

(** A delimiter behind an empty line comes before the paragraph token, and
    before the rest of the whitespace: "a", two newlines and "(" are put
    together again as "a", newline, "(", newline. *)
Lemma paragraph_delimiter_moves :
  exists r, @readFile Z table (SCDispatch space_bitmap (SET_BIT (replicate 32 0) 40) false (fun c => c)) hash_WordTable true
      empty_table [97; 10; 10; 40] = Ok r /\
    all_items 3 (rtokens r) = [[97]; [40]; []] /\ all_items 4 (rwhitespace r) = [[]; [10]; [10]; []] /\
    interleave (all_items 4 (rwhitespace r)) (all_items 3 (rtokens r)) = [97; 10; 40; 10].
Proof. eexists. split; [vm_compute; reflexivity|]. by vm_compute. Qed.
