(* ===== verification/DoDiff.v ===== *)
(** * doDiff.c: printing the differences

    [doDiff] compares the words of the two files and prints the common,
    deleted and added words with the whitespace between them, reading words
    and whitespace back from the temporary files.  The functions take the
    options as a record and thread the static variables of doDiff.c (with the
    output state of buffer.c) as a [core], and the two input files.  The last
    character read, a global in the source, is an argument. *)

From S2P Require Import Prelude EditScript DiffSeq Analyze HashTable HashProofs FileIO Streams Unicode ContextBuffer Tokenizer.

(** ** Options and state *)

(** The fields of [option] that the printing depends on. *)
Record options := Options {
  o_delStart : list Z;
  o_delStop : list Z;
  o_addStart : list Z;
  o_addStop : list Z;
  o_delColor : list Z;
  o_addColor : list Z;
  o_printDeleted : bool;
  o_printAdded : bool;
  o_printCommon : bool;
  o_needMarkers : bool;
  o_needStartStop : bool;
  o_printer : bool;
  o_less : bool;
  o_colorMode : bool;
  o_lineNumbers : Z;
  o_context : bool;
  o_contextLines : Z;
  o_matchContext : Z;
  o_aggregateChanges : bool;
  o_paraDelim : bool;
  o_paraDelimMarker : list Z;
  o_wdiffOutput : bool;
  o_repeatMarkers : bool;
  o_minimal : bool;                (* [minimal] of the diff engine *)
  o_speed_large_files : bool;      (* [speed_large_files] of the diff engine *)
  o_stdout : bool                  (* [option.output] is the standard output *)
}.

(** [InputFile], from the moment it has been read in. *)
Record ifile := IFile {
  ftokens : Stream;
  fwhitespace : Stream;
  fdiffTokens : list Z;
  lastPrinted : Z;                 (* an int *)
  fbuffer : list Z;                (* whitespaceBuffer *)
  fbufferUsed : bool               (* whitespaceBufferUsed *)
}.

Record core := Core {
  oldLineNumber : Z;
  newLineNumber : Z;
  lastWasLinefeed : bool;
  lastWasDelete : bool;
  lastWasCarriageReturn : bool;
  cout : outstate
}.

Record pstate := PState {
  pcore : core;
  oldFile : ifile;
  newFile : ifile;
  statistics : Statistics;
  differences : Z
}.

(** ADD is 0 and OLD_COMMON is DEL + COMMON. *)
Inductive Mode := ADD | DEL | COMMON | OLD_COMMON.

#[export] Instance Mode_eq_dec : EqDecision Mode.
Proof. solve_decision. Defined.

Definition mode_value (m : Mode) : Z :=
  match m with ADD => 0 | DEL => 1 | COMMON => 2 | OLD_COMMON => 3 end.
(** [mode & COMMON] *)
Definition is_common (m : Mode) : bool := negb (Z.land (mode_value m) 2 =? 0).
(** [mode + COMMON], for ADD and DEL *)
Definition plus_common (m : Mode) : Mode :=
  match m with ADD => COMMON | _ => OLD_COMMON end.

Definition set_out (k : core) (o : outstate) : core :=
  Core (oldLineNumber k) (newLineNumber k) (lastWasLinefeed k) (lastWasDelete k) (lastWasCarriageReturn k) o.
Definition set_linefeed (k : core) (b : bool) : core :=
  Core (oldLineNumber k) (newLineNumber k) b (lastWasDelete k) (lastWasCarriageReturn k) (cout k).
Definition set_delete (k : core) (b : bool) : core :=
  Core (oldLineNumber k) (newLineNumber k) (lastWasLinefeed k) b (lastWasCarriageReturn k) (cout k).
Definition set_return (k : core) (b : bool) : core :=
  Core (oldLineNumber k) (newLineNumber k) (lastWasLinefeed k) (lastWasDelete k) b (cout k).
(** An [unsigned int] counter. *)
Definition count_line (n : Z) : Z := (n + 1) mod 2 ^ 32.
Definition bump_old (k : core) : core :=
  Core (count_line (oldLineNumber k)) (newLineNumber k) (lastWasLinefeed k) (lastWasDelete k) (lastWasCarriageReturn k) (cout k).
Definition bump_new (k : core) : core :=
  Core (oldLineNumber k) (count_line (newLineNumber k)) (lastWasLinefeed k) (lastWasDelete k) (lastWasCarriageReturn k) (cout k).
(** The argument of [printLineNumbers] is an [int]. *)
Definition to_int (n : Z) : Z := if n <? 2 ^ 31 then n else n - 2 ^ 32.

Definition set_tokens (f : ifile) (s : Stream) : ifile :=
  IFile s (fwhitespace f) (fdiffTokens f) (lastPrinted f) (fbuffer f) (fbufferUsed f).
Definition set_whitespace (f : ifile) (s : Stream) : ifile :=
  IFile (ftokens f) s (fdiffTokens f) (lastPrinted f) (fbuffer f) (fbufferUsed f).
Definition set_buffer (f : ifile) (b : list Z) (u : bool) : ifile :=
  IFile (ftokens f) (fwhitespace f) (fdiffTokens f) (lastPrinted f) b u.
Definition next_printed (f : ifile) : ifile :=
  IFile (ftokens f) (fwhitespace f) (fdiffTokens f) (int32 (lastPrinted f + 1)) (fbuffer f) (fbufferUsed f).

Definition ret {A} (a : A) : option (result A) := Some (Ok a).

(** ** Characters read back *)

Class Reader (Char : Type) := {
  readNextChar : Stream -> option (result (Stream * option Char));
  charDataEquals : Char -> Z -> bool;
  char_bytes : Char -> result (list Z)
}.

(** Single bytes. *)
Definition SCReader : Reader Z := {|
  readNextChar s := let '(s, c) := getChar s in ret (s, if c =? EOF then None else Some c);
  charDataEquals c v := c =? v;
  char_bytes c := Ok [c]
|}.

(** Backspace clusters, with the cluster break property of ICU. *)
Definition UTF8Reader (gcb : Z -> Z) : Reader (list Z) := {|
  readNextChar := getBackspaceCluster gcb;
  charDataEquals l v := match l with u :: _ => u =? v | [] => false end;
  char_bytes l := utf16_to_utf8 l 0
|}.

Definition reading_back : positive := 10.
Definition out_of_sync : positive := 11.
Definition equal_change : positive := 12.

(** A character of an item in a temporary file: the end of the file, the end
    of the item, or an unescaped character. *)
Inductive item_char (Char : Type) := ItemEof | ItemEnd | ItemChar (c : Char).
Arguments ItemEof {Char}.
Arguments ItemEnd {Char}.
Arguments ItemChar {Char} c.

(** The greatest number of characters a stream can deliver. *)
Definition stream_fuel (s : Stream) : nat := S (S (S (length (remaining s)))).

Definition resetColor : list Z := [27; 91; 48; 109].
Definition eraseLine : list Z := [27; 91; 75].
Definition marker_line : list Z := replicate 70 61 ++ [10].

Section Print.
Context {Char : Type} `{Reader Char} (opt : options).

(** ** Output *)

Definition put (c : Z) (common : bool) (k : core) : option (result core) :=
  let? o := addchar (o_context opt) (o_contextLines opt) (cout k) c common in ret (set_out k o).

Definition put_string (s : list Z) (k : core) : option (result core) :=
  let? o := writeString (o_context opt) (cout k) s in ret (set_out k o).

Definition put_numbers (k : core) : option (result core) :=
  let? o := printLineNumbers (o_context opt) (o_stdout opt) (o_lineNumbers opt) (cout k)
              (to_int (oldLineNumber k)) (to_int (newLineNumber k)) in
  ret (set_out k o).

Fixpoint put_bytes (l : list Z) (common : bool) (k : core) : option (result core) :=
  match l with
  | [] => ret k
  | c :: l' => let! k := put c common k in put_bytes l' common k
  end.

Definition addCharData (c : Char) (common : bool) (k : core) : option (result core) :=
  match char_bytes c with
  | Ok bytes => put_bytes bytes common k
  | Fatal e => Some (Fatal e)
  end.

Definition when (b : bool) (f : core -> option (result core)) (k : core) : option (result core) :=
  if b then f k else ret k.

Definition doPostLinefeed (mode : Mode) (k : core) : option (result core) :=
  if lastWasLinefeed k then
    let mode := if is_common mode then COMMON else mode in
    let marked := negb (bool_decide (mode = COMMON)) in
    let add := bool_decide (mode = ADD) in
    let k := set_linefeed k false in
    let! k := when (negb (o_lineNumbers opt =? 0)) (fun k =>
      let! k := when (o_colorMode opt && marked) (put_string resetColor) k in
      put_numbers k) k in
    when (o_needStartStop opt && marked) (fun k =>
      let! k := when (o_colorMode opt) (put_string (if add then o_addColor opt else o_delColor opt)) k in
      when (o_repeatMarkers opt) (put_string (if add then o_addStart opt else o_delStart opt)) k) k
  else ret k.

(** At the end of a line inside a marked text: repeat the stop marker and
    erase the rest of the line. *)
Definition stop_line (c : Char) (mode : Mode) (k : core) : option (result core) :=
  when (o_needStartStop opt && negb (is_common mode) &&
        (charDataEquals c 13 || (negb (lastWasCarriageReturn k) && charDataEquals c 10))) (fun k =>
    let! k := when (o_repeatMarkers opt)
                (put_string (if bool_decide (mode = ADD) then o_addStop opt else o_delStop opt)) k in
    when (o_colorMode opt) (put_string eraseLine) k) k.

(** Note what kind of character was printed. *)
Definition printed_char (c : Char) (k : core) : core :=
  set_return (if charDataEquals c 10 then set_linefeed k true else k) (charDataEquals c 13).

Definition handleWhitespaceChar (c : Char) (print : bool) (mode : Mode) (k : core) : option (result core) :=
  let! k := when print (fun k =>
    let! k := doPostLinefeed mode k in
    let! k :=
      (if o_less opt && negb (charDataEquals c 10) && negb (charDataEquals c 13) && bool_decide (mode = DEL) then
        let! k := put 95 (is_common mode) k in put 8 (is_common mode) k
      else stop_line c mode k) in
    let! k := addCharData c (is_common mode) k in
    ret (printed_char c k)) k in
  ret (if charDataEquals c 10 then
         match mode with
         | COMMON | ADD => bump_new k
         | OLD_COMMON | DEL => bump_old k
         end
       else k).

(** ** Reading items *)

Definition readItemChar (s : Stream) : option (result (Stream * item_char Char)) :=
  let! (s, c) := readNextChar s in
  match c with
  | None => ret (s, ItemEof)
  | Some c =>
      if charDataEquals c 0 then ret (s, ItemEnd)
      else if charDataEquals c 1 then
        let! (s, c) := readNextChar s in
        match c with
        | None => Some (Fatal reading_back)
        | Some c => ret (s, ItemChar c)
        end
      else ret (s, ItemChar c)
  end.

(** ** Whitespace *)

(** The loop over a string: nothing is escaped. *)
Fixpoint string_whitespace (n : nat) (s : Stream) (print : bool) (mode : Mode) (k : core) : option (result core) :=
  match n with
  | O => None
  | S n' =>
      let! (s, c) := readNextChar s in
      match c with
      | None => ret k
      | Some c =>
          let! k := handleWhitespaceChar c print mode k in
          string_whitespace n' s print mode k
      end
  end.

(** The loop over the temporary file. *)
Fixpoint file_whitespace (n : nat) (s : Stream) (print : bool) (mode : Mode) (k : core)
  : option (result (Stream * core)) :=
  match n with
  | O => None
  | S n' =>
      let! (s, i) := readItemChar s in
      match i with
      | ItemEof | ItemEnd => ret (s, k)
      | ItemChar c =>
          let! k := handleWhitespaceChar c print mode k in
          file_whitespace n' s print mode k
      end
  end.

Definition handleNextWhitespace (f : ifile) (print : bool) (mode : Mode) (k : core)
  : option (result (ifile * core)) :=
  if fbufferUsed f then
    let s := newStringStream (fbuffer f) in
    let! k := string_whitespace (stream_fuel s) s print mode k in
    ret (set_buffer f [] false, k)
  else
    let! (s, k) := file_whitespace (stream_fuel (fwhitespace f)) (fwhitespace f) print mode k in
    ret (set_whitespace f s, k).

Definition bump (new : bool) : core -> core := if new then bump_new else bump_old.

(** The inner loop on the other file: read up to its next newline, and report
    whether there was one. *)
Fixpoint sync_line (n : nat) (s : Stream) : option (result (Stream * bool)) :=
  match n with
  | O => None
  | S n' =>
      let! (s, i) := readItemChar s in
      match i with
      | ItemEof | ItemEnd => ret (s, false)
      | ItemChar c => if charDataEquals c 10 then ret (s, true) else sync_line n' s
      end
  end.

(** The loop on the file that is printed (A); [valid] is [BValid]. *)
Fixpoint sync_loop (n : nat) (printNew : bool) (sA sB : Stream) (valid : bool) (k : core)
  : option (result (Stream * Stream * bool * core)) :=
  match n with
  | O => None
  | S n' =>
      let! (sA, i) := readItemChar sA in
      match i with
      | ItemEof | ItemEnd => ret (sA, sB, valid, k)
      | ItemChar c =>
          let! k := when (o_printCommon opt) (fun k =>
            let! k := doPostLinefeed COMMON k in
            let! k := addCharData c true k in
            ret (printed_char c k)) k in
          if charDataEquals c 10 then
            let k := bump printNew k in
            if valid then
              let! (sB, found) := sync_line (stream_fuel sB) sB in
              sync_loop n' printNew sA sB found (if found : bool then bump (negb printNew) k else k)
            else sync_loop n' printNew sA sB valid k
          else sync_loop n' printNew sA sB valid k
      end
  end.

(** The loop on what is left of the other file. *)
Fixpoint sync_rest (n : nat) (printNew : bool) (s : Stream) (k : core) : option (result (Stream * core)) :=
  match n with
  | O => None
  | S n' =>
      let! (s, i) := readItemChar s in
      match i with
      | ItemEof | ItemEnd => ret (s, k)
      | ItemChar c => sync_rest n' printNew s (if charDataEquals c 10 then bump (negb printNew) k else k)
      end
  end.

Definition whitespace_stream (f : ifile) : Stream :=
  if fbufferUsed f then newStringStream (fbuffer f) else fwhitespace f.
(** A string stream is freed, the stream of the file has advanced. *)
Definition after_stream (f : ifile) (s : Stream) : ifile :=
  if fbufferUsed f then f else set_whitespace f s.

Definition handleSynchronizedNextWhitespace (printNew : bool) (old new : ifile) (k : core)
  : option (result (ifile * ifile * core)) :=
  let sO := whitespace_stream old in
  let sN := whitespace_stream new in
  let '(sA, sB) := if printNew then (sN, sO) else (sO, sN) in
  let! (sA, sB, valid, k) := sync_loop (stream_fuel sA) printNew sA sB true k in
  let! (sB, k) := (if valid : bool then sync_rest (stream_fuel sB) printNew sB k else ret (sB, k)) in
  let '(sN, sO) := if printNew then (sA, sB) else (sB, sA) in
  ret (after_stream old sO, after_stream new sN, k).

(** ** Words *)

Definition addTokenChar (c : Char) (mode : Mode) (k : core) : option (result core) :=
  let! k := when ((o_printer opt || o_less opt) && negb (charDataEquals c 10) && negb (charDataEquals c 13)) (fun k =>
    match mode with
    | DEL => let! k := put 95 (is_common mode) k in put 8 (is_common mode) k
    | ADD => let! k := addCharData c (is_common mode) k in put 8 (is_common mode) k
    | _ => ret k
    end) k in
  addCharData c (is_common mode) k.

(** The paragraph marker; its characters are printed with the mode itself as
    the argument that says whether they are common. *)
Fixpoint para_marker (n : nat) (s : Stream) (mode : Mode) (k : core) : option (result core) :=
  match n with
  | O => None
  | S n' =>
      let! (s, c) := readNextChar s in
      match c with
      | None => ret k
      | Some c =>
          let! k := doPostLinefeed mode k in
          let! k := addCharData c (negb (mode_value mode =? 0)) k in
          para_marker n' s mode k
      end
  end.

(** The line counters for a newline in a word. *)
Definition count_token_line (mode : Mode) (k : core) : core :=
  match mode with
  | COMMON => bump_new (bump_old k)
  | ADD => bump_new k
  | DEL => bump_old k
  | OLD_COMMON => k
  end.

Definition print_token_char (c : Char) (mode : Mode) (k : core) : option (result core) :=
  let! k := doPostLinefeed mode k in
  let! k := stop_line c mode k in
  let! k := addTokenChar c mode k in
  ret (printed_char c k).

Fixpoint token_loop (n : nat) (s : Stream) (print : bool) (mode : Mode) (empty : bool) (k : core)
  : option (result (Stream * core)) :=
  match n with
  | O => None
  | S n' =>
      let! (s, i) := readItemChar s in
      match i with
      | ItemEof => ret (s, k)
      | ItemEnd =>
          let! k := when (o_paraDelim opt && print && empty && negb (bool_decide (mode = COMMON))) (fun k =>
            let m := newStringStream (o_paraDelimMarker opt) in para_marker (stream_fuel m) m mode k) k in
          ret (s, k)
      | ItemChar c =>
          let! k := when print (print_token_char c mode) k in
          token_loop n' s print mode false (if charDataEquals c 10 then count_token_line mode k else k)
      end
  end.

Definition handleNextToken (s : Stream) (print : bool) (mode : Mode) (k : core) : option (result (Stream * core)) :=
  token_loop (stream_fuel s) s print mode true k.

(** The loop of [handleWord], [n] times at most. *)
Fixpoint word_loop (n : nat) (f : ifile) (idx : Z) (print : bool) (mode : Mode) (k : core)
  : option (result (ifile * core)) :=
  if lastPrinted f <? idx then
    match n with
    | O => None
    | S n' =>
        let! (f, k) := handleNextWhitespace f print mode k in
        let! (s, k) := handleNextToken (ftokens f) print mode k in
        word_loop n' (next_printed (set_tokens f s)) idx print mode k
    end
  else ret (f, k).

Definition handleWord (f : ifile) (idx : Z) (print : bool) (mode : Mode) (k : core) : option (result (ifile * core)) :=
  word_loop (Z.to_nat (idx - lastPrinted f)) f idx print mode k.

(** One common word with the whitespace before it. *)
Definition common_word (print : bool) (p : pstate) : option (result pstate) :=
  let k := pcore p in
  let! (old, new, k) := handleSynchronizedNextWhitespace (negb (lastWasDelete k)) (oldFile p) (newFile p) k in
  let k := set_delete k false in
  let! (sN, k) := handleNextToken (ftokens new) print COMMON k in
  let! (sO, k) := handleNextToken (ftokens old) false OLD_COMMON k in
  ret (PState k (set_tokens old sO) (set_tokens new sN) (statistics p) (differences p)).

Definition count_word (p : pstate) : pstate :=
  PState (pcore p) (next_printed (oldFile p)) (next_printed (newFile p)) (statistics p) (differences p).

Fixpoint common_loop (n : nat) (idx : Z) (p : pstate) : option (result pstate) :=
  if lastPrinted (newFile p) <? idx then
    match n with
    | O => None
    | S n' =>
        let! p := common_word (o_printCommon opt) p in
        common_loop n' idx (count_word p)
    end
  else ret p.

Definition printToCommonWord (idx : Z) (p : pstate) : option (result pstate) :=
  common_loop (Z.to_nat (idx - lastPrinted (newFile p))) idx p.

Definition printWords (start count : Z) (f : ifile) (print : bool) (mode : Mode) (k : core)
  : option (result (ifile * core)) :=
  if lastPrinted f =? start then
    let add := bool_decide (mode = ADD) in
    let! (f, k) := handleNextWhitespace f print (plus_common mode) k in
    let! k := when print (doPostLinefeed COMMON) k in
    let! k := when (print && o_needStartStop opt) (fun k =>
      let! k := when (o_colorMode opt) (put_string (if add then o_addColor opt else o_delColor opt)) k in
      put_string (if add then o_addStart opt else o_delStart opt) k) k in
    let! (s, k) := handleNextToken (ftokens f) print mode k in
    let! (f, k) := handleWord (next_printed (set_tokens f s)) (start + count) print mode k in
    let! k := when print (doPostLinefeed mode) k in
    let! k := when (print && o_needStartStop opt) (fun k =>
      let! k := put_string (if add then o_addStop opt else o_delStop opt) k in
      when (o_colorMode opt) (put_string resetColor) k) k in
    ret (f, k)
  else Some (Fatal out_of_sync).

Definition printDeletedWords (script : change) (p : pstate) : option (result pstate) :=
  let! (f, k) := printWords (line0 script) (deleted script) (oldFile p) (o_printDeleted opt) DEL (pcore p) in
  ret (PState k f (newFile p) (statistics p) (differences p)).

Definition printAddedWords (script : change) (p : pstate) : option (result pstate) :=
  let! (f, k) := printWords (line1 script) (inserted script) (newFile p) (o_printAdded opt) ADD (pcore p) in
  ret (PState k (oldFile p) f (statistics p) (differences p)).

Fixpoint end_loop (n : nat) (p : pstate) : option (result pstate) :=
  if sfeof (ftokens (newFile p)) then ret p
  else
    match n with
    | O => None
    | S n' => let! p := common_word true p in end_loop n' p
    end.

Definition printEnd (p : pstate) : option (result pstate) :=
  if negb (o_printCommon opt) then ret p
  else end_loop (stream_fuel (ftokens (newFile p))) p.

(** [loadNextWhitespace]: the file with its buffer, and whether there is a
    newline in it. *)
Fixpoint load_loop (n : nat) (s : Stream) (buf : list Z) (newlineFound : bool)
  : option (result (Stream * list Z * bool)) :=
  match n with
  | O => None
  | S n' =>
      let! (s, i) := readItemChar s in
      match i with
      | ItemEof | ItemEnd => ret (s, buf, newlineFound)
      | ItemChar c =>
          match char_bytes c with
          | Fatal e => Some (Fatal e)
          | Ok bytes => load_loop n' s (buf ++ bytes) (newlineFound || charDataEquals c 10)
          end
      end
  end.

Definition loadNextWhitespace (f : ifile) : option (result (ifile * bool)) :=
  let! (s, buf, found) := load_loop (stream_fuel (fwhitespace f)) (fwhitespace f) [] false in
  ret (set_buffer (set_whitespace f s) buf true, found).
End Print.

(** ** Words with context *)

Section Context_tokens.
Context {T : Type} `{WordTable T}.

(** The bytes of an array of [ValueType]s, 8 bytes each. *)
Definition value_bytes (v : Z) : list Z := (fun i => Z.shiftr v (8 * Z.of_nat i) mod 256) <$> seq 0 8.
Definition array_bytes (l : list Z) : list Z := concat (value_bytes <$> l).

Fixpoint number_all (t : T) (l : list (list Z)) : result (T * list Z) :=
  match l with
  | [] => Ok (t, [])
  | a :: l' =>
      let* (t, v) := wt_get t (array_bytes a) in
      let* (t, vs) := number_all t l' in
      Ok (t, v :: vs)
  end.

(** The arrays that are numbered, for the [dataRange] values in [d]: the
    beginning with -1 in front, all runs of [context + 1] values, and the end
    with -1 behind. *)
Definition context_arrays (d : list Z) (context : Z) : list (list Z) :=
  ((fun i => slice (-1 :: slice d 0 context) 0 (Z.of_nat i + 2)) <$> seq 0 (Z.to_nat context)) ++
  ((fun i => slice d (Z.of_nat i) (Z.of_nat i + context + 1)) <$> seq 0 (Z.to_nat (zlen d - context))) ++
  ((fun i => slice (slice d (zlen d - context) (zlen d) ++ [-1]) (Z.of_nat i) (context + 1)) <$> seq 0 (Z.to_nat context)).

Definition initializeContextDiffTokens (t : T) (diffTokens : list Z) (range : option (Z * Z)) (context : Z)
  : result (T * list Z) :=
  let d := match range with
           | None => diffTokens
           | Some (start, len) => slice diffTokens start (start + len)
           end in
  number_all t (context_arrays d context).
End Context_tokens.

(** ** doDiff *)

Inductive command_t := C_ADD | C_DEL | C_CHANGE.

#[export] Instance command_eq_dec : EqDecision command_t.
Proof. solve_decision. Defined.

Definition command_of (ch : change) : command_t :=
  if inserted ch =? 0 then C_DEL else if deleted ch =? 0 then C_ADD else C_CHANGE.

(** A range of words in both files. *)
Record base_range := Range {
  start0 : Z;
  count0 : Z;
  start1 : Z;
  count1 : Z
}.

Definition offset_change (r : option base_range) (ch : change) : change :=
  match r with
  | Some r => Change (line0 ch + start0 r) (line1 ch + start1 r) (deleted ch) (inserted ch)
  | None => ch
  end.

(** What is done with a change: print it, or compare the words again with
    less context. *)
Inductive trimmed :=
  | Print (command : command_t) (ch : change)
  | Refine (r : base_range) (context : Z).

(** Changes between words with context are too long. *)
Definition trim_change (matchContext context : Z) (aggregateChanges : bool) (ch : change) : result trimmed :=
  let command := command_of ch in
  if negb (matchContext =? 0) && negb (context =? 0) && bool_decide (command = C_CHANGE) then
    if (deleted ch <=? context) || (inserted ch <=? context) then
      if deleted ch =? inserted ch then Fatal equal_change
      else if deleted ch <? inserted ch then
        Ok (Print C_ADD (Change (line0 ch) (line1 ch) (deleted ch) (inserted ch - deleted ch)))
      else Ok (Print C_DEL (Change (line0 ch) (line1 ch) (deleted ch - inserted ch) (inserted ch)))
    else if negb aggregateChanges then
      Ok (Refine (Range (line0 ch) (deleted ch - context) (line1 ch) (inserted ch - context)) ((context / 4) * 2))
    else Ok (Print C_CHANGE (Change (line0 ch) (line1 ch) (deleted ch - context) (inserted ch - context)))
  else Ok (Print command ch).

(** The counters are [int]s. *)
Definition add_statistics (s : Statistics) (command : command_t) (ch : change) : Statistics :=
  match command with
  | C_ADD => MkStatistics (int32 (added s + inserted ch)) (deleted_ s) (oldChanged s) (newChanged s) (oldTotal s) (newTotal s)
  | C_DEL => MkStatistics (added s) (int32 (deleted_ s + deleted ch)) (oldChanged s) (newChanged s) (oldTotal s) (newTotal s)
  | C_CHANGE => MkStatistics (added s) (deleted_ s) (int32 (oldChanged s + deleted ch)) (int32 (newChanged s + inserted ch))
                  (oldTotal s) (newTotal s)
  end.

Definition with_core (p : pstate) (k : core) : pstate :=
  PState k (oldFile p) (newFile p) (statistics p) (differences p).

(** [puts] *)
Definition puts_line (here : bool) (l : list Z) (p : pstate) : pstate :=
  with_core p (set_out (pcore p) (write_std here (cout (pcore p)) l)).

Section DoDiff.
Context {Char T : Type} `{Reader Char} `{WordTable T} (opt : options).
(** The memory that the comparison finds, and the number of words. *)
Context (mem : memory) (baseHashMax : Z) (fresh : T).

(** The whitespace before a change: whether to print the added words first.
    With newlines in both whitespaces they are printed here, together. *)
Definition change_whitespace (command : command_t) (p : pstate) : option (result (pstate * bool)) :=
  if bool_decide (command = C_CHANGE) && negb (o_wdiffOutput opt) then
    let! (old, found) := loadNextWhitespace (oldFile p) in
    if found : bool then
      let! (new, found) := loadNextWhitespace (newFile p) in
      if found : bool then
        let k := pcore p in
        let! (old, new, k) := handleSynchronizedNextWhitespace opt (negb (lastWasDelete k)) old new k in
        ret (PState k (set_buffer old [] (fbufferUsed old)) (set_buffer new [32] (fbufferUsed new))
               (statistics p) (differences p), false)
      else ret (PState (pcore p) old new (statistics p) (differences p), true)
    else ret (PState (pcore p) old (newFile p) (statistics p) (differences p), false)
  else ret (p, false).

(** The words of a change, in the order the whitespace asks for. *)
Definition print_words (command : command_t) (ch : change) (p : pstate) : option (result pstate) :=
  let! (p, reverseDeleteAdd) := change_whitespace command p in
  if reverseDeleteAdd : bool then
    let! p := printAddedWords opt ch p in printDeletedWords opt ch p
  else
    let! p := (if negb (bool_decide (command = C_ADD)) then printDeletedWords opt ch p else ret p) in
    if negb (bool_decide (command = C_DEL)) then printAddedWords opt ch p else ret p.

Definition print_change (command : command_t) (ch : change) (p : pstate) : option (result pstate) :=
  let! p := printToCommonWord opt (line1 ch) p in
  let! p := print_words command ch p in
  let p := if o_needMarkers opt then
             let p := puts_line (o_stdout opt) (10 :: marker_line) p in with_core p (set_linefeed (pcore p) true)
           else p in
  let p := if bool_decide (command = C_DEL) && o_printDeleted opt && negb (o_wdiffOutput opt) then
             with_core p (set_delete (pcore p) true)
           else p in
  ret (PState (pcore p) (oldFile p) (newFile p) (add_statistics (statistics p) command ch) (differences p)).

Definition set_differences (p : pstate) : pstate :=
  PState (pcore p) (oldFile p) (newFile p) (statistics p) 1.

(** The changes one by one; [refine] compares a range again. *)
Fixpoint print_script (refine : base_range -> Z -> pstate -> option (result pstate)) (r : option base_range) (context : Z)
    (script : list change) (p : pstate) : option (result pstate) :=
  match script with
  | [] => ret p
  | ch :: script' =>
      let p := set_differences p in
      match trim_change (o_matchContext opt) context (o_aggregateChanges opt) (offset_change r ch) with
      | Fatal e => Some (Fatal e)
      | Ok (Print command ch) =>
          let! p := print_change command ch p in
          print_script refine r context script' p
      | Ok (Refine range newContext) =>
          let! p := refine range newContext p in
          print_script refine r context script' p
      end
  end.

Definition range_words (r : option base_range) (p : pstate) : list Z * list Z :=
  match r with
  | None => (fdiffTokens (oldFile p), fdiffTokens (newFile p))
  | Some r => (slice (fdiffTokens (oldFile p)) (start0 r) (start0 r + count0 r),
               slice (fdiffTokens (newFile p)) (start1 r) (start1 r + count1 r))
  end.

(** The context fits in both ranges and is even. *)
Definition trim_context (n0 n1 context : Z) : Z :=
  let context := if n0 <? context then n0 else context in
  let context := if n1 <? context then n1 else context in
  Z.land context (Z.lnot 1).

Definition compare_words (equiv_max : Z) (words0 words1 : list Z) : option (list change) :=
  diff_2_files (o_minimal opt) (o_speed_large_files opt) equiv_max mem
    (FileData (zlen words0) words0) (FileData (zlen words1) words1).

(** The script for a range: of the words themselves, or of the words with
    context. *)
Definition range_script (r : option base_range) (context : Z) (p : pstate) : option (result (list change)) :=
  let '(words0, words1) := range_words r p in
  if context =? 0 then
    let? script := compare_words baseHashMax words0 words1 in ret script
  else
    let range0 := (fun r => (start0 r, count0 r)) <$> r in
    let range1 := (fun r => (start1 r, count1 r)) <$> r in
    match (let* (t, c0) := initializeContextDiffTokens fresh (fdiffTokens (oldFile p)) range0 context in
           let* (t, c1) := initializeContextDiffTokens t (fdiffTokens (newFile p)) range1 context in
           Ok (t, c0, c1)) with
    | Fatal e => Some (Fatal e)
    | Ok (t, c0, c1) => let? script := compare_words (wt_reset t).2 c0 c1 in ret script
    end.

(** [n] bounds the depth of the recursion on the context. *)
Fixpoint doDiffInternal (n : nat) (r : option base_range) (context : Z) (p : pstate) : option (result pstate) :=
  match n with
  | O => None
  | S n' =>
      let '(words0, words1) := range_words r p in
      let context := if context =? 0 then 0 else trim_context (zlen words0) (zlen words1) context in
      let! script := range_script r context p in
      let p := if o_needMarkers opt && bool_decide (r = None) then puts_line (o_stdout opt) marker_line p else p in
      print_script (fun range c p => doDiffInternal n' (Some range) c p) r context script p
  end.

Definition start_file (f : ifile) : ifile :=
  IFile (ftokens f) (fwhitespace f) (fdiffTokens f) 0 [] (fbufferUsed f).

Definition doDiff (p : pstate) : option (result pstate) :=
  let p := PState (pcore p) (start_file (oldFile p)) (start_file (newFile p)) (statistics p) (differences p) in
  let! p := doDiffInternal (S (Z.to_nat (o_matchContext opt))) None (o_matchContext opt) p in
  printEnd opt p.
End DoDiff.

(** ** prepareAndExecuteDiff (dwdiff.c) *)

Definition input_file {T} (r : rstate T) : ifile :=
  IFile (newFileStream (rtokens r)) (newFileStream (rwhitespace r)) (diffTokens r) 0 [] false.

(** Both files are read with one table of words and compared; [k], [s] and [d]
    are the static variables before the call. *)
Definition prepareAndExecuteDiff {Char Char' T : Type} `{Dispatch Char} `{Reader Char'} `{WordTable T}
    (opt : options) (mem : memory) (t : T) (old new : list Char) (k : core) (s : Statistics) (d : Z)
  : option (result pstate) :=
  match (let* r0 := readFile (o_paraDelim opt) t old in
         let* r1 := readFile (o_paraDelim opt) (rtable r0) new in
         Ok (r0, r1)) with
  | Fatal e => Some (Fatal e)
  | Ok (r0, r1) =>
      let '(fresh, baseHashMax) := wt_reset (rtable r1) in
      doDiff opt mem baseHashMax fresh
        (PState k (input_file r0) (input_file r1)
           (MkStatistics (added s) (deleted_ s) (oldChanged s) (newChanged s) (wordCount r0) (wordCount r1)) d)
  end.

Definition initial_core (contextLines : Z) : core := Core 1 1 true false false (initContextBuffers contextLines).
Definition no_statistics : Statistics := MkStatistics 0 0 0 0 0 0.

(** ** Examples *)

Definition wdiff_options : options :=
  Options [91; 45] [45; 93] [123; 43] [43; 125] [] [] true true true false true false false false 0 false 0 0 false
    false [] true false false false true.

(** "a b c" and "a x c" *)
Example prepareAndExecuteDiff_small :
  match prepareAndExecuteDiff (H := SCDispatch space_bitmap (replicate 32 0) false (fun c => c)) (H0 := SCReader)
          (H1 := hash_WordTable) wdiff_options zero_memory empty_table [97; 32; 98; 32; 99] [97; 32; 120; 32; 99]
          (initial_core 0) no_statistics 0 with
  | Some (Ok p) => output (cout (pcore p)) = [97; 32; 91; 45; 98; 45; 93; 32; 123; 43; 120; 43; 125; 32; 99] /\
                   differences p = 1
  | _ => False
  end.
Proof. vm_compute. split; reflexivity. Qed.
