(* ===== verification/Reader.v ===== *)
(** * Reading items back

    The routines of doDiff.c read characters from temporary files and strings
    through the class [Reader].  [ReaderSpec] says what a reader promises to
    them: characters stand for bytes, newlines are characters of their own,
    and a temporary file that the tokenizer wrote delivers the items in it one
    after the other.  Everything that is proved about the printing uses only
    this interface; single bytes implement it at the end of this file, UTF-8
    in ReaderUTF8. *)

From S2P Require Import Prelude EditScript FileIO Streams UnicodeProofs Tokenizer Pieces TokenizerProofs DoDiff.

(** ** Newlines *)

Definition newline_count (c : Z) : Z := if c =? 10 then 1 else 0.

(** The newlines in a text. *)
Definition newlines (l : list Z) : Z := foldr (fun c n => newline_count c + n) 0 l.

Lemma newlines_app l1 l2 : newlines (l1 ++ l2) = newlines l1 + newlines l2.
Proof. induction l1 as [|c l1 IH]; simpl; [lia|]. rewrite IH. lia. Qed.

Lemma newlines_nonneg l : 0 <= newlines l.
Proof. induction l as [|c l IH]; simpl; [lia|]. unfold newline_count. case_if; lia. Qed.

Definition has_newline (l : list Z) : bool := existsb (Z.eqb 10) l.

Lemma has_newline_cons c l : has_newline (c :: l) = (c =? 10) || has_newline l.
Proof. unfold has_newline. simpl. by rewrite Z.eqb_sym. Qed.

Lemma has_newline_app l1 l2 : has_newline (l1 ++ l2) = has_newline l1 || has_newline l2.
Proof. apply existsb_app. Qed.

Lemma has_newline_count l : has_newline l = negb (newlines l =? 0).
Proof.
  induction l as [|c l IH]; [done|]. rewrite has_newline_cons, IH. simpl. pose proof (newlines_nonneg l).
  unfold newline_count. destruct (c =? 10); simpl; [|by rewrite Z.add_0_l].
  symmetry. apply negb_true_iff, Z.eqb_neq. lia.
Qed.

(** ** The characters of a reader *)

(** [char_ok] holds of the characters that are delivered. *)
Class ReaderChars (Char : Type) `{Reader Char} := {
  char_ok : Char -> Prop;
  char_text : Char -> list Z;
  char_bytes_text c : char_ok c -> char_bytes c = Ok (char_text c);
  char_nonempty c : char_ok c -> char_text c <> [];
  char_newline c : char_ok c -> newlines (char_text c) = if charDataEquals c 10 then 1 else 0;
  char_feed c : char_ok c -> charDataEquals c 10 = true -> char_text c = [10]
}.

Section Items.
Context {Char : Type} `{ReaderChars Char}.

Definition chars (cs : list Char) : list Z := concat (char_text <$> cs).

Lemma chars_cons c cs : chars (c :: cs) = char_text c ++ chars cs.
Proof. done. Qed.

(** [s] delivers the characters [cs], then the end of the item or, with
    [eof], of the file, and is [s'] afterwards.  There are not more
    characters than the stream can deliver at most. *)
Fixpoint delivers_chars (eof : bool) (cs : list Char) (s s' : Stream) : Prop :=
  match cs with
  | [] => readItemChar s = ret (s', if eof then ItemEof else ItemEnd)
  | c :: cs' => char_ok c /\ (length cs < stream_fuel s)%nat /\
      exists s1, readItemChar s = ret (s1, ItemChar c) /\ delivers_chars eof cs' s1 s'
  end.

(** The same for the text [w] of the characters. *)
Definition delivers (eof : bool) (w : list Z) (s s' : Stream) : Prop :=
  exists cs, chars cs = w /\ delivers_chars eof cs s s'.

Lemma delivers_fuel eof cs s s' : delivers_chars eof cs s s' -> (length cs < stream_fuel s)%nat.
Proof. destruct cs; [intros _; unfold stream_fuel; simpl; lia|]. by intros (_ & ? & _). Qed.

(** Reading without escapes, to the end of a string. *)
Fixpoint reads_chars (cs : list Char) (s : Stream) : Prop :=
  match cs with
  | [] => exists s', readNextChar s = ret (s', None)
  | c :: cs' => char_ok c /\ (length cs < stream_fuel s)%nat /\
      exists s1, readNextChar s = ret (s1, Some c) /\ reads_chars cs' s1
  end.

(** The string [w] is read as it is. *)
Definition readable (w : list Z) : Prop := exists cs, chars cs = w /\ reads_chars cs (newStringStream w).

(** Characters that do not stand for the end or an escape. *)
Definition ordinary_char (c : Char) : Prop := charDataEquals c 0 = false /\ charDataEquals c 1 = false.

Definition plain_string (w : list Z) : Prop :=
  exists cs, chars cs = w /\ Forall ordinary_char cs /\ reads_chars cs (newStringStream w).

Lemma reads_delivers cs s : Forall ordinary_char cs -> reads_chars cs s -> exists s', delivers_chars true cs s s'.
Proof.
  revert s. induction cs as [|c cs IH]; intros s Hc; cbn [reads_chars delivers_chars].
  - intros (s' & Hs). exists s'. unfold readItemChar. by rewrite Hs.
  - apply Forall_cons in Hc as [[H0' H1] Hc]. intros (Hok & Hf & s1 & Hs & Hr).
    destruct (IH s1 Hc Hr) as (s' & Hd). exists s'. split; [done|]. split; [done|]. exists s1. split; [|done].
    unfold readItemChar. rewrite Hs. cbn [obind_result ret]. by rewrite H0', H1.
Qed.

Lemma plain_delivers w : plain_string w -> exists s', delivers true w (newStringStream w) s'.
Proof.
  intros (cs & Hw & Hc & Hr). destruct (reads_delivers cs _ Hc Hr) as (s' & Hd). by exists s', cs.
Qed.

Lemma plain_readable w : plain_string w -> readable w.
Proof. intros (cs & Hw & _ & Hr). by exists cs. Qed.

(** The characters of a string, as a reader splits it. *)
Fixpoint read_string (n : nat) (s : Stream) : list Char :=
  match n with
  | O => []
  | S n' =>
      match readNextChar s with
      | Some (Ok (s', Some c)) => c :: read_string n' s'
      | _ => []
      end
  end.
Definition string_chars (w : list Z) : list Char := let s := newStringStream w in read_string (stream_fuel s) s.

Lemma read_string_reads cs n s : reads_chars cs s -> (length cs <= n)%nat -> read_string n s = cs.
Proof.
  revert n s. induction cs as [|c cs IH]; intros [|n] s Hr Hn; simpl in Hn; try lia; [done| |]; cbn [read_string].
  - destruct Hr as (s' & ->). done.
  - destruct Hr as (_ & _ & s1 & -> & Hr). cbn. f_equal. apply IH; [done|lia].
Qed.

Lemma string_reads cs w : reads_chars cs (newStringStream w) -> string_chars w = cs.
Proof.
  intros Hr. unfold string_chars. cbv zeta. apply read_string_reads; [done|].
  destruct cs; [simpl; lia|]. destruct Hr as (_ & Hl & _). lia.
Qed.

Lemma readable_chars w : readable w -> chars (string_chars w) = w /\ reads_chars (string_chars w) (newStringStream w).
Proof. intros (cs & Hw & Hr). by rewrite (string_reads cs w Hr). Qed.

Lemma plain_chars w : plain_string w -> exists s', delivers_chars true (string_chars w) (newStringStream w) s'.
Proof. intros (cs & Hw & Hc & Hr). rewrite (string_reads cs w Hr). by apply reads_delivers. Qed.

(** [s] delivers the items [css] and then the end of the file. *)
Fixpoint delivers_items (css : list (list Char)) (s : Stream) : Prop :=
  sfeof s = false /\ (length css < stream_fuel s)%nat /\
  match css with
  | [] => exists s', delivers_chars true [] s s' /\ sfeof s' = true
  | cs :: css' => exists s', delivers_chars false cs s s' /\ delivers_items css' s'
  end.

Lemma items_next cs css s : delivers_items (cs :: css) s -> exists s', delivers_chars false cs s s' /\ delivers_items css s'.
Proof. by intros (_ & _ & ?). Qed.

Lemma items_eof css s : delivers_items css s -> sfeof s = false.
Proof. destruct css; by intros [? _]. Qed.

Lemma delivers_ok eof cs s s' : delivers_chars eof cs s s' -> Forall char_ok cs.
Proof.
  revert s. induction cs as [|c cs IH]; intros s Hd; [constructor|]. destruct Hd as (Hc & _ & s1 & _ & Hd). constructor; [done|by eapply IH].
Qed.

Lemma delivered_ok css s : delivers_items css s -> Forall (Forall char_ok) css.
Proof.
  revert s. induction css as [|cs css IH]; intros s Hs; [constructor|]. apply items_next in Hs as (s' & Hd & Hs).
  constructor; [by eapply delivers_ok|by eapply IH].
Qed.

Lemma items_fuel css s : delivers_items css s -> (length css < stream_fuel s)%nat.
Proof. destruct css; by intros (_ & ? & _). Qed.
End Items.

(** ** What a reader promises *)

(** [holds s ts]: the stream [s] of a temporary file holds the items [ts]. *)
Class ReaderSpec (Char : Type) `{ReaderChars Char} := {
  holds : Stream -> list (list Z) -> Prop;
  holds_next s t ts : holds s (t :: ts) -> exists s', delivers false t s s' /\ holds s' ts;
  holds_nil s : holds s [] -> exists s', delivers true [] s s' /\ sfeof s' = true;
  holds_eof s ts : holds s ts -> sfeof s = false;
  holds_length s ts : holds s ts -> (length ts < stream_fuel s)%nat;
  plain_nothing : plain_string [];
  plain_space : plain_string [32]
}.

Lemma holds_items {Char : Type} `{ReaderSpec Char} s ts : holds s ts -> exists css, chars <$> css = ts /\ delivers_items css s.
Proof.
  revert s. induction ts as [|t ts IH]; intros s Hs; pose proof (holds_eof s _ Hs) as He; pose proof (holds_length s _ Hs) as Hl.
  - exists []. split; [done|]. split; [done|]. split; [done|].
    destruct (holds_nil s Hs) as (s' & (cs & Hcs & Hd) & Hf). exists s'. split; [|done].
    destruct cs as [|c cs]; [done|]. exfalso. rewrite chars_cons in Hcs. apply app_eq_nil in Hcs as [E _].
    destruct Hd as (Hc & _). by apply (char_nonempty c).
  - destruct (holds_next s t ts Hs) as (s' & (cs & <- & Hd) & Hs'). destruct (IH s' Hs') as (css & <- & Hi).
    exists (cs :: css). split; [done|]. split; [done|]. split; [by rewrite !length_cons, length_fmap in *|]. by exists s'.
Qed.

(** ** Single bytes *)

Section SingleBytes.
Local Existing Instance SCReader.

#[export] Instance SCChars : ReaderChars Z.
Proof.
  refine {| char_ok := fun _ => True; char_text := fun c => [c] |}.
  - done.
  - done.
  - intros c _. simpl. unfold newline_count. by case_if.
  - intros c _ ->%Z.eqb_eq. done.
Defined.

Lemma SC_chars l : chars l = l.
Proof. induction l as [|c l IH]; [done|]. rewrite chars_cons, IH. done. Qed.

Lemma readNextChar_cons s c r : remaining s = c :: r -> 0 <= c -> readNextChar s = ret (advance s [c] r, Some c).
Proof.
  intros Hr Hc. simpl. rewrite (getChar_cons s c r Hr). unfold FileIO.EOF. by rewrite (proj2 (Z.eqb_neq c (-1))) by lia.
Qed.

Lemma readItemChar_escape s c r : remaining s = escape c ++ r -> 0 <= c ->
  readItemChar s = ret (advance s (escape c) r, ItemChar c).
Proof.
  intros Hr Hc. unfold readItemChar. revert Hr. unfold escape.
  destruct (Z.eqb_spec c 0) as [->|H0]; [|destruct (Z.eqb_spec c 1) as [->|H1]]; cbn [orb app]; intros Hr;
    rewrite (readNextChar_cons s _ _ Hr) by lia; cbn [obind_result ret].
  - change (charDataEquals 1 0) with false. change (charDataEquals 1 1) with true. cbv iota.
    erewrite readNextChar_cons by (done || lia). by rewrite advance_twice.
  - change (charDataEquals 1 0) with false. change (charDataEquals 1 1) with true. cbv iota.
    erewrite readNextChar_cons by (done || lia). by rewrite advance_twice.
  - change (charDataEquals c 0) with (c =? 0). change (charDataEquals c 1) with (c =? 1).
    by rewrite (proj2 (Z.eqb_neq c 0)), (proj2 (Z.eqb_neq c 1)) by done.
Qed.

Lemma escaped_length w : (length w <= length (concat (escape <$> w)))%nat.
Proof.
  induction w as [|c w IH]; [done|]. change (concat (escape <$> (c :: w))) with (escape c ++ concat (escape <$> w)).
  rewrite length_app. simpl. assert (1 <= length (escape c))%nat by (unfold escape; by destruct (_ || _); simpl; lia). lia.
Qed.

Lemma SC_delivers w s r : Forall byte w -> remaining s = concat (escape <$> w) ++ 0 :: r ->
  delivers_chars false w s (advance s (concat (escape <$> w) ++ [0]) r).
Proof.
  revert s. induction w as [|c w IH]; intros s Hw Hr; cbn [delivers_chars].
  - unfold readItemChar. by rewrite (readNextChar_cons s 0 r Hr) by lia.
  - apply Forall_cons in Hw as [Hc Hw].
    pose proof (escaped_length w) as Hl.
    change (concat (escape <$> (c :: w))) with (escape c ++ concat (escape <$> w)) in *. rewrite <- app_assoc in Hr.
    split; [done|]. split.
    { unfold stream_fuel. rewrite Hr, !length_app. simpl. lia. }
    eexists. split; [apply (readItemChar_escape s c _ Hr); unfold byte in Hc; lia|].
    rewrite <- app_assoc, <- (advance_twice s _ _ (concat (escape <$> w) ++ 0 :: r)). by apply IH.
Qed.

Lemma SC_reads w s : Forall byte w -> remaining s = w -> reads_chars w s.
Proof.
  revert s. induction w as [|c w IH]; intros s Hw Hr; cbn [reads_chars].
  - eexists. simpl. unfold getChar. by rewrite Hr.
  - apply Forall_cons in Hw as [Hc Hw]. split; [done|]. split; [unfold stream_fuel; rewrite Hr; simpl; lia|].
    eexists. split; [apply readNextChar_cons; [exact Hr|unfold byte in Hc; lia]|]. by apply IH.
Qed.

Lemma SC_readable w : Forall byte w -> readable w.
Proof. intros Hw. exists w. split; [apply SC_chars|]. by apply SC_reads. Qed.

(** A byte that is not used as end or escape. *)
Definition ordinary (c : Z) : Prop := 2 <= c < 256.

Lemma SC_plain w : Forall ordinary w -> plain_string w.
Proof.
  intros Hw. exists w. split; [apply SC_chars|]. split; [|apply SC_reads; [|done]].
  - eapply Forall_impl; [exact Hw|]. unfold ordinary, ordinary_char. intros c Hc. simpl. split; apply Z.eqb_neq; lia.
  - eapply Forall_impl; [exact Hw|]. unfold ordinary, byte. intros c Hc. simpl. lia.
Qed.

(** A stream of a temporary file that holds the items [ts]. *)
Record SC_holds (s : Stream) (ts : list (list Z)) : Prop := {
  hd_file : svtable s = fileVtable;
  hd_eof : seof s = false;
  hd_bytes : Forall (Forall byte) ts;
  hd_items : remaining s = concat ((fun t => concat (escape <$> t) ++ [0]) <$> ts)
}.

Lemma SC_holds_next s t ts : SC_holds s (t :: ts) -> exists s', delivers false t s s' /\ SC_holds s' ts.
Proof.
  intros [H1 H2 H3 H4]. apply Forall_cons in H3 as [Ht Hts]. eexists. split.
  - exists t. split; [apply SC_chars|]. apply (SC_delivers t s (concat ((fun t => concat (escape <$> t) ++ [0]) <$> ts)) Ht).
    rewrite H4. simpl. by rewrite <- app_assoc.
  - by split.
Qed.

Lemma SC_holds_nil s : SC_holds s [] -> exists s', delivers true [] s s' /\ sfeof s' = true.
Proof.
  intros [H1 H2 H3 H4]. exists (set_source s (consumed s) [] (isFileStream s)). split.
  - exists []. split; [done|]. cbn [delivers_chars]. unfold readItemChar. simpl. unfold getChar. by rewrite H4.
  - unfold sfeof. simpl. unfold isFileStream. by apply bool_decide_eq_true_2.
Qed.

Lemma items_length (f : list Z -> list Z) (ts : list (list Z)) : (length ts <= length (concat ((fun t => f t ++ [0%Z]) <$> ts)))%nat.
Proof.
  induction ts as [|t ts IH]; [done|]. rewrite fmap_cons. cbn [concat length]. rewrite !length_app. simpl. lia.
Qed.

#[export] Instance SCSpec : ReaderSpec Z.
Proof.
  refine {| holds := SC_holds |}.
  - apply SC_holds_next.
  - apply SC_holds_nil.
  - intros s ts Hh. apply Hh.
  - intros s ts Hh. unfold stream_fuel. rewrite (hd_items _ _ Hh). pose proof (items_length (fun t => concat (escape <$> t)) ts). lia.
  - apply SC_plain. constructor.
  - apply SC_plain. repeat constructor; lia.
Defined.
End SingleBytes.
