(* ===== verification/ReaderUTF8.v ===== *)
(** * Reading items back as UTF-8

    In UTF-8 mode doDiff.c reads grapheme clusters, split by another table
    than the input.  Temporary files and strings that hold the encoding of
    code points deliver all of them, cluster by cluster: the contract of
    Reader.  The grapheme cluster properties are those of the ICU library; all
    that is used is that 0, 1 and line feed are control characters. *)

From S2P Require Import Prelude EditScript FileIO Streams Unicode UnicodeProofs Tokenizer Pieces TokenizerProofs DoDiff Reader.

(** Code points that are written and read back unchanged. *)
Definition point_ok (c : Z) : Prop := plain c /\ first_of_length c = false.

(** Characters with a meaning in the temporary files, and line feed. *)
Definition special (c : Z) : bool := (c =? 0) || (c =? 1) || (c =? 10).

(** The cluster [u] of the code points [cs]. *)
Record cluster_of (u cs : list Z) : Prop := {
  cl_units : u = units cs;
  cl_points : Forall point_ok cs;
  cl_nonempty : cs <> [];
  cl_alone : existsb special cs = true -> exists c, cs = [c]
}.

Definition text_of (u : list Z) : list Z := match utf16_to_utf8 u 0 with Ok l => l | Fatal _ => [] end.

Lemma cluster_text u cs : cluster_of u cs -> utf16_to_utf8 u 0 = Ok (encoded cs) /\ text_of u = encoded cs.
Proof. intros [-> Hc _ _]. unfold text_of. by rewrite units_roundtrip. Qed.

Lemma encoded_app cs1 cs2 : encoded (cs1 ++ cs2) = encoded cs1 ++ encoded cs2.
Proof. unfold encoded. by rewrite fmap_app, concat_app. Qed.

Lemma encoded_cons c cs : encoded (c :: cs) = utf8 c ++ encoded cs.
Proof. done. Qed.

Lemma high_byte b l : 128 <= b -> newlines (b :: l) = newlines l.
Proof. intros Hb. simpl. unfold newline_count. by rewrite (proj2 (Z.eqb_neq b 10)) by lia. Qed.

Lemma utf8_newlines c : 0 <= c -> newlines (utf8 c) = newline_count c.
Proof.
  intros Hc. unfold utf8. repeat case_if; rewrite ?high_byte by lia; simpl; unfold newline_count; case_if; lia.
Qed.

(** Counted in the code points, too. *)
Lemma encoded_newlines cs : Forall point_ok cs -> newlines (encoded cs) = newlines cs.
Proof.
  induction cs as [|c cs IH]; [done|]. intros [[[Hc _] _] Hcs]%Forall_cons. rewrite encoded_cons, newlines_app, (IH Hcs).
  rewrite utf8_newlines by apply Hc. done.
Qed.

Lemma first_unit c cs : point_ok c -> exists x l, units (c :: cs) = x :: l /\ forall v, 0 <= v < 128 -> (x =? v) = (c =? v).
Proof.
  intros [[Hc Hp] Hf]. unfold codepoint, first_of_length in *. zify_bool. change (units (c :: cs)) with (addUCS4ToUTF16Buffer c ++ units cs).
  destruct (Z.ltb_spec 0x10000 c).
  - rewrite supplementary_units by lia. eexists _, _. split; [done|]. intros v Hv.
    rewrite (proj2 (Z.eqb_neq _ v)), (proj2 (Z.eqb_neq c v)) by lia. done.
  - unfold addUCS4ToUTF16Buffer. case_if; [lia|]. eexists _, _. split; [done|]. intros v Hv. by rewrite Z.mod_small by lia.
Qed.

Lemma none_special cs : existsb special cs = false -> Forall (fun c => special c = false) cs.
Proof.
  induction cs as [|c cs IH]; [constructor|]. cbn [existsb]. intros [Hc Hcs]%orb_false_iff. constructor; [done|by apply IH].
Qed.

Lemma no_newlines cs : existsb special cs = false -> newlines cs = 0.
Proof.
  induction cs as [|c cs IH]; [done|]. cbn [existsb]. intros [Hc Hcs]%orb_false_iff. simpl. rewrite (IH Hcs).
  unfold newline_count. unfold special in Hc. zify_bool. case_if; lia.
Qed.

Lemma cluster_rest u c cs : cluster_of u (c :: cs) -> Forall (fun c => special c = false) cs.
Proof.
  intros [_ _ _ Ha]. destruct cs as [|d cs]; [constructor|].
  destruct (existsb special (c :: d :: cs)) eqn:Es; [by destruct (Ha eq_refl)|]. by apply none_special, Forall_cons in Es as [_ Es].
Qed.

(** ** The characters *)

Section UTF8.
Context (gcb : Z -> Z).

#[local] Instance the_reader : Reader (list Z) := UTF8Reader gcb.

Definition UTF8Chars : ReaderChars (list Z).
Proof.
  refine {| char_ok := fun u => exists cs, cluster_of u cs; char_text := text_of |}.
  - intros u (cs & Hu). destruct (cluster_text u cs Hu) as [H1 H2]. by rewrite H2.
  - intros u (cs & Hu). destruct (cluster_text u cs Hu) as [_ ->]. destruct Hu as [_ _ Hne _].
    destruct cs as [|c cs]; [done|]. rewrite encoded_cons. unfold utf8. by repeat case_if.
  - intros u (cs & Hu). destruct (cluster_text u cs Hu) as [_ ->]. destruct Hu as [-> Hp Hne Ha].
    rewrite encoded_newlines by done. destruct cs as [|c cs]; [done|]. pose proof Hp as [Hc _]%Forall_cons.
    destruct (first_unit c cs Hc) as (x & l & Hx & Heq). simpl charDataEquals. rewrite Hx, Heq by lia.
    destruct (existsb special (c :: cs)) eqn:Es.
    + destruct (Ha eq_refl) as (c' & [= <- ->]). simpl. unfold newline_count. by case_if.
    + rewrite no_newlines by done. apply none_special, Forall_cons in Es as [Es _].
      unfold special in Es. zify_bool. by rewrite (proj2 (Z.eqb_neq c 10)) by lia.
  - intros u (cs & Hu). destruct (cluster_text u cs Hu) as [_ ->]. destruct Hu as [-> Hp Hne Ha].
    destruct cs as [|c cs]; [done|]. pose proof Hp as [Hc _]%Forall_cons. destruct (first_unit c cs Hc) as (x & l & Hx & Heq).
    simpl charDataEquals. rewrite Hx, Heq by lia. intros ->%Z.eqb_eq. by destruct Ha as (c & [= <- ->]).
Defined.
#[local] Existing Instance UTF8Chars.

Lemma chars_encoded us css : Forall2 cluster_of us css -> chars us = encoded (concat css).
Proof.
  induction 1 as [|u cs us css Hu _ IH]; [done|]. rewrite chars_cons, IH. cbn [concat]. rewrite encoded_app. f_equal.
  by apply cluster_text.
Qed.

Lemma clusters_length us css : Forall2 cluster_of us css -> (length us <= length (concat css))%nat.
Proof.
  induction 1 as [|u x us css Hx _ IH]; [simpl; lia|]. simpl. rewrite length_app.
  destruct Hx as [_ _ Hne _]. destruct x; [done|simpl; lia].
Qed.

(** ** One cluster after the other *)

(** What is used of the grapheme cluster properties. *)
Record gcb_ok : Prop := {
  gcb_nonneg c : 0 <= gcb c;
  gcb_control c : special c = true -> breaks (getClusterCategory gcb c) = true
}.
Context (G : gcb_ok).

Lemma one_cluster_of c cs : Forall point_ok (c :: cs) -> one_cluster gcb c cs -> cluster_of (units (c :: cs)) (c :: cs).
Proof.
  intros Hp [Hall Hone]. split; try done. intros [d [Hd Hs]]%existsb_exists. apply list_elem_of_In in Hd.
  apply (gcb_control G) in Hs. apply elem_of_cons in Hd as [->|Hd].
  - exists c. by rewrite (Hone Hs).
  - rewrite Forall_forall in Hall. specialize (Hall d Hd). congruence.
Qed.

Lemma is_cluster_of cs : Forall point_ok cs -> is_cluster gcb cs -> cluster_of (units cs) cs.
Proof. destruct cs as [|c cs]; [done|]. apply one_cluster_of. Qed.

Lemma points_plain cs : Forall point_ok cs -> Forall plain cs.
Proof. intros H. eapply Forall_impl; [exact H|]. by intros c [? _]. Qed.

(** The next character of a stream with [c :: cs] to come. *)
Lemma next_cluster s c cs : Forall point_ok (c :: cs) -> upcoming gcb s (c :: cs) ->
  exists s' cs1 cs2, readNextChar s = ret (s', Some (units (c :: cs1))) /\ cs = cs1 ++ cs2 /\ upcoming gcb s' cs2 /\
    svtable s' = svtable s /\ cluster_of (units (c :: cs1)) (c :: cs1).
Proof.
  intros Hp Hu. destruct (getClusterInternal_spec gcb (gcb_nonneg G) backspaceContinuationTable s (c :: cs)
    (proj2 cluster_tables_ok) (points_plain _ Hp) Hu) as (s' & cs1 & cs2 & Hr & -> & Hu' & Hv & Hone).
  exists s', cs1, cs2. do 4 (split; [done|]). apply one_cluster_of; [|done].
  apply Forall_cons in Hp as [Hc [Hp _]%Forall_app]. by constructor.
Qed.

Lemma control_cluster s c cs : special c = true -> Forall point_ok (c :: cs) -> upcoming gcb s (c :: cs) ->
  exists s', readNextChar s = ret (s', Some [c]) /\ upcoming gcb s' cs /\ svtable s' = svtable s.
Proof.
  intros Hs Hp Hu. destruct (next_cluster s c cs Hp Hu) as (s' & cs1 & cs2 & Hr & -> & Hu' & Hv & [_ _ _ Ha]).
  destruct Ha as (d & [= <- ->]); [simpl; by rewrite Hs|]. exists s'. split; [|done]. rewrite Hr.
  assert (c = 0 \/ c = 1 \/ c = 10) as H by (unfold special in Hs; zify_bool; lia). by destruct H as [->|[->| ->]].
Qed.

Lemma stream_end s : upcoming gcb s [] -> exists s', readNextChar s = ret (s', None) /\ sfeof s' = isFileStream s.
Proof. intros Hu. apply (getClusterInternal_spec gcb (gcb_nonneg G) backspaceContinuationTable s [] (proj2 cluster_tables_ok)); [constructor|done]. Qed.

Lemma upcoming_length s cs : upcoming gcb s cs -> (length cs < stream_fuel s)%nat.
Proof.
  intros (_ & _ & [[_ Hr]|(c & cs' & -> & _ & Hr & _)]); unfold stream_fuel; rewrite Hr.
  - pose proof (encoded_length cs). lia.
  - pose proof (encoded_length cs'). simpl. lia.
Qed.

(** Reading a string to its end. *)
Lemma UTF8_reads n cs s : (length cs <= n)%nat -> Forall point_ok cs -> upcoming gcb s cs ->
  exists us css, Forall2 cluster_of us css /\ concat css = cs /\ reads_chars us s.
Proof.
  revert cs s. induction n as [|n IH]; intros [|c cs] s Hn Hp Hu; simpl in Hn; try lia.
  1-2: destruct (stream_end s Hu) as (s' & Hr & _); exists [], []; (split; [constructor|]); (split; [done|]); by exists s'.
  destruct (next_cluster s c cs Hp Hu) as (s' & cs1 & cs2 & Hr & -> & Hu' & Hv & Hcl).
  apply Forall_cons in Hp as [Hc [_ Hp2]%Forall_app]. rewrite length_app in Hn.
  destruct (IH cs2 s' ltac:(lia) Hp2 Hu') as (us & css & Hus & <- & Hrd).
  exists (units (c :: cs1) :: us), ((c :: cs1) :: css). split; [by constructor|]. split; [done|].
  cbn [reads_chars]. split; [by exists (c :: cs1)|]. split; [|by exists s'].
  pose proof (upcoming_length s _ Hu) as Hl. simpl in Hl. rewrite length_app in Hl.
  pose proof (clusters_length _ _ Hus). simpl. lia.
Qed.
(** ** Strings *)

Lemma string_upcoming cs : upcoming gcb (newStringStream (encoded cs)) cs.
Proof. split; [done|]. split; [done|]. by left. Qed.

Lemma UTF8_readable cs : Forall point_ok cs -> readable (encoded cs).
Proof.
  intros Hp. destruct (UTF8_reads (length cs) cs _ (le_n _) Hp (string_upcoming cs)) as (us & css & Hus & <- & Hr).
  exists us. split; [by apply chars_encoded|done].
Qed.

Lemma ordinary_cluster u cs : cluster_of u cs -> Forall (fun c => c <> 0 /\ c <> 1) cs -> ordinary_char u.
Proof.
  intros [-> Hp Hne _] Ho. destruct cs as [|c cs]; [done|]. apply Forall_cons in Ho as [[H0' H1] _].
  apply Forall_cons in Hp as [Hc _]. destruct (first_unit c cs Hc) as (x & l & Hx & Heq).
  unfold ordinary_char. simpl. rewrite Hx, !Heq by lia. by rewrite (proj2 (Z.eqb_neq c 0)), (proj2 (Z.eqb_neq c 1)).
Qed.

Lemma UTF8_plain cs : Forall point_ok cs -> Forall (fun c => c <> 0 /\ c <> 1) cs -> plain_string (encoded cs).
Proof.
  intros Hp Ho. destruct (UTF8_reads (length cs) cs _ (le_n _) Hp (string_upcoming cs)) as (us & css & Hus & <- & Hr).
  exists us. split; [by apply chars_encoded|]. split; [|done].
  clear -Hus Ho. induction Hus as [|u x us css Hx _ IH]; [constructor|]. simpl in Ho. apply Forall_app in Ho as [Hx' Ho].
  constructor; [by eapply ordinary_cluster|by apply IH].
Qed.

(** ** Items *)

(** The code points written for a text: 0 and 1 are escaped. *)
Definition escaped_points (cs : list Z) : list Z := flat_map escape cs.

(** Characters that are no 0 or 1 are not escaped. *)
Lemma escaped_prefix cs cs1 cs2 r : escaped_points cs ++ 0 :: r = cs1 ++ cs2 -> Forall (fun c => special c = false) cs1 ->
  exists t, cs = cs1 ++ t /\ cs2 = escaped_points t ++ 0 :: r.
Proof.
  revert cs1. induction cs as [|c cs IH]; intros cs1 E Hc.
  - destruct cs1 as [|d cs1]; [by exists []|]. apply Forall_cons in Hc as [Hd _]. injection E as <- _. discriminate.
  - destruct cs1 as [|d cs1]; [by exists (c :: cs)|]. apply Forall_cons in Hc as [Hd Hc].
    change (escaped_points (c :: cs)) with (escape c ++ escaped_points cs) in E. unfold escape in E.
    destruct ((c =? 0) || (c =? 1)) eqn:Ec; [injection E as <- _; discriminate|]. injection E as <- E.
    destruct (IH cs1 E Hc) as (t & -> & ->). by exists t.
Qed.

Lemma escaped_ok cs r : Forall point_ok cs -> Forall point_ok r -> Forall point_ok (escaped_points cs ++ 0 :: r).
Proof.
  assert (point_ok 0 /\ point_ok 1) as [P0 P1].
  { split; (split; [|reflexivity]); (split; [unfold codepoint; lia|discriminate]). }
  intros Hc Hr. apply Forall_app. split; [|by constructor]. induction Hc as [|c cs Hc _ IH]; [constructor|].
  change (escaped_points (c :: cs)) with (escape c ++ escaped_points cs). apply Forall_app. split; [|done].
  unfold escape. destruct (_ || _); repeat (apply Forall_cons; split; [done|]); constructor.
Qed.

Lemma escaped_points_length cs : (length cs <= length (escaped_points cs))%nat.
Proof.
  induction cs as [|c cs IH]; [done|]. change (escaped_points (c :: cs)) with (escape c ++ escaped_points cs). rewrite length_app.
  unfold escape. destruct (_ || _); simpl; lia.
Qed.

Lemma ends_char s s' u : readNextChar s = ret (s', Some u) -> ordinary_char u -> readItemChar s = ret (s', ItemChar u).
Proof. intros Hr [H0' H1]. unfold readItemChar. rewrite Hr. cbn [obind_result ret]. by rewrite H0', H1. Qed.

(** Reading an item: the text, then the 0 behind it. *)
Lemma UTF8_delivers n cs r s : (length cs <= n)%nat -> Forall point_ok cs -> Forall point_ok r ->
  upcoming gcb s (escaped_points cs ++ 0 :: r) ->
  exists us css s', Forall2 cluster_of us css /\ concat css = cs /\ delivers_chars false us s s' /\ upcoming gcb s' r /\
    svtable s' = svtable s.
Proof.
  revert cs s. induction n as [|n IH]; intros cs s Hn Hp Hr Hu.
  - destruct cs; [|simpl in Hn; lia]. destruct (control_cluster s 0 r eq_refl) as (s' & Hs & Hu' & Hv); [by apply (escaped_ok [])|done|].
    exists [], [], s'. split; [constructor|]. split; [done|]. split; [|done]. cbn [delivers_chars]. unfold readItemChar. by rewrite Hs.
  - destruct cs as [|c cs].
    { destruct (IH [] s ltac:(simpl; lia) Hp Hr Hu) as (us & css & s' & H). by exists us, css, s'. }
    pose proof (upcoming_length s _ Hu) as Hl. rewrite length_app in Hl. pose proof (escaped_points_length (c :: cs)) as Hel. simpl in Hl, Hel, Hn.
    pose proof (escaped_ok (c :: cs) r Hp Hr) as Hall. pose proof Hp as [Hc Hcs]%Forall_cons.
    change (escaped_points (c :: cs)) with (escape c ++ escaped_points cs) in *.
    unfold escape in *. destruct ((c =? 0) || (c =? 1)) eqn:Ec; cbn [app] in Hu, Hall.
    + (* an escaped character *)
      destruct (control_cluster s 1 _ eq_refl Hall Hu) as (s1 & Hs1 & Hu1 & Hv1).
      assert (special c = true) as Hsc by (unfold special; by rewrite Ec).
      apply Forall_cons in Hall as [_ Hall]. destruct (control_cluster s1 c _ Hsc Hall Hu1) as (s2 & Hs2 & Hu2 & Hv2).
      destruct (IH cs s2 ltac:(lia) Hcs Hr Hu2) as (us & css & s' & Hus & <- & Hd & Hu' & Hv').
      assert (cluster_of [c] [c]) as Hcl.
      { split; [|by constructor|done|by exists c]. assert (c = 0 \/ c = 1) as H by (zify_bool; lia). by destruct H as [->| ->]. }
      exists ([c] :: us), ([c] :: css), s'. split; [by constructor|]. split; [done|]. split; [|split; [done|congruence]].
      cbn [delivers_chars]. split; [by exists [c]|]. pose proof (clusters_length _ _ Hus). split; [simpl; lia|].
      exists s2. split; [|done]. unfold readItemChar. rewrite Hs1. cbn [obind_result ret].
      change (charDataEquals [1] 0) with false. change (charDataEquals [1] 1) with true. cbv iota. by rewrite Hs2.
    + (* any other *)
      destruct (next_cluster s c _ Hall Hu) as (s1 & cs1 & cs2 & Hs1 & E & Hu1 & Hv1 & Hcl).
      assert (Forall (fun c => special c = false) cs1) as Hcs1.
      { by eapply cluster_rest. }
      destruct (escaped_prefix cs cs1 cs2 r E Hcs1) as (t & -> & ->). apply Forall_app in Hcs as [_ Ht]. rewrite length_app in Hn, Hel.
      destruct (IH t s1 ltac:(lia) Ht Hr Hu1) as (us & css & s' & Hus & <- & Hd & Hu' & Hv').
      exists (units (c :: cs1) :: us), ((c :: cs1) :: css), s'. split; [by constructor|]. split; [done|]. split; [|split; [done|congruence]].
      cbn [delivers_chars]. split; [by exists (c :: cs1)|]. pose proof (clusters_length _ _ Hus). split; [simpl; lia|].
      exists s1. split; [|done]. apply ends_char; [done|]. apply (ordinary_cluster _ _ Hcl). zify_bool. constructor; [lia|].
      eapply Forall_impl; [exact Hcs1|]. unfold special. intros x Hx. zify_bool. lia.
Qed.

(** A stream of a temporary file that holds the encodings of [items]. *)
Definition UTF8_holds (s : Stream) (ts : list (list Z)) : Prop :=
  svtable s = fileVtable /\ exists items, ts = encoded <$> items /\ Forall (Forall point_ok) items /\
    upcoming gcb s (concat ((fun t => escaped_points t ++ [0]) <$> items)).

Lemma items_ok items : Forall (Forall point_ok) items -> Forall point_ok (concat ((fun t => escaped_points t ++ [0]) <$> items)).
Proof.
  induction 1 as [|t items Ht _ IH]; [constructor|]. rewrite fmap_cons. cbn [concat]. rewrite <- app_assoc. by apply escaped_ok.
Qed.

Definition UTF8Spec : ReaderSpec (list Z).
Proof.
  refine {| holds := UTF8_holds |}.
  - intros s t ts (Hf & items & E & Hp & Hu). destruct items as [|i items]; [discriminate|]. injection E as -> ->.
    pose proof Hp as [Hi Hps]%Forall_cons. rewrite fmap_cons in Hu. cbn [concat] in Hu. rewrite <- app_assoc in Hu.
    destruct (UTF8_delivers (length i) i _ s (le_n _) Hi (items_ok items Hps) Hu) as (us & css & s' & Hus & Hc & Hd & Hu' & Hv).
    exists s'. split; [exists us; split; [by rewrite <- Hc; apply chars_encoded|done]|].
    split; [congruence|]. by exists items.
  - intros s (Hf & items & E & Hp & Hu). destruct items as [|i items]; [|discriminate].
    destruct (stream_end s Hu) as (s' & Hr & He). exists s'. split.
    + exists []. split; [done|]. cbn [delivers_chars]. unfold readItemChar. by rewrite Hr.
    + rewrite He. by apply bool_decide_eq_true_2.
  - intros s ts (Hf & items & E & Hp & Hu). apply Hu.
  - intros s ts (Hf & items & -> & Hp & Hu). eapply Nat.le_lt_trans; [|apply (upcoming_length s _ Hu)].
    rewrite length_fmap. pose proof (items_length escaped_points items). lia.
  - apply (UTF8_plain []); constructor.
  - apply (UTF8_plain [32]); repeat constructor; try lia; unfold codepoint; try lia; discriminate.
Defined.
End UTF8.
