(* ===== verification/Modes.v ===== *)
(** * Single bytes or UTF-8

    [dispatch] in dwdiff.c selects the routines for the characters once, at
    the start.  A [Mode] collects them: how the input is read, what the
    tokenizer does with a character and how doDiff.c reads characters back
    from temporary files and strings.  [ModeSpec] is what the whole program
    relies on; single bytes implement it here, UTF-8 in ModeUTF8. *)

From S2P Require Import Prelude EditScript FileIO Streams Unicode UnicodeProofs Tokenizer Pieces TokenizerProofs DoDiff Reader.

Class Mode (Char Char' : Type) := {
  mode_dispatch :: Dispatch Char;
  mode_reader :: Reader Char';
  (** The characters of an input file, one [readNextChar] after the other. *)
  read_input : list Z -> option (list Char)
}.

(** What is relied on: for the [valid] characters of the inputs in
    [input_ok], the results of the dispatch table; [raw] are the bytes of a
    character in the input, [escaped] those in a temporary file, and [folded]
    those that are compared. *)
Class ModeSpec {Char Char' : Type} (M : Mode Char Char') {RC : ReaderChars Char'} (RS : ReaderSpec Char') := {
  input_ok : list Z -> Prop;
  valid : Char -> Prop;
  isW : Char -> bool;
  isD : Char -> bool;
  isNL : Char -> bool;
  folded : Char -> list Z;
  escaped : Char -> list Z;
  raw : Char -> list Z;
  ms_dispatch : dispatch_ok valid isW isD isNL folded escaped escaped;
  ms_input bytes : input_ok bytes -> exists cs, read_input bytes = Some cs /\ Forall valid cs /\ concat (raw <$> cs) = bytes;
  ms_nonempty c : valid c -> raw c <> [];
  ms_newlines c : valid c -> newlines (folded c) = newlines (raw c);
  ms_holds ts : Forall (Forall valid) ts ->
    holds (newFileStream (concat ((fun t => concat (escaped <$> t) ++ [0]) <$> ts))) ((fun t => concat (raw <$> t)) <$> ts)
}.

Section Files.
Context {Char Char' : Type} {M : Mode Char Char'} {RC : ReaderChars Char'} {RS : ReaderSpec Char'} {MS : ModeSpec M RS}.
Abbreviation piece := (@piece Char).

(** Whitespace can be read back as a string, without escapes. *)
Definition plain_whitespace : Prop := forall w, Forall (fun c => valid c /\ isW c = true) w -> plain_string (concat (raw <$> w)).

Definition raws (l : list Char) : list Z := concat (raw <$> l).
Definition raw_piece (p : piece) : Pieces.piece := Piece (raws (pws p)) (raws (ptok p)).

(** The bytes of a token that are compared. *)
Definition compared (l : list Char) : list Z := word folded l.
Definition words (ps : list piece) : list (list Z) := (fun p => compared (ptok p)) <$> ps.

Lemma raws_app l1 l2 : raws (l1 ++ l2) = raws l1 ++ raws l2.
Proof. unfold raws. by rewrite fmap_app, concat_app. Qed.

Lemma raws_text ps : raws (text ps) = text (raw_piece <$> ps).
Proof.
  induction ps as [|p ps IH]; [done|]. change (text (p :: ps)) with ((pws p ++ ptok p) ++ text ps).
  by rewrite !raws_app, IH.
Qed.

Lemma newlines_perm l1 l2 : l1 ≡ₚ l2 -> newlines (raws l1) = newlines (raws l2).
Proof.
  induction 1 as [|x l l' _ IH|x y l|l l' l'' _ IH1 _ IH2]; [done| | |congruence].
  - change (newlines (raw x ++ raws l) = newlines (raw x ++ raws l')). by rewrite !newlines_app, IH.
  - change (newlines (raw y ++ raw x ++ raws l) = newlines (raw x ++ raw y ++ raws l)). rewrite !newlines_app. lia.
Qed.

Lemma compared_newlines l : Forall valid l -> newlines (compared l) = newlines (raws l).
Proof.
  induction l as [|c l IH]; [done|]. intros [Hc Hl]%Forall_cons.
  change (newlines (folded c ++ compared l) = newlines (raw c ++ raws l)). by rewrite !newlines_app, IH, ms_newlines.
Qed.

(** There are not more characters than bytes. *)
Lemma raws_length cs : Forall valid cs -> zlen cs <= zlen (raws cs).
Proof.
  induction cs as [|c cs IH]; [done|]. intros [Hc Hcs]%Forall_cons. specialize (IH Hcs).
  change (raws (c :: cs)) with (raw c ++ raws cs). rewrite length_app. pose proof (ms_nonempty c Hc).
  assert (1 <= length (raw c))%nat by (destruct (raw c); [done|simpl; lia]). simpl. lia.
Qed.

(** ** The pieces of a file *)

(** The characters [cs] of the file [bytes], its pieces [o] and the final
    whitespace [w] as they are written, with paragraph tokens if [para]. *)
Definition file_pieces (para : bool) (bytes : list Z) (o : list piece) (w : list Char) : Prop :=
  exists cs ps w', read_input bytes = Some cs /\ cuts isW isD cs ps w' /\ paragraphs isW isD isNL para ps w' = (o, w).

(** The tokens of a file can be counted with an [int]. *)
Definition few_words (para : bool) (bytes : list Z) : Prop := forall o w, file_pieces para bytes o w -> zlen o <= INT_MAX.

(** There is only one way to cut a file into pieces. *)
Lemma file_pieces_unique para bytes o1 w1 o2 w2 : file_pieces para bytes o1 w1 -> file_pieces para bytes o2 w2 ->
  o1 = o2 /\ w1 = w2.
Proof.
  intros (cs1 & ps1 & w1' & R1 & C1 & E1) (cs2 & ps2 & w2' & R2 & C2 & E2). rewrite R1 in R2. injection R2 as <-.
  destruct (cuts_unique _ _ _ _ _ _ _ C1 C2) as [<- <-]. rewrite E1 in E2. by injection E2 as <- <-.
Qed.

(** The pieces hold the text of the file, in its order if there are no
    paragraph delimiters. *)
Lemma file_pieces_text bytes o w : file_pieces false bytes o w -> input_ok bytes ->
  text (raw_piece <$> o) ++ raws w = bytes.
Proof.
  intros (cs & ps & w' & R & (Hcs & _) & E) Hb. rewrite no_paragraphs in E. injection E as <- <-.
  destruct (ms_input bytes Hb) as (cs' & R' & _ & <-). rewrite R in R'. injection R' as <-.
  by rewrite <- raws_text, <- raws_app, <- Hcs.
Qed.

Lemma file_pieces_length para bytes o w : file_pieces para bytes o w -> input_ok bytes -> zlen o <= zlen bytes.
Proof.
  intros (cs & ps & w' & Hr & Hc & E) Hb. destruct (ms_input bytes Hb) as (cs' & Hr' & Hv & Hraw). rewrite Hr in Hr'. injection Hr' as <-.
  pose proof (raws_length cs Hv) as Hl. unfold raws in Hl. rewrite Hraw in Hl.
  pose proof (end_count isW isD isNL para false true (no_pieces ps) ps w' (proj1 (proj2 Hc))) as Hlen.
  unfold paragraphs in E. destruct (para_end isNL para (no_pieces ps) w') as [e w2]. injection E as <- _.
  cbn [fst] in Hlen. pose proof (f_equal length (proj1 Hc)) as Hl2. rewrite length_app in Hl2. lia.
Qed.

Lemma few_words_short para bytes : input_ok bytes -> zlen bytes <= INT_MAX -> few_words para bytes.
Proof. intros Hb Hl o w Hp. pose proof (file_pieces_length _ _ _ _ Hp Hb). lia. Qed.

Lemma file_pieces_newlines para bytes o w : file_pieces para bytes o w -> input_ok bytes ->
  newlines (text (raw_piece <$> o) ++ raws w) = newlines bytes.
Proof.
  intros (cs & ps & w' & R & (Hcs & _) & E) Hb.
  destruct (ms_input bytes Hb) as (cs' & R' & _ & <-). rewrite R in R'. injection R' as <-.
  rewrite <- raws_text, <- raws_app. apply newlines_perm. pose proof (paragraphs_perm isW isD isNL para ps w') as Hp.
  rewrite E in Hp. cbn [fst snd] in Hp. by rewrite Hp, Hcs.
Qed.

Lemma file_pieces_all para bytes o w : file_pieces para bytes o w -> input_ok bytes ->
  all_chars (fun c => valid c /\ isW c = true) valid o /\ Forall (fun c => valid c /\ isW c = true) w.
Proof.
  intros (cs & ps & w' & R & C & E) Hb. destruct (ms_input bytes Hb) as (cs' & R' & Hv & _).
  rewrite R in R'. injection R' as <-. pose proof (cuts_all isW isD isNL para valid cs ps w' C Hv) as H. by rewrite E in H.
Qed.
End Files.

(** ** Single bytes *)

Section SingleBytes.
Context (W Dl : list Z) (ic : bool) (tl : Z -> Z).

Definition SCMode : Mode Z Z := {|
  mode_dispatch := SCDispatch W Dl ic tl;
  mode_reader := SCReader;
  read_input bytes := Some bytes
|}.

(** Case folding neither makes nor removes newlines. *)
Definition keeps_newlines : Prop := forall c, byte c -> (if ic then tl c else c) mod 256 = 10 <-> c = 10.

Lemma single_raw (l : list Z) : concat ((fun c => [c]) <$> l) = l.
Proof. induction l as [|c l IH]; [done|]. rewrite fmap_cons. cbn [concat]. by rewrite IH. Qed.

Lemma SC_file ts : Forall (Forall byte) ts ->
  SC_holds (newFileStream (concat ((fun t => concat (escape <$> t) ++ [0]) <$> ts))) ((fun t => concat ((fun c => [c]) <$> t)) <$> ts).
Proof.
  intros Hts. assert ((fun t : list Z => concat ((fun c => [c]) <$> t)) <$> ts = ts) as ->.
  { clear. induction ts as [|t ts IH]; [done|]. by rewrite fmap_cons, single_raw, IH. }
  by split.
Qed.

Definition SCModeSpec (Hk : keeps_newlines) : ModeSpec SCMode SCSpec.
Proof.
  refine {| input_ok := Forall byte; valid := byte; isW := isWhitespaceSC W; isD := isDelimiterSC Dl; isNL := Z.eqb 10;
            folded := fun c => (writeTokenCharSC ic tl c).1; escaped := escape; raw := fun c => [c] |}.
  - apply SC_ok.
  - intros bytes Hb. exists bytes. split; [done|]. split; [done|]. apply single_raw.
  - done.
  - intros c Hc. specialize (Hk c Hc). simpl. unfold newline_count.
    destruct (Z.eqb_spec ((if ic then tl c else c) mod 256) 10), (Z.eqb_spec c 10); lia || tauto.
  - apply SC_file.
Defined.

(** Bytes 0 and 1 are not whitespace. *)
Lemma SC_plain_whitespace Hk : isWhitespaceSC W 0 = false -> isWhitespaceSC W 1 = false ->
  plain_whitespace (MS := SCModeSpec Hk).
Proof.
  intros H0 H1 w Hw. cbn. rewrite single_raw. apply SC_plain. eapply Forall_impl; [exact Hw|]. intros c [Hc Hws].
  unfold valid, isW in *. cbn in *. unfold byte in Hc. unfold ordinary.
  assert (c <> 0) by congruence. assert (c <> 1) by congruence. lia.
Qed.
End SingleBytes.
