(* ===== verification/ModeUTF8.v ===== *)
(** * The UTF-8 mode

    Input files are read as grapheme clusters, which are normalized and, if
    asked for, case-folded for the comparison; the original characters are
    written.  Normalization, case folding and the character properties are
    those of the ICU library, parameters here: all that is used is that they
    turn well-formed UTF-16 into well-formed UTF-16 and keep line feeds.  The
    input has to be valid UTF-8 without the characters that dwdiff replaces or
    writes wrongly (UnicodeProofs). *)

From S2P Require Import Prelude EditScript FileIO Streams Unicode UnicodeProofs Tokenizer Pieces TokenizerProofs DoDiff Reader ReaderUTF8 Modes.

(** ** Well-formed UTF-16 *)

Definition scalar (c : Z) : Prop := codepoint c /\ ~ (0xD800 <= c <= 0xDFFF).

Definition utf16_char (c : Z) : list Z :=
  if c <? 0x10000 then [c] else [0xD800 + (c - 0x10000) / 1024; 0xDC00 + c mod 1024].
Definition utf16 (cs : list Z) : list Z := concat (utf16_char <$> cs).

Lemma point_scalar c : point_ok c -> scalar c.
Proof. intros [[Hc Hp] _]. unfold codepoint in Hc. split; [done|]. lia. Qed.

Lemma units_utf16 cs : Forall point_ok cs -> units cs = utf16 cs.
Proof.
  induction cs as [|c cs IH]; [done|]. intros [[[Hc _] Hf] Hcs]%Forall_cons. unfold codepoint, first_of_length in *. zify_bool.
  change (units (c :: cs)) with (addUCS4ToUTF16Buffer c ++ units cs). change (utf16 (c :: cs)) with (utf16_char c ++ utf16 cs).
  rewrite (IH Hcs). f_equal. unfold utf16_char. destruct (Z.ltb_spec c 0x10000).
  - unfold addUCS4ToUTF16Buffer. case_if; [lia|]. by rewrite Z.mod_small by lia.
  - by apply supplementary_units; lia.
Qed.

(** The conversion to UTF-8 does not stop at a lone surrogate. *)
Lemma utf16_converted cs : Forall scalar cs -> utf16_to_utf8 (utf16 cs) 0 = Ok (concat (convertToUTF8 <$> cs)).
Proof.
  induction cs as [|c cs IH]; [done|]. intros [[Hc Hs] Hcs]%Forall_cons. unfold codepoint in Hc. rewrite fmap_cons. cbn [concat].
  change (utf16 (c :: cs)) with (utf16_char c ++ utf16 cs). unfold utf16_char. destruct (Z.ltb_spec c 0x10000); cbn [utf16_to_utf8 app].
  - unfold filteredConvertToUTF8. rewrite unit_mask, (proj2 (Z.eqb_neq _ 0xD800)), (proj2 (Z.eqb_neq _ 0xDC00)) by lia.
    cbn [rbind]. by rewrite (IH Hcs).
  - unfold filteredConvertToUTF8 at 1. rewrite unit_mask, (proj2 (Z.eqb_eq _ 0xD800)) by lia. cbn [rbind]. unfold filteredConvertToUTF8.
    rewrite unit_mask, (proj2 (Z.eqb_neq _ 0xD800)), (proj2 (Z.eqb_eq _ 0xDC00)), (proj2 (Z.eqb_neq _ 0)) by lia. cbn [rbind].
    rewrite (IH Hcs). cbn [rbind app]. rewrite !Z.shiftl_mul_pow2 by lia. change (2 ^ 10) with 1024.
    by replace (56320 + c mod 1024 + (55296 + (c - 65536) / 1024) * 1024 + 65536 - 55296 * 1024 - 56320) with c by lia.
Qed.

(** Nor do the tests of characters. *)
Lemma isUTF16_utf16 condition cs : Forall scalar cs -> isUTF16 condition (utf16 cs) = Ok (forallb condition cs).
Proof.
  induction cs as [|c cs IH]; [done|]. intros [[Hc Hs] Hcs]%Forall_cons. unfold codepoint in Hc. cbn [forallb].
  change (utf16 (c :: cs)) with (utf16_char c ++ utf16 cs). unfold utf16_char. destruct (Z.ltb_spec c 0x10000); cbn [isUTF16 app].
  - rewrite unit_mask, (proj2 (Z.eqb_neq _ 0xD800)) by lia. destruct (condition c); [by apply IH|done].
  - rewrite unit_mask, (proj2 (Z.eqb_eq _ 0xD800)), !land_3FF, Z.shiftl_mul_pow2 by lia. change (2 ^ 10) with 1024.
    replace (((55296 + (c - 65536) / 1024) mod 1024) * 1024 + 65536 + (56320 + c mod 1024) mod 1024) with c by lia.
    destruct (condition c); [by apply IH|done].
Qed.

(** *** Newlines *)

Lemma marked_high n b : In n [2; 3; 4] -> 128 <= b < 256 -> 128 <= Z.lor b (Z.shiftl 0xF0 (4 - n)) mod 256.
Proof.
  intros Hn Hb. pose proof (byte_forall (fun b => (b <? 128) || (128 <=? Z.lor b (Z.shiftl 0xF0 (4 - n)) mod 256))) as H.
  specialize (H ltac:(destruct Hn as [<-|[<-|[<-|[]]]]; vm_compute; reflexivity) b ltac:(lia)). simpl in H. zify_bool. lia.
Qed.

Lemma convert_newlines c : codepoint c -> newlines (convertToUTF8 c) = newline_count c.
Proof.
  unfold codepoint. intros Hc. unfold convertToUTF8. cbn [utf8_bytes mark_first]. rewrite !cont_byte.
  assert (forall x, 128 <= 128 + x mod 64 < 256) as Hx by (intros x; lia).
  repeat case_if.
  - rewrite (high_byte _ _ (marked_high 4 _ ltac:(simpl; auto) (Hx _))), !high_byte by (apply Hx). simpl. unfold newline_count. case_if; lia.
  - rewrite (high_byte _ _ (marked_high 3 _ ltac:(simpl; auto) (Hx _))), !high_byte by (apply Hx). simpl. unfold newline_count. case_if; lia.
  - rewrite (high_byte _ _ (marked_high 2 _ ltac:(simpl; auto) (Hx _))), !high_byte by (apply Hx). simpl. unfold newline_count. case_if; lia.
  - rewrite Z.mod_small by lia. simpl. lia.
Qed.

Lemma converted_newlines cs : Forall scalar cs -> newlines (concat (convertToUTF8 <$> cs)) = newlines cs.
Proof.
  induction cs as [|c cs IH]; [done|]. intros [[Hc _] Hcs]%Forall_cons. rewrite fmap_cons. cbn [concat].
  by rewrite newlines_app, (IH Hcs), convert_newlines.
Qed.

(** Well-formed text becomes well-formed text with as many line feeds. *)
Definition keeps_text (f : list Z -> list Z) : Prop :=
  forall cs, Forall scalar cs -> exists cs', f (utf16 cs) = utf16 cs' /\ Forall scalar cs' /\ newlines cs' = newlines cs.

Lemma identity_keeps_text : keeps_text (fun l => l).
Proof. intros cs Hcs. by exists cs. Qed.

(** ** The mode *)

Section Mode.
Context (gcb : Z -> Z) (whitespaceSet : bool) (whitespaceList delimiterList : list (list Z)).
Context (punctuationMask : bool) (isPunct isUWhiteSpace : Z -> bool).
Context (ignoreCase : bool) (normalize foldCase : list Z -> list Z).

Definition UTF8Mode : Mode (list Z) (list Z) := {|
  mode_dispatch := UTF8Dispatch whitespaceSet whitespaceList delimiterList punctuationMask isPunct isUWhiteSpace ignoreCase normalize foldCase;
  mode_reader := UTF8Reader gcb;
  read_input bytes := clusters gcb (S (length bytes)) clusterContinuationTable (newFileStream bytes)
|}.

Context (G : gcb_ok gcb) (Hnormalize : keeps_text normalize) (HfoldCase : keeps_text foldCase).

Definition default_to {A} (a : A) (r : result A) : A := match r with Ok x => x | Fatal _ => a end.

Definition valid_cluster (u : list Z) : Prop := exists cs, cluster_of u cs.
Abbreviation isWhitespaceU := (isWhitespaceUTF8 whitespaceSet whitespaceList isUWhiteSpace normalize).
Abbreviation isDelimiterU := (isDelimiterUTF8 delimiterList punctuationMask isPunct normalize).
Abbreviation wordBufferU := (wordBufferUTF8 ignoreCase normalize foldCase).

Lemma normalized u : valid_cluster u -> exists cs cs', cluster_of u cs /\ normalize u = utf16 cs' /\ Forall scalar cs' /\ newlines cs' = newlines cs.
Proof.
  intros (cs & Hu). assert (Forall scalar cs) as Hs.
  { eapply Forall_impl; [apply Hu|]. intros c. apply point_scalar. }
  destruct (Hnormalize cs Hs) as (cs' & Hn & Hs' & Hl). exists cs, cs'. split; [done|]. split; [|done].
  destruct Hu as [-> Hp _ _]. by rewrite units_utf16.
Qed.

Lemma whitespace_returns u : valid_cluster u -> exists b, isWhitespaceU u = Ok b.
Proof.
  intros Hu. unfold isWhitespaceUTF8, converted. destruct whitespaceSet; [by eexists|].
  destruct (normalized u Hu) as (cs & cs' & _ & -> & Hs & _). rewrite isUTF16_utf16 by done. by eexists.
Qed.

Lemma delimiter_returns u : valid_cluster u -> exists b, isDelimiterU u = Ok b.
Proof.
  intros Hu. unfold isDelimiterUTF8, converted. destruct (in_list _ _); [by eexists|]. destruct punctuationMask; [|by eexists].
  destruct (normalized u Hu) as (cs & cs' & _ & -> & Hs & _). rewrite isUTF16_utf16 by done. by eexists.
Qed.

Lemma word_returns u : valid_cluster u -> exists l, wordBufferU u = Ok l /\ newlines l = newlines (text_of u).
Proof.
  intros Hu. unfold wordBufferUTF8, converted. destruct (normalized u Hu) as (cs & cs' & Hc & -> & Hs & Hl).
  rewrite (proj2 (cluster_text u cs Hc)), encoded_newlines by apply Hc. destruct ignoreCase.
  - destruct (HfoldCase cs' Hs) as (cs2 & -> & Hs2 & Hl2). rewrite utf16_converted by done. eexists. split; [done|].
    rewrite converted_newlines by done. congruence.
  - rewrite utf16_converted by done. eexists. split; [done|]. rewrite converted_newlines by done. congruence.
Qed.

Lemma encoded_points cs : concat (utf8 <$> cs) = encoded cs.
Proof. done. Qed.

(** The original cluster is written, with 0 and 1 escaped. *)
Lemma written_cluster u cs : cluster_of u cs -> writeClusterUTF8 u = Ok (encoded (escaped_points cs)).
Proof.
  intros Hu. pose proof (proj1 (cluster_text u cs Hu)) as Ht. destruct Hu as [-> Hp Hne Ha]. destruct cs as [|c cs]; [done|].
  pose proof Hp as [Hc Hcs]%Forall_cons. destruct (first_unit c cs Hc) as (x & l & Hx & Heq). unfold writeClusterUTF8. rewrite Hx in *.
  rewrite !Heq by lia. destruct ((c =? 0) || (c =? 1)) eqn:Ec.
  - destruct Ha as (d & [= <- ->]); [simpl; unfold special; by rewrite Ec|]. assert (c = 0 \/ c = 1) as H by (zify_bool; lia).
    destruct H as [->| ->]; injection Hx as <- _; done.
  - rewrite Ht. do 2 f_equal. change (escaped_points (c :: cs)) with (escape c ++ escaped_points cs). unfold escape. rewrite Ec. simpl. f_equal.
    assert (Forall (fun c => special c = false) cs) as Hs.
    { apply (cluster_rest (units (c :: cs)) c). by split. }
    clear -Hs. induction Hs as [|d cs Hd _ IH]; [done|]. change (escaped_points (d :: cs)) with (escape d ++ escaped_points cs).
    rewrite <- IH. unfold special in Hd. unfold escape. by destruct ((d =? 0) || (d =? 1)).
Qed.

Lemma escaped_newlines cs : newlines (escaped_points cs) = newlines cs.
Proof.
  induction cs as [|c cs IH]; [done|]. change (escaped_points (c :: cs)) with (escape c ++ escaped_points cs).
  rewrite newlines_app, IH. simpl. f_equal. unfold escape. destruct (_ || _); simpl; [change (newline_count 1) with 0|]; lia.
Qed.

Definition newline_cluster (u : list Z) : bool := bool_decide (u = [10]).

Lemma cluster_newlines u cs : cluster_of u cs -> if newline_cluster u then cs = [10] else newlines cs = 0.
Proof.
  intros Hu. pose proof (proj1 (cluster_text u cs Hu)) as Ht. destruct Hu as [E Hp Hne Ha]. unfold newline_cluster.
  destruct (existsb special cs) eqn:Es.
  - destruct (Ha eq_refl) as (c & ->). assert (c = 0 \/ c = 1 \/ c = 10) as H by (simpl in Es; unfold special in Es; zify_bool; lia).
    rewrite E. by destruct H as [->|[->| ->]].
  - rewrite bool_decide_eq_false_2; [by apply no_newlines|]. intros ->. destruct cs as [|c cs]; [done|].
    apply Forall_cons in Hp as [Hc _]. destruct (first_unit c cs Hc) as (x & l & Hx & Heq). rewrite Hx in E. injection E as <- _.
    specialize (Heq 10 ltac:(lia)). rewrite Z.eqb_refl in Heq. cbn [existsb] in Es. unfold special in Es. zify_bool. lia.
Qed.

Lemma UTF8_dispatch_ok : dispatch_ok (HD := @mode_dispatch _ _ UTF8Mode) valid_cluster
  (fun u => default_to false (isWhitespaceU u)) (fun u => default_to false (isDelimiterU u)) newline_cluster
  (fun u => default_to [] (wordBufferU u)) (fun u => default_to [] (writeClusterUTF8 u)) (fun u => default_to [] (writeClusterUTF8 u)).
Proof.
  split.
  - intros u Hu. destruct (whitespace_returns u Hu) as (b & Hb). simpl. by rewrite Hb.
  - intros u Hu. destruct (delimiter_returns u Hu) as (b & Hb). simpl. by rewrite Hb.
  - intros u Hu. destruct (word_returns u Hu) as (l & Hl & _). simpl. by rewrite Hl.
  - intros u (cs & Hu). simpl. by rewrite (written_cluster u cs Hu).
  - intros u (cs & Hu). simpl. by rewrite (written_cluster u cs Hu).
  - intros u (cs & Hu). rewrite (written_cluster u cs Hu). simpl. pose proof (cluster_newlines u cs Hu) as Hn.
    destruct (newline_cluster u); [by rewrite Hn|].
    assert (newlines (encoded (escaped_points cs)) = 0) as Hz.
    { pose proof (escaped_ok cs [] (cl_points _ _ Hu) ltac:(constructor)) as Hp. apply Forall_app in Hp as [Hp _].
      by rewrite encoded_newlines, escaped_newlines. }
    pose proof (has_newline_count (encoded (escaped_points cs))) as Hh. rewrite Hz in Hh. change (negb (0 =? 0)) with false in Hh.
    intros H10.
    assert (has_newline (encoded (escaped_points cs)) = true); [|congruence].
    apply existsb_exists. exists 10. split; [by apply list_elem_of_In|done].
Qed.

Lemma valid_points (t : list (list Z)) : Forall valid_cluster t -> exists css, Forall2 cluster_of t css /\ Forall point_ok (concat css).
Proof.
  induction 1 as [|u t (cs & Hu) _ (css & Ht & Hp)]; [exists []; split; constructor|]. exists (cs :: css). split; [by constructor|].
  simpl. apply Forall_app. split; [apply Hu|done].
Qed.

Lemma escaped_text t css : Forall2 cluster_of t css ->
  concat ((fun u => default_to [] (writeClusterUTF8 u)) <$> t) = encoded (escaped_points (concat css)).
Proof.
  induction 1 as [|u cs t css Hu _ IH]; [done|]. rewrite fmap_cons. cbn [concat]. rewrite IH, (written_cluster u cs Hu). simpl.
  unfold escaped_points. by rewrite flat_map_app, encoded_app.
Qed.

(** The file of items that the tokenizer writes. *)
Lemma UTF8_file ts : Forall (Forall valid_cluster) ts ->
  UTF8_holds gcb (newFileStream (concat ((fun t => concat ((fun u => default_to [] (writeClusterUTF8 u)) <$> t) ++ [0]) <$> ts)))
    ((fun t => concat (text_of <$> t)) <$> ts).
Proof.
  intros Hts. split; [done|].
  assert (exists items, Forall2 (fun t cs => concat (text_of <$> t) = encoded cs /\
    concat ((fun u => default_to [] (writeClusterUTF8 u)) <$> t) = encoded (escaped_points cs)) ts items /\
    Forall (Forall point_ok) items) as (items & H2 & Hp).
  { induction Hts as [|t ts Ht _ (items & H2 & Hp)]; [exists []; split; constructor|].
    destruct (valid_points t Ht) as (css & Hcss & Hpts). exists (concat css :: items). split; [|by constructor].
    constructor; [|done]. split; [by apply (chars_encoded gcb)|by apply escaped_text]. }
  exists items. split; [|split; [done|]].
  - clear -H2. induction H2 as [|t cs ts items [E _] _ IH]; [done|]. by rewrite !fmap_cons, E, IH.
  - split; [done|]. split; [done|]. left. split; [done|]. simpl.
    clear -H2. induction H2 as [|t cs ts items [_ E] _ IH]; [done|]. rewrite !fmap_cons. cbn [concat]. rewrite E, IH.
    by rewrite !encoded_app.
Qed.

(** Input files: valid UTF-8 without the characters that are not kept. *)
Definition utf8_input (bytes : list Z) : Prop := exists cs, Forall point_ok cs /\ bytes = encoded cs.

Lemma UTF8_input bytes : utf8_input bytes -> exists us, read_input (Mode := UTF8Mode) bytes = Some us /\ Forall valid_cluster us /\
  concat (text_of <$> us) = bytes.
Proof.
  intros (cs & Hp & ->). cbn [read_input UTF8Mode].
  destruct (clusters_spec gcb (gcb_nonneg gcb G) (S (length (encoded cs))) clusterContinuationTable (newFileStream (encoded cs)) cs
    (proj1 cluster_tables_ok) (points_plain _ Hp)) as (css & -> & <- & Hcl).
  { split; [done|]. split; [done|]. by left. }
  { pose proof (encoded_length cs). lia. }
  exists (units <$> css). split; [done|].
  assert (Forall2 cluster_of (units <$> css) css) as H2.
  { clear -Hp Hcl G. induction Hcl as [|cs css Hc _ IH]; [constructor|]. simpl in Hp. apply Forall_app in Hp as [Hp1 Hp2].
    constructor; [by apply (is_cluster_of gcb G)|by apply IH]. }
  split; [|by apply (chars_encoded gcb)]. clear -H2. induction H2 as [|u cs us css Hu _ IH]; constructor; [by exists cs|done].
Qed.

Definition UTF8ModeSpec : ModeSpec UTF8Mode (UTF8Spec gcb G).
Proof.
  refine {| ms_dispatch := UTF8_dispatch_ok; ms_input := UTF8_input; raw := text_of |}.
  - intros u (cs & Hu). apply (char_nonempty (ReaderChars := UTF8Chars gcb)). by exists cs.
  - intros u Hu. destruct (word_returns u Hu) as (l & -> & Hl). done.
  - apply UTF8_file.
Defined.

(** The clusters of 0 and 1 are not whitespace. *)
Lemma UTF8_plain_whitespace : isWhitespaceU [0] = Ok false -> isWhitespaceU [1] = Ok false ->
  plain_whitespace (MS := UTF8ModeSpec).
Proof.
  intros W0 W1 w Hw.
  assert (exists css, Forall2 cluster_of w css /\ Forall point_ok (concat css) /\ Forall (fun c => c <> 0 /\ c <> 1) (concat css))
    as (css & H2 & Hp & Ho).
  { induction Hw as [|u w [(cs & Hu) HW] _ (css & H2 & Hp & Ho)]; [exists []; repeat split; constructor|].
    exists (cs :: css). split; [by constructor|]. simpl. rewrite !Forall_app. split; [split; [apply Hu|done]|]. split; [|done].
    destruct (existsb special cs) eqn:Es.
    - destruct (cl_alone _ _ Hu Es) as (c & ->). constructor; [|constructor].
      unfold isW in HW. cbn in HW. rewrite (cl_units _ _ Hu) in HW.
      split; intros ->; [change (units [0]) with [0] in HW; by rewrite W0 in HW|change (units [1]) with [1] in HW; by rewrite W1 in HW].
    - eapply Forall_impl; [apply none_special, Es|]. intros c Hc. unfold special in Hc. zify_bool. lia. }
  pose proof (chars_encoded gcb w css H2) as E. unfold chars in E. cbn in E |- *. rewrite E. by apply (UTF8_plain gcb G).
Qed.
End Mode.
