(* ===== verification/ContextWords.v ===== *)
(** * Words with context

    [doDiffInternal] does not compare words but runs of [context + 1] words
    (windows), cut off at both ends of the files.  Two windows are equal
    exactly when the words in them are; so a script for the windows says more
    about the words than it has to, and [trim_change] turns it into a script
    for the words.  This file shows that it does: [trims_ok] says what the
    trimmed changes mean for the words, and [window_trims] derives it from a
    script for the windows.  The numbering of the windows
    ([initializeContextDiffTokens]) is treated at the end. *)

From S2P Require Import Prelude EditScript HashTable Analyze ScriptProofs DoDiff.

(** ** What the trimmed changes mean for the words *)

(** The words of a change after trimming. *)
Definition item_range (it : trimmed) : base_range :=
  match it with
  | Print C_ADD ch => Range (line0 ch) 0 (line1 ch) (inserted ch)
  | Print C_DEL ch => Range (line0 ch) (deleted ch) (line1 ch) 0
  | Print C_CHANGE ch => Range (line0 ch) (deleted ch) (line1 ch) (inserted ch)
  | Refine r _ => r
  end.

Definition range_change (r : base_range) : change := Change (start0 r) (start1 r) (count0 r) (count1 r).

(** A change is printed as what it is, and a range that is compared again is
    not empty and gets less context. *)
Definition item_ok (context : Z) (it : trimmed) : Prop :=
  match it with
  | Print command _ => command_of (range_change (item_range it)) = command
  | Refine r c => 0 < count0 r /\ 0 < count1 r /\ 0 <= c < context
  end.

Section Trims.
Context (V0 V1 : list Z) (matchContext context : Z) (aggregateChanges : bool) (stop : Prop) (r : option base_range).

(** The trimmed changes of a script, from the words [p0] and [p1] on: they are
    in order and the words between them are equal, up to [q0] and [q1].  Only
    when [stop] holds an assertion may fail. *)
Fixpoint trims_ok (gap : bool) (p0 p1 : Z) (script : list change) (q0 q1 : Z) : Prop :=
  match script with
  | [] => p0 <= q0 /\ q0 - p0 = q1 - p1 /\ slice V0 p0 q0 = slice V1 p1 q1
  | ch :: script' =>
      match trim_change matchContext context aggregateChanges (offset_change r ch) with
      | Fatal e => e = equal_change /\ stop
      | Ok it =>
          let i := item_range it in
          (if gap then p0 < start0 i else p0 <= start0 i) /\ start0 i - p0 = start1 i - p1 /\
          slice V0 p0 (start0 i) = slice V1 p1 (start1 i) /\
          0 <= count0 i /\ 0 <= count1 i /\ 0 < count0 i + count1 i /\
          start0 i + count0 i <= q0 /\ start1 i + count1 i <= q1 /\
          item_ok context it /\
          trims_ok true (start0 i + count0 i) (start1 i + count1 i) script' q0 q1
      end
  end.
End Trims.

(** In terms of the windows: [m] windows of a change are context. *)
Lemma trim_change_range M c agg ch : M <> 0 -> 1 <= c ->
  0 <= deleted ch -> 0 <= inserted ch -> 0 < deleted ch + inserted ch ->
  (trim_change M c agg ch = Fatal equal_change /\ deleted ch = inserted ch /\ deleted ch <= c) \/
  exists it m, trim_change M c agg ch = Ok it /\ item_ok c it /\
    item_range it = Range (line0 ch) (deleted ch - m) (line1 ch) (inserted ch - m) /\
    ((m = Z.min (deleted ch) (inserted ch) /\ (deleted ch <= c \/ inserted ch <= c) /\ deleted ch <> inserted ch) \/
     (m = c /\ c < deleted ch /\ c < inserted ch)).
Proof.
  intros HM Hc Hd Hi Hpos. unfold trim_change, command_of.
  rewrite (proj2 (Z.eqb_neq M 0)), (proj2 (Z.eqb_neq c 0)) by lia. cbn [negb andb].
  destruct (Z.eqb_spec (inserted ch) 0) as [E1|E1]; [|destruct (Z.eqb_spec (deleted ch) 0) as [E0|E0]]; cbn.
  1-2: right; eexists _, 0; (split; [reflexivity|]); (split; [cbn; unfold command_of; cbn; by rewrite ?(proj2 (Z.eqb_neq _ 0)) by lia|]);
    (split; [simpl; f_equal; lia|left; lia]).
  rewrite bool_decide_eq_true_2 by done.
  case_if.
  - destruct (Z.eqb_spec (deleted ch) (inserted ch)); [left; split; [done|lia]|right].
    case_if; eexists _, (Z.min (deleted ch) (inserted ch)); (split; [reflexivity|]);
      (split; [cbn; unfold command_of; cbn; by rewrite ?(proj2 (Z.eqb_neq _ 0)) by lia|]);
      (split; [simpl; f_equal; lia|left; lia]).
  - right. destruct agg; cbn [negb]; eexists _, c; (split; [reflexivity|]); (split; [|split; [done|right; lia]]).
    + cbn. unfold command_of. cbn. by rewrite !(proj2 (Z.eqb_neq _ 0)) by lia.
    + cbn. lia.
Qed.

(** The first words that a range covers. *)
Definition range_start (r : option base_range) : Z * Z :=
  match r with Some r => (start0 r, start1 r) | None => (0, 0) end.

Lemma offset_change_start r ch :
  offset_change r ch = Change (line0 ch + (range_start r).1) (line1 ch + (range_start r).2) (deleted ch) (inserted ch).
Proof. destruct r; [done|]. destruct ch. simpl. by rewrite !Z.add_0_r. Qed.

(** ** Equality of windows *)

Section Windows.
(** The words of a range, and the numbers of the windows. *)
Context (d0 d1 c0 c1 : list Z) (c : Z).
Abbreviation D0 := (zlen d0).
Abbreviation D1 := (zlen d1).
Context (Hc : 1 <= c) (Hc0 : c <= D0) (Hc1 : c <= D1).
Context (L0 : zlen c0 = D0 + c) (L1 : zlen c1 = D1 + c).

(** Window [j] ends with word [j] and begins with word [j - c]. *)
Definition same_words (j0 j1 : Z) : Prop := forall t, 0 <= t <= c -> zget d0 (j0 - t) = zget d1 (j1 - t).

Context (Hwin : forall j0 j1, 0 <= j0 < D0 + c -> 0 <= j1 < D1 + c ->
  (zget c0 j0 = zget c1 j1 <-> same_words j0 j1)).

Lemma same_words_in j0 j1 t : same_words j0 j1 -> 0 <= t <= c -> 0 <= j0 - t < D0 <-> 0 <= j1 - t < D1.
Proof.
  intros H Ht. specialize (H t Ht). pose proof (zget_None_iff d0 (j0 - t)). pose proof (zget_None_iff d1 (j1 - t)).
  destruct (decide (0 <= j0 - t < D0)), (decide (0 <= j1 - t < D1)); try tauto; rewrite H in *; tauto.
Qed.

(** At the end of the files equal windows are equally far from the end. *)
Lemma same_words_end j0 j1 : 0 <= j0 < D0 + c -> 0 <= j1 < D1 + c -> same_words j0 j1 ->
  D0 <= j0 \/ D1 <= j1 -> D0 - j0 = D1 - j1.
Proof.
  intros H0 H1 H He. pose proof (same_words_in j0 j1 0 H).
  assert (D0 <= j0 /\ D1 <= j1) as [E0 E1] by lia.
  pose proof (same_words_in j0 j1 (j0 - D0 + 1) H). pose proof (same_words_in j0 j1 (j1 - D1 + 1) H). lia.
Qed.

(** The last window before a change, and the first one after it. *)
Definition matched_before (l0 l1 : Z) : Prop :=
  (l0 = 0 /\ l1 = 0) \/ (1 <= l0 <= D0 + c /\ 1 <= l1 <= D1 + c /\ same_words (l0 - 1) (l1 - 1)).
Definition matched_after (p0 p1 : Z) : Prop :=
  (p0 = D0 + c /\ p1 = D1 + c) \/ (0 <= p0 < D0 + c /\ 0 <= p1 < D1 + c /\ same_words p0 p1).

(** A change after equal windows at the end of the files. *)
Lemma change_bounds l0 l1 k0 k1 : 0 <= l0 -> 0 <= l1 -> 0 <= k0 -> 0 <= k1 ->
  matched_before l0 l1 -> matched_after (l0 + k0) (l1 + k1) ->
  (k0 = k1 /\ k0 <= c) \/ (l0 <= D0 /\ l1 <= D1).
Proof.
  intros Hl0 Hl1 Hk0 Hk1 [[-> ->]|(B0 & B1 & Hs)] Ha; [right; lia|].
  destruct (decide (l0 <= D0 /\ l1 <= D1)) as [|Hn]; [by right|left].
  pose proof (same_words_end (l0 - 1) (l1 - 1) ltac:(lia) ltac:(lia) Hs ltac:(lia)) as He.
  destruct Ha as [[A0 A1]|(A0 & A1 & Hs')]; [lia|].
  pose proof (same_words_end (l0 + k0) (l1 + k1) A0 A1 Hs' ltac:(lia)). lia.
Qed.

(** Where a change that is not too long ends. *)
Lemma change_end l0 l1 k0 k1 : 0 <= l0 <= D0 -> 0 <= l1 <= D1 -> 0 <= k0 -> 0 <= k1 -> k0 <= c \/ k1 <= c ->
  matched_after (l0 + k0) (l1 + k1) -> l0 + k0 - Z.min k0 k1 <= D0 /\ l1 + k1 - Z.min k0 k1 <= D1.
Proof.
  intros Hl0 Hl1 Hk0 Hk1 Hk [[A0 A1]|(A0 & A1 & Hs)]; [lia|].
  destruct (decide (D0 <= l0 + k0 \/ D1 <= l1 + k1)) as [He|]; [|lia].
  pose proof (same_words_end (l0 + k0) (l1 + k1) A0 A1 Hs He). lia.
Qed.

(** All windows of a change with as many windows in both files, at most
    [context], are equal. *)
Lemma equal_change_windows l0 l1 k : 0 <= l0 -> 0 <= l1 -> 0 <= k <= c ->
  matched_before l0 l1 -> matched_after (l0 + k) (l1 + k) ->
  forall i, 0 <= i < k -> same_words (l0 + i) (l1 + i).
Proof.
  intros Hl0 Hl1 Hk Hb Ha i Hi t Ht. destruct (decide (i < t)) as [Hlt|Hge].
  - destruct Hb as [[-> ->]|(B0 & B1 & Hs)].
    + rewrite !(proj2 (zget_None_iff _ _)) by lia. done.
    + specialize (Hs (t - i - 1) ltac:(lia)). replace (l0 + i - t) with (l0 - 1 - (t - i - 1)) by lia.
      by replace (l1 + i - t) with (l1 - 1 - (t - i - 1)) by lia.
  - destruct Ha as [[A0 A1]|(A0 & A1 & Hs)].
    + rewrite !(proj2 (zget_None_iff _ _)) by lia. done.
    + specialize (Hs (t + (k - i)) ltac:(lia)). replace (l0 + i - t) with (l0 + k - (t + (k - i))) by lia.
      by replace (l1 + i - t) with (l1 + k - (t + (k - i))) by lia.
Qed.

(** A run of equal windows from [a0] and [a1] on makes the words equal from
    [back] words before that up to its end. *)
Lemma run_words a0 a1 back n : 0 <= back <= c -> back <= a0 -> back <= a1 -> 0 < n \/ back = 0 ->
  a0 + n <= D0 + c -> a1 + n <= D1 + c ->
  (forall i, 0 <= i < n -> zget c0 (a0 + i) = zget c1 (a1 + i)) ->
  forall i, 0 <= i < back + n -> zget d0 (a0 - back + i) = zget d1 (a1 - back + i).
Proof.
  intros Hb H0 H1 Hn E0 E1 Hrun i Hi.
  set (k := Z.min i (n - 1)). assert (0 <= k < n) as Hk by lia.
  pose proof (proj1 (Hwin (a0 + k) (a1 + k) ltac:(lia) ltac:(lia)) (Hrun k Hk)) as Hs.
  specialize (Hs (k + back - i)).
  replace (a0 + k - (k + back - i)) with (a0 - back + i) in Hs by lia.
  replace (a1 + k - (k + back - i)) with (a1 - back + i) in Hs by lia. apply Hs. lia.
Qed.

Lemma script_after script p0 p1 : 0 <= p0 <= D0 + c -> 0 <= p1 <= D1 + c -> script_ok c0 c1 true p0 p1 script ->
  matched_after p0 p1.
Proof.
  intros H0 H1. destruct script as [|ch script]; cbn [script_ok].
  - rewrite L0, L1. intros E. pose proof (f_equal length E) as El. rewrite !slice_length in El by lia.
    destruct (decide (p0 = D0 + c)); [left; lia|right]. split; [lia|]. split; [lia|]. apply Hwin; [lia|lia|].
    replace (D0 + c) with (p0 + (D0 + c - p0)) in E by lia. replace (D1 + c) with (p1 + (D0 + c - p0)) in E by lia.
    pose proof (slice_zget _ _ _ _ _ E ltac:(lia) ltac:(lia) 0 ltac:(lia)) as Hz. by rewrite !Z.add_0_r in Hz.
  - rewrite L0, L1. intros (G1 & G2 & E & G3 & G4 & G5 & G6 & G7 & _). right. split; [lia|]. split; [lia|].
    apply Hwin; [lia|lia|].
    replace (line0 ch) with (p0 + (line0 ch - p0)) in E by lia. replace (line1 ch) with (p1 + (line0 ch - p0)) in E by lia.
    pose proof (slice_zget _ _ _ _ _ E ltac:(lia) ltac:(lia) 0 ltac:(lia)) as Hz. by rewrite !Z.add_0_r in Hz.
Qed.

(** ** From windows to words *)

Context (V0 V1 : list Z) (M : Z) (agg : bool) (stop : Prop) (r : option base_range).
Abbreviation s0 := (range_start r).1.
Abbreviation s1 := (range_start r).2.
Context (HM : M <> 0) (Hs0 : 0 <= s0) (Hs1 : 0 <= s1).
Context (Hd0 : d0 = slice V0 s0 (s0 + D0)) (Hd1 : d1 = slice V1 s1 (s1 + D1)).

(** Without [stop] the script has no change with equal windows. *)
Definition equal_stops (script : list change) : Prop := forall ch, ch ∈ script -> deleted ch = inserted ch ->
  (forall i, 0 <= i < deleted ch -> zget c0 (line0 ch + i) = zget c1 (line1 ch + i)) -> stop.

Lemma word_slices w0 w1 n : 0 <= w0 -> 0 <= w1 -> w0 + n <= D0 -> w1 + n <= D1 ->
  (forall i, 0 <= i < n -> zget d0 (w0 + i) = zget d1 (w1 + i)) ->
  slice V0 (s0 + w0) (s0 + w0 + n) = slice V1 (s1 + w1) (s1 + w1 + n).
Proof.
  intros H0 H1 E0 E1 H. apply slice_ext; [lia|lia|lia|]. intros i Hi. specialize (H i ltac:(lia)).
  pose proof (slice_lookup V0 s0 (s0 + D0) (Z.to_nat (w0 + i)) Hs0 ltac:(lia)) as G0. rewrite <- Hd0 in G0.
  pose proof (slice_lookup V1 s1 (s1 + D1) (Z.to_nat (w1 + i)) Hs1 ltac:(lia)) as G1. rewrite <- Hd1 in G1.
  unfold zget at 1 in H. unfold zget at 1 in H. rewrite (proj2 (Z.ltb_ge (w0 + i) 0)), (proj2 (Z.ltb_ge (w1 + i) 0)) in H by lia.
  rewrite G0, G1 in H. rewrite !Z2Nat.id in H by lia. by rewrite <- !Z.add_assoc.
Qed.

Lemma window_trims gap a0 a1 back script : script_ok c0 c1 gap a0 a1 script -> equal_stops script ->
  0 <= back <= c -> 0 <= a0 - back <= D0 -> 0 <= a1 - back <= D1 -> a0 <= D0 + c -> a1 <= D1 + c ->
  (gap = false -> a0 = 0 /\ a1 = 0) ->
  trims_ok V0 V1 M c agg stop r gap (s0 + (a0 - back)) (s1 + (a1 - back)) script (s0 + D0) (s1 + D1).
Proof.
  revert gap a0 a1 back. induction script as [|ch script IH]; intros gap a0 a1 back; cbn [script_ok trims_ok].
  - rewrite L0, L1. intros E _ Hb H0 H1 H2 H3 Hg.
    pose proof (f_equal length E) as El. rewrite !slice_length in El by lia.
    split; [lia|]. split; [lia|].
    replace (s0 + D0) with (s0 + (a0 - back) + (D0 - (a0 - back))) by lia.
    replace (s1 + D1) with (s1 + (a1 - back) + (D0 - (a0 - back))) by lia.
    apply word_slices; [lia..|]. intros i Hi.
    replace (D0 + c) with (a0 + (D0 + c - a0)) in E by lia. replace (D1 + c) with (a1 + (D0 + c - a0)) in E by lia.
    apply (run_words a0 a1 back (D0 + c - a0)); try lia. apply slice_zget; [exact E|lia|lia].
  - rewrite L0, L1. intros (G1 & G2 & E & G3 & G4 & G5 & G6 & G7 & Hrest) Hst Hb H0 H1 H2 H3 Hg.
    assert (exists n, line0 ch = a0 + n /\ line1 ch = a1 + n /\ 0 <= n) as (n & N0 & N1 & Hn).
    { exists (line0 ch - a0). destruct gap; lia. }
    rewrite N0, N1 in E.
    pose proof (slice_zget _ _ _ _ _ E ltac:(lia) ltac:(lia)) as Hrun.
    assert (0 < n \/ (a0 = 0 /\ a1 = 0 /\ back = 0)) as Hn' by (destruct gap; [lia|]; destruct (Hg eq_refl); lia).
    assert (matched_before (line0 ch) (line1 ch)) as Hbef.
    { destruct Hn' as [Hn'|(-> & -> & _)]; [right|].
      - split; [lia|]. split; [lia|]. apply Hwin; [lia|lia|]. specialize (Hrun (n - 1) ltac:(lia)).
        replace (line0 ch - 1) with (a0 + (n - 1)) by lia. by replace (line1 ch - 1) with (a1 + (n - 1)) by lia.
      - destruct (decide (n = 0)); [left; lia|right]. split; [lia|]. split; [lia|]. apply Hwin; [lia|lia|].
        specialize (Hrun (n - 1) ltac:(lia)).
        replace (line0 ch - 1) with (0 + (n - 1)) by lia. by replace (line1 ch - 1) with (0 + (n - 1)) by lia. }
    pose proof (script_after script (line0 ch + deleted ch) (line1 ch + inserted ch) ltac:(lia) ltac:(lia) Hrest) as Haft.
    pose proof (change_bounds (line0 ch) (line1 ch) (deleted ch) (inserted ch) ltac:(lia) ltac:(lia) G3 G4 Hbef Haft) as Hbnd.
    rewrite offset_change_start.
    destruct (trim_change_range M c agg (Change (line0 ch + s0) (line1 ch + s1) (deleted ch) (inserted ch)) HM Hc G3 G4 G5)
      as [(-> & Heq & Hle)|(it & m & -> & Hok & Hrange & Hm)].
    + simpl in Heq, Hle. split; [done|]. apply (Hst ch); [by left|done|]. intros i Hi.
      apply Hwin; [lia|lia|]. apply (equal_change_windows _ _ (deleted ch)); try lia; [done|].
      by replace (line1 ch + deleted ch) with (line1 ch + inserted ch) by lia.
    + simpl in Hrange, Hm. rewrite Hrange. cbn [start0 start1 count0 count1].
      assert (line0 ch <= D0 /\ line1 ch <= D1) as [B0 B1] by lia.
      assert (line0 ch + deleted ch - m <= D0 /\ line1 ch + inserted ch - m <= D1) as [B2 B3].
      { destruct Hm as [(-> & Hk & _)|(-> & ? & ?)]; [|lia]. apply change_end; (done || lia). }
      split; [destruct gap; lia|]. split; [lia|]. split.
      { replace (line0 ch + s0) with (s0 + (a0 - back) + (back + n)) by lia.
        replace (line1 ch + s1) with (s1 + (a1 - back) + (back + n)) by lia.
        apply word_slices; [lia..|]. intros i Hi. apply (run_words a0 a1 back n); try lia. exact Hrun. }
      do 3 (split; [lia|]). split; [lia|]. split; [lia|]. split; [done|].
      replace (line0 ch + s0 + (deleted ch - m)) with (s0 + (line0 ch + deleted ch - m)) by lia.
      replace (line1 ch + s1 + (inserted ch - m)) with (s1 + (line1 ch + inserted ch - m)) by lia.
      apply IH; [done| |lia|lia|lia|lia|lia|done]. intros ch' Hch'. apply Hst. by right.
Qed.
End Windows.

(** ** The arrays that are numbered *)

(** The array for window [j]: the words from [j - c] to [j], with -1 where
    the window is cut off. *)
Definition window (d : list Z) (c j : Z) : list Z :=
  (if j <? c then [-1] else []) ++ slice d (Z.max 0 (j - c)) (j + 1) ++ (if zlen d <=? j then [-1] else []).

Lemma context_arrays_window d c : 0 <= c <= zlen d ->
  context_arrays d c = (fun i => window d c (Z.of_nat i)) <$> seq 0 (Z.to_nat (zlen d + c)).
Proof.
  intros Hc. unfold context_arrays.
  replace (Z.to_nat (zlen d + c)) with (Z.to_nat c + (Z.to_nat (zlen d - c) + Z.to_nat c))%nat by lia.
  rewrite !seq_app, !fmap_app, (fmap_seq_shift _ (0 + _)), (fmap_seq_shift _ (0 + _ + _)).
  f_equal; [|f_equal]; apply list_fmap_ext; intros i x [-> Hi]%lookup_seq; unfold window; simpl.
  - rewrite slice_cons by lia. rewrite slice_slice by lia. case_if; [|lia]. case_if; [lia|].
    rewrite app_nil_r. simpl. f_equal. f_equal; lia.
  - case_if; [lia|]. case_if; [lia|]. rewrite app_nil_r. simpl. f_equal; lia.
  - case_if; [lia|]. case_if; [|lia]. simpl.
    assert (zlen (slice d (zlen d - c) (zlen d)) = c) as Hl by (rewrite slice_length; lia).
    rewrite slice_end by (rewrite Hl; lia). f_equal. rewrite Hl, slice_slice by lia. rewrite (slice_over d _ (_ + 1) (zlen d)) by lia.
    f_equal; lia.
Qed.

(** The words of a window, read from its array. *)
Lemma window_zget (d : list Z) c j t : 0 <= j -> 0 <= t <= c ->
  zget d (j - t) = zget (slice d (Z.max 0 (j - c)) (j + 1)) (j - t - Z.max 0 (j - c)).
Proof.
  intros Hj Ht. destruct (decide (0 <= j - t < zlen d)) as [Hi|Hi].
  - unfold zget at 2. case_if; [lia|]. rewrite slice_lookup by lia. f_equal. lia.
  - rewrite (proj2 (zget_None_iff d (j - t)) Hi). symmetry. apply zget_None_iff. intros H. apply Hi.
    unfold slice in H. rewrite length_take, length_drop in H. lia.
Qed.

Definition words_nonneg (d : list Z) : Prop := Forall (fun v => 0 <= v) d.

Lemma slice_nonneg d a b : words_nonneg d -> words_nonneg (slice d a b).
Proof. intros H. by apply Forall_take, Forall_drop. Qed.

Lemma nonneg_no_marker l : words_nonneg l -> -1 ∈ l -> False.
Proof. intros H Hin. unfold words_nonneg in H. rewrite Forall_forall in H. specialize (H _ Hin). lia. Qed.

Lemma window_same d0 d1 c j0 j1 : 1 <= c -> c <= zlen d0 -> c <= zlen d1 -> words_nonneg d0 -> words_nonneg d1 ->
  0 <= j0 < zlen d0 + c -> 0 <= j1 < zlen d1 + c ->
  window d0 c j0 = window d1 c j1 <-> same_words d0 d1 c j0 j1.
Proof.
  intros Hc H0 H1 N0 N1 J0 J1. split.
  - unfold window. pose proof (slice_nonneg d0 (Z.max 0 (j0 - c)) (j0 + 1) N0) as S0.
    pose proof (slice_nonneg d1 (Z.max 0 (j1 - c)) (j1 + 1) N1) as S1.
    assert (forall (d : list Z) j, c <= zlen d -> 0 <= j < zlen d + c -> slice d (Z.max 0 (j - c)) (j + 1) <> []) as Hne.
    { intros d j Hd Hj E%(f_equal length). unfold slice in E. rewrite length_take, length_drop in E. simpl in E. lia. }
    pose proof (Hne d0 j0 H0 J0) as E0. pose proof (Hne d1 j1 H1 J1) as E1.
    intros E. enough (slice d0 (Z.max 0 (j0 - c)) (j0 + 1) = slice d1 (Z.max 0 (j1 - c)) (j1 + 1) /\
        j0 - Z.max 0 (j0 - c) = j1 - Z.max 0 (j1 - c)) as [ES EJ].
    { intros t Ht. rewrite (window_zget d0 c j0 t), (window_zget d1 c j1 t) by lia. rewrite ES. f_equal. lia. }
    assert (forall (d d' : list Z) j j', words_nonneg (slice d (Z.max 0 (j - c)) (j + 1)) ->
      [-1] ++ slice d' (Z.max 0 (j' - c)) (j' + 1) ++ [] = [] ++ slice d (Z.max 0 (j - c)) (j + 1) ++ (if zlen d <=? j then [-1] else []) ->
      slice d (Z.max 0 (j - c)) (j + 1) <> [] -> False) as Hhead.
    { intros d d' j j' HS EE HN. destruct (slice d _ _) as [|x l]; [done|]. injection EE as <- _.
      apply (nonneg_no_marker _ HS). by left. }
    destruct (j0 <? c) eqn:C0, (j1 <? c) eqn:C1; zify_bool.
    + rewrite (proj2 (Z.leb_gt (zlen d0) j0)), (proj2 (Z.leb_gt (zlen d1) j1)), !app_nil_r in E by lia.
      injection E as E. split; [done|]. apply (f_equal length) in E. rewrite !slice_length in E by lia. lia.
    + exfalso. rewrite (proj2 (Z.leb_gt (zlen d0) j0)) in E by lia. by eapply Hhead in E.
    + exfalso. rewrite (proj2 (Z.leb_gt (zlen d1) j1)) in E by lia. symmetry in E. by eapply Hhead in E.
    + split; [|lia]. cbn [app] in E. destruct (zlen d0 <=? j0), (zlen d1 <=? j1); rewrite ?app_nil_r in E.
      * by apply app_inj_tail in E as [E _].
      * exfalso. apply (nonneg_no_marker _ S1). rewrite <- E. apply elem_of_app. right. by left.
      * exfalso. apply (nonneg_no_marker _ S0). rewrite E. apply elem_of_app. right. by left.
      * done.
  - intros Hs.
    assert (forall t, 0 <= t <= c -> 0 <= j0 - t < zlen d0 <-> 0 <= j1 - t < zlen d1) as Hin by (intros t; by apply same_words_in).
    assert (j0 < c \/ j1 < c -> j0 = j1) as Hstart.
    { intros [?|?]; [pose proof (Hin j0); pose proof (Hin (j0 + 1)); lia|].
      pose proof (Hin j1); pose proof (Hin (j1 + 1)). lia. }
    pose proof (Hin 0) as Hend. unfold window. f_equal; [|f_equal].
    + destruct (j0 <? c) eqn:C0, (j1 <? c) eqn:C1; zify_bool; done || lia.
    + apply slice_ext; [lia|lia|lia|]. intros i Hi.
      replace (Z.max 0 (j0 - c) + i) with (j0 - (j0 - Z.max 0 (j0 - c) - i)) by lia.
      replace (Z.max 0 (j1 - c) + i) with (j1 - (j0 - Z.max 0 (j0 - c) - i)) by lia. apply Hs. lia.
    + destruct (zlen d0 <=? j0) eqn:C0, (zlen d1 <=? j1) eqn:C1; zify_bool; done || lia.
Qed.

(** ** The numbering of the arrays *)

(** The [n] low bytes of a value. *)
Definition low_bytes (n : nat) (v : Z) : list Z := (fun i => Z.shiftr v (8 * Z.of_nat i) mod 256) <$> seq 0 n.

Lemma low_bytes_inj n v w : low_bytes n v = low_bytes n w -> v mod 256 ^ Z.of_nat n = w mod 256 ^ Z.of_nat n.
Proof.
  revert v w. induction n as [|n IH]; intros v w; [by rewrite !Z.mod_1_r|]. unfold low_bytes.
  cbn [seq]. rewrite !fmap_cons, !(fmap_seq_shift _ 1). simpl Z.mul at 1 3. rewrite !Z.shiftr_0_r. intros [= H0 H].
  assert (low_bytes n (v / 256) = low_bytes n (w / 256)) as Hn.
  { unfold low_bytes. change 256 with (2 ^ 8). rewrite <- !Z.shiftr_div_pow2 by lia.
    etrans; [|etrans; [exact H|]]; apply list_fmap_ext; intros i x _; rewrite Z.shiftr_shiftr by lia; do 2 f_equal; lia. }
  apply IH in Hn. rewrite Nat2Z.inj_succ, Z.pow_succ_r by lia. rewrite !Z.rem_mul_r by lia. by rewrite H0, Hn.
Qed.

(** A value or the mark -1. *)
Definition marked_value (v : Z) : Prop := -1 <= v < 2 ^ 63.

Lemma value_bytes_inj v w : marked_value v -> marked_value w -> value_bytes v = value_bytes w -> v = w.
Proof. unfold marked_value. intros Hv Hw H%(low_bytes_inj 8). simpl in H. lia. Qed.

Lemma array_bytes_inj l l' : Forall marked_value l -> Forall marked_value l' -> array_bytes l = array_bytes l' -> l = l'.
Proof.
  intros Hl. revert l'. induction Hl as [|v l Hv Hl IH]; intros l' Hl'; destruct Hl' as [|w l' Hw Hl']; try done.
  unfold array_bytes. rewrite !fmap_cons. cbn [concat]. intros [H1 H2]%app_inj_1; [|done].
  f_equal; [by apply value_bytes_inj|by apply IH].
Qed.

Section Numbering.
Context {T : Type} `{WordTable T}.

(** [vs] are the numbers of [arrays] in the table of words [ws]. *)
Definition array_numbers (ws : list (list Z)) (arrays : list (list Z)) (vs : list Z) : Prop :=
  Forall2 (fun a v => 0 <= v /\ ws !! Z.to_nat v = Some (array_bytes a)) arrays vs.

Lemma number_all_spec arrays t ws : wt_rep t ws -> NoDup ws -> zlen ws + zlen arrays <= VALUE_MAX ->
  exists t' ws' vs, number_all t arrays = Ok (t', vs) /\ wt_rep t' ws' /\ NoDup ws' /\ ws `prefix_of` ws' /\
    zlen ws' <= zlen ws + zlen arrays /\ array_numbers ws' arrays vs.
Proof.
  revert t ws. induction arrays as [|a arrays IH]; intros t ws Ht Hd Hl.
  - exists t, ws, []. do 4 (split; [done|]). split; [simpl; lia|constructor].
  - cbn [number_all]. simpl in Hl. destruct (wt_get_intern t ws (array_bytes a) Ht) as (t1 & -> & Ht1); [lia|].
    cbn [rbind]. pose proof (intern_NoDup ws (array_bytes a) Hd) as Hd1.
    assert (zlen (intern ws (array_bytes a)).1 <= zlen ws + 1) as Hl1.
    { unfold intern. destruct (position _ ws); simpl; rewrite ?length_app; simpl; lia. }
    destruct (IH t1 _ Ht1 Hd1 ltac:(lia)) as (t' & ws' & vs & -> & Ht' & Hd' & Hp & Hl' & Hvs). cbn [rbind].
    exists t', ws', ((intern ws (array_bytes a)).2 :: vs). do 3 (split; [done|]).
    split; [etrans; [apply intern_prefix|done]|]. split; [simpl; lia|]. constructor; [|done].
    destruct (intern_value ws (array_bytes a)) as [Hv Hnn]. split; [done|]. by eapply prefix_lookup_Some.
Qed.

Lemma array_numbers_prefix ws ws' arrays vs : ws `prefix_of` ws' -> array_numbers ws arrays vs -> array_numbers ws' arrays vs.
Proof.
  intros Hp Hn. eapply Forall2_impl; [exact Hn|]. intros a v [H0 H1]. split; [done|]. by eapply prefix_lookup_Some.
Qed.

(** Equal numbers are equal arrays. *)
Lemma array_numbers_eq ws a0 a1 v0 v1 : NoDup ws -> Forall marked_value a0 -> Forall marked_value a1 ->
  0 <= v0 /\ ws !! Z.to_nat v0 = Some (array_bytes a0) -> 0 <= v1 /\ ws !! Z.to_nat v1 = Some (array_bytes a1) ->
  v0 = v1 <-> a0 = a1.
Proof.
  intros Hd H0 H1 [P0 E0] [P1 E1]. split.
  - intros ->. apply array_bytes_inj; congruence.
  - intros ->. pose proof (NoDup_lookup _ _ _ _ Hd E0 E1). lia.
Qed.

Lemma marked_nonneg d : Forall (fun v => 0 <= v < 2 ^ 63) d -> words_nonneg d.
Proof. intros Hd. eapply Forall_impl; [exact Hd|]. simpl. lia. Qed.

Lemma window_marked d c j : Forall (fun v => 0 <= v < 2 ^ 63) d -> Forall marked_value (window d c j).
Proof.
  intros Hd. assert (Forall marked_value d) as Hm by (eapply Forall_impl; [exact Hd|]; unfold marked_value; simpl; lia).
  assert (forall b : bool, Forall marked_value (if b then [-1] else [])) as H1.
  { intros []; repeat constructor; unfold marked_value; lia. }
  unfold window. repeat apply Forall_app_2; [apply H1|by apply Forall_take, Forall_drop|apply H1].
Qed.

(** The number of a window is that of its array. *)
Lemma window_number ws d c vs j : array_numbers ws (context_arrays d c) vs -> 0 <= c <= zlen d -> 0 <= j < zlen d + c ->
  exists v, zget vs j = Some v /\ 0 <= v /\ ws !! Z.to_nat v = Some (array_bytes (window d c j)).
Proof.
  intros Hn Hc Hj. rewrite context_arrays_window in Hn by done.
  assert (((fun i => window d c (Z.of_nat i)) <$> seq 0 (Z.to_nat (zlen d + c))) !! Z.to_nat j = Some (window d c j)) as Hl.
  { rewrite list_lookup_fmap, lookup_seq_lt by lia. simpl. by rewrite Z2Nat.id by lia. }
  destruct (Forall2_lookup_l _ _ _ _ _ Hn Hl) as (v & Hv & H0 & H1). exists v. split; [|done].
  unfold zget. by rewrite (proj2 (Z.ltb_ge j 0)) by lia.
Qed.

Lemma context_arrays_length d c : 0 <= c <= zlen d -> zlen (context_arrays d c) = zlen d + c.
Proof. intros Hc. rewrite context_arrays_window, length_fmap, length_seq by done. lia. Qed.

(** Both lists of windows are numbered, and equal numbers are equal words. *)
Lemma context_numbers fresh d0 d1 c : wt_rep fresh [] -> 1 <= c -> c <= zlen d0 -> c <= zlen d1 ->
  Forall (fun v => 0 <= v < 2 ^ 63) d0 -> Forall (fun v => 0 <= v < 2 ^ 63) d1 ->
  zlen d0 + zlen d1 + 2 * c <= VALUE_MAX ->
  exists t1 t2 c0 c1, number_all fresh (context_arrays d0 c) = Ok (t1, c0) /\ number_all t1 (context_arrays d1 c) = Ok (t2, c1) /\
    zlen c0 = zlen d0 + c /\ zlen c1 = zlen d1 + c /\ Forall (fun e => 0 <= e < (wt_reset t2).2) (c0 ++ c1) /\
    forall j0 j1, 0 <= j0 < zlen d0 + c -> 0 <= j1 < zlen d1 + c -> zget c0 j0 = zget c1 j1 <-> same_words d0 d1 c j0 j1.
Proof.
  intros Hf Hc H0 H1 M0 M1 Hs.
  pose proof (context_arrays_length d0 c ltac:(lia)) as A0. pose proof (context_arrays_length d1 c ltac:(lia)) as A1.
  destruct (number_all_spec (context_arrays d0 c) fresh [] Hf NoDup_nil_2) as (t1 & ws1 & c0 & E0 & T1 & N1 & _ & B1 & V0);
    [simpl; lia|].
  destruct (number_all_spec (context_arrays d1 c) t1 ws1 T1 N1) as (t2 & ws & c1 & E1 & T2 & N2 & Hp & B2 & V1);
    [simpl in B1; lia|].
  apply (array_numbers_prefix ws1 ws _ _ Hp) in V0.
  exists t1, t2, c0, c1. split; [done|]. split; [done|].
  pose proof (Forall2_length _ _ _ V0) as L0. pose proof (Forall2_length _ _ _ V1) as L1.
  split; [lia|]. split; [lia|]. split.
  - destruct (wt_reset_spec t2 ws T2) as [-> _]. assert (forall arrays vs, array_numbers ws arrays vs -> Forall (fun e => 0 <= e < zlen ws) vs) as Hr.
    { intros arrays vs Hn. apply Forall_lookup. intros i v Hv. destruct (Forall2_lookup_r _ _ _ _ _ Hn Hv) as (a & _ & G0 & G1).
      apply lookup_lt_Some in G1. lia. }
    apply Forall_app. split; by eapply Hr.
  - intros j0 j1 J0 J1. destruct (window_number ws d0 c c0 j0 V0 ltac:(lia) J0) as (v0 & -> & W0).
    destruct (window_number ws d1 c c1 j1 V1 ltac:(lia) J1) as (v1 & -> & W1).
    pose proof (array_numbers_eq ws _ _ v0 v1 N2 (window_marked d0 c j0 M0) (window_marked d1 c j1 M1) W0 W1) as He.
    rewrite <- (window_same d0 d1 c j0 j1) by (done || by eapply marked_nonneg).
    rewrite <- He. split; [by intros [=]|by intros ->].
Qed.
End Numbering.
