(* ===== verification/Marks.v ===== *)
(** * What is drawn

    The output of dwdiff as a sequence of marks: characters of whitespace and
    of words with the kind of text they belong to, the ends of changed words,
    rules between changes, and the lines that are counted on the way.  [emit]
    says, as a function, what a mark writes for all options: colours, line
    numbers, repeated markers, underlining.  DoDiffProofs shows that the
    routines of doDiff.c draw the marks of what they read. *)

From S2P Require Import Prelude FileIO Streams UnicodeProofs ContextBuffer ContextProofs Tokenizer Pieces DoDiff Reader.

(** One step of the output: a character ([addchar]), a string
    ([writeString]), line numbers ([printLineNumbers]), or text that is not
    held back ([puts]). *)
Inductive emission :=
  | Chr (c : Z) (common : bool)
  | Txt (s : list Z)
  | Numbers (old new : Z)
  | Direct (s : list Z).

(** The static variables that the text depends on. *)
Record dstate := DState {
  d_old : Z;
  d_new : Z;
  d_feed : bool;
  d_return : bool
}.

Definition dstate_of (k : core) : dstate :=
  DState (oldLineNumber k) (newLineNumber k) (lastWasLinefeed k) (lastWasCarriageReturn k).

Inductive mark {Char : Type} :=
  | White (mode : Mode) (c : Char)     (* a printed character of whitespace *)
  | Word (mode : Mode) (c : Char)      (* a printed character of a word *)
  | Common (c : Char)                  (* of the whitespace of both files *)
  | Para (mode : Mode) (c : Char)      (* of the marker of a paragraph *)
  | Begin (mode : Mode)                (* before changed words *)
  | End_ (mode : Mode)                 (* behind changed words *)
  | Rule (after : bool)                (* a line between changes; [after] the first *)
  | Count (new : bool).                (* a line of the old or the new file *)
Arguments mark : clear implicits.

Definition if_print {A} (b : bool) (l : list A) : list A := if b then l else [].

Section Marks.
Context (opt : options).
Context {Char : Type} {RR : Reader Char} {RC : ReaderChars Char}.

(** ** Emissions *)

Definition perform (e : emission) (o : outstate) : option outstate :=
  match e with
  | Chr c common => addchar (o_context opt) (o_contextLines opt) o c common
  | Txt s => writeString (o_context opt) o s
  | Numbers old new => printLineNumbers (o_context opt) (o_stdout opt) (o_lineNumbers opt) o old new
  | Direct s => Some (write_std (o_stdout opt) o s)
  end.

Fixpoint performs (es : list emission) (o : outstate) : option outstate :=
  match es with
  | [] => Some o
  | e :: es' => let? o := perform e o in performs es' o
  end.

(** The text of emissions that are not held back, wherever it goes. *)
Definition emission_text (e : emission) : list Z :=
  match e with
  | Chr c _ => [c]
  | Txt s => s
  | Numbers old new => linenumbers_text (o_lineNumbers opt) old new
  | Direct s => s
  end.

(** ** Marks *)

Definition is_marked (mode : Mode) : bool := negb (is_common mode).
Definition color_of (mode : Mode) : list Z := if bool_decide (mode = ADD) then o_addColor opt else o_delColor opt.
Definition start_of (mode : Mode) : list Z := if bool_decide (mode = ADD) then o_addStart opt else o_delStart opt.
Definition stop_of (mode : Mode) : list Z := if bool_decide (mode = ADD) then o_addStop opt else o_delStop opt.

(** At the first character of a line: the line numbers, and the decoration of
    a change that goes on. *)
Definition on_new_line (mode : Mode) (s : dstate) : list emission :=
  if_print (d_feed s)
    (if_print (negb (o_lineNumbers opt =? 0))
       (if_print (o_colorMode opt && is_marked mode) [Txt resetColor] ++ [Numbers (to_int (d_old s)) (to_int (d_new s))])
     ++ if_print (o_needStartStop opt && is_marked mode)
       (if_print (o_colorMode opt) [Txt (color_of mode)] ++ if_print (o_repeatMarkers opt) [Txt (start_of mode)])).

(** Before the end of a line in a change. *)
Definition at_line_end (c : Char) (mode : Mode) (s : dstate) : list emission :=
  if_print (o_needStartStop opt && is_marked mode && (charDataEquals c 13 || (negb (d_return s) && charDataEquals c 10)))
    (if_print (o_repeatMarkers opt) [Txt (stop_of mode)] ++ if_print (o_colorMode opt) [Txt eraseLine]).

Definition char_emissions (c : Char) (common : bool) : list emission := (fun b => Chr b common) <$> char_text c.

Definition visible (c : Char) : bool := negb (charDataEquals c 10) && negb (charDataEquals c 13).

(** A deleted character is underlined, an added one is doubled. *)
Definition overstrike (c : Char) (mode : Mode) : list emission :=
  if_print ((o_printer opt || o_less opt) && visible c)
    (match mode with
     | DEL => [Chr 95 false; Chr 8 false]
     | ADD => char_emissions c false ++ [Chr 8 false]
     | _ => []
     end).

Definition after_char (c : Char) (s : dstate) : dstate :=
  DState (d_old s) (d_new s) (charDataEquals c 10) (charDataEquals c 13).
Definition no_feed (s : dstate) : dstate := DState (d_old s) (d_new s) false (d_return s).

Definition rule_text (after : bool) : list Z := if after then 10 :: marker_line else marker_line.

Definition emit (m : mark Char) (s : dstate) : list emission * dstate :=
  match m with
  | White mode c =>
      (on_new_line mode s
       ++ (if o_less opt && visible c && bool_decide (mode = DEL) then [Chr 95 false; Chr 8 false] else at_line_end c mode s)
       ++ char_emissions c (is_common mode), after_char c s)
  | Word mode c => (on_new_line mode s ++ at_line_end c mode s ++ overstrike c mode ++ char_emissions c (is_common mode), after_char c s)
  | Common c => (on_new_line COMMON s ++ char_emissions c true, after_char c s)
  | Para mode c => (on_new_line mode s ++ char_emissions c (negb (bool_decide (mode = ADD))), no_feed s)
  | Begin mode =>
      (on_new_line COMMON s
       ++ if_print (o_needStartStop opt) (if_print (o_colorMode opt) [Txt (color_of mode)] ++ [Txt (start_of mode)]), no_feed s)
  | End_ mode =>
      (on_new_line mode s
       ++ if_print (o_needStartStop opt) ([Txt (stop_of mode)] ++ if_print (o_colorMode opt) [Txt resetColor]), no_feed s)
  | Rule after => ([Direct (rule_text after)], DState (d_old s) (d_new s) (after || d_feed s) (d_return s))
  | Count new =>
      ([], if new then DState (d_old s) (count_line (d_new s)) (d_feed s) (d_return s)
           else DState (count_line (d_old s)) (d_new s) (d_feed s) (d_return s))
  end.

Fixpoint emits (ms : list (mark Char)) (s : dstate) : list emission * dstate :=
  match ms with
  | [] => ([], s)
  | m :: ms' => let '(e1, s1) := emit m s in let '(e2, s2) := emits ms' s1 in (e1 ++ e2, s2)
  end.

Lemma emits_app ms1 ms2 s :
  emits (ms1 ++ ms2) s = ((emits ms1 s).1 ++ (emits ms2 (emits ms1 s).2).1, (emits ms2 (emits ms1 s).2).2).
Proof.
  revert s. induction ms1 as [|m ms1 IH]; intros s; [simpl; by destruct (emits ms2 s)|]; cbn [app emits].
  destruct (emit m s) as [e1 s1]. rewrite IH. destruct (emits ms1 s1) as [e2 s2]. simpl. by rewrite app_assoc.
Qed.

Lemma emits_cons m ms s : emits (m :: ms) s = ((emit m s).1 ++ (emits ms (emit m s).2).1, (emits ms (emit m s).2).2).
Proof. cbn [emits]. destruct (emit m s) as [e1 s1]. simpl. by destruct (emits ms s1). Qed.

Lemma performs_app es1 es2 o : performs (es1 ++ es2) o = let? o := performs es1 o in performs es2 o.
Proof. revert o. induction es1 as [|e es1 IH]; intros o; cbn [app performs]; [done|]. destruct (perform e o) as [o1|]; [exact (IH o1)|done]. Qed.

(** ** Without --context *)

Definition emissions_text (es : list emission) : list Z := concat (emission_text <$> es).

Lemma emissions_text_app es1 es2 : emissions_text (es1 ++ es2) = emissions_text es1 ++ emissions_text es2.
Proof. unfold emissions_text. by rewrite fmap_app, concat_app. Qed.

(** Nothing is written to standard output where that is not [option.output]. *)
Definition one_stream (e : emission) : Prop :=
  o_stdout opt = true \/ match e with Numbers _ _ | Direct _ => False | _ => True end.

Lemma performs_text es o : o_context opt = false -> Forall one_stream es ->
  performs es o = Some (write_out o (emissions_text es)).
Proof.
  intros Hc He. revert o. induction He as [|e es He _ IH]; intros o; cbn [performs].
  - unfold write_out, emissions_text. simpl. rewrite app_nil_r. by destruct o.
  - assert (perform e o = Some (write_out o (emission_text e))) as ->.
    { unfold one_stream in He. destruct e; simpl; unfold addchar, writeString, printLineNumbers, write_std; rewrite ?Hc; try done;
        by destruct He as [->|]. }
    obind. rewrite IH. unfold write_out, emissions_text. simpl. by rewrite <- app_assoc.
Qed.

(** Buffered or not, line numbers and rules are all that reaches standard
    output then. *)
Lemma perform_std e o o' : one_stream e -> perform e o = Some o' -> std_output o' = std_output o.
Proof.
  assert (forall o f o', update_buffer o f = Some o' -> std_output o' = std_output o) as Hu.
  { intros p f p'. unfold update_buffer. destruct (zget _ _); [|done]. by intros [= <-]. }
  assert (forall p l, o_stdout opt = true -> std_output (write_std (o_stdout opt) p l) = std_output p) as Hw by (by intros p l ->).
  assert (forall p, std_output (flush_context (o_contextLines opt) p) = std_output p) as Hf by (intros p; unfold flush_context; by destruct (state p)).
  assert (forall p, std_output (end_of_line (o_contextLines opt) p) = std_output p) as He.
  { intros p. unfold end_of_line. destruct (state p); repeat case_if; done. }
  intros H1. destruct e as [c common|s|x y|s]; simpl.
  - unfold addchar. destruct (negb _); [by intros [= <-]|].
    set (o1 := if common then o else _). assert (std_output o1 = std_output o) as <- by (subst o1; destruct common; [done|apply Hf]).
    destruct (is_buffering _).
    + destruct (update_buffer o1 _) as [o2|] eqn:E2; [|done]. obind. apply Hu in E2 as <-. case_if; [|by intros [= <-]]. intros E1%Hu. by rewrite E1, He.
    + obind. case_if; [|by intros [= <-]]. intros E1%Hu. by rewrite E1, He.
  - unfold writeString. destruct (negb _); [by intros [= <-]|]. destruct (is_buffering _); [by intros E%Hu|by intros [= <-]].
  - destruct H1 as [H1|[]]. unfold printLineNumbers. destruct (negb _); [intros [= <-]; by apply Hw|].
    destruct (is_buffering _); [by intros E%Hu|intros [= <-]; by apply Hw].
  - destruct H1 as [H1|[]]. intros [= <-]. by apply Hw.
Qed.

Lemma performs_std es o o' : Forall one_stream es -> performs es o = Some o' -> std_output o' = std_output o.
Proof.
  intros He. revert o. induction He as [|e es He _ IH]; intros o; cbn [performs]; [by intros [= <-]|].
  destruct (perform e o) as [o1|] eqn:E; [|done]. obind. intros H%IH. by rewrite H, (perform_std e o o1).
Qed.

(** ** Counting lines *)

Definition mark_count (new : bool) (m : mark Char) : Z :=
  match m with Count b => if eqb b new then 1 else 0 | _ => 0 end.
(** The lines of the old or the new file that marks count. *)
Definition counted (new : bool) (ms : list (mark Char)) : Z := foldr (fun m n => mark_count new m + n) 0 ms.

Lemma counted_app new ms1 ms2 : counted new (ms1 ++ ms2) = counted new ms1 + counted new ms2.
Proof. induction ms1 as [|m ms1 IH]; simpl; [lia|]. rewrite IH. lia. Qed.
End Marks.

(** Equal up to the wrap-around of an [unsigned int]. *)
Definition wraps (x y : Z) : Prop := exists q, x = y + 4294967296 * q.

Lemma wraps_refl x : wraps x x.
Proof. exists 0. lia. Qed.

Lemma wraps_count n : wraps (count_line n) (n + 1).
Proof. unfold count_line. exists (- ((n + 1) / 2 ^ 32)). pose proof (Z.div_mod (n + 1) (2 ^ 32)). lia. Qed.

Lemma emits_lines opt {Char : Type} {RR : Reader Char} {RC : ReaderChars Char} (ms : list (mark Char)) s :
  wraps (d_old (emits opt ms s).2) (d_old s + counted false ms) /\ wraps (d_new (emits opt ms s).2) (d_new s + counted true ms).
Proof.
  revert s. induction ms as [|m ms IH]; intros s; [split; simpl; rewrite Z.add_0_r; apply wraps_refl|].
  rewrite emits_cons. cbn [snd]. destruct (IH (emit opt m s).2) as [[q1 H1] [q2 H2]]. cbn [counted foldr].
  fold (counted false ms) (counted true ms).
  destruct m as [| | | | | | |[]]; simpl in *; try (split; [exists q1|exists q2]; lia).
  - destruct (wraps_count (d_new s)) as [r Hr]. split; [exists q1|exists (q2 + r)]; lia.
  - destruct (wraps_count (d_old s)) as [r Hr]. split; [exists (q1 + r)|exists q2]; lia.
Qed.

(** ** The marks of what is read *)

Section Drawing.
Context (opt : options).
Context {Char : Type} {RR : Reader Char} {RC : ReaderChars Char}.
Abbreviation marks := (list (mark Char)).
Abbreviation piece := (@piece Char).

(** The file in which a newline in whitespace is counted. *)
Definition counts_new (mode : Mode) : bool := match mode with COMMON | ADD => true | _ => false end.

Definition white_marks (print : bool) (mode : Mode) (cs : list Char) : marks :=
  flat_map (fun c => if_print print [White mode c] ++ if_print (charDataEquals c 10) [Count (counts_new mode)]) cs.

Definition token_count_marks (mode : Mode) : marks :=
  match mode with
  | COMMON => [Count false; Count true]
  | ADD => [Count true]
  | DEL => [Count false]
  | OLD_COMMON => []
  end.

(** An empty token stands for the end of a paragraph: it is shown as a marker
    when it is not common. *)
Definition empty_token_marks (print : bool) (mode : Mode) : marks :=
  if_print (o_paraDelim opt && print && negb (bool_decide (mode = COMMON))) (Para mode <$> string_chars (o_paraDelimMarker opt)).

Definition token_marks (print : bool) (mode : Mode) (cs : list Char) : marks :=
  match cs with
  | [] => empty_token_marks print mode
  | _ => flat_map (fun c => if_print print [Word mode c] ++ if_print (charDataEquals c 10) (token_count_marks mode)) cs
  end.

(** What follows the first newline. *)
Fixpoint after_newline (cs : list Char) : option (list Char) :=
  match cs with
  | [] => None
  | c :: cs' => if charDataEquals c 10 then Some cs' else after_newline cs'
  end.

(** The whitespace [a] before a common word is printed ([printNew]: that of
    the new file); at each of its newlines a line is counted in the other file
    too, as long as there are newlines in its whitespace [b]. *)
Fixpoint sync_marks (printNew : bool) (a b : list Char) : marks :=
  match a with
  | [] => flat_map (fun c => if_print (charDataEquals c 10) [Count (negb printNew)]) b
  | c :: a' =>
      if_print (o_printCommon opt) [Common c] ++
      (if charDataEquals c 10 then
         Count printNew :: match after_newline b with
                           | Some b' => Count (negb printNew) :: sync_marks printNew a' b'
                           | None => sync_marks printNew a' []
                           end
       else sync_marks printNew a' b)
  end.

(** The whitespace of the old file [wo] is printed after a deletion ([d]),
    that of the new file otherwise. *)
Definition common_ws_marks (d : bool) (wo wn : list Char) : marks :=
  if d then sync_marks false wo wn else sync_marks true wn wo.

Definition words_marks (print : bool) (mode : Mode) (ps : list piece) : marks :=
  flat_map (fun p => white_marks print mode (pws p) ++ token_marks print mode (ptok p)) ps.

(** Changed words: the whitespace [w], the first word [t], the others. *)
Definition changed_marks (mode : Mode) (print : bool) (w t : list Char) (ps : list piece) : marks :=
  white_marks print (plus_common mode) w ++ if_print print [Begin mode] ++ token_marks print mode t
  ++ words_marks print mode ps ++ if_print print [End_ mode].
End Drawing.
