(* ===== verification/DoDiffProofs.v ===== *)
(** * What the routines of doDiff.c print and count

    Every routine that prints is described, for all options, by the marks it
    draws (Marks): what it writes and what becomes of the line counters and
    flags are functions of these marks and of the state before.  The loops
    over the temporary files are turned into statements about the items in
    these files. *)

From S2P Require Import Prelude EditScript HashTable FileIO FileProofs Streams Unicode UnicodeProofs ContextBuffer ContextProofs Analyze Tokenizer Pieces TokenizerProofs DoDiff Reader Marks.

Section Effects.
Context (opt : options).

Definition out_ok (o : outstate) : Prop :=
  o_context opt = false \/ (o_context opt = true /\ 0 <= o_contextLines opt /\ ring_ok (o_contextLines opt) o).

(** From [k] to [k'] the emissions [es] are written; [s] is the state then. *)
Record effect (es : list emission) (s : dstate) (k k' : core) : Prop := {
  ef_ok : out_ok (cout k');
  ef_delete : lastWasDelete k' = lastWasDelete k;
  ef_state : dstate_of k' = s;
  ef_out : performs opt es (cout k) = Some (cout k')
}.

Definition does (m : option (result core)) (k : core) (es : list emission) (s : dstate) : Prop :=
  out_ok (cout k) -> exists k', m = ret k' /\ effect es s k k'.

Lemma does_bind m k es1 s1 g es2 s2 : does m k es1 s1 ->
  (forall k', dstate_of k' = s1 -> does (g k') k' es2 s2) -> does (obind_result m g) k (es1 ++ es2) s2.
Proof.
  intros Hm Hg Hk. destruct (Hm Hk) as (k1 & -> & [O1 D1 S1 P1]). destruct (Hg k1 S1 O1) as (k2 & Hk2 & [O2 D2 S2 P2]).
  exists k2. split; [exact Hk2|]. split; [done|congruence|done|]. rewrite performs_app, P1. obind. exact P2.
Qed.

Lemma does_eq m k es s es' s' : does m k es s -> es = es' -> s = s' -> does m k es' s'.
Proof. by intros H -> ->. Qed.

(** Only flags or counters change. *)
Lemma does_ret k k' : cout k' = cout k -> lastWasDelete k' = lastWasDelete k -> does (ret k') k [] (dstate_of k').
Proof. intros Ho Hd Hk. exists k'. split; [done|]. split; [by rewrite Ho|done|done|]. simpl. by rewrite Ho. Qed.

Lemma does_skip k : does (ret k) k [] (dstate_of k).
Proof. by apply does_ret. Qed.

Lemma does_when c f k es s : (c = true -> does (f k) k es s) -> (c = false -> s = dstate_of k) -> does (when c f k) k (if_print c es) s.
Proof. unfold when, if_print. destruct c; intros Hf Hs; [by apply Hf|]. rewrite Hs by done. apply does_skip. Qed.

Lemma does_from k0 m k es s : does m k0 es s -> cout k0 = cout k -> lastWasDelete k0 = lastWasDelete k -> does m k es s.
Proof.
  intros Hm Ho Hd Hk. rewrite <- Ho in Hk. destruct (Hm Hk) as (k' & -> & [G1 G2 G3 G4]). exists k'. split; [done|].
  split; [done|congruence|done|by rewrite <- Ho].
Qed.

(** The three ways to write. *)
Lemma does_write f e k : out_ok (cout k) ->
  (exists o, perform opt e (cout k) = Some o /\ out_ok o /\ f = ret (set_out k o)) -> exists k', f = ret k' /\ effect [e] (dstate_of k) k k'.
Proof.
  intros Hk (o & Hp & Ho & ->). eexists. split; [done|]. split; [done|done|done|]. cbn [performs]. rewrite Hp. done.
Qed.

Lemma does_put c common k : does (put opt c common k) k [Chr c common] (dstate_of k).
Proof.
  intros Hk. apply does_write; [done|]. unfold put. simpl. destruct Hk as [Hc|(Hc & HC & R)]; rewrite Hc.
  - eexists. split; [reflexivity|]. split; [by left|done].
  - destruct (addchar_view _ HC (cout k) c common R) as (o' & -> & R' & _). eexists. split; [done|]. split; [by right|done].
Qed.

Lemma does_put_string t k : does (put_string opt t k) k [Txt t] (dstate_of k).
Proof.
  intros Hk. apply does_write; [done|]. unfold put_string. simpl. destruct Hk as [Hc|(Hc & HC & R)]; rewrite Hc.
  - eexists. split; [reflexivity|]. split; [by left|done].
  - destruct (writeString_view _ (cout k) t R) as (o' & -> & R' & _). eexists. split; [done|]. split; [by right|done].
Qed.

Lemma does_put_numbers k : does (put_numbers opt k) k [Numbers (to_int (oldLineNumber k)) (to_int (newLineNumber k))] (dstate_of k).
Proof.
  intros Hk. apply does_write; [done|]. unfold put_numbers. simpl. destruct Hk as [Hc|(Hc & HC & R)]; rewrite Hc.
  - eexists. split; [reflexivity|]. split; [by left|done].
  - destruct (printLineNumbers_view _ (o_stdout opt) (o_lineNumbers opt) (cout k) (to_int (oldLineNumber k)) (to_int (newLineNumber k)) R)
      as (o' & -> & R' & _). eexists. split; [done|]. split; [by right|done].
Qed.

Lemma does_put_when c t k s : dstate_of k = s -> does (when c (put_string opt t) k) k (if_print c [Txt t]) s.
Proof. intros <-. by apply does_when; [intros _; apply does_put_string|]. Qed.

Lemma mode_marked mode : negb (bool_decide ((if is_common mode then COMMON else mode) = COMMON)) = is_marked mode.
Proof. by destruct mode. Qed.

Lemma marked_add mode : is_marked mode = true -> bool_decide ((if is_common mode then COMMON else mode) = ADD) = bool_decide (mode = ADD).
Proof. by destruct mode. Qed.

Lemma does_doPostLinefeed mode k : does (doPostLinefeed opt mode k) k (on_new_line opt mode (dstate_of k)) (no_feed (dstate_of k)).
Proof.
  unfold doPostLinefeed, on_new_line, no_feed. cbv zeta. cbn [d_feed dstate_of d_old d_new d_return]. rewrite mode_marked.
  destruct (lastWasLinefeed k) eqn:El; [|apply (does_eq _ _ _ _ _ _ (does_skip k)); [done|unfold dstate_of; by rewrite El]].
  cbn [if_print]. apply (does_from (set_linefeed k false)); [|done..]. eapply does_bind with (s1 := dstate_of (set_linefeed k false)).
  - apply does_when; [intros _|done]. eapply does_bind.
    + by apply does_put_when.
    + intros k' Hk'. rewrite <- Hk'. eapply does_eq; [apply does_put_numbers| |done]. injection Hk' as -> -> _ _. done.
  - intros k' Hk'. apply does_when; [|by intros _]. intros Hm. apply andb_true_iff in Hm as [_ Hm]. rewrite (marked_add _ Hm).
    unfold color_of, start_of. eapply does_bind; [by apply does_put_when|]. intros k2 Hk2. by apply does_put_when.
Qed.

(** ** Characters *)

Context {Char : Type} {RR : Reader Char} {RC : ReaderChars Char}.

Lemma does_stop_line c mode k s : dstate_of k = s -> does (stop_line opt c mode k) k (at_line_end opt c mode s) s.
Proof.
  intros <-. unfold stop_line, at_line_end. cbn [d_return dstate_of]. apply does_when; [intros _|done].
  eapply does_bind; [by apply does_put_when|]. intros k' Hk'. by apply does_put_when.
Qed.

Lemma does_put_bytes l common k s : dstate_of k = s -> does (put_bytes opt l common k) k ((fun b => Chr b common) <$> l) s.
Proof.
  revert k. induction l as [|c l IH]; intros k Hk; cbn [put_bytes]; [rewrite <- Hk; apply does_skip|].
  rewrite fmap_cons. change (Chr c common :: ?l) with ([Chr c common] ++ l). eapply does_bind; [apply does_put|].
  intros k' Hk'. apply IH. congruence.
Qed.

Lemma does_addCharData c common k s : char_ok c -> dstate_of k = s -> does (addCharData opt c common k) k (char_emissions c common) s.
Proof. intros Hc Hk. unfold addCharData. rewrite (char_bytes_text c Hc). by apply does_put_bytes. Qed.

Lemma does_printed_char c k s : dstate_of k = no_feed s -> does (ret (printed_char c k)) k [] (after_char c s).
Proof.
  intros Hk. eapply does_eq; [apply does_ret; by unfold printed_char; destruct (charDataEquals c 10)|done|].
  unfold no_feed, dstate_of in Hk. injection Hk as H1 H2 H3 H4. unfold printed_char, after_char, dstate_of.
  destruct (charDataEquals c 10); simpl; congruence.
Qed.

Lemma does_two c d common k s : dstate_of k = s -> does (let! k := put opt c common k in put opt d common k) k [Chr c common; Chr d common] s.
Proof.
  intros <-. change [Chr c common; Chr d common] with ([Chr c common] ++ [Chr d common]).
  eapply does_bind; [apply does_put|]. intros k' Hk'. rewrite <- Hk'. apply does_put.
Qed.

(** The marks [ms] are drawn. *)
Abbreviation marks := (list (mark Char)).
Definition runs (m : option (result core)) (k : core) (ms : marks) : Prop :=
  does m k (emits opt ms (dstate_of k)).1 (emits opt ms (dstate_of k)).2.

Lemma runs_bind m k ms1 g ms2 : runs m k ms1 -> (forall k', runs (g k') k' ms2) -> runs (obind_result m g) k (ms1 ++ ms2).
Proof.
  intros Hm Hg. unfold runs. rewrite emits_app. eapply does_bind; [exact Hm|]. intros k' Hk'. specialize (Hg k'). unfold runs in Hg.
  by rewrite Hk' in Hg.
Qed.

Lemma runs_eq m k ms ms' : runs m k ms -> ms = ms' -> runs m k ms'.
Proof. by intros H ->. Qed.

Lemma runs_skip k : runs (ret k) k [].
Proof. apply does_skip. Qed.

Lemma runs_when c f k ms : (c = true -> runs (f k) k ms) -> runs (when c f k) k (if_print c ms).
Proof. unfold when, if_print. destruct c; intros Hf; [by apply Hf|]. apply runs_skip. Qed.

Lemma runs_one m k x : does m k (emit opt x (dstate_of k)).1 (emit opt x (dstate_of k)).2 -> runs m k [x].
Proof. intros H. unfold runs. rewrite emits_cons. cbn [emits fst snd]. by rewrite app_nil_r. Qed.

(** One printed character. *)
Lemma runs_white c mode k : char_ok c ->
  runs (let! k := doPostLinefeed opt mode k in
        let! k :=
          (if o_less opt && negb (charDataEquals c 10) && negb (charDataEquals c 13) && bool_decide (mode = DEL) then
            let! k := put opt 95 (is_common mode) k in put opt 8 (is_common mode) k
          else stop_line opt c mode k) in
        let! k := addCharData opt c (is_common mode) k in
        ret (printed_char c k)) k [White mode c].
Proof.
  intros Hc. apply runs_one. cbn [emit fst snd]. unfold visible. rewrite andb_assoc.
  eapply does_bind; [apply does_doPostLinefeed|]. intros k1 H1. eapply does_bind with (s1 := no_feed (dstate_of k)).
  - destruct (o_less opt && _ && _ && _) eqn:E.
    + assert (is_common mode = false) as -> by (apply andb_true_iff in E as [_ ->%bool_decide_eq_true]; done).
      by apply does_two.
    + replace (at_line_end opt c mode (dstate_of k)) with (at_line_end opt c mode (no_feed (dstate_of k))) by done. by apply does_stop_line.
  - intros k2 H2. rewrite <- (app_nil_r (char_emissions c _)). eapply does_bind; [by apply does_addCharData|].
    intros k3 H3. by apply does_printed_char.
Qed.

Lemma does_addTokenChar c mode k s : char_ok c -> dstate_of k = s ->
  does (addTokenChar opt c mode k) k (overstrike opt c mode ++ char_emissions c (is_common mode)) s.
Proof.
  intros Hc Hk. unfold addTokenChar, overstrike, visible. rewrite <- andb_assoc. eapply does_bind; [|intros k' Hk'; by apply does_addCharData].
  apply does_when; [intros _|done]. destruct mode; [|by apply does_two|rewrite <- Hk; apply does_skip..].
  eapply does_bind; [by apply does_addCharData|]. intros k' Hk'. rewrite <- Hk'. apply does_put.
Qed.

Lemma runs_print_token_char c mode k : char_ok c -> runs (print_token_char opt c mode k) k [Word mode c].
Proof.
  intros Hc. apply runs_one. unfold print_token_char. cbn [emit fst snd].
  eapply does_bind; [apply does_doPostLinefeed|]. intros k1 H1. eapply does_bind.
  - replace (at_line_end opt c mode (dstate_of k)) with (at_line_end opt c mode (no_feed (dstate_of k))) by done. by apply does_stop_line.
  - intros k2 H2. rewrite <- (app_nil_r (overstrike opt c mode ++ _)). eapply does_bind; [by apply does_addTokenChar|].
    intros k3 H3. by apply does_printed_char.
Qed.

Lemma runs_count new k : runs (ret (bump new k)) k [Count new].
Proof. apply runs_one. cbn [emit fst snd]. eapply does_eq; [by apply does_ret; destruct new|done|by destruct new]. Qed.

Lemma runs_handleWhitespaceChar c print mode k : char_ok c ->
  runs (handleWhitespaceChar opt c print mode k) k
    (if_print print [White mode c] ++ if_print (charDataEquals c 10) [Count (counts_new mode)]).
Proof.
  intros Hc. unfold handleWhitespaceChar. apply runs_bind; [apply runs_when; intros _; by apply runs_white|].
  intros k1. destruct (charDataEquals c 10); [|apply runs_skip]. cbn [if_print].
  pose proof (runs_count (counts_new mode) k1) as H. by destruct mode.
Qed.

Lemma runs_sync_char c k : char_ok c ->
  runs (when (o_printCommon opt) (fun k =>
          let! k := doPostLinefeed opt COMMON k in
          let! k := addCharData opt c true k in
          ret (printed_char c k)) k) k (if_print (o_printCommon opt) [Common c]).
Proof.
  intros Hc. apply runs_when. intros _. apply runs_one. cbn [emit fst snd].
  eapply does_bind; [apply does_doPostLinefeed|]. intros k1 H1. rewrite <- (app_nil_r (char_emissions c _)).
  eapply does_bind; [by apply does_addCharData|]. intros k2 H2. by apply does_printed_char.
Qed.

Lemma runs_count_token c mode k :
  runs (ret (if charDataEquals c 10 then count_token_line mode k else k)) k (if_print (charDataEquals c 10) (token_count_marks mode)).
Proof.
  destruct (charDataEquals c 10); [|apply runs_skip]. destruct mode; [apply (runs_count true)|apply (runs_count false)| |apply runs_skip].
  apply (runs_bind (ret (bump false k)) k [Count false] (fun k => ret (bump true k)) [Count true]); intros; apply runs_count.
Qed.

(** ** Whitespace *)

(** As [runs], for a routine that also returns a stream or a file. *)
Definition runs_with {X} (m : option (result (X * core))) (k : core) (x : X) (ms : marks) : Prop :=
  out_ok (cout k) -> exists k', m = ret (x, k') /\ effect (emits opt ms (dstate_of k)).1 (emits opt ms (dstate_of k)).2 k k'.

Lemma effect_app ms1 ms2 k k1 k2 : effect (emits opt ms1 (dstate_of k)).1 (emits opt ms1 (dstate_of k)).2 k k1 ->
  effect (emits opt ms2 (dstate_of k1)).1 (emits opt ms2 (dstate_of k1)).2 k1 k2 ->
  effect (emits opt (ms1 ++ ms2) (dstate_of k)).1 (emits opt (ms1 ++ ms2) (dstate_of k)).2 k k2.
Proof.
  intros [O1 D1 S1 P1] [O2 D2 S2 P2]. rewrite emits_app, <- S1. split; [done|congruence|done|]. cbn [fst]. by rewrite performs_app, P1.
Qed.

Lemma runs_with_bind {X} m k ms1 (g : core -> option (result (X * core))) x ms2 : runs m k ms1 ->
  (forall k', runs_with (g k') k' x ms2) -> runs_with (obind_result m g) k x (ms1 ++ ms2).
Proof.
  intros Hm Hg Hk. destruct (Hm Hk) as (k1 & -> & E1). destruct (Hg k1 (ef_ok _ _ _ _ E1)) as (k2 & Hk2 & E2).
  exists k2. split; [exact Hk2|]. by eapply effect_app.
Qed.

Lemma runs_with_then {X Y} (m : option (result (X * core))) k x ms1 (g : X * core -> option (result (Y * core))) y ms2 :
  runs_with m k x ms1 -> (forall k', runs_with (g (x, k')) k' y ms2) -> runs_with (obind_result m g) k y (ms1 ++ ms2).
Proof.
  intros Hm Hg Hk. destruct (Hm Hk) as (k1 & -> & E1). destruct (Hg k1 (ef_ok _ _ _ _ E1)) as (k2 & Hk2 & E2).
  exists k2. split; [exact Hk2|]. by eapply effect_app.
Qed.

Lemma runs_with_ret {X} k k' (x : X) ms : runs (ret k') k ms -> runs_with (ret (x, k')) k x ms.
Proof. intros Hr Hk. destruct (Hr Hk) as (k1 & [= <-] & E). by exists k'. Qed.

Lemma runs_with_skip {X} k (x : X) : runs_with (ret (x, k)) k x [].
Proof. apply runs_with_ret, runs_skip. Qed.

Lemma runs_with_eq {X} (m : option (result (X * core))) k x ms x' ms' : runs_with m k x ms -> x = x' -> ms = ms' -> runs_with m k x' ms'.
Proof. by intros H -> ->. Qed.

(** A step that does not fail. *)
Lemma runs_with_step {X} f k ms1 (g : core -> option (result (X * core))) x ms2 : runs (ret (f k)) k ms1 ->
  (forall k', runs_with (g k') k' x ms2) -> runs_with (g (f k)) k x (ms1 ++ ms2).
Proof. intros Hf Hg. apply (runs_with_bind (ret (f k)) k ms1 g x ms2 Hf Hg). Qed.

Lemma file_whitespace_spec e cs n s s' print mode k : delivers_chars e cs s s' -> (length cs < n)%nat ->
  runs_with (file_whitespace opt n s print mode k) k s' (white_marks print mode cs).
Proof.
  revert n s k. induction cs as [|c cs IH]; intros [|n] s k Hd Hn; simpl in Hn; try lia; cbn [file_whitespace].
  - cbn [delivers_chars] in Hd. rewrite Hd. destruct e; apply runs_with_skip.
  - destruct Hd as (Hc & _ & s1 & -> & Hd). cbn [obind_result ret]. apply runs_with_bind; [by apply runs_handleWhitespaceChar|].
    intros k'. apply IH; [exact Hd|lia].
Qed.

(** A string is not unescaped. *)
Lemma string_whitespace_spec cs n s print mode k : reads_chars cs s -> (length cs < n)%nat ->
  runs (string_whitespace opt n s print mode k) k (white_marks print mode cs).
Proof.
  revert n s k. induction cs as [|c cs IH]; intros [|n] s k Hr Hn; simpl in Hn; try lia; cbn [string_whitespace].
  - destruct Hr as (s' & ->). apply runs_skip.
  - destruct Hr as (Hc & _ & s1 & -> & Hr). cbn [obind_result ret]. apply runs_bind; [by apply runs_handleWhitespaceChar|].
    intros k'. apply IH; [exact Hr|lia].
Qed.

(** ** Synchronized whitespace *)

Lemma sync_line_spec e cs n s s' : delivers_chars e cs s s' -> (length cs < n)%nat ->
  match after_newline cs with
  | Some cs2 => exists s1, sync_line n s = ret (s1, true) /\ delivers_chars e cs2 s1 s'
  | None => sync_line n s = ret (s', false)
  end.
Proof.
  revert n s. induction cs as [|c cs IH]; intros [|n] s Hd Hn; simpl in Hn; try lia; cbn [sync_line after_newline].
  - cbn [delivers_chars] in Hd. rewrite Hd. by destruct e.
  - destruct Hd as (Hc & _ & s1 & -> & Hd). cbn [obind_result ret]. destruct (charDataEquals c 10); [by exists s1|].
    apply IH; [done|lia].
Qed.

(** What is left of the other file when the loop ends. *)
Definition left_over (valid e : bool) (cs : list Char) (s s' : Stream) : Prop :=
  if valid then delivers_chars e cs s s' else s = s' /\ cs = [].

(** The loop, and the loop on the rest. *)
Definition sync_tail (printNew : bool) (x : Stream * Stream * bool * core) : option (result (Stream * Stream * core)) :=
  let '(sA, sB, valid, k) := x in
  let! (sB, k) := (if valid : bool then sync_rest (stream_fuel sB) printNew sB k else ret (sB, k)) in
  ret (sA, sB, k).
Definition sync_both (n : nat) (printNew : bool) (sA sB : Stream) (valid : bool) (k : core) : option (result (Stream * Stream * core)) :=
  obind_result (sync_loop opt n printNew sA sB valid k) (sync_tail printNew).

Lemma sync_rest_spec e cs n printNew s s' k : delivers_chars e cs s s' -> (length cs < n)%nat ->
  runs_with (sync_rest n printNew s k) k s' (flat_map (fun c => if_print (charDataEquals c 10) [Count (negb printNew)]) cs).
Proof.
  revert n s k. induction cs as [|c cs IH]; intros [|n] s k Hd Hn; simpl in Hn; try lia; cbn [sync_rest].
  - cbn [delivers_chars] in Hd. rewrite Hd. destruct e; apply runs_with_skip.
  - destruct Hd as (Hc & _ & s1 & -> & Hd). cbn [obind_result ret flat_map]. destruct (charDataEquals c 10); [|apply IH; [done|lia]].
    apply (runs_with_step (bump (negb printNew)) k _ (sync_rest n printNew s1)); [apply runs_count|]. intros k'. apply IH; [done|lia].
Qed.

Lemma sync_both_spec eA csA n printNew sA sA' valid eB csB sB sB' k :
  delivers_chars eA csA sA sA' -> (length csA < n)%nat -> left_over valid eB csB sB sB' ->
  runs_with (sync_both n printNew sA sB valid k) k (sA', sB') (sync_marks opt printNew csA csB).
Proof.
  revert n sA valid csB sB k. induction csA as [|c csA IH]; intros [|n] sA valid csB sB k Hd Hn Hleft; simpl in Hn; try lia;
    unfold sync_both; cbn [sync_loop sync_marks].
  - cbn [delivers_chars] in Hd. rewrite Hd. destruct eA; cbn [obind_result ret].
    1-2: destruct valid; [|by destruct Hleft as [-> ->]; apply runs_with_skip]; rewrite <- (app_nil_r (flat_map _ _));
      eapply runs_with_then; [eapply sync_rest_spec; [exact Hleft|by eapply delivers_fuel]|intros k'; apply runs_with_skip].
  - destruct Hd as (Hc & _ & sA1 & -> & Hd). cbn [obind_result ret].
    assert (forall (m : option (result core)) (g : core -> option (result (Stream * Stream * bool * core))) h,
      obind_result (obind_result m g) h = obind_result m (fun k => obind_result (g k) h :> option (result (Stream * Stream * core)))) as Hassoc.
    { intros m g h. by destruct m as [[|]|]. }
    rewrite Hassoc. apply runs_with_bind; [by apply runs_sync_char|]. intros k1. destruct (charDataEquals c 10); [|by apply IH; [|lia|]].
    apply (runs_with_step (bump printNew) k1 [Count printNew] (fun k => obind_result
      (if valid then let! (sB, found) := sync_line (stream_fuel sB) sB in
                     sync_loop opt n printNew sA1 sB found (if found : bool then bump (negb printNew) k else k)
       else sync_loop opt n printNew sA1 sB valid k) (sync_tail printNew))); [apply runs_count|]. intros k2.
    destruct valid.
    + pose proof (sync_line_spec eB csB (stream_fuel sB) sB sB' Hleft (delivers_fuel _ _ _ _ Hleft)) as Hs.
      destruct (after_newline csB) as [b'|]; [destruct Hs as (s1 & -> & Hs)|rewrite Hs]; cbn [obind_result ret].
      * apply (runs_with_step (bump (negb printNew)) k2 [Count (negb printNew)] (sync_both n printNew sA1 s1 true)); [apply runs_count|].
        intros k3. by apply IH; [|lia|].
      * by apply (IH n sA1 false [] sB' k2); [|lia|].
    + destruct Hleft as [-> ->]. cbn [after_newline]. by apply (IH n sA1 false [] sB' k2); [|lia|].
Qed.

(** ** Files *)

Abbreviation piece := (@piece Char).

(** The file before the next piece, [n] words done; they can all be counted
    with an [int]. *)
Record at_piece (f : ifile) (n : Z) (ps : list piece) (wf : list Char) : Prop := {
  ap_tokens : delivers_items (ptok <$> ps) (ftokens f);
  ap_white : delivers_items ((pws <$> ps) ++ [wf]) (fwhitespace f);
  ap_count : lastPrinted f = n;
  ap_bound : 0 <= n /\ n + zlen ps <= INT_MAX;
  ap_unbuffered : fbufferUsed f = false
}.

(** The whitespace before the next token [t] has been read. *)
Record at_token (f : ifile) (n : Z) (t : list Char) (ps : list piece) (wf : list Char) : Prop := {
  at_tokens : delivers_items (t :: (ptok <$> ps)) (ftokens f);
  at_white : delivers_items ((pws <$> ps) ++ [wf]) (fwhitespace f);
  at_count : lastPrinted f = n;
  at_bound : 0 <= n /\ n + 1 + zlen ps <= INT_MAX;
  at_unbuffered : fbufferUsed f = false
}.

(** The whitespace [w] before the next token is in the buffer. *)
Record at_buffer (f : ifile) (n : Z) (w : list Z) (t : list Char) (ps : list piece) (wf : list Char) : Prop := {
  ab_tokens : delivers_items (t :: (ptok <$> ps)) (ftokens f);
  ab_white : delivers_items ((pws <$> ps) ++ [wf]) (fwhitespace f);
  ab_count : lastPrinted f = n;
  ab_bound : 0 <= n /\ n + 1 + zlen ps <= INT_MAX;
  ab_used : fbufferUsed f = true;
  ab_buffer : fbuffer f = w
}.

(** The next piece has the whitespace [w], from the file or from the buffer. *)
Definition ready (f : ifile) (n : Z) (w t : list Char) (ps : list piece) (wf : list Char) : Prop :=
  at_piece f n (Piece w t :: ps) wf \/ (exists b, at_buffer f n b t ps wf /\ plain_string b /\ w = string_chars b).

Lemma handleNextWhitespace_spec f n w t ps wf print mode : ready f n w t ps wf ->
  exists f', at_token f' n t ps wf /\ forall k, runs_with (handleNextWhitespace opt f print mode k) k f' (white_marks print mode w).
Proof.
  intros [[H1 H2 H3 HB H4]|(b & [H1 H2 H3 HB H4 H5] & Hw & ->)].
  - destruct (items_next w _ _ H2) as (s' & Hd & Hs'). exists (set_whitespace f s'). split; [split; [done..|simpl in HB; lia|done]|].
    intros k. unfold handleNextWhitespace. rewrite H4, <- (app_nil_r (white_marks _ _ _)).
    eapply runs_with_then; [apply (file_whitespace_spec _ w _ _ _ print mode k Hd), (delivers_fuel _ _ _ _ Hd)|].
    intros k'. apply runs_with_skip.
  - exists (set_buffer f [] false). split; [by split|]. intros k. unfold handleNextWhitespace. rewrite H4, H5.
    destruct (readable_chars b (plain_readable b Hw)) as [_ Hr]. rewrite <- (app_nil_r (white_marks _ _ _)).
    apply runs_with_bind; [apply (string_whitespace_spec (string_chars b) _ _ print mode k Hr)|intros k'; apply runs_with_skip].
    destruct (string_chars b); [unfold stream_fuel; simpl; lia|by destruct Hr as (_ & ? & _)].
Qed.

(** ** Tokens *)

Definition marker_ok : Prop := o_paraDelim opt = true -> readable (o_paraDelimMarker opt).
Context (marker : marker_ok).

Lemma runs_para_marker cs n s mode k : reads_chars cs s -> (length cs < n)%nat -> runs (para_marker opt n s mode k) k (Para mode <$> cs).
Proof.
  revert n s k. induction cs as [|c cs IH]; intros [|n] s k Hr Hn; simpl in Hn; try lia; cbn [para_marker].
  - destruct Hr as (s' & ->). apply runs_skip.
  - destruct Hr as (Hc & _ & s1 & -> & Hr). cbn [obind_result ret]. rewrite fmap_cons.
    assert (forall m (g h : core -> option (result core)), obind_result (obind_result m g) h = obind_result m (fun k => obind_result (g k) h)) as Hassoc.
    { intros m g h. by destruct m as [[|]|]. }
    rewrite <- Hassoc. apply (runs_bind _ _ [Para mode c]); [|intros k'; apply IH; [done|lia]]. apply runs_one. cbn [emit fst snd].
    replace (negb (mode_value mode =? 0)) with (negb (bool_decide (mode = ADD))) by (by destruct mode).
    eapply does_bind; [apply does_doPostLinefeed|]. intros k1 H1. by apply does_addCharData.
Qed.

(** The end of an empty token. *)
Lemma runs_empty_token print mode k :
  runs (when (o_paraDelim opt && print && true && negb (bool_decide (mode = COMMON))) (fun k =>
    let m := newStringStream (o_paraDelimMarker opt) in para_marker opt (stream_fuel m) m mode k) k) k (empty_token_marks opt print mode).
Proof.
  rewrite andb_true_r. apply runs_when. intros [[Ep _]%andb_true_iff _]%andb_true_iff. cbv zeta.
  destruct (readable_chars _ (marker Ep)) as [_ Hr]. apply runs_para_marker; [done|].
  destruct (string_chars _); [unfold stream_fuel; simpl; lia|by destruct Hr as (_ & ? & _)].
Qed.

(** A token of which some characters have been read. *)
Lemma token_loop_spec cs n s s' print mode k : delivers_chars false cs s s' -> (length cs < n)%nat ->
  runs_with (token_loop opt n s print mode false k) k s'
    (flat_map (fun c => if_print print [Word mode c] ++ if_print (charDataEquals c 10) (token_count_marks mode)) cs).
Proof.
  revert n s k. induction cs as [|c cs IH]; intros [|n] s k Hd Hn; simpl in Hn; try lia; cbn [token_loop flat_map].
  - cbn [delivers_chars] in Hd. rewrite Hd. cbn [obind_result ret]. rewrite andb_false_r. apply runs_with_skip.
  - destruct Hd as (Hc & _ & s1 & -> & Hd). cbn [obind_result ret]. rewrite <- app_assoc.
    apply runs_with_bind; [apply runs_when; intros _; by apply runs_print_token_char|]. intros k1.
    apply (runs_with_step (fun k => if charDataEquals c 10 then count_token_line mode k else k) k1 _ (token_loop opt n s1 print mode false));
      [apply runs_count_token|]. intros k2. apply IH; [done|lia].
Qed.

Lemma handleNextToken_spec s t ts print mode : delivers_items (t :: ts) s ->
  exists s', delivers_items ts s' /\ forall k, runs_with (handleNextToken opt s print mode k) k s' (token_marks opt print mode t).
Proof.
  intros Hs. destruct (items_next _ _ _ Hs) as (s' & Hd & Hs'). exists s'. split; [done|]. intros k.
  pose proof (delivers_fuel _ _ _ _ Hd) as Hf. unfold handleNextToken. destruct t as [|c t].
  - unfold token_marks, stream_fuel. cbn [token_loop]. cbn [delivers_chars] in Hd. rewrite Hd. cbn [obind_result ret].
    rewrite <- (app_nil_r (empty_token_marks _ _ _)). apply runs_with_bind; [apply runs_empty_token|intros k'; apply runs_with_skip].
  - (* the first character is read, then the loop goes on as above *)
    pose proof (token_loop_spec (c :: t) (stream_fuel s) s s' print mode k Hd Hf) as H.
    destruct (stream_fuel s) as [|n]; [simpl in Hf; lia|]. destruct Hd as (_ & _ & s1 & Hr & _).
    cbn [token_loop] in *. rewrite Hr in *. exact H.
Qed.

Lemma handleNextToken_end s print mode : delivers_items [] s ->
  exists s', sfeof s' = true /\ forall k, runs_with (handleNextToken opt s print mode k) k s' [].
Proof.
  intros (_ & _ & s' & Hd & He). exists s'. split; [done|]. intros k.
  unfold handleNextToken, stream_fuel. cbn [token_loop]. cbn [delivers_chars] in Hd. rewrite Hd. apply runs_with_skip.
Qed.

Lemma next_word f n t ps wf s' : at_token f n t ps wf -> delivers_items (ptok <$> ps) s' ->
  at_piece (next_printed (set_tokens f s')) (n + 1) ps wf.
Proof. intros [H1 H2 H3 HB H4] Hs. split; simpl; try done; [|lia]. rewrite H3, int32_small; lia. Qed.

(** ** Words *)

(** The synchronized whitespace of two files. *)
Lemma sync_files d old new eo en wo wn so' sn' k : delivers_chars eo wo (whitespace_stream old) so' ->
  delivers_chars en wn (whitespace_stream new) sn' ->
  runs_with (handleSynchronizedNextWhitespace opt (negb d) old new k) k (after_stream old so', after_stream new sn')
    (common_ws_marks opt d wo wn).
Proof.
  intros Ho Hn Hk. unfold handleSynchronizedNextWhitespace, common_ws_marks.
  destruct d; cbn [negb].
  - destruct (sync_both_spec eo wo _ false _ _ true en wn _ _ k Ho (delivers_fuel _ _ _ _ Ho) Hn Hk) as (k' & Hr & E).
    exists k'. split; [|done]. revert Hr. unfold sync_both, sync_tail.
    destruct (sync_loop opt _ false _ _ true k) as [[[[[sA sB] v] k1]|]|]; cbn [obind_result]; try done.
    destruct v; [destruct (sync_rest _ _ _ _) as [[[sB2 k2]|]|]; cbn [obind_result]; try done|];
      unfold ret; cbn [obind_result]; by intros [= -> -> ->].
  - destruct (sync_both_spec en wn _ true _ _ true eo wo _ _ k Hn (delivers_fuel _ _ _ _ Hn) Ho Hk) as (k' & Hr & E).
    exists k'. split; [|done]. revert Hr. unfold sync_both, sync_tail.
    destruct (sync_loop opt _ true _ _ true k) as [[[[[sA sB] v] k1]|]|]; cbn [obind_result]; try done.
    destruct v; [destruct (sync_rest _ _ _ _) as [[[sB2 k2]|]|]; cbn [obind_result]; try done|];
      unfold ret; cbn [obind_result]; by intros [= -> -> ->].
Qed.

Lemma word_loop_spec m f n ps wf idx print mode : at_piece f n ps wf -> (m <= length ps)%nat -> idx = n + Z.of_nat m ->
  exists f', at_piece f' idx (drop m ps) wf /\ forall k,
    runs_with (word_loop opt m f idx print mode k) k f' (words_marks opt print mode (take m ps)).
Proof.
  intros Hf Hm ->. revert f n ps Hf Hm. induction m as [|m IH]; intros f n ps Hf Hm.
  - exists f. rewrite Z.add_0_r. split; [done|]. intros k. simpl. rewrite (ap_count _ _ _ _ Hf), Z.ltb_irrefl. apply runs_with_skip.
  - destruct ps as [|[w t] ps]; simpl in Hm; [lia|].
    destruct (handleNextWhitespace_spec f n w t ps wf print mode (or_introl Hf)) as (f1 & Hf1 & R1).
    destruct (handleNextToken_spec (ftokens f1) t (ptok <$> ps) print mode (at_tokens _ _ _ _ _ Hf1)) as (s' & Hs' & R2).
    pose proof (next_word f1 n t ps wf s' Hf1 Hs') as Hf2.
    destruct (IH _ _ _ Hf2 ltac:(lia)) as (f' & Hf' & R3). exists f'.
    replace (n + Z.of_nat (S m)) with (n + 1 + Z.of_nat m) by lia. split; [done|]. intros k. cbn [word_loop take drop].
    rewrite (ap_count _ _ _ _ Hf), (proj2 (Z.ltb_lt n _)) by lia.
    unfold words_marks. cbn [flat_map pws ptok]. rewrite <- app_assoc.
    eapply runs_with_then; [apply R1|]. intros k1. cbn beta iota.
    eapply runs_with_then; [apply R2|]. intros k2. cbn beta iota. apply R3.
Qed.

Lemma runs_begin print mode k :
  runs (let! k := when print (doPostLinefeed opt COMMON) k in
        when (print && o_needStartStop opt) (fun k =>
          let! k := when (o_colorMode opt) (put_string opt (if bool_decide (mode = ADD) then o_addColor opt else o_delColor opt)) k in
          put_string opt (if bool_decide (mode = ADD) then o_addStart opt else o_delStart opt) k) k) k (if_print print [Begin mode]).
Proof.
  destruct print; [|apply runs_skip]. cbn [when if_print andb]. apply runs_one. cbn [emit fst snd].
  eapply does_bind; [apply does_doPostLinefeed|]. intros k1 H1. apply does_when; [intros _|done].
  eapply does_bind; [by apply does_put_when|]. intros k2 H2. rewrite <- H2. apply does_put_string.
Qed.

Lemma runs_end print mode k :
  runs (let! k := when print (doPostLinefeed opt mode) k in
        when (print && o_needStartStop opt) (fun k =>
          let! k := put_string opt (if bool_decide (mode = ADD) then o_addStop opt else o_delStop opt) k in
          when (o_colorMode opt) (put_string opt resetColor) k) k) k (if_print print [End_ mode]).
Proof.
  destruct print; [|apply runs_skip]. cbn [when if_print andb]. apply runs_one. cbn [emit fst snd].
  eapply does_bind; [apply does_doPostLinefeed|]. intros k1 H1. apply does_when; [intros _|done].
  eapply does_bind; [apply does_put_string|]. intros k2 H2. apply does_put_when. congruence.
Qed.

Lemma obind_assoc {A B C} (m : option (result A)) (g : A -> option (result B)) (h : B -> option (result C)) :
  obind_result m (fun a => obind_result (g a) h) = obind_result (obind_result m g) h.
Proof. by destruct m as [[|]|]. Qed.

Lemma printWords_spec f n w t ps wf m print mode : ready f n w t ps wf -> (m <= length ps)%nat ->
  exists f', at_piece f' (n + 1 + Z.of_nat m) (drop m ps) wf /\ forall k,
    runs_with (printWords opt n (1 + Z.of_nat m) f print mode k) k f' (changed_marks opt mode print w t (take m ps)).
Proof.
  intros Hr Hm.
  assert (lastPrinted f = n) as Hn by (destruct Hr as [[]|(b & [] & _)]; done).
  destruct (handleNextWhitespace_spec f n w t ps wf print (plus_common mode) Hr) as (f1 & Hf1 & R1).
  destruct (handleNextToken_spec (ftokens f1) t (ptok <$> ps) print mode (at_tokens _ _ _ _ _ Hf1)) as (s' & Hs' & R2).
  pose proof (next_word f1 n t ps wf s' Hf1 Hs') as Hf2.
  destruct (word_loop_spec m _ _ ps wf (n + (1 + Z.of_nat m)) print mode Hf2 Hm ltac:(lia)) as (f' & Hf' & R3).
  exists f'. replace (n + 1 + Z.of_nat m) with (n + (1 + Z.of_nat m)) by lia. split; [done|]. intros k.
  unfold printWords, changed_marks. rewrite Hn, Z.eqb_refl. cbv zeta.
  eapply runs_with_then; [apply R1|]. intros k1. cbn beta iota. rewrite obind_assoc.
  apply runs_with_bind; [apply runs_begin|]. intros k2.
  eapply runs_with_then; [apply R2|]. intros k3. cbn beta iota.
  eapply runs_with_then.
  { unfold handleWord. rewrite (ap_count _ _ _ _ Hf2).
    replace (Z.to_nat (n + (1 + Z.of_nat m) - (n + 1))) with m by lia. apply R3. }
  intros k4. cbn beta iota. rewrite obind_assoc, <- (app_nil_r (if_print print _)).
  apply runs_with_bind; [apply runs_end|]. intros k5. apply runs_with_skip.
Qed.
End Effects.
