(* ===== verification/Render.v ===== *)
(** * What is drawn for a script

    [render_marks] says which marks are drawn for two sequences of pieces
    (whitespace and a word) and an edit script, whatever the options are.
    [print_change_spec] and [printEnd_spec] show that the routines of doDiff.c,
    working on the temporary files, draw exactly these marks. *)

From S2P Require Import Prelude EditScript HashTable FileIO Streams Unicode ContextBuffer ContextProofs Analyze ScriptProofs Tokenizer Pieces TokenizerProofs DoDiff Reader Marks DoDiffProofs.

Section Render.
Context (opt : options).
Context {Char : Type} {RR : Reader Char} {RC : ReaderChars Char}.
Abbreviation piece := (@piece Char).
Abbreviation marks := (list (mark Char)).

(** ** The specification *)

(** [m] common words; [d] says that the last change was a printed deletion,
    after which the whitespace of the old file is used. *)
Fixpoint common_marks (d : bool) (m : nat) (po pn : list piece) : marks :=
  match m, po, pn with
  | S m', p :: po', q :: pn' =>
      common_ws_marks opt d (pws p) (pws q) ++ token_marks opt (o_printCommon opt) COMMON (ptok q) ++ common_marks false m' po' pn'
  | _, _, _ => []
  end.

(** Deleted or added words with the whitespace [w] before the first. *)
Definition group_marks (mode : Mode) (print : bool) (w : list Char) (ps : list piece) : marks :=
  match ps with
  | [] => []
  | p :: ps' => changed_marks opt mode print w (ptok p) ps'
  end.

Definition has_newlines (w : list Char) : bool := existsb (fun c => charDataEquals c 10) w.

(** Whitespace that has been loaded into the buffer is read again. *)
Definition reread (w : list Char) : list Char := string_chars (chars w).

(** The whitespace that is left for the deleted and for the added words, the
    marks drawn before them, and whether the added words come first. *)
Definition change_plan (d : bool) (w0 w1 : list Char) : list Char * list Char * marks * bool :=
  if o_wdiffOutput opt then (w0, w1, [], false)
  else if negb (has_newlines w0) then (reread w0, w1, [], false)
  else if has_newlines w1 then (string_chars [], string_chars [32], common_ws_marks opt d (reread w0) (reread w1), false)
  else (reread w0, reread w1, [], true).

Definition both_marks (rev : bool) (w0 w1 : list Char) (dl il : list piece) : marks :=
  if rev then group_marks ADD (o_printAdded opt) w1 il ++ group_marks DEL (o_printDeleted opt) w0 dl
  else group_marks DEL (o_printDeleted opt) w0 dl ++ group_marks ADD (o_printAdded opt) w1 il.

Definition change_marks (d : bool) (dl il : list piece) : marks :=
  match dl, il with
  | p :: _, q :: _ => let '(w0, w1, ms, rev) := change_plan d (pws p) (pws q) in ms ++ both_marks rev w0 w1 dl il
  | p :: _, [] => group_marks DEL (o_printDeleted opt) (pws p) dl
  | [], q :: _ => group_marks ADD (o_printAdded opt) (pws q) il
  | [], [] => []
  end.

(** Whether the change was a printed deletion. *)
Definition after_change (d : bool) (ch : change) : bool :=
  d || (bool_decide (command_of ch = C_DEL) && o_printDeleted opt && negb (o_wdiffOutput opt)).

Definition rule_marks (after : bool) : marks := if_print (o_needMarkers opt) [Rule after].

(** Everything after the first [n0] and [n1] words: the pieces left are [po]
    and [pn], the final whitespace [wo] and [wn]. *)
Fixpoint render_marks (d : bool) (n1 : Z) (po pn : list piece) (wo wn : list Char) (script : list change) : marks :=
  match script with
  | [] =>
      if_print (o_printCommon opt)
        (common_marks d (length pn) po pn ++ common_ws_marks opt (d && bool_decide (length pn = 0%nat)) wo wn)
  | ch :: script' =>
      let m := Z.to_nat (line1 ch - n1) in
      let d' := d && bool_decide (m = 0%nat) in
      let po' := drop m po in
      let pn' := drop m pn in
      (common_marks d m po pn ++ change_marks d' (take (Z.to_nat (deleted ch)) po') (take (Z.to_nat (inserted ch)) pn') ++ rule_marks true)
      ++ render_marks (after_change d' ch) (line1 ch + inserted ch)
           (drop (Z.to_nat (deleted ch)) po') (drop (Z.to_nat (inserted ch)) pn') wo wn script'
  end.

Lemma render_marks_step d n1 po pn wo wn ch script m : line1 ch = n1 + Z.of_nat m ->
  let d' := d && bool_decide (m = 0%nat) in
  render_marks d n1 po pn wo wn (ch :: script) =
    (common_marks d m po pn ++ change_marks d' (take (Z.to_nat (deleted ch)) (drop m po)) (take (Z.to_nat (inserted ch)) (drop m pn))
     ++ rule_marks true) ++
    render_marks (after_change d' ch) (line1 ch + inserted ch) (drop (Z.to_nat (deleted ch)) (drop m po))
      (drop (Z.to_nat (inserted ch)) (drop m pn)) wo wn script.
Proof. intros E. cbv zeta. cbn [render_marks]. by replace (Z.to_nat (line1 ch - n1)) with m by lia. Qed.

(** ** The state between words *)

Context {RS : ReaderSpec Char}.

Record at_words (p : pstate) (n0 : Z) (po : list piece) (wo : list Char) (n1 : Z) (pn : list piece) (wn : list Char) (d : bool)
  : Prop := {
  aw_old : at_piece (oldFile p) n0 po wo;
  aw_new : at_piece (newFile p) n1 pn wn;
  aw_delete : lastWasDelete (pcore p) = d;
  aw_out : out_ok opt (cout (pcore p))
}.

(** The marks [ms] are drawn between [k] and [k']. *)
Record drawn (ms : marks) (k k' : core) : Prop := {
  dr_state : dstate_of k' = (emits opt ms (dstate_of k)).2;
  dr_out : performs opt (emits opt ms (dstate_of k)).1 (cout k) = Some (cout k')
}.

Lemma drawn_refl k : drawn [] k k.
Proof. by split. Qed.

Lemma drawn_trans ms1 ms2 k k' k'' : drawn ms1 k k' -> drawn ms2 k' k'' -> drawn (ms1 ++ ms2) k k''.
Proof. intros [S1 P1] [S2 P2]. split; rewrite emits_app, <- S1; [done|]. cbn [fst]. by rewrite performs_app, P1. Qed.

Lemma drawn_eq ms ms' k k' : drawn ms k k' -> ms = ms' -> drawn ms' k k'.
Proof. by intros H ->. Qed.

(** [lastWasDelete] does not matter. *)
Lemma drawn_delete ms k k' b : drawn ms (set_delete k b) k' <-> drawn ms k k'.
Proof. by split; intros [H1 H2]; split. Qed.

Lemma drawn_delete_after ms k k' b : drawn ms k k' -> drawn ms k (set_delete k' b).
Proof. by intros [H1 H2]; split. Qed.

Definition book (p : pstate) : Statistics * Z := (statistics p, differences p).

Context (marker : marker_ok opt).

(** Using a [runs_with] fact on a known core. *)
Lemma use_runs {X} (m : option (result (X * core))) k x (ms : marks) : runs_with opt m k x ms -> out_ok opt (cout k) ->
  exists k', m = ret (x, k') /\ out_ok opt (cout k') /\ lastWasDelete k' = lastWasDelete k /\ drawn ms k k'.
Proof. intros Hm Hk. destruct (Hm Hk) as (k' & -> & [E1 E2 E3 E4]). by exists k'. Qed.

Lemma old_common_nothing t : token_marks opt false OLD_COMMON t = ([] : marks).
Proof.
  destruct t as [|c t]; unfold token_marks, empty_token_marks; [by rewrite andb_false_r|]. cbn [if_print app].
  induction (c :: t) as [|x l IH]; [done|]. cbn [flat_map]. rewrite IH. by destruct (charDataEquals x 10).
Qed.

Lemma unbuffered_stream f n ps wf : at_piece f n ps wf -> whitespace_stream f = fwhitespace f.
Proof. intros [_ _ _ _ H]. unfold whitespace_stream. by rewrite H. Qed.

(** The whitespace before a common word, or at the end. *)
Lemma common_white p n0 po wo n1 pn wn d wso wsn w0 w1 : at_words p n0 po wo n1 pn wn d ->
  (pws <$> po) ++ [wo] = w0 :: wso -> (pws <$> pn) ++ [wn] = w1 :: wsn ->
  exists so sn k, handleSynchronizedNextWhitespace opt (negb (lastWasDelete (pcore p))) (oldFile p) (newFile p) (pcore p) =
      ret (set_whitespace (oldFile p) so, set_whitespace (newFile p) sn, k) /\
    delivers_items wso so /\ delivers_items wsn sn /\ out_ok opt (cout k) /\ drawn (common_ws_marks opt d w0 w1) (pcore p) k.
Proof.
  intros [Ho Hn Hd Hok] E0 E1. pose proof (ap_white _ _ _ _ Ho) as Ho2. pose proof (ap_white _ _ _ _ Hn) as Hn2. rewrite E0 in Ho2. rewrite E1 in Hn2.
  destruct (items_next _ _ _ Ho2) as (so & Hdo & Hso). destruct (items_next _ _ _ Hn2) as (sn & Hdn & Hsn).
  rewrite <- (unbuffered_stream _ _ _ _ Ho) in Hdo. rewrite <- (unbuffered_stream _ _ _ _ Hn) in Hdn.
  destruct (use_runs _ _ _ _ (sync_files opt d (oldFile p) (newFile p) _ _ w0 w1 so sn (pcore p) Hdo Hdn) Hok) as (k1 & Hk1 & Hok1 & _ & D1).
  exists so, sn, k1. rewrite Hd, Hk1. unfold after_stream. by rewrite (ap_unbuffered _ _ _ _ Ho), (ap_unbuffered _ _ _ _ Hn).
Qed.

Lemma common_word_spec p n0 q0 po wo n1 q1 pn wn d : at_words p n0 (q0 :: po) wo n1 (q1 :: pn) wn d ->
  exists p', common_word opt (o_printCommon opt) p = ret p' /\ book p' = book p /\
    at_words p' n0 po wo n1 pn wn false /\ at_words (count_word p') (n0 + 1) po wo (n1 + 1) pn wn false /\
    drawn (common_ws_marks opt d (pws q0) (pws q1) ++ token_marks opt (o_printCommon opt) COMMON (ptok q1)) (pcore p) (pcore p').
Proof.
  intros Hp. destruct (common_white _ _ _ _ _ _ _ _ _ _ _ _ Hp eq_refl eq_refl) as (so & sn & k1 & Hk1 & Hso & Hsn & Hok1 & D1).
  destruct Hp as [[Ho1 Ho2 Ho3 HoB Ho4] [Hn1 Hn2 Hn3 HnB Hn4] Hd Hok]. cbn [length] in HoB, HnB. unfold common_word. cbv zeta. rewrite Hk1. cbn [obind_result ret ftokens set_whitespace].
  destruct (handleNextToken_spec opt marker (ftokens (newFile p)) (ptok q1) _ (o_printCommon opt) COMMON Hn1) as (sN & HsN & RN).
  destruct (use_runs _ _ _ _ (RN (set_delete k1 false)) Hok1) as (k2 & -> & Hok2 & Hd2 & D2). cbn [obind_result ret].
  destruct (handleNextToken_spec opt marker (ftokens (oldFile p)) (ptok q0) _ false OLD_COMMON Ho1) as (sO & HsO & RO).
  destruct (use_runs _ _ _ _ (RO k2) Hok2) as (k3 & -> & Hok3 & Hd3 & D3). cbn [obind_result ret].
  eexists. split; [reflexivity|]. split; [done|]. assert (lastWasDelete k3 = false) as Hd' by (by rewrite Hd3, Hd2).
  split; [split; simpl; [split; simpl; try done; lia|split; simpl; try done; lia|done|done]|]. split.
  - split; simpl; [split; simpl; try done; [rewrite Ho3, int32_small; lia|lia]|split; simpl; try done; [rewrite Hn3, int32_small; lia|lia]|done|done].
  - simpl. rewrite old_common_nothing in D3. apply drawn_delete in D2.
    eapply drawn_eq; [eapply drawn_trans; [exact D1|eapply drawn_trans; [exact D2|exact D3]]|]. by rewrite app_nil_r.
Qed.

Lemma bool_decide_S m : bool_decide (S m = 0%nat) = false.
Proof. by apply bool_decide_eq_false_2. Qed.

Lemma common_loop_spec m p n0 po wo n1 pn wn d : at_words p n0 po wo n1 pn wn d ->
  (m <= length po)%nat -> (m <= length pn)%nat ->
  exists p', common_loop opt m (n1 + Z.of_nat m) p = ret p' /\ book p' = book p /\
    at_words p' (n0 + Z.of_nat m) (drop m po) wo (n1 + Z.of_nat m) (drop m pn) wn (d && bool_decide (m = 0%nat)) /\
    drawn (common_marks d m po pn) (pcore p) (pcore p').
Proof.
  revert p n0 po n1 pn d. induction m as [|m IH]; intros p n0 po n1 pn d Hp Hm0 Hm1.
  - exists p. cbn [common_loop]. rewrite (ap_count _ _ _ _ (aw_new _ _ _ _ _ _ _ _ Hp)), Z.add_0_r, Z.ltb_irrefl.
    split; [done|]. split; [done|]. rewrite Z.add_0_r, andb_true_r. split; [done|]. apply drawn_refl.
  - destruct po as [|q0 po]; simpl in Hm0; [lia|]. destruct pn as [|q1 pn]; simpl in Hm1; [lia|].
    destruct (common_word_spec p n0 q0 po wo n1 q1 pn wn d Hp) as (p1 & Hp1 & Hb1 & _ & Hat1 & D1).
    destruct (IH (count_word p1) _ _ _ _ _ Hat1 ltac:(lia) ltac:(lia)) as (p' & Hp' & Hb & Hat & D2).
    exists p'. cbn [common_loop]. rewrite (ap_count _ _ _ _ (aw_new _ _ _ _ _ _ _ _ Hp)), (proj2 (Z.ltb_lt n1 _)) by lia.
    rewrite Hp1. cbn [obind_result ret]. replace (n1 + Z.of_nat (S m)) with (n1 + 1 + Z.of_nat m) by lia.
    replace (n0 + Z.of_nat (S m)) with (n0 + 1 + Z.of_nat m) by lia.
    split; [done|]. split; [unfold book in *; simpl in *; congruence|]. cbn [drop]. rewrite bool_decide_S, andb_false_r.
    split; [exact Hat|]. cbn [common_marks]. rewrite app_assoc. by eapply drawn_trans.
Qed.

(** At the end of a run no whitespace is left in the buffers. *)
Definition ended (p : pstate) : Prop :=
  out_ok opt (cout (pcore p)) /\ fbufferUsed (oldFile p) = false /\ fbufferUsed (newFile p) = false.

Lemma end_word_spec p n0 wo n1 wn d : at_words p n0 [] wo n1 [] wn d ->
  exists p', common_word opt true p = ret p' /\ book p' = book p /\ sfeof (ftokens (newFile p')) = true /\
    ended p' /\ drawn (common_ws_marks opt d wo wn) (pcore p) (pcore p').
Proof.
  intros Hp. destruct (common_white _ _ _ _ _ _ _ _ _ _ _ _ Hp eq_refl eq_refl) as (so & sn & k1 & Hk1 & Hso & Hsn & Hok1 & D1).
  destruct Hp as [[Ho1 Ho2 Ho3 _ Ho4] [Hn1 Hn2 Hn3 _ Hn4] Hd Hok]. unfold common_word. cbv zeta. rewrite Hk1. cbn [obind_result ret ftokens set_whitespace].
  destruct (handleNextToken_end opt (ftokens (newFile p)) true COMMON Hn1) as (sN & HsN & RN).
  destruct (use_runs _ _ _ _ (RN (set_delete k1 false)) Hok1) as (k2 & -> & Hok2 & Hd2 & D2). cbn [obind_result ret].
  destruct (handleNextToken_end opt (ftokens (oldFile p)) false OLD_COMMON Ho1) as (sO & HsO & RO).
  destruct (use_runs _ _ _ _ (RO k2) Hok2) as (k3 & -> & Hok3 & Hd3 & D3). cbn [obind_result ret].
  eexists. split; [reflexivity|]. split; [done|]. split; [done|]. split; [done|]. simpl. apply drawn_delete in D2.
  eapply drawn_eq; [eapply drawn_trans; [exact D1|eapply drawn_trans; [exact D2|exact D3]]|]. by rewrite !app_nil_r.
Qed.

Lemma end_loop_spec n p n0 po wo n1 pn wn d : o_printCommon opt = true -> at_words p n0 po wo n1 pn wn d ->
  (length pn < n)%nat -> length po = length pn ->
  exists p', end_loop opt n p = ret p' /\ book p' = book p /\ ended p' /\
    drawn (common_marks d (length pn) po pn ++ common_ws_marks opt (d && bool_decide (length pn = 0%nat)) wo wn) (pcore p) (pcore p').
Proof.
  intros HC. revert n p n0 po n1 d. induction pn as [|q1 pn IH]; intros [|n] p n0 po n1 d Hp Hn Hl; simpl in Hn; try lia; cbn [end_loop];
    rewrite (items_eof _ _ (ap_tokens _ _ _ _ (aw_new _ _ _ _ _ _ _ _ Hp))).
  - destruct po as [|q0 po]; [|discriminate].
    destruct (end_word_spec p n0 wo n1 wn d Hp) as (p1 & -> & Hb & He1 & Hok & D1). cbn [obind_result ret].
    exists p1. split; [destruct n; simpl; by rewrite He1|]. split; [done|]. split; [done|]. simpl. by rewrite andb_true_r.
  - destruct po as [|q0 po]; [discriminate|]. injection Hl as Hl.
    (* [printEnd] does not count the words *)
    destruct (common_word_spec p n0 q0 po wo n1 q1 pn wn d Hp) as (p1 & Hp1 & Hb1 & Hat & _ & D1).
    rewrite HC in Hp1. rewrite Hp1. cbn [obind_result ret].
    destruct (IH n p1 n0 po n1 false Hat ltac:(lia) Hl) as (p' & Hp' & Hb & Hok & D2).
    exists p'. split; [done|]. split; [congruence|]. split; [done|]. cbn [common_marks length]. rewrite bool_decide_S, andb_false_r.
    eapply drawn_eq; [eapply drawn_trans; [exact D1|exact D2]|]. by rewrite <- !app_assoc.
Qed.

Lemma printEnd_spec p n0 po wo n1 pn wn d : at_words p n0 po wo n1 pn wn d -> length po = length pn ->
  exists p', printEnd opt p = ret p' /\ book p' = book p /\ ended p' /\ drawn (render_marks d n1 po pn wo wn []) (pcore p) (pcore p').
Proof.
  intros Hp Hl. unfold printEnd. cbn [render_marks]. destruct (o_printCommon opt) eqn:HC; simpl.
  - destruct (end_loop_spec (stream_fuel (ftokens (newFile p))) p n0 po wo n1 pn wn d HC Hp) as (p' & Hp' & Hb & Hok & D); [|done|by exists p'].
    pose proof (items_fuel _ _ (ap_tokens _ _ _ _ (aw_new _ _ _ _ _ _ _ _ Hp))) as Hf. by rewrite length_fmap in Hf.
  - exists p. split; [done|]. split; [done|]. split; [|apply drawn_refl]. split; [apply Hp|]. split; apply Hp.
Qed.

(** ** Changes *)

Lemma printDeletedWords_spec ch p w t ps wo m : ready (oldFile p) (line0 ch) w t ps wo -> deleted ch = 1 + Z.of_nat m ->
  (m <= length ps)%nat -> out_ok opt (cout (pcore p)) ->
  exists p', printDeletedWords opt ch p = ret p' /\ book p' = book p /\ newFile p' = newFile p /\
    at_piece (oldFile p') (line0 ch + deleted ch) (drop m ps) wo /\ out_ok opt (cout (pcore p')) /\
    lastWasDelete (pcore p') = lastWasDelete (pcore p) /\
    drawn (changed_marks opt DEL (o_printDeleted opt) w t (take m ps)) (pcore p) (pcore p').
Proof.
  intros Hr Hc Hm Hok. unfold printDeletedWords. rewrite Hc.
  destruct (printWords_spec opt marker (oldFile p) _ w t ps wo m (o_printDeleted opt) DEL Hr Hm) as (f' & Hf' & R).
  destruct (use_runs _ _ _ _ (R (pcore p)) Hok) as (k' & -> & Hok' & Hd & D). cbn [obind_result ret].
  eexists. split; [reflexivity|]. split; [done|]. split; [done|]. rewrite Z.add_assoc. split; [exact Hf'|]. by repeat (split; [done|]).
Qed.

Lemma printAddedWords_spec ch p w t ps wn m : ready (newFile p) (line1 ch) w t ps wn -> inserted ch = 1 + Z.of_nat m ->
  (m <= length ps)%nat -> out_ok opt (cout (pcore p)) ->
  exists p', printAddedWords opt ch p = ret p' /\ book p' = book p /\ oldFile p' = oldFile p /\
    at_piece (newFile p') (line1 ch + inserted ch) (drop m ps) wn /\ out_ok opt (cout (pcore p')) /\
    lastWasDelete (pcore p') = lastWasDelete (pcore p) /\
    drawn (changed_marks opt ADD (o_printAdded opt) w t (take m ps)) (pcore p) (pcore p').
Proof.
  intros Hr Hc Hm Hok. unfold printAddedWords. rewrite Hc.
  destruct (printWords_spec opt marker (newFile p) _ w t ps wn m (o_printAdded opt) ADD Hr Hm) as (f' & Hf' & R).
  destruct (use_runs _ _ _ _ (R (pcore p)) Hok) as (k' & -> & Hok' & Hd & D). cbn [obind_result ret].
  eexists. split; [reflexivity|]. split; [done|]. split; [done|]. rewrite Z.add_assoc. split; [exact Hf'|]. by repeat (split; [done|]).
Qed.

(** Loading whitespace into the buffer. *)
Lemma load_loop_spec cs n s s' buf b : delivers_chars false cs s s' -> (length cs < n)%nat ->
  load_loop n s buf b = ret (s', buf ++ chars cs, b || has_newlines cs).
Proof.
  revert n s buf b. induction cs as [|c cs IH]; intros [|n] s buf b Hd Hn; simpl in Hn; try lia; cbn [load_loop].
  - cbn [delivers_chars] in Hd. rewrite Hd. cbn [obind_result ret]. by rewrite app_nil_r, orb_false_r.
  - destruct Hd as (Hc & _ & s1 & -> & Hd). cbn [obind_result ret]. rewrite (char_bytes_text c Hc), (IH n s1) by (done || lia).
    by rewrite chars_cons, <- app_assoc, <- orb_assoc.
Qed.

Lemma loadNextWhitespace_spec f n q ps wf : at_piece f n (q :: ps) wf ->
  exists f', loadNextWhitespace f = ret (f', has_newlines (pws q)) /\ at_buffer f' n (chars (pws q)) (ptok q) ps wf.
Proof.
  intros [H1 H2 H3 HB H4]. destruct (items_next (pws q) _ _ H2) as (s' & Hd & Hs'). unfold loadNextWhitespace.
  rewrite (load_loop_spec (pws q) _ _ s' [] false Hd (delivers_fuel _ _ _ _ Hd)). cbn [obind_result ret].
  eexists. split; [reflexivity|]. split; simpl in *; try done. lia.
Qed.

(** The state before a change whose whitespace is [w0] and [w1]: the pieces of
    the change are next in both files, buffered or not. *)
Record at_change (p : pstate) (n0 : Z) (w0 : list Char) (q0 : piece) (po : list piece) (wo : list Char)
    (n1 : Z) (w1 : list Char) (q1 : piece) (pn : list piece) (wn : list Char) (d : bool) : Prop := {
  ac_old : ready (oldFile p) n0 w0 (ptok q0) po wo;
  ac_new : ready (newFile p) n1 w1 (ptok q1) pn wn;
  ac_delete : lastWasDelete (pcore p) = d;
  ac_out : out_ok opt (cout (pcore p))
}.

Definition plain_piece (p : piece) : Prop := plain_string (chars (pws p)).

Lemma buffer_ready f n q ps wf : at_buffer f n (chars (pws q)) (ptok q) ps wf -> plain_piece q -> ready f n (reread (pws q)) (ptok q) ps wf.
Proof. intros Hf Hq. right. by exists (chars (pws q)). Qed.

Lemma buffer_delivers f n q ps wf : at_buffer f n (chars (pws q)) (ptok q) ps wf -> plain_piece q ->
  exists s', delivers_chars true (reread (pws q)) (whitespace_stream f) s'.
Proof.
  intros [_ _ _ _ Hu Hb] Hq. unfold whitespace_stream. rewrite Hu, Hb. by apply plain_chars.
Qed.

Lemma change_whitespace_spec p n0 q0 po wo n1 q1 pn wn d : at_words p n0 (q0 :: po) wo n1 (q1 :: pn) wn d ->
  (o_wdiffOutput opt = false -> plain_piece q0 /\ plain_piece q1) ->
  let '(w0, w1, ms, rev) := change_plan d (pws q0) (pws q1) in
  exists p', change_whitespace opt C_CHANGE p = ret (p', rev) /\ book p' = book p /\
    at_change p' n0 w0 q0 po wo n1 w1 q1 pn wn d /\ drawn ms (pcore p) (pcore p').
Proof.
  intros [Hold Hnew Hd Hok] Hord. unfold change_plan, change_whitespace. simpl bool_decide.
  destruct (o_wdiffOutput opt); simpl.
  { exists p. split; [done|]. split; [done|]. split; [|apply drawn_refl]. split; [by left; destruct q0|by left; destruct q1|done..]. }
  destruct (Hord eq_refl) as [Hw0 Hw1].
  destruct (loadNextWhitespace_spec _ _ _ _ _ Hold) as (f0 & -> & Hf0). cbn [obind_result ret].
  destruct (has_newlines (pws q0)); simpl.
  2: { eexists. split; [reflexivity|]. split; [done|]. split; [|apply drawn_refl].
       split; simpl; [by apply buffer_ready|by left; destruct q1|done..]. }
  destruct (loadNextWhitespace_spec _ _ _ _ _ Hnew) as (f1 & -> & Hf1). cbn [obind_result ret].
  destruct (has_newlines (pws q1)); simpl.
  2: { eexists. split; [reflexivity|]. split; [done|]. split; [|apply drawn_refl].
       split; simpl; [by apply buffer_ready|by apply buffer_ready|done..]. }
  pose proof (ab_used _ _ _ _ _ _ Hf0) as Hu0. pose proof (ab_used _ _ _ _ _ _ Hf1) as Hu1.
  destruct (buffer_delivers _ _ _ _ _ Hf0 Hw0) as (so & Hso). destruct (buffer_delivers _ _ _ _ _ Hf1 Hw1) as (sn & Hsn).
  destruct (use_runs _ _ _ _ (sync_files opt d f0 f1 _ _ _ _ _ _ (pcore p) Hso Hsn) Hok) as (k1 & Hk1 & Hok1 & Hd1 & D).
  rewrite Hd, Hk1. cbn [obind_result ret]. unfold after_stream. rewrite Hu0, Hu1.
  eexists. split; [reflexivity|]. split; [done|]. split; [|exact D].
  destruct Hf0 as [G1 G2 G3 GB G4 G5], Hf1 as [F1 F2 F3 FB F4 F5]. split; simpl; [| |congruence|done].
  - right. exists []. split; [by split|]. split; [apply plain_nothing|done].
  - right. exists [32]. split; [by split|]. split; [apply plain_space|done].
Qed.

(** Deleted and added words in either order. *)
Lemma print_both_spec ch p w0 q0 po wo w1 q1 pn wn d m0 m1 (rev : bool) :
  at_change p (line0 ch) w0 q0 po wo (line1 ch) w1 q1 pn wn d ->
  deleted ch = 1 + Z.of_nat m0 -> inserted ch = 1 + Z.of_nat m1 -> (m0 <= length po)%nat -> (m1 <= length pn)%nat ->
  exists p', (if rev then let! p := printAddedWords opt ch p in printDeletedWords opt ch p
              else let! p := printDeletedWords opt ch p in printAddedWords opt ch p) = ret p' /\ book p' = book p /\
    at_words p' (line0 ch + deleted ch) (drop m0 po) wo (line1 ch + inserted ch) (drop m1 pn) wn d /\
    drawn (both_marks rev w0 w1 (q0 :: take m0 po) (q1 :: take m1 pn)) (pcore p) (pcore p').
Proof.
  intros [Ho Hn Hd Hok] H0 H1 Hm0 Hm1. unfold both_marks, group_marks. destruct rev.
  - destruct (printAddedWords_spec ch p _ _ _ _ m1 Hn H1 Hm1 Hok) as (p1 & -> & Hb1 & Hf1 & Hp1 & Hok1 & Hd1 & D1).
    cbn [obind_result ret]. rewrite <- Hf1 in Ho.
    destruct (printDeletedWords_spec ch p1 _ _ _ _ m0 Ho H0 Hm0 Hok1) as (p2 & -> & Hb2 & Hf2 & Hp2 & Hok2 & Hd2 & D2).
    exists p2. split; [done|]. split; [congruence|]. split; [split; [done|by rewrite Hf2|congruence|done]|]. by eapply drawn_trans.
  - destruct (printDeletedWords_spec ch p _ _ _ _ m0 Ho H0 Hm0 Hok) as (p1 & -> & Hb1 & Hf1 & Hp1 & Hok1 & Hd1 & D1).
    cbn [obind_result ret]. rewrite <- Hf1 in Hn.
    destruct (printAddedWords_spec ch p1 _ _ _ _ m1 Hn H1 Hm1 Hok1) as (p2 & -> & Hb2 & Hf2 & Hp2 & Hok2 & Hd2 & D2).
    exists p2. split; [done|]. split; [congruence|]. split; [split; [by rewrite Hf2|done|congruence|done]|]. by eapply drawn_trans.
Qed.

Definition white_ok (po pn : list piece) : Prop := o_wdiffOutput opt = false -> Forall plain_piece po /\ Forall plain_piece pn.

Lemma white_ok_drop po pn m m' : white_ok po pn -> white_ok (drop m po) (drop m' pn).
Proof. intros Hw Ho. destruct (Hw Ho). split; by apply Forall_drop. Qed.

Lemma white_ok_take po pn m m' : white_ok po pn -> white_ok (take m po) (take m' pn).
Proof. intros Hw Ho. destruct (Hw Ho). split; by apply Forall_take. Qed.

Lemma print_words_spec ch p po wo pn wn d : at_words p (line0 ch) po wo (line1 ch) pn wn d -> white_ok po pn ->
  0 <= deleted ch -> 0 <= inserted ch -> 0 < deleted ch + inserted ch ->
  (Z.to_nat (deleted ch) <= length po)%nat -> (Z.to_nat (inserted ch) <= length pn)%nat ->
  exists p', print_words opt (command_of ch) ch p = ret p' /\ book p' = book p /\
    at_words p' (line0 ch + deleted ch) (drop (Z.to_nat (deleted ch)) po) wo
      (line1 ch + inserted ch) (drop (Z.to_nat (inserted ch)) pn) wn d /\
    drawn (change_marks d (take (Z.to_nat (deleted ch)) po) (take (Z.to_nat (inserted ch)) pn)) (pcore p) (pcore p').
Proof.
  intros Hp Hw Hd0 Hi0 Hpos Hd Hi. unfold print_words, command_of.
  destruct (Z.to_nat (deleted ch)) as [|m0] eqn:E0; destruct (Z.to_nat (inserted ch)) as [|m1] eqn:E1; [lia|..].
  - (* words are added *)
    rewrite (proj2 (Z.eqb_neq (inserted ch) 0)), (proj2 (Z.eqb_eq (deleted ch) 0)) by lia.
    destruct pn as [|q1 pn]; simpl in Hi; [lia|]. destruct Hp as [Ho Hn Hdl Hok].
    unfold change_whitespace. simpl. assert (ready (newFile p) (line1 ch) (pws q1) (ptok q1) pn wn) as Hr by (left; by destruct q1).
    destruct (printAddedWords_spec ch p _ _ _ _ m1 Hr ltac:(lia) ltac:(lia) Hok) as (p1 & -> & Hb1 & Hf1 & Hp1 & Hok1 & Hd1 & D1).
    exists p1. split; [done|]. split; [done|]. split; [|exact D1].
    split; [rewrite Hf1; replace (line0 ch + deleted ch) with (line0 ch) by lia; done|done|congruence|done].
  - (* words are deleted *)
    rewrite (proj2 (Z.eqb_eq (inserted ch) 0)) by lia.
    destruct po as [|q0 po]; simpl in Hd; [lia|]. destruct Hp as [Ho Hn Hdl Hok].
    unfold change_whitespace. simpl. assert (ready (oldFile p) (line0 ch) (pws q0) (ptok q0) po wo) as Hr by (left; by destruct q0).
    destruct (printDeletedWords_spec ch p _ _ _ _ m0 Hr ltac:(lia) ltac:(lia) Hok) as (p1 & -> & Hb1 & Hf1 & Hp1 & Hok1 & Hd1 & D1).
    exists p1. split; [done|]. split; [done|]. split; [|exact D1].
    split; [done|rewrite Hf1; replace (line1 ch + inserted ch) with (line1 ch) by lia; done|congruence|done].
  - rewrite (proj2 (Z.eqb_neq (inserted ch) 0)), (proj2 (Z.eqb_neq (deleted ch) 0)) by lia.
    destruct po as [|q0 po]; simpl in Hd; [lia|]. destruct pn as [|q1 pn]; simpl in Hi; [lia|].
    cbn [take drop change_marks].
    pose proof (change_whitespace_spec p _ q0 po wo _ q1 pn wn d Hp) as HW.
    destruct (change_plan d (pws q0) (pws q1)) as [[[w0 w1] ms] rev].
    destruct HW as (p1 & -> & Hb1 & Hat1 & D1).
    { intros Hwd. destruct (Hw Hwd) as [H0 H1]. by inversion_clear H0; inversion_clear H1. }
    cbn [obind_result ret].
    destruct (print_both_spec ch p1 _ _ _ _ _ _ _ _ _ m0 m1 rev Hat1 ltac:(lia) ltac:(lia) ltac:(lia) ltac:(lia))
      as (p2 & Hp2 & Hb2 & Hat2 & D2).
    exists p2. split; [by destruct rev|]. split; [congruence|]. split; [done|]. by eapply drawn_trans.
Qed.

(** [puts] *)
Lemma puts_line_spec after p : out_ok opt (cout (pcore p)) ->
  let p' := puts_line (o_stdout opt) (rule_text after) p in
  let p' := if after then with_core p' (set_linefeed (pcore p') true) else p' in
  out_ok opt (cout (pcore p')) /\ drawn [Rule after] (pcore p) (pcore p').
Proof.
  intros Hok. cbv zeta. split.
  - replace (cout _) with (write_std (o_stdout opt) (cout (pcore p)) (rule_text after)) by (by destruct after).
    destruct Hok as [?|(? & ? & R)]; [by left|right]. split; [done|]. split; [done|]. by apply ring_write_std.
  - by destruct after; split.
Qed.

Lemma print_change_spec ch p n0 po wo n1 pn wn d m : at_words p n0 po wo n1 pn wn d -> white_ok po pn ->
  line0 ch = n0 + Z.of_nat m -> line1 ch = n1 + Z.of_nat m -> (m <= length po)%nat -> (m <= length pn)%nat ->
  0 <= deleted ch -> 0 <= inserted ch -> 0 < deleted ch + inserted ch ->
  (Z.to_nat (deleted ch) <= length (drop m po))%nat -> (Z.to_nat (inserted ch) <= length (drop m pn))%nat ->
  let d' := d && bool_decide (m = 0%nat) in
  exists p', print_change opt (command_of ch) ch p = ret p' /\
    book p' = (add_statistics (statistics p) (command_of ch) ch, differences p) /\
    at_words p' (line0 ch + deleted ch) (drop (Z.to_nat (deleted ch)) (drop m po)) wo
      (line1 ch + inserted ch) (drop (Z.to_nat (inserted ch)) (drop m pn)) wn (after_change d' ch) /\
    drawn (common_marks d m po pn
           ++ change_marks d' (take (Z.to_nat (deleted ch)) (drop m po)) (take (Z.to_nat (inserted ch)) (drop m pn)) ++ rule_marks true)
      (pcore p) (pcore p').
Proof.
  intros Hp Hw E0 E1 Hm0 Hm1 Hd0 Hi0 Hpos Hd Hi. cbv zeta. unfold print_change, printToCommonWord.
  destruct (common_loop_spec m p n0 po wo n1 pn wn d Hp Hm0 Hm1) as (p1 & Hp1 & Hb1 & Hat1 & D1).
  rewrite (ap_count _ _ _ _ (aw_new _ _ _ _ _ _ _ _ Hp)). replace (Z.to_nat (line1 ch - n1)) with m by lia.
  rewrite <- E1 in Hp1. rewrite Hp1. cbn [obind_result ret]. rewrite <- E0, <- E1 in Hat1.
  destruct (print_words_spec ch p1 _ _ _ _ _ Hat1 (white_ok_drop _ _ _ _ Hw) Hd0 Hi0 Hpos Hd Hi) as (p2 & Hp2 & Hb2 & Hat2 & D2).
  rewrite Hp2. cbn [obind_result ret].
  set (p3 := if o_needMarkers opt then _ else p2).
  assert (at_words p3 (line0 ch + deleted ch) (drop (Z.to_nat (deleted ch)) (drop m po)) wo
      (line1 ch + inserted ch) (drop (Z.to_nat (inserted ch)) (drop m pn)) wn (d && bool_decide (m = 0%nat)) /\
      book p3 = book p2 /\ drawn (rule_marks true) (pcore p2) (pcore p3)) as (Hat3 & Hb3 & D3).
  { subst p3. unfold rule_marks. destruct (o_needMarkers opt); [|by split; [|split; [|apply drawn_refl]]].
    destruct (puts_line_spec true p2 (aw_out _ _ _ _ _ _ _ _ Hat2)) as [Hok3 D3]. destruct Hat2 as [G1 G2 G3 G4].
    split; [by split|]. by split. }
  pose proof (drawn_trans _ _ _ _ _ D1 (drawn_trans _ _ _ _ _ D2 D3)) as D. unfold book in *. eexists. split; [reflexivity|].
  destruct (bool_decide (command_of ch = C_DEL) && o_printDeleted opt && negb (o_wdiffOutput opt)) eqn:Ed; simpl.
  - split; [congruence|]. split; [|by apply drawn_delete_after].
    destruct Hat3 as [G1 G2 G3 G4]. split; simpl; try done. unfold after_change. by rewrite Ed, orb_true_r.
  - split; [congruence|]. split; [|exact D].
    destruct Hat3 as [G1 G2 G3 G4]. split; simpl; try done. unfold after_change. by rewrite Ed, orb_false_r.
Qed.
End Render.

(** ** Statistics of scripts *)

Definition script_statistics (s : Statistics) (script : list change) : Statistics :=
  foldl (fun s ch => add_statistics s (command_of ch) ch) s script.

(** The sum of [f] over the changes of one kind. *)
Definition sum_of (command : command_t) (f : change -> Z) (script : list change) : Z :=
  foldr (fun ch n => (if bool_decide (command_of ch = command) then f ch else 0) + n) 0 script.

(** The counters hold [int]s. *)
Record int_statistics (s : Statistics) : Prop := {
  is_added : added s = int32 (added s);
  is_deleted : deleted_ s = int32 (deleted_ s);
  is_old : oldChanged s = int32 (oldChanged s);
  is_new : newChanged s = int32 (newChanged s)
}.

Lemma int32_int n : int32 n = int32 (int32 n).
Proof. rewrite (int32_small (int32 n)); [done|apply int32_range]. Qed.

Lemma add_statistics_int s command ch : int_statistics s -> int_statistics (add_statistics s command ch).
Proof. intros []. destruct command; split; simpl; try done; apply int32_int. Qed.

Lemma script_statistics_sums st script : int_statistics st ->
  let st' := script_statistics st script in
  added st' = int32 (added st + sum_of C_ADD inserted script) /\
  deleted_ st' = int32 (deleted_ st + sum_of C_DEL deleted script) /\
  oldChanged st' = int32 (oldChanged st + sum_of C_CHANGE deleted script) /\
  newChanged st' = int32 (newChanged st + sum_of C_CHANGE inserted script) /\
  oldTotal st' = oldTotal st /\ newTotal st' = newTotal st.
Proof.
  cbv zeta. revert st. induction script as [|ch script IH]; intros st Hi.
  - cbn [script_statistics foldl sum_of foldr]. rewrite !Z.add_0_r. by destruct Hi.
  - change (script_statistics st (ch :: script)) with (script_statistics (add_statistics st (command_of ch) ch) script).
    destruct (IH (add_statistics st (command_of ch) ch) (add_statistics_int _ _ _ Hi)) as (H1 & H2 & H3 & H4 & H5 & H6).
    rewrite H1, H2, H3, H4, H5, H6. cbn [sum_of foldr]. fold (sum_of C_ADD inserted script) (sum_of C_DEL deleted script)
      (sum_of C_CHANGE deleted script) (sum_of C_CHANGE inserted script).
    destruct (command_of ch); cbn [add_statistics added deleted_ oldChanged newChanged oldTotal newTotal bool_decide decide_rel]; simpl;
      rewrite ?int32_add; repeat split; f_equal; lia.
Qed.

Lemma sum_of_totals script :
  sum_of C_DEL deleted script + sum_of C_CHANGE deleted script = total_deleted script /\
  sum_of C_ADD inserted script + sum_of C_CHANGE inserted script = total_inserted script.
Proof.
  induction script as [|ch script [IH1 IH2]]; [done|]. cbn [sum_of foldr total_deleted total_inserted].
  fold (sum_of C_ADD inserted script) (sum_of C_DEL deleted script) (sum_of C_CHANGE deleted script) (sum_of C_CHANGE inserted script)
    (total_deleted script) (total_inserted script).
  unfold command_of. destruct (Z.eqb_spec (inserted ch) 0); [|destruct (Z.eqb_spec (deleted ch) 0)]; simpl; lia.
Qed.

(** Whatever the counters hold, they tell the totals apart up to their width. *)
Lemma script_statistics_total st script :
  let st' := script_statistics st script in
  int32 (deleted_ st' + oldChanged st') = int32 (deleted_ st + oldChanged st + total_deleted script).
Proof.
  cbv zeta. revert st. induction script as [|ch script IH]; intros st; [simpl; by rewrite Z.add_0_r|].
  change (script_statistics st (ch :: script)) with (script_statistics (add_statistics st (command_of ch) ch) script).
  rewrite IH. cbn [total_deleted foldr]. fold (total_deleted script). unfold command_of.
  destruct (Z.eqb_spec (inserted ch) 0); [|destruct (Z.eqb_spec (deleted ch) 0)];
    cbn [add_statistics added deleted_ oldChanged newChanged].
  - rewrite <- (Z.add_assoc (int32 _)), int32_add. f_equal. lia.
  - f_equal. lia.
  - rewrite (Z.add_comm (deleted_ st)), <- (Z.add_assoc (int32 _)), int32_add. f_equal. lia.
Qed.

Lemma sum_of_nonneg {A} (e0 e1 : list A) gap p0 p1 script command : script_ok e0 e1 gap p0 p1 script ->
  0 <= sum_of command deleted script /\ 0 <= sum_of command inserted script.
Proof.
  revert gap p0 p1. induction script as [|ch s IH]; intros gap p0 p1; cbn [script_ok sum_of foldr]; [done|].
  intros (H1 & H2 & H3 & H4 & H5 & H6 & H7 & H8 & H9). destruct (IH _ _ _ H9). fold (sum_of command deleted s) (sum_of command inserted s).
  case_bool_decide; lia.
Qed.
