(* ===== verification/Plain.v ===== *)
(** * The output without decorations, and the lines that are counted

    For options without colours, line numbers, underlining, repeated markers
    and context the text of the marks for a script is [render], a function of
    the bytes of the pieces.  For all options the marks count every newline of
    both files. *)

From S2P Require Import Prelude EditScript HashTable FileIO FileProofs Streams Unicode ContextBuffer ContextProofs Analyze ScriptProofs Tokenizer Pieces TokenizerProofs DoDiff ContextWords Reader Marks DoDiffProofs Render.

Section Text.
Context (opt : options).
Abbreviation piece := (@piece Z).

(** Nothing is added to the text of the files and the markers. *)
Record undecorated : Prop := {
  pl_numbers : o_lineNumbers opt = 0;
  pl_less : o_less opt = false;
  pl_printer : o_printer opt = false;
  pl_color : o_colorMode opt = false;
  pl_repeat : o_repeatMarkers opt = false
}.

(** The options under which the output is the text alone. *)
Record plain_output : Prop := {
  pl_context : o_context opt = false;
  pl_stdout : o_stdout opt = true \/ o_needMarkers opt = false;
  pl_undecorated : undecorated
}.

(** ** The text *)

(** An empty token stands for the end of a paragraph; it is shown as a marker
    when it is not common. *)
Definition shown (t : list Z) : list Z := if o_paraDelim opt && bool_decide (t = []) then o_paraDelimMarker opt else t.
(** Common words are shown as they are. *)
Definition shown_in (mode : Mode) (t : list Z) : list Z := if bool_decide (mode = COMMON) then t else shown t.

(** The text of words that are not common. *)
Definition shown_text (ps : list piece) : list Z := concat ((fun p => pws p ++ shown (ptok p)) <$> ps).

(** The markers around deleted or added words. *)
Definition start_marker (mode : Mode) : list Z :=
  if o_needStartStop opt then (if bool_decide (mode = ADD) then o_addStart opt else o_delStart opt) else [].
Definition stop_marker (mode : Mode) : list Z :=
  if o_needStartStop opt then (if bool_decide (mode = ADD) then o_addStop opt else o_delStop opt) else [].

(** The text of a change: the first whitespace, then the marked words. *)
Definition marked (mode : Mode) (w t : list Z) (ps : list piece) : list Z :=
  w ++ start_marker mode ++ shown t ++ shown_text ps ++ stop_marker mode.

(** [m] common words; [d] says that the last change was a printed deletion,
    after which the whitespace of the old file is used. *)
Fixpoint common_text (d : bool) (m : nat) (po pn : list piece) : list Z :=
  match m, po, pn with
  | S m', p :: po', q :: pn' => (if d then pws p else pws q) ++ ptok q ++ common_text false m' po' pn'
  | _, _, _ => []
  end.

(** Deleted or added words with the whitespace [w] before the first. *)
Definition group (mode : Mode) (print : bool) (w : list Z) (ps : list piece) : list Z :=
  match ps with
  | [] => []
  | p :: ps' => if print then marked mode w (ptok p) ps' else []
  end.
Abbreviation deleted_group := (group DEL (o_printDeleted opt)).
Abbreviation added_group := (group ADD (o_printAdded opt)).

Definition change_text (d : bool) (dl il : list piece) : list Z :=
  match dl, il with
  | [], [] => []
  | p :: _, [] => deleted_group (pws p) dl
  | [], q :: _ => added_group (pws q) il
  | p :: _, q :: _ =>
      if o_wdiffOutput opt || negb (has_newline (pws p)) then deleted_group (pws p) dl ++ added_group (pws q) il
      else if has_newline (pws q) then
        (if o_printCommon opt then (if d then pws p else pws q) else []) ++ deleted_group [] dl ++ added_group [32] il
      else added_group (pws q) il ++ deleted_group (pws p) dl
  end.

(** Everything after the first [n0] and [n1] words: the pieces left are [po]
    and [pn], the final whitespace [wo] and [wn]. *)
Fixpoint render (d : bool) (n1 : Z) (po pn : list piece) (wo wn : list Z) (script : list change) : list Z :=
  match script with
  | [] =>
      if o_printCommon opt then
        common_text d (length pn) po pn ++ (if d && bool_decide (length pn = 0%nat) then wo else wn)
      else []
  | ch :: script' =>
      let m := Z.to_nat (line1 ch - n1) in
      let d' := d && bool_decide (m = 0%nat) in
      let po' := drop m po in
      let pn' := drop m pn in
      (if o_printCommon opt then common_text d m po pn else [])
      ++ change_text d' (take (Z.to_nat (deleted ch)) po') (take (Z.to_nat (inserted ch)) pn')
      ++ (if o_needMarkers opt then 10 :: marker_line else [])
      ++ render (after_change opt d' ch) (line1 ch + inserted ch)
           (drop (Z.to_nat (deleted ch)) po') (drop (Z.to_nat (inserted ch)) pn') wo wn script'
  end.

End Text.

(** ** Scripts and pieces *)

(** The script fits what is left after [n0] and [n1] words: it is in order and
    in bounds, and common words are the [same]. *)
Fixpoint fits {A} (same : A -> A -> Prop) (n0 n1 : Z) (l0 l1 : list A) (script : list change) : Prop :=
  match script with
  | [] => Forall2 same l0 l1
  | ch :: script' =>
      exists m, line0 ch = n0 + Z.of_nat m /\ line1 ch = n1 + Z.of_nat m /\
        (m <= length l0)%nat /\ (m <= length l1)%nat /\ Forall2 same (take m l0) (take m l1) /\
        0 <= deleted ch /\ 0 <= inserted ch /\ 0 < deleted ch + inserted ch /\
        (Z.to_nat (deleted ch) <= length (drop m l0))%nat /\ (Z.to_nat (inserted ch) <= length (drop m l1))%nat /\
        fits same (line0 ch + deleted ch) (line1 ch + inserted ch)
          (drop (Z.to_nat (deleted ch)) (drop m l0)) (drop (Z.to_nat (inserted ch)) (drop m l1)) script'
  end.

(** A script for the values of two sequences fits the sequences. *)
Section Fits.
Context {A V K : Type} (key : A -> K) (value : V -> K) (l0 l1 : list A) (v0 v1 : list V).
Context (H0 : Forall2 (fun p v => key p = value v) l0 v0).
Context (H1 : Forall2 (fun p v => key p = value v) l1 v1).
Abbreviation same := (fun p q => key p = key q).

Lemma same_from_values (k0 k1 : list A) (v : list V) : Forall2 (fun p v => key p = value v) k0 v ->
  Forall2 (fun p v => key p = value v) k1 v -> Forall2 same k0 k1.
Proof.
  intros E0. revert k1. induction E0 as [|p x k0 v Hp _ IH]; intros k1 E1; inversion E1; subst; constructor; [congruence|by apply IH].
Qed.

Lemma script_ok_fits gap p0 p1 script : 0 <= p0 <= zlen v0 -> 0 <= p1 <= zlen v1 -> script_ok v0 v1 gap p0 p1 script ->
  fits same p0 p1 (drop (Z.to_nat p0) l0) (drop (Z.to_nat p1) l1) script.
Proof.
  pose proof (Forall2_length _ _ _ H0) as Lo. pose proof (Forall2_length _ _ _ H1) as Ln.
  revert gap p0 p1. induction script as [|ch s IH]; intros gap p0 p1 Hp0 Hp1; cbn [script_ok fits].
  - rewrite !slice_drop by lia. intros E. eapply same_from_values; [by apply Forall2_drop|]. rewrite E. by apply Forall2_drop.
  - intros (K1 & K2 & K3 & K4 & K5 & K6 & K7 & K8 & K9).
    assert (p0 <= line0 ch) as K1' by (destruct gap; lia).
    exists (Z.to_nat (line0 ch - p0)). split; [lia|]. split; [lia|]. rewrite !length_drop.
    split; [lia|]. split; [lia|]. split.
    { revert K3. unfold slice. replace (Z.to_nat (line1 ch - p1)) with (Z.to_nat (line0 ch - p0)) by lia. intros E.
      eapply same_from_values; [by apply Forall2_take, Forall2_drop|]. rewrite E. by apply Forall2_take, Forall2_drop. }
    split; [done|]. split; [done|]. split; [done|]. split; [lia|]. split; [lia|].
    rewrite !drop_drop.
    replace (Z.to_nat p0 + (Z.to_nat (line0 ch - p0) + Z.to_nat (deleted ch)))%nat with (Z.to_nat (line0 ch + deleted ch)) by lia.
    replace (Z.to_nat p1 + (Z.to_nat (line0 ch - p0) + Z.to_nat (inserted ch)))%nat with (Z.to_nat (line1 ch + inserted ch)) by lia.
    apply (IH true); [lia|lia|done].
Qed.
End Fits.

(** Common words have equally many newlines. *)
Definition same_newlines (p q : @piece Z) : Prop := newlines (ptok p) = newlines (ptok q).
Abbreviation script_fits := (fits same_newlines).

(** ** New files *)

Section NewFile.
Context (opt : options).
Abbreviation piece := (@piece Z).

Lemma common_text_new m (po pn : list piece) : (m <= length po)%nat -> (m <= length pn)%nat ->
  common_text false m po pn = text (take m pn).
Proof.
  revert po pn. induction m as [|m IH]; intros [|q po] [|r pn] H0 H1; simpl in *; try done; try lia.
  rewrite IH by lia. change (text (r :: take m pn)) with ((pws r ++ ptok r) ++ text (take m pn)). by rewrite <- app_assoc.
Qed.

(** Options that print the new file only. *)
Record new_file_only : Prop := {
  nf_plain : plain_output opt;
  nf_para : o_paraDelim opt = false;
  nf_wdiff : o_wdiffOutput opt = true;
  nf_deleted : o_printDeleted opt = false;
  nf_added : o_printAdded opt = true;
  nf_common : o_printCommon opt = true;
  nf_markers : o_needMarkers opt = false;
  nf_start_stop : o_needStartStop opt = false
}.

Lemma change_text_new d (dl il : list piece) : new_file_only -> change_text opt d dl il = text il.
Proof.
  intros [_ H0 H1 H2 H3 _ _ H4]. unfold change_text, group, marked, start_marker, stop_marker. rewrite H1, H2, H3, H4. simpl.
  assert (forall t, shown opt t = t) as Hs by (intros t; unfold shown; by rewrite H0).
  assert (forall ps, shown_text opt ps = text ps) as Ht.
  { intros ps. unfold shown_text, text. f_equal. apply list_fmap_ext. intros i p _. unfold piece_text. by rewrite Hs. }
  destruct dl as [|p dl], il as [|q il]; try done; rewrite app_nil_r;
    rewrite Hs, Ht; change (text (q :: il)) with ((pws q ++ ptok q) ++ text il); by rewrite <- app_assoc.
Qed.

Lemma text_split m (ps : list piece) : text ps = text (take m ps) ++ text (drop m ps).
Proof. rewrite <- (take_drop m ps) at 1. unfold text. by rewrite fmap_app, concat_app. Qed.

Lemma render_new n0 n1 po pn wo wn script : new_file_only -> script_fits n0 n1 po pn script ->
  render opt false n1 po pn wo wn script = text pn ++ wn.
Proof.
  intros N. revert n0 n1 po pn. induction script as [|ch script IH]; intros n0 n1 po pn; cbn [fits render].
  - intros Hf. rewrite (nf_common N). apply Forall2_length in Hf. rewrite common_text_new by lia. by rewrite firstn_all.
  - intros (m & E0 & E1 & Hm0 & Hm1 & _ & _ & _ & _ & Hd & Hi & Hfit).
    replace (Z.to_nat (line1 ch - n1)) with m by lia. rewrite (nf_common N), (nf_markers N), common_text_new by done.
    rewrite (change_text_new _ _ _ N). unfold after_change. rewrite (nf_deleted N), andb_false_r. cbn [andb orb app].
    rewrite (IH _ _ _ _ Hfit). rewrite (text_split m pn), (text_split (Z.to_nat (inserted ch)) (drop m pn)).
    by rewrite <- !app_assoc.
Qed.
End NewFile.

(** ** Marks without decorations *)

Section Marks.
Context (opt : options).
Context {Char : Type} {RR : Reader Char} {RC : ReaderChars Char} {RS : ReaderSpec Char}.
Abbreviation piece := (@piece Char).
Abbreviation marks := (list (mark Char)).

(** The bytes of a piece. *)
Definition bytes_piece (p : piece) : Pieces.piece := Piece (chars (pws p)) (chars (ptok p)).

Definition plain_mark (m : mark Char) : list Z :=
  match m with
  | White _ c | Word _ c | Common c | Para _ c => char_text c
  | Begin mode => start_marker opt mode
  | End_ mode => stop_marker opt mode
  | Rule after => rule_text after
  | Count _ => []
  end.
Definition plain (ms : marks) : list Z := concat (plain_mark <$> ms).

Lemma plain_app ms1 ms2 : plain (ms1 ++ ms2) = plain ms1 ++ plain ms2.
Proof. unfold plain. by rewrite fmap_app, concat_app. Qed.

Lemma char_emissions_text c common : emissions_text opt (char_emissions c common) = char_text c.
Proof.
  unfold emissions_text, char_emissions. induction (char_text c) as [|b l IH]; [done|]. rewrite !fmap_cons. cbn [concat emission_text]. by rewrite IH.
Qed.

Lemma emit_plain m s : undecorated opt -> emissions_text opt (emit opt m s).1 = plain_mark m.
Proof.
  intros [P2 P3 P4 P5 P6].
  assert (forall mode s, on_new_line opt mode s = []) as Hn.
  { intros mode s'. unfold on_new_line. rewrite P2, P5, P6. cbn. by destruct (d_feed s'), (_ && _). }
  assert (forall c mode s, at_line_end opt c mode s = []) as He.
  { intros c mode s'. unfold at_line_end. rewrite P5, P6. by destruct (_ && _). }
  assert (forall c mode, overstrike opt c mode = []) as Ho by (intros c mode; unfold overstrike; by rewrite P3, P4).
  destruct m; cbn [emit fst plain_mark]; rewrite ?Hn, ?He, ?Ho, ?P3; cbn [app andb]; rewrite ?char_emissions_text; try done.
  - unfold start_marker, if_print, start_of. rewrite P5. destruct (o_needStartStop opt); [|done]. apply app_nil_r.
  - unfold stop_marker, if_print, stop_of. rewrite P5. destruct (o_needStartStop opt); [|done]. apply app_nil_r.
  - apply app_nil_r.
Qed.

Lemma emits_plain ms s : undecorated opt -> emissions_text opt (emits opt ms s).1 = plain ms.
Proof.
  intros P. revert s. induction ms as [|m ms IH]; intros s; [done|]. rewrite emits_cons. cbn [fst].
  by rewrite emissions_text_app, IH, emit_plain.
Qed.

Lemma drawn_plain ms k k' : plain_output opt -> Forall (one_stream opt) (emits opt ms (dstate_of k)).1 ->
  drawn opt ms k k' -> output (cout k') = output (cout k) ++ plain ms.
Proof.
  intros P Ho [_ H]. rewrite performs_text in H by (done || apply P). injection H as <-. simpl. by rewrite emits_plain by apply P.
Qed.

(** ** The text of the marks *)

Context (marker : marker_ok opt).

Lemma plain_white print mode cs : plain (white_marks print mode cs) = if print then chars cs else [].
Proof.
  unfold white_marks. induction cs as [|c cs IH]; [by destruct print|]. cbn [flat_map]. rewrite !plain_app, IH, chars_cons.
  destruct print, (charDataEquals c 10); unfold plain; simpl; by rewrite ?app_nil_r.
Qed.

Lemma plain_para mode cs : plain (Para mode <$> cs) = chars cs.
Proof. unfold plain, chars. by rewrite <- list_fmap_compose. Qed.

Lemma plain_token print mode cs : Forall char_ok cs -> plain (token_marks opt print mode cs) = if print then shown_in opt mode (chars cs) else [].
Proof.
  intros Hcs. destruct cs as [|c cs].
  - unfold token_marks, empty_token_marks, shown_in, shown. change (chars []) with (@nil Z). rewrite (bool_decide_eq_true_2 ([] = [])) by done.
    destruct (o_paraDelim opt) eqn:Ep, print, (bool_decide (mode = COMMON)); try done. cbn [andb negb if_print]. rewrite plain_para. by apply readable_chars, marker.
  - assert (chars (c :: cs) <> []) as Hne.
    { rewrite chars_cons. intros E. apply app_eq_nil in E as [E _]. apply Forall_cons in Hcs as [Hc _]. by apply (char_nonempty c). }
    unfold shown_in, shown. rewrite (bool_decide_eq_false_2 _ Hne), andb_false_r. unfold token_marks. clear Hcs Hne.
    replace (if bool_decide (mode = COMMON) then chars (c :: cs) else chars (c :: cs)) with (chars (c :: cs)) by (by case_match).
    induction (c :: cs) as [|x l IH]; [by destruct print|]. cbn [flat_map]. rewrite !plain_app, IH, chars_cons.
    destruct print, (charDataEquals x 10), mode; unfold plain; simpl; by rewrite ?app_nil_r.
Qed.

Lemma plain_counts b (l : list Char) : plain (flat_map (fun c => if_print (charDataEquals c 10) [Count b]) l) = [].
Proof. induction l as [|c l IH]; [done|]. cbn [flat_map]. rewrite plain_app, IH. by destruct (charDataEquals c 10). Qed.

Lemma plain_sync printNew a b : plain (sync_marks opt printNew a b) = if o_printCommon opt then chars a else [].
Proof.
  revert b. induction a as [|c a IH]; intros b; cbn [sync_marks].
  - rewrite plain_counts. by destruct (o_printCommon opt).
  - rewrite plain_app, chars_cons.
    assert (plain (if charDataEquals c 10 then Count printNew :: match after_newline b with
              | Some b' => Count (negb printNew) :: sync_marks opt printNew a b' | None => sync_marks opt printNew a [] end
            else sync_marks opt printNew a b) = if o_printCommon opt then chars a else []) as ->.
    { destruct (charDataEquals c 10); [|apply IH]. destruct (after_newline b); [|apply (IH [])]. apply (IH l). }
    destruct (o_printCommon opt); unfold plain; simpl; by rewrite ?app_nil_r.
Qed.

Lemma plain_common_ws d wo wn : plain (common_ws_marks opt d wo wn) = if o_printCommon opt then (if d then chars wo else chars wn) else [].
Proof. unfold common_ws_marks. destruct d; apply plain_sync. Qed.

(** The characters of pieces. *)
Definition piece_ok (p : piece) : Prop := Forall char_ok (pws p) /\ Forall char_ok (ptok p).

Lemma plain_words print mode ps : Forall piece_ok ps -> mode = ADD \/ mode = DEL ->
  plain (words_marks opt print mode ps) = if print then shown_text opt (bytes_piece <$> ps) else [].
Proof.
  intros Hps Hm. unfold words_marks. induction Hps as [|p ps [Hw Ht] _ IH]; [by destruct print|]. cbn [flat_map].
  rewrite !plain_app, plain_white, plain_token, IH by done. destruct print; [|done]. unfold shown_text. rewrite !fmap_cons. cbn [concat bytes_piece pws ptok].
  by destruct Hm as [-> | ->].
Qed.

Lemma plain_changed mode print w t ps : Forall char_ok t -> Forall piece_ok ps -> mode = ADD \/ mode = DEL ->
  plain (changed_marks opt mode print w t ps) = if print then marked opt mode (chars w) (chars t) (bytes_piece <$> ps) else [].
Proof.
  intros Ht Hps Hm. unfold changed_marks. rewrite !plain_app, plain_white, plain_token, plain_words by done.
  destruct print; [|done]. unfold marked, plain. simpl. rewrite !app_nil_r. by destruct Hm as [-> | ->].
Qed.

Lemma plain_group mode print w ps : Forall piece_ok ps -> mode = ADD \/ mode = DEL ->
  plain (group_marks opt mode print w ps) = group opt mode print (chars w) (bytes_piece <$> ps).
Proof. intros Hps Hm. destruct Hps as [|p ps [_ Hp] Hps]; [done|]. by apply plain_changed. Qed.

Lemma has_newlines_bytes w : Forall char_ok w -> has_newlines w = has_newline (chars w).
Proof.
  induction 1 as [|c w Hc _ IH]; [done|]. rewrite chars_cons, has_newline_app, <- IH. cbn [has_newlines existsb]. f_equal.
  rewrite has_newline_count, (char_newline c Hc). by destruct (charDataEquals c 10).
Qed.

Lemma reread_chars p : plain_piece p -> chars (reread (pws p)) = chars (pws p).
Proof. intros H. by apply readable_chars, plain_readable. Qed.

Lemma string_bytes w : plain_string w -> chars (string_chars w) = w.
Proof. intros H. by apply readable_chars, plain_readable. Qed.

Lemma plain_change d dl il : white_ok opt dl il -> Forall piece_ok dl -> Forall piece_ok il ->
  plain (change_marks opt d dl il) = change_text opt d (bytes_piece <$> dl) (bytes_piece <$> il).
Proof.
  intros Hw Hd Hi. unfold change_marks, change_text.
  destruct dl as [|p dl], il as [|q il]; [done|by apply plain_group; [|left]|by apply plain_group; [|right]|].
  rewrite !fmap_cons, <- !fmap_cons. cbn [bytes_piece pws].
  pose proof Hd as [[Hp _] _]%Forall_cons. pose proof Hi as [[Hq _] _]%Forall_cons.
  unfold change_plan. rewrite !has_newlines_bytes by done. destruct (o_wdiffOutput opt) eqn:E; cbn [orb].
  { unfold both_marks. cbn [app]. by rewrite plain_app, !plain_group by auto. }
  destruct (Hw E) as [[Hwp _]%Forall_cons [Hwq _]%Forall_cons].
  destruct (has_newline (chars (pws p))); cbn [negb]; [destruct (has_newline (chars (pws q)))|]; unfold both_marks; cbn [app];
    rewrite ?plain_app, ?plain_common_ws, !plain_group by auto; rewrite ?reread_chars, ?string_bytes by first [done|apply plain_nothing|apply plain_space]; reflexivity.
Qed.

Lemma plain_common d m po pn : Forall piece_ok pn ->
  plain (common_marks opt d m po pn) = if o_printCommon opt then common_text d m (bytes_piece <$> po) (bytes_piece <$> pn) else [].
Proof.
  intros Hn. revert d po pn Hn. induction m as [|m IH]; intros d po pn Hn; [by destruct (o_printCommon opt)|].
  destruct po as [|p po], Hn as [|q pn [_ Hq] Hn]; try by destruct (o_printCommon opt).
  cbn [common_marks common_text]. rewrite !plain_app, plain_common_ws, plain_token, IH by done. rewrite !fmap_cons. cbn [common_text].
  destruct (o_printCommon opt); [|done]. by destruct d.
Qed.

Lemma plain_render d n1 po pn wo wn script : white_ok opt po pn -> Forall piece_ok po -> Forall piece_ok pn ->
  plain (render_marks opt d n1 po pn wo wn script) = render opt d n1 (bytes_piece <$> po) (bytes_piece <$> pn) (chars wo) (chars wn) script.
Proof.
  revert d n1 po pn. induction script as [|ch script IH]; intros d n1 po pn Hw Ho Hn; cbn [render_marks render].
  - destruct (o_printCommon opt) eqn:E; [|done]. cbn [if_print]. rewrite plain_app, plain_common, plain_common_ws, E by done.
    by rewrite length_fmap.
  - rewrite <- !fmap_drop, <- !fmap_take, !plain_app, plain_common, plain_change by auto using Forall_take, Forall_drop, white_ok_take, white_ok_drop.
    rewrite IH by (auto using Forall_drop, white_ok_drop). rewrite <- !app_assoc. by destruct (o_needMarkers opt) eqn:E; unfold rule_marks; rewrite E.
Qed.
End Marks.

(** ** Lines that are counted *)

Section Lines.
Context (opt : options).
Context {Char : Type} {RR : Reader Char} {RC : ReaderChars Char} {RS : ReaderSpec Char}.
Abbreviation piece := (@piece Char).
Abbreviation marks := (list (mark Char)).

(** The newlines among characters. *)
Definition lines (cs : list Char) : Z := foldr (fun c n => (if charDataEquals c 10 then 1 else 0) + n) 0 cs.

Lemma lines_chars cs : Forall char_ok cs -> lines cs = newlines (chars cs).
Proof. induction 1 as [|c cs Hc _ IH]; [done|]. rewrite chars_cons, newlines_app, (char_newline c Hc), <- IH. reflexivity. Qed.

Lemma lines_has cs : has_newlines cs = negb (lines cs =? 0).
Proof.
  assert (forall l, 0 <= lines l) as Hp by (induction l as [|c l IH]; simpl; [lia|]; case_match; lia).
  induction cs as [|c cs IH]; [done|]. cbn [has_newlines existsb lines foldr]. fold (has_newlines cs) (lines cs). rewrite IH.
  specialize (Hp cs). destruct (charDataEquals c 10); simpl; [|done]. symmetry. apply negb_true_iff, Z.eqb_neq. lia.
Qed.

Definition piece_lines (p : piece) : Z := lines (pws p) + lines (ptok p).
Definition lines_of (ps : list piece) : Z := foldr (fun p n => piece_lines p + n) 0 ps.

Lemma lines_of_app ps qs : lines_of (ps ++ qs) = lines_of ps + lines_of qs.
Proof. induction ps as [|p ps IH]; simpl; [lia|]. rewrite IH. lia. Qed.

Lemma lines_of_split m (ps : list piece) : lines_of (take m ps) + lines_of (drop m ps) = lines_of ps.
Proof. by rewrite <- lines_of_app, take_drop. Qed.

Lemma lines_of_bytes ps : Forall piece_ok ps -> lines_of ps = newlines (text (bytes_piece <$> ps)).
Proof.
  induction 1 as [|p ps [Hw Ht] _ IH]; [done|]. cbn [lines_of foldr]. fold (lines_of ps). rewrite IH.
  change (text (bytes_piece <$> (p :: ps))) with ((chars (pws p) ++ chars (ptok p)) ++ text (bytes_piece <$> ps)).
  rewrite !newlines_app. unfold piece_lines. by rewrite !lines_chars by done.
Qed.

(** [n] if [b]. *)
Definition if_count (b : bool) (n : Z) : Z := if b then n else 0.

Lemma counted_flat {A} new (f : A -> marks) (b : bool) (g : A -> bool) l :
  (forall c, counted new (f c) = if_count b (if g c then 1 else 0)) ->
  counted new (flat_map f l) = if_count b (foldr (fun c n => (if g c then 1 else 0) + n) 0 l).
Proof.
  intros Hf. induction l as [|c l IH]; [by destruct b|]. cbn [flat_map foldr]. rewrite counted_app, Hf, IH. destruct b; simpl; lia.
Qed.

Lemma counted_white new print mode cs : counted new (white_marks print mode cs) = if_count (eqb (counts_new mode) new) (lines cs).
Proof.
  apply counted_flat. intros c. rewrite counted_app. destruct print, (charDataEquals c 10); simpl; unfold if_count; by destruct (eqb _ _).
Qed.

Definition token_counts (new : bool) (mode : Mode) : bool :=
  match mode with COMMON => true | ADD => new | DEL => negb new | OLD_COMMON => false end.

Lemma counted_para new (mode : Mode) (cs : list Char) : counted new (Para mode <$> cs : marks) = 0.
Proof. induction cs as [|c cs IH]; [done|]. exact IH. Qed.

Lemma counted_token new print mode cs : counted new (token_marks opt print mode cs) = if_count (token_counts new mode) (lines cs).
Proof.
  unfold token_marks. destruct cs as [|c cs].
  - unfold empty_token_marks. destruct (_ && _); [cbn [if_print]; rewrite counted_para|]; by destruct (token_counts _ _).
  - apply counted_flat. intros x. rewrite counted_app. by destruct print, (charDataEquals x 10), mode, new.
Qed.

Lemma after_newline_lines b : match after_newline b with Some b' => lines b = 1 + lines b' | None => lines b = 0 end.
Proof.
  induction b as [|c b IH]; [done|]. cbn [after_newline]. destruct (charDataEquals c 10) eqn:E; [cbn [lines foldr]; by rewrite E|].
  destruct (after_newline b); cbn [lines foldr]; rewrite E; exact IH.
Qed.

Lemma counted_counts new b (l : list Char) :
  counted new (flat_map (fun c => if_print (charDataEquals c 10) [Count b]) l : marks) = if_count (eqb b new) (lines l).
Proof. apply counted_flat. intros c. destruct (charDataEquals c 10); simpl; unfold if_count; by destruct (eqb _ _). Qed.

Lemma counted_sync new printNew a b :
  counted new (sync_marks opt printNew a b) = if eqb printNew new then lines a else lines b.
Proof.
  revert b. induction a as [|c a IH]; intros b; cbn [sync_marks].
  - rewrite counted_counts. by destruct printNew, new.
  - rewrite counted_app. replace (counted new (if_print (o_printCommon opt) [Common c])) with 0 by (by destruct (o_printCommon opt)).
    cbn [lines foldr]. fold (lines a). destruct (charDataEquals c 10); [|rewrite IH; by destruct (eqb _ _)].
    pose proof (after_newline_lines b) as Hb. destruct (after_newline b) as [b'|]; cbn [counted foldr mark_count].
    + fold (counted new (sync_marks opt printNew a b')). rewrite IH. destruct printNew, new; simpl; lia.
    + fold (counted new (sync_marks opt printNew a [])). rewrite IH. destruct printNew, new; simpl; lia.
Qed.

Lemma counted_common_ws new d wo wn : counted new (common_ws_marks opt d wo wn) = if new then lines wn else lines wo.
Proof. unfold common_ws_marks. destruct d; rewrite counted_sync; by destruct new. Qed.

Lemma counted_words new print mode ps : mode = ADD \/ mode = DEL ->
  counted new (words_marks opt print mode ps) = if_count (token_counts new mode) (lines_of ps).
Proof.
  intros Hm. unfold words_marks. induction ps as [|p ps IH]; [by destruct (token_counts _ _)|]. cbn [flat_map]. rewrite !counted_app, IH, counted_white, counted_token.
  cbn [lines_of foldr]. fold (lines_of ps). unfold piece_lines. destruct Hm as [-> | ->], new; simpl; lia.
Qed.

Lemma counted_group new mode print w ps : mode = ADD \/ mode = DEL ->
  counted new (group_marks opt mode print w ps) =
    if_count (token_counts new mode) (match ps with [] => 0 | p :: ps' => lines w + lines (ptok p) + lines_of ps' end).
Proof.
  intros Hm. destruct ps as [|p ps]; [by destruct (token_counts _ _)|]. cbn [group_marks]. unfold changed_marks.
  rewrite !counted_app, counted_white, counted_token, counted_words by done.
  replace (counted new (if_print print [Begin mode] : marks)) with 0 by (by destruct print). replace (counted new (if_print print [End_ mode] : marks)) with 0 by (by destruct print).
  destruct Hm as [-> | ->], new; simpl; lia.
Qed.

Lemma counted_both new rev w0 w1 p dl q il : counted new (both_marks opt rev w0 w1 (p :: dl) (q :: il)) =
  if new then lines w1 + lines (ptok q) + lines_of il else lines w0 + lines (ptok p) + lines_of dl.
Proof. unfold both_marks. destruct rev; rewrite counted_app, !counted_group by auto; destruct new; simpl; lia. Qed.

Lemma lines_string w : plain_string w -> lines (string_chars w) = newlines w.
Proof.
  intros (cs & <- & _ & Hr). rewrite (string_reads cs _ Hr). apply lines_chars.
  revert Hr. generalize (newStringStream (chars cs)). induction cs as [|c cs IH]; intros s Hr; [constructor|].
  destruct Hr as (Hc & _ & s1 & _ & Hr). constructor; [done|by eapply IH].
Qed.

Lemma lines_reread p : plain_piece p -> piece_ok p -> lines (reread (pws p)) = lines (pws p).
Proof. intros Hp [Hw _]. unfold reread. by rewrite lines_string, lines_chars. Qed.

Lemma counted_change new d dl il : white_ok opt dl il -> Forall piece_ok dl -> Forall piece_ok il ->
  counted new (change_marks opt d dl il) = if new then lines_of il else lines_of dl.
Proof.
  intros Hw Hd Hi. destruct dl as [|p dl], il as [|q il]; cbn [change_marks].
  - by destruct new.
  - rewrite counted_group by auto. unfold lines_of at 2 3, piece_lines. by destruct new.
  - rewrite counted_group by auto. unfold lines_of at 2 3, piece_lines. by destruct new.
  - cbn [lines_of foldr]. fold (lines_of dl) (lines_of il). unfold piece_lines.
    pose proof Hd as [Hp _]%Forall_cons. pose proof Hi as [Hq _]%Forall_cons. unfold change_plan. rewrite !lines_has.
    destruct (o_wdiffOutput opt) eqn:E; [rewrite counted_app, counted_both; done|].
    destruct (Hw E) as [[Hwp _]%Forall_cons [Hwq _]%Forall_cons].
    destruct (lines (pws p) =? 0); cbn [negb]; [|destruct (lines (pws q) =? 0); cbn [negb]]; rewrite counted_app, counted_both;
      rewrite ?counted_common_ws, ?lines_reread by done; try (by destruct new).
    rewrite (lines_string [] plain_nothing), (lines_string [32] plain_space). destruct new; change (newlines _) with 0; lia.
Qed.

(** Words that are common count equally many lines in both files. *)
Definition same_lines (p q : piece) : Prop := lines (ptok p) = lines (ptok q).

Lemma counted_common new d m po pn : (m <= length po)%nat -> (m <= length pn)%nat -> Forall2 same_lines (take m po) (take m pn) ->
  counted new (common_marks opt d m po pn) = if new then lines_of (take m pn) else lines_of (take m po).
Proof.
  revert d po pn. induction m as [|m IH]; intros d [|p po] [|q pn] H0 H1 Hs; simpl in H0, H1; try lia; try (by destruct new).
  cbn [take] in Hs. apply Forall2_cons in Hs as [Hpq Hs]. cbn [common_marks take lines_of foldr]. fold (lines_of (take m po)) (lines_of (take m pn)).
  rewrite !counted_app, counted_common_ws, counted_token, (IH false po pn) by (lia || done). unfold piece_lines, same_lines in *.
  destruct new; simpl; lia.
Qed.

Lemma same_lines_bytes po pn : Forall piece_ok po -> Forall piece_ok pn ->
  Forall2 same_newlines (bytes_piece <$> po) (bytes_piece <$> pn) -> Forall2 same_lines po pn.
Proof.
  intros Ho. revert pn. induction Ho as [|p po [_ Hp] Ho IH]; intros pn Hn Hs.
  - by destruct Hn; [|inversion Hs].
  - destruct Hn as [|q pn [_ Hq] Hn]; [inversion Hs|]. rewrite !fmap_cons in Hs. apply Forall2_cons in Hs as [Hpq Hs].
    constructor; [|by apply IH]. unfold same_lines. rewrite !lines_chars by done. exact Hpq.
Qed.

Lemma counted_render new d n0 n1 po pn wo wn script : o_printCommon opt = true -> white_ok opt po pn ->
  Forall piece_ok po -> Forall piece_ok pn -> script_fits n0 n1 (bytes_piece <$> po) (bytes_piece <$> pn) script ->
  counted new (render_marks opt d n1 po pn wo wn script) = if new then lines_of pn + lines wn else lines_of po + lines wo.
Proof.
  intros HC. revert d n0 n1 po pn. induction script as [|ch script IH]; intros d n0 n1 po pn Hw Ho Hn; cbn [fits].
  - intros Hs%same_lines_bytes; [|done..]. pose proof (Forall2_length _ _ _ Hs) as Hl. cbn [render_marks]. rewrite HC. cbn [if_print].
    rewrite counted_app, counted_common, counted_common_ws by (rewrite ?take_ge by lia; lia || done). rewrite !take_ge by lia. by destruct new.
  - intros (m & E0 & E1 & Hm0 & Hm1 & Hs & Hd0 & Hi0 & _ & Hd & Hi & Hfit). rewrite (render_marks_step opt d n1 po pn wo wn ch script m E1).
    rewrite !length_fmap in Hm0, Hm1. rewrite <- !fmap_drop in *. rewrite !length_fmap in Hd, Hi. rewrite <- !fmap_take in Hs.
    apply same_lines_bytes in Hs; [|auto using Forall_take..].
    rewrite !counted_app, counted_common, counted_change by auto using Forall_take, Forall_drop, white_ok_take, white_ok_drop.
    rewrite (IH _ _ _ _ _ (white_ok_drop _ _ _ _ _ (white_ok_drop _ _ _ _ _ Hw)) (Forall_drop _ _ _ (Forall_drop _ _ _ Ho)) (Forall_drop _ _ _ (Forall_drop _ _ _ Hn)) Hfit).
    replace (counted new (rule_marks opt true : marks)) with 0 by (unfold rule_marks; by destruct (o_needMarkers opt)).
    pose proof (lines_of_split m po). pose proof (lines_of_split m pn). pose proof (lines_of_split (Z.to_nat (deleted ch)) (drop m po)).
    pose proof (lines_of_split (Z.to_nat (inserted ch)) (drop m pn)). destruct new; lia.
Qed.

(** The marks of a run count all lines of both files. *)
Lemma counted_run d n0 n1 po pn wo wn script : o_printCommon opt = true -> white_ok opt po pn ->
  Forall piece_ok po -> Forall piece_ok pn -> Forall char_ok wo -> Forall char_ok wn ->
  script_fits n0 n1 (bytes_piece <$> po) (bytes_piece <$> pn) script ->
  let ms := rule_marks opt false ++ render_marks opt d n1 po pn wo wn script in
  counted false ms = newlines (text (bytes_piece <$> po) ++ chars wo) /\
  counted true ms = newlines (text (bytes_piece <$> pn) ++ chars wn).
Proof.
  intros HC Hw Ho Hn Hwo Hwn Hfit. cbv zeta. rewrite !newlines_app, <- !lines_of_bytes, <- !lines_chars by done.
  rewrite !counted_app, !(counted_render _ d n0) by done.
  assert (forall new, counted new (rule_marks opt false : marks) = 0) as Hr by (intros new; unfold rule_marks; by destruct (o_needMarkers opt)).
  by rewrite !Hr.
Qed.

(** The line counters, up to their wrap-around. *)
Lemma drawn_lines d n0 n1 po pn wo wn script k k' : o_printCommon opt = true -> white_ok opt po pn ->
  Forall piece_ok po -> Forall piece_ok pn -> Forall char_ok wo -> Forall char_ok wn ->
  script_fits n0 n1 (bytes_piece <$> po) (bytes_piece <$> pn) script ->
  drawn opt (rule_marks opt false ++ render_marks opt d n1 po pn wo wn script) k k' ->
  wraps (oldLineNumber k') (oldLineNumber k + newlines (text (bytes_piece <$> po) ++ chars wo)) /\
  wraps (newLineNumber k') (newLineNumber k + newlines (text (bytes_piece <$> pn) ++ chars wn)).
Proof.
  intros HC Hw Ho Hn Hwo Hwn Hfit [Hs _]. destruct (counted_run d n0 n1 po pn wo wn script HC Hw Ho Hn Hwo Hwn Hfit) as [<- <-].
  pose proof (emits_lines opt (rule_marks opt false ++ render_marks opt d n1 po pn wo wn script) (dstate_of k)) as H. by rewrite <- Hs in H.
Qed.
End Lines.
