(* ===== verification/OneSided.v ===== *)
(** * Output of one file's words

    When deleted words are printed without markers and added words are not, as
    for dwfilter, the output is the old file in new clothes: cut into words it
    has the words of the old file.  This needs that there are no delimiters,
    so that every word has whitespace before it, and that after a deletion the
    whitespace of the old file is used (no --wdiff-output). *)

From S2P Require Import Prelude EditScript HashTable FileIO Streams Unicode UnicodeProofs ContextBuffer ContextProofs Analyze ScriptProofs Tokenizer Pieces TokenizerProofs DoDiff Reader Marks DoDiffProofs Render Plain.

Section OneSided.
Context (opt : options) (isW isD : Z -> bool).
Abbreviation piece := (@piece Z).
Abbreviation tokens := (fmap (M := list) (B := list Z) ptok).

(** Pieces that are words, with whitespace between them; [b]: a word is before. *)
Fixpoint spaced (b : bool) (ps : list piece) : Prop :=
  match ps with
  | [] => True
  | p :: ps' => white isW isD (pws p) /\ is_word isW isD (ptok p) = true /\ (b = true -> pws p <> []) /\ spaced true ps'
  end.

Lemma spaced_pieces b ps : spaced b ps -> pieces_ok isW isD b ps.
Proof.
  revert b. induction ps as [|p ps IH]; intros b; [done|]. intros (H1 & H2 & H3 & H4). split; [done|]. split; [by right|].
  rewrite H2, andb_true_r. split; [done|]. by apply IH.
Qed.

(** Without delimiters all pieces of a text are like that. *)
Lemma pieces_spaced b ps : (forall c, isD c = false) -> pieces_ok isW isD b ps -> spaced b ps.
Proof.
  intros Hd. revert b. induction ps as [|p ps IH]; intros b; [done|]. intros (H1 & H2 & H3 & H4).
  assert (is_word isW isD (ptok p) = true) as Hw.
  { destruct H2 as [(c & _ & Hc)|H2]; [|done]. unfold kind in Hc. rewrite Hd in Hc. by case_match. }
  rewrite Hw in *. rewrite andb_true_r in H3. split; [done|]. split; [done|]. split; [done|]. by apply IH.
Qed.

Definition any (ps : list piece) : bool := match ps with [] => false | _ => true end.

Lemma spaced_app b ps qs : spaced b (ps ++ qs) <-> spaced b ps /\ spaced (b || any ps) qs.
Proof.
  revert b. induction ps as [|p ps IH]; intros b; cbn [app spaced any]; [rewrite orb_false_r; tauto|].
  rewrite IH, orb_true_r. cbn [orb]. tauto.
Qed.

Lemma spaced_weaken b ps : spaced true ps -> spaced b ps.
Proof. destruct ps as [|p ps]; [done|]. cbn [spaced]. intros (H1 & H2 & H3 & H4). split_and!; auto. Qed.

(** [t] is the text of the words [ts], after a word if [b]. *)
Definition spells (b : bool) (t : list Z) (ts : list (list Z)) : Prop := exists ps, t = text ps /\ spaced b ps /\ tokens ps = ts.

Lemma spells_nil b : spells b [] [].
Proof. by exists []. Qed.

Lemma spells_pieces b ps : spaced b ps -> spells b (text ps) (tokens ps).
Proof. intros H. by exists ps. Qed.

Lemma spells_app b t1 ts1 t2 ts2 : spells b t1 ts1 -> spells (b || bool_decide (ts1 <> [])) t2 ts2 -> spells b (t1 ++ t2) (ts1 ++ ts2).
Proof.
  intros (ps & -> & H1 & <-) (qs & -> & H2 & <-). exists (ps ++ qs). split; [unfold text; by rewrite fmap_app, concat_app|].
  split; [|by rewrite fmap_app]. apply spaced_app. split; [done|]. by destruct ps.
Qed.

Lemma spells_word b w t : white isW isD w -> is_word isW isD t = true -> (b = true -> w <> []) -> spells b (w ++ t) [t].
Proof. intros H1 H2 H3. exists [Piece w t]. split; [unfold text; simpl; by rewrite app_nil_r|]. by repeat split. Qed.

(** ** Common words *)

(** After a word the whitespace that is chosen is not empty: [b0] and [b1] say
    that words of the old and the new file are before. *)
Definition ready (d b0 b1 : bool) : Prop := b0 = true -> b1 = false -> d = true.

Lemma common_spells d b0 b1 m po pn : spaced b0 po -> spaced b1 pn -> ready d b0 b1 -> (m <= length po)%nat -> (m <= length pn)%nat ->
  spells b0 (common_text d m po pn) (tokens (take m pn)).
Proof.
  revert d b0 b1 po pn. induction m as [|m IH]; intros d b0 b1 po pn H0 H1 Hr Ho Hn; [apply spells_nil|].
  destruct po as [|p po]; [simpl in Ho; lia|]. destruct pn as [|q pn]; [simpl in Hn; lia|].
  destruct H0 as (P1 & P2 & P3 & P4), H1 as (Q1 & Q2 & Q3 & Q4). cbn [common_text take fmap list_fmap].
  rewrite app_assoc. apply (spells_app b0 _ [ptok q] _ (tokens (take m pn))).
  - apply spells_word; [by destruct d|done|]. intros Hb. destruct d; [by apply P3|]. apply Q3. destruct b1; [done|]. by specialize (Hr Hb eq_refl).
  - rewrite bool_decide_eq_true_2, orb_true_r by done. apply (IH false true true); [done|done|done|simpl in *; lia|simpl in *; lia].
Qed.

(** ** Changes *)

(** What the options have to be like: no decorations, only words of the old file. *)
Record old_words_only : Prop := {
  ow_undecorated : undecorated opt;
  ow_para : o_paraDelim opt = false;
  ow_wdiff : o_wdiffOutput opt = false;
  ow_deleted : o_printDeleted opt = true;
  ow_added : o_printAdded opt = false;
  ow_common : o_printCommon opt = true;
  ow_rules : o_needMarkers opt = false;
  ow_start : start_marker opt DEL = [];
  ow_stop : stop_marker opt DEL = []
}.
Context (Hopt : old_words_only).

Lemma deleted_group_text w p ps : group opt DEL (o_printDeleted opt) w (p :: ps) = w ++ ptok p ++ text ps.
Proof.
  unfold group, marked. rewrite (ow_deleted Hopt), (ow_start Hopt), (ow_stop Hopt), app_nil_r. cbn [app].
  assert (forall t, shown opt t = t) as Hs by (intros t; unfold shown; by rewrite (ow_para Hopt)). rewrite Hs. do 2 f_equal.
  unfold shown_text, text. f_equal. apply list_fmap_ext. intros i q _. unfold piece_text. by rewrite Hs.
Qed.

Lemma no_added_group w ps : group opt ADD (o_printAdded opt) w ps = [].
Proof. unfold group. rewrite (ow_added Hopt). by destruct ps. Qed.

Lemma newline_nonempty w : has_newline w = true -> w <> [].
Proof. by intros H ->. Qed.

Lemma change_spells d b0 b1 dl il : spaced b0 dl -> spaced b1 il ->
  spells b0 (change_text opt d dl il) (tokens dl).
Proof.
  intros H0 H1. unfold change_text. destruct dl as [|p dl]; [destruct il; [apply spells_nil|]; rewrite no_added_group; apply spells_nil|].
  destruct H0 as (P1 & P2 & P3 & P4).
  assert (forall w, white isW isD w -> (b0 = true -> w <> []) -> spells b0 (w ++ ptok p ++ text dl) (tokens (p :: dl))) as Hgo.
  { intros w Hw Hb. exists (Piece w (ptok p) :: dl). split; [|by repeat split].
    change (text (Piece w (ptok p) :: dl)) with ((w ++ ptok p) ++ text dl). by rewrite <- app_assoc. }
  destruct il as [|q il]; [rewrite deleted_group_text; by apply Hgo|]. rewrite !no_added_group, !deleted_group_text, (ow_wdiff Hopt), (ow_common Hopt).
  destruct H1 as (Q1 & _). cbn [orb app]. destruct (has_newline (pws p)) eqn:E0; cbn [negb]; [|rewrite app_nil_r; by apply Hgo].
  destruct (has_newline (pws q)) eqn:E1; [|by apply Hgo]. rewrite app_nil_r. apply Hgo; [by destruct d|]. intros _. by destruct d; apply newline_nonempty.
Qed.

(** ** Scripts *)

Context (same : piece -> piece -> Prop).

Lemma spaced_split m b ps : spaced b ps -> spaced b (take m ps) /\ spaced (b || any (take m ps)) (drop m ps).
Proof. intros H. rewrite <- (take_drop m ps) in H. by apply spaced_app in H. Qed.

Lemma any_take m (ps : list piece) : (m <= length ps)%nat -> any (take m ps) = negb (bool_decide (m = 0%nat)).
Proof. intros H. destruct m as [|m]; [done|]. by destruct ps; [simpl in H; lia|]. Qed.

Lemma nonempty_take m (ps : list piece) : (m <= length ps)%nat -> bool_decide (tokens (take m ps) <> []) = negb (bool_decide (m = 0%nat)).
Proof. intros H. destruct m as [|m]; [done|]. by destruct ps; [simpl in H; lia|]. Qed.

(** The words of the text are those of the old pieces, or what is the same. *)
Lemma render_spells d b0 b1 n0 n1 po pn wo wn script : fits same n0 n1 po pn script -> spaced b0 po -> spaced b1 pn -> ready d b0 b1 ->
  white isW isD wo -> white isW isD wn ->
  exists t w qs, render opt d n1 po pn wo wn script = t ++ w /\ white isW isD w /\ spells b0 t (tokens qs) /\
    Forall2 (fun p q => p = q \/ same p q) po qs.
Proof.
  intros Hf H0 H1 Hr Hwo Hwn. revert d b0 b1 n0 n1 po pn Hf H0 H1 Hr.
  induction script as [|ch script IH]; intros d b0 b1 n0 n1 po pn; cbn [fits render].
  - intros Hf H0 H1 Hr. pose proof (Forall2_length _ _ _ Hf) as Hl. rewrite (ow_common Hopt). eexists _, _, pn. split; [reflexivity|].
    split; [by destruct (_ && _)|]. split; [|eapply Forall2_impl; [exact Hf|auto]].
    pose proof (common_spells d b0 b1 (length pn) po pn H0 H1 Hr ltac:(lia) ltac:(lia)) as H. by rewrite take_ge in H by lia.
  - intros (m & E0 & E1 & Hm0 & Hm1 & Hs & Hd0 & Hi0 & Hpos & Hd & Hi & Hf) H0 H1 Hr.
    replace (Z.to_nat (line1 ch - n1)) with m by lia. rewrite (ow_common Hopt), (ow_rules Hopt). cbn [app].
    pose proof (common_spells d b0 b1 m po pn H0 H1 Hr Hm0 Hm1) as Hc.
    apply (spaced_split m) in H0 as [_ H0], H1 as [_ H1]. rewrite any_take in H0, H1 by done.
    set (i := negb (bool_decide (m = 0%nat))) in *.
    assert (d && bool_decide (m = 0%nat) = d && negb i) as -> by (unfold i; by rewrite negb_involutive).
    apply (spaced_split (Z.to_nat (deleted ch))) in H0 as [D1 D2]. apply (spaced_split (Z.to_nat (inserted ch))) in H1 as [I1 I2].
    pose proof (change_spells (d && negb i) _ _ _ _ D1 I1) as Hg. rewrite any_take in D2, I2 by done.
    destruct (IH (after_change opt (d && negb i) ch) _ _ _ _ _ _ Hf D2 I2) as (t & w & qs & -> & Hw & Ht & Hq).
    { unfold ready in *. intros Hb0 Hb1. apply orb_false_iff in Hb1 as [[Hb1 Hi']%orb_false_iff Hins]. rewrite Hi' in *.
      unfold after_change, command_of. rewrite (ow_deleted Hopt), (ow_wdiff Hopt). rewrite orb_false_r, andb_true_r in *. apply negb_false_iff, bool_decide_eq_true in Hins.
      rewrite (proj2 (Z.eqb_eq (inserted ch) 0)) by lia. by rewrite bool_decide_eq_true_2, orb_true_r. }
    set (t1 := common_text d m po pn) in *. set (t2 := change_text opt _ _ _) in *.
    exists (t1 ++ t2 ++ t), w, (take m pn ++ take (Z.to_nat (deleted ch)) (drop m po) ++ qs).
    split; [by rewrite <- !app_assoc|]. split; [done|]. split.
    + rewrite !fmap_app. apply spells_app; [done|]. rewrite nonempty_take by done. fold i. apply spells_app; [done|]. by rewrite nonempty_take by done.
    + rewrite <- (take_drop m po) at 1. apply Forall2_app; [eapply Forall2_impl; [exact Hs|auto]|].
      rewrite <- (take_drop (Z.to_nat (deleted ch)) (drop m po)) at 1. apply Forall2_app; [|done]. apply Forall_Forall2_diag, Forall_true. auto.
Qed.
End OneSided.
