(* ===== verification/Decorated.v ===== *)
(** * Decorations

    What the decorations of the output do to what is drawn (Marks): with
    --context only lines near a change are printed; with -p and -l characters
    are overstruck and nothing else changes; with --color every character has
    the colour of its kind of text; with --repeat-markers changed text is
    between markers on every line; with --line-numbers every line starts with
    its numbers. *)

From S2P Require Import Prelude EditScript HashTable FileIO Streams Unicode UnicodeProofs ContextBuffer ContextProofs Analyze ScriptProofs Tokenizer Pieces TokenizerProofs DoDiff Reader Marks DoDiffProofs Render Plain.

(** ** Lines near a change *)

Section Lines.
Context (opt : options).

(** Emissions without line numbers and rules are the calls that ContextProofs
    is about. *)
Definition item_of (e : emission) : option item :=
  match e with
  | Chr c common => Some (Ch c common)
  | Txt s => Some (Str s)
  | Numbers _ _ | Direct _ => None
  end.

Fixpoint items_of_emissions (es : list emission) : list item :=
  match es with
  | [] => []
  | e :: es' => match item_of e with Some i => i :: items_of_emissions es' | None => items_of_emissions es' end
  end.

(** The complete lines, and what follows them. *)
Fixpoint split_lines (cur : list item) (its : list item) : list line * list item :=
  match its with
  | [] => ([], cur)
  | i :: its' =>
      match i with
      | Ch c common =>
          if c =? newline then let '(ls, rest) := split_lines [] its' in (Line cur common :: ls, rest)
          else split_lines (cur ++ [i]) its'
      | Str _ => split_lines (cur ++ [i]) its'
      end
  end.

Lemma split_lines_ok cur its : forallb not_newline cur = true ->
  let '(ls, rest) := split_lines cur its in
  cur ++ its = concat (line_items <$> ls) ++ rest /\ forallb line_ok ls = true /\ forallb not_newline rest = true.
Proof.
  revert cur. induction its as [|i its IH]; intros cur Hc; cbn [split_lines]; [by rewrite app_nil_r|].
  assert (not_newline i = true -> let '(ls, rest) := split_lines (cur ++ [i]) its in
    cur ++ i :: its = concat (line_items <$> ls) ++ rest /\ forallb line_ok ls = true /\ forallb not_newline rest = true) as Hgo.
  { intros Hi. specialize (IH (cur ++ [i])). destruct (split_lines (cur ++ [i]) its) as [ls rest]. rewrite <- app_assoc in IH. apply IH.
    rewrite forallb_app, Hc. simpl. by rewrite Hi. }
  destruct i as [c common|s]; [|by apply Hgo]. destruct (Z.eqb_spec c newline) as [->|Hn].
  - specialize (IH [] eq_refl). destruct (split_lines [] its) as [ls rest]. destruct IH as (E & H1 & H2). simpl in E.
    split; [|split; [simpl; by rewrite H1, andb_true_r|done]]. rewrite fmap_cons. cbn [concat]. unfold line_items at 1. cbn [body nl_common].
    rewrite E, <- !app_assoc. done.
  - apply Hgo. simpl. by rewrite (proj2 (Z.eqb_neq c newline)).
Qed.

Lemma performs_items es o : o_context opt = true -> Forall (fun e => item_of e <> None) es ->
  performs opt es o = do_items (o_contextLines opt) o (items_of_emissions es).
Proof.
  intros Hc Hes. revert o. induction Hes as [|e es He _ IH]; intros o; [done|]. cbn [performs items_of_emissions].
  destruct e; simpl in He; try done; cbn [item_of do_items do_item perform]; rewrite Hc.
  - destruct (addchar _ _ _ _ _) as [o1|]; [exact (IH o1)|done].
  - destruct (writeString _ _ _) as [o1|]; [exact (IH o1)|done].
Qed.

(** The lines of a text whose last line may not be complete. *)
Definition all_lines (its : list item) : list line :=
  let '(ls, rest) := split_lines [] its in ls ++ (match rest with [] => [] | _ => [Line rest true] end).

(** Drawn on an empty ring, the output has the lines near changes; of the last
    line the newline may be missing. *)
Lemma performs_in_context es o' : o_context opt = true -> 0 <= o_contextLines opt -> Forall (fun e => item_of e <> None) es ->
  performs opt es (initContextBuffers (o_contextLines opt)) = Some o' ->
  exists nl, (nl = [] \/ nl = [10]) /\ in_context (o_contextLines opt) 0 false false (all_lines (items_of_emissions es)) = output o' ++ nl.
Proof.
  intros Hc HC Hes. rewrite performs_items by done. unfold all_lines.
  pose proof (split_lines_ok [] (items_of_emissions es) eq_refl) as H. destruct (split_lines [] _) as [ls rest]. destruct H as (E & Hls & Hrest).
  simpl in E. rewrite E. clear E Hes. intros Hdo. set (C := o_contextLines opt) in *.
  assert (forall its o, do_items C (initContextBuffers C) its = Some o -> ring_ok C o /\ output o = (litems C (LHold true false [[]]) its).2) as Hrun.
  { intros its o Ho. destruct (init_ring C HC) as (R & Hv & Hout).
    destruct (do_items_view C HC (initContextBuffers C) its R) as (o2 & H & R2 & _ & Hout2). rewrite H in Ho. injection Ho as <-.
    split; [done|]. by rewrite Hout2, Hv, Hout. }
  destruct rest as [|i rest].
  - rewrite !app_nil_r in *. exists []. split; [by left|]. rewrite app_nil_r.
    destruct (context_lines C ls HC Hls) as (o & Ho & Hout). rewrite Ho in Hdo. injection Hdo as <-. done.
  - destruct (Hrun _ _ Hdo) as [R Hout].
    destruct (context_lines C (ls ++ [Line (i :: rest) true]) HC) as (o2 & Ho2 & Hout2); [by rewrite forallb_app, Hls; cbn [andb forallb]; unfold line_ok; cbn [body]; rewrite Hrest|].
    destruct (Hrun _ _ Ho2) as [_ Hlit]. rewrite Hout2 in Hlit. rewrite fmap_app, concat_app in Hlit. cbn [concat fmap list_fmap] in Hlit.
    rewrite app_nil_r in Hlit. unfold line_items at 2 in Hlit. cbn [body nl_common] in Hlit. rewrite app_assoc, litems_app in Hlit.
    rewrite Hout. destruct (litems C _ (concat _ ++ i :: rest)) as [v out]. cbn [litems litem lchar] in Hlit.
    destruct v; cbn in Hlit; rewrite Hlit; [exists [10]|exists [10]|exists []]; (split; [auto|by rewrite ?app_nil_r]).
Qed.
End Lines.

(** ** What is in effect for a character *)

Section Track.
Context {A : Type} (step : list Z -> A -> A).

(** What is written with what is in effect there, where strings change that:
    a colour, or an open marker. *)
Fixpoint track (cur : A) (es : list emission) : list (emission * A) * A :=
  match es with
  | [] => ([], cur)
  | Txt s :: es' => track (step s cur) es'
  | e :: es' => let '(l, c) := track cur es' in ((e, cur) :: l, c)
  end.

Lemma track_app cur es1 es2 : track cur (es1 ++ es2) =
  ((track cur es1).1 ++ (track (track cur es1).2 es2).1, (track (track cur es1).2 es2).2).
Proof.
  revert cur. induction es1 as [|e es1 IH]; intros cur; cbn [app]; [simpl; by destruct (track cur es2)|].
  destruct e; cbn [track]; rewrite ?IH; try (by destruct (track cur es1)).
Qed.

Lemma track_chars {Char : Type} {RR : Reader Char} {RC : ReaderChars Char} cur (c : Char) common :
  track cur (char_emissions c common) = ((fun e => (e, cur)) <$> char_emissions c common, cur).
Proof. unfold char_emissions. induction (char_text c) as [|b l IH]; [done|]. rewrite fmap_cons. cbn [track]. rewrite IH. done. Qed.
End Track.

(** ** Colours *)

Section Colours.
Context (opt : options).
Context {Char : Type} {RR : Reader Char} {RC : ReaderChars Char}.
Abbreviation marks := (list (mark Char)).
Abbreviation piece := (@piece Char).

(** The strings that set a colour. *)
Definition sets_colour (s : list Z) : bool := bool_decide (s = resetColor \/ s = o_delColor opt \/ s = o_addColor opt).

Definition colour_step (s cur : list Z) : list Z := if sets_colour s then s else cur.
(** What is written with the colour it has. *)
Abbreviation paint := (track colour_step).

Definition text_colour (mode : Mode) : list Z := if o_needStartStop opt && is_marked mode then color_of opt mode else resetColor.

(** The colour that the characters of a mark should have. *)
Definition mark_colour (m : mark Char) : list Z :=
  match m with
  | White mode _ | Word mode _ | Para mode _ => text_colour mode
  | _ => resetColor
  end.
(** Line numbers are not coloured. *)
Definition right_colour (m : mark Char) (x : emission * list Z) : Prop :=
  match x.1 with Numbers _ _ => x.2 = resetColor | _ => x.2 = mark_colour m end.

(** All marks are drawn in their colours, and at the end the colour is reset. *)
Fixpoint colours_right (ms : marks) (s : dstate) (cur : list Z) : Prop :=
  match ms with
  | [] => cur = resetColor
  | m :: ms' => Forall (right_colour m) (paint cur (emit opt m s).1).1 /\ colours_right ms' (emit opt m s).2 (paint cur (emit opt m s).1).2
  end.

(** *** Marks of changes are between a beginning and an end *)

Definition inside (o : option Mode) (mode : Mode) : Prop :=
  match o with None => is_marked mode = false | Some mode' => mode = mode' end.

Definition bracket (m : mark Char) (o o' : option Mode) : Prop :=
  match m with
  | Begin mode => o = None /\ is_marked mode = true /\ o' = Some mode
  | End_ mode => o = Some mode /\ o' = None
  | White mode _ | Word mode _ | Para mode _ => inside o mode /\ o' = o
  | Common _ | Rule _ => o = None /\ o' = None
  | Count _ => o' = o
  end.

Fixpoint bracketed (ms : marks) (o o' : option Mode) : Prop :=
  match ms with
  | [] => o = o'
  | m :: ms' => exists o1, bracket m o o1 /\ bracketed ms' o1 o'
  end.

Lemma bracketed_app ms1 ms2 o o1 o' : bracketed ms1 o o1 -> bracketed ms2 o1 o' -> bracketed (ms1 ++ ms2) o o'.
Proof.
  revert o. induction ms1 as [|m ms1 IH]; intros o; cbn [app bracketed]; [by intros ->|].
  intros (o2 & Hm & H1) H2. exists o2. split; [done|by apply IH].
Qed.

Lemma bracketed_one m o o' : bracket m o o' -> bracketed [m] o o'.
Proof. intros H. by exists o'. Qed.

Lemma bracketed_flat {A} (f : A -> marks) l o : (forall a, bracketed (f a) o o) -> bracketed (flat_map f l) o o.
Proof. intros Hf. induction l as [|a l IH]; [done|]. cbn [flat_map]. by eapply bracketed_app. Qed.

Lemma bracketed_if b ms o : (b = true -> bracketed ms o o) -> bracketed (if_print b ms) o o.
Proof. destruct b; intros H; [by apply H|done]. Qed.

Lemma bracketed_white print mode cs o : (print = true -> inside o mode) -> bracketed (white_marks print mode cs) o o.
Proof.
  intros Hm. apply bracketed_flat. intros c. eapply bracketed_app.
  - apply bracketed_if. intros Hp. apply bracketed_one. by split; [apply Hm|].
  - apply bracketed_if. intros _. by apply bracketed_one.
Qed.

Lemma bracketed_token print mode cs o : (print = true -> inside o mode) -> bracketed (token_marks opt print mode cs) o o.
Proof.
  intros Hm. destruct cs as [|c cs]; unfold token_marks.
  - apply bracketed_if. intros [[_ Hp]%andb_true_iff _]%andb_true_iff. induction (string_chars _) as [|c l IH]; [done|].
    exists o. split; [|exact IH]. by split; [apply Hm|].
  - apply bracketed_flat. intros x. eapply bracketed_app.
    + apply bracketed_if. intros Hp. apply bracketed_one. by split; [apply Hm|].
    + apply bracketed_if. intros _. destruct mode; [by exists o|by exists o|exists o; split; [done|by exists o]|done].
Qed.

Lemma bracketed_changed mode print w t ps : mode = ADD \/ mode = DEL -> bracketed (changed_marks opt mode print w t ps) None None.
Proof.
  intros Hm. unfold changed_marks. eapply bracketed_app; [apply bracketed_white; by destruct Hm as [-> | ->]|].
  destruct print; cbn [if_print].
  - exists (Some mode). split; [by destruct Hm as [-> | ->]|]. cbn [app]. apply (bracketed_app _ _ _ (Some mode)); [by apply (bracketed_token true)|].
    apply (bracketed_app _ _ _ (Some mode)); [|by exists None]. apply bracketed_flat. intros p.
    apply (bracketed_app _ _ _ (Some mode)); [by apply (bracketed_white true)|by apply (bracketed_token true)].
  - cbn [app]. apply (bracketed_app _ _ _ None); [by apply (bracketed_token false)|]. rewrite app_nil_r. apply bracketed_flat. intros p.
    apply (bracketed_app _ _ _ None); [by apply (bracketed_white false)|by apply (bracketed_token false)].
Qed.

Lemma bracketed_group mode print w ps : mode = ADD \/ mode = DEL -> bracketed (group_marks opt mode print w ps) None None.
Proof. intros Hm. destruct ps; [done|]. by apply bracketed_changed. Qed.

Lemma bracketed_sync printNew a b : bracketed (sync_marks opt printNew a b) None None.
Proof.
  revert b. induction a as [|c a IH]; intros b; cbn [sync_marks].
  - apply bracketed_flat. intros c. apply bracketed_if. intros _. by apply bracketed_one.
  - eapply bracketed_app; [apply bracketed_if; intros _; by apply bracketed_one|]. destruct (charDataEquals c 10); [|apply IH].
    exists None. split; [done|]. destruct (after_newline b); [exists None; split; [done|apply IH]|apply IH].
Qed.

Lemma bracketed_common_ws d wo wn : bracketed (common_ws_marks opt d wo wn) None None.
Proof. unfold common_ws_marks. destruct d; apply bracketed_sync. Qed.

Lemma bracketed_both rev w0 w1 dl il : bracketed (both_marks opt rev w0 w1 dl il) None None.
Proof. unfold both_marks. destruct rev; (eapply bracketed_app; apply bracketed_group; auto). Qed.

Lemma bracketed_change d dl il : bracketed (change_marks opt d dl il) None None.
Proof.
  unfold change_marks, change_plan. destruct dl, il; [done|apply bracketed_group; auto..|].
  repeat case_match; simplify_eq; try apply bracketed_both. eapply bracketed_app; [apply bracketed_common_ws|apply bracketed_both].
Qed.

Lemma bracketed_common d m po pn : bracketed (common_marks opt d m po pn) None None.
Proof.
  revert d po pn. induction m as [|m IH]; intros d [|p po] [|q pn]; try done. cbn [common_marks].
  eapply bracketed_app; [apply bracketed_common_ws|]. eapply bracketed_app; [by apply bracketed_token|apply IH].
Qed.

Lemma bracketed_rule after : bracketed (rule_marks opt after) None None.
Proof. apply bracketed_if. intros _. by apply bracketed_one. Qed.

Lemma bracketed_render d n1 po pn wo wn script : bracketed (render_marks opt d n1 po pn wo wn script) None None.
Proof.
  revert d n1 po pn. induction script as [|ch script IH]; intros d n1 po pn; cbn [render_marks].
  - apply bracketed_if. intros _. eapply bracketed_app; [apply bracketed_common|apply bracketed_common_ws].
  - eapply bracketed_app; [|apply IH]. eapply bracketed_app; [apply bracketed_common|].
    eapply bracketed_app; [apply bracketed_change|apply bracketed_rule].
Qed.

(** *** Their colours *)

Context (Hcolour : o_colorMode opt = true).

(** The markers are not taken for colours. *)
Record markers_plain : Prop := {
  mp_start mode : sets_colour (start_of opt mode) = false;
  mp_stop mode : sets_colour (stop_of opt mode) = false;
  mp_erase : sets_colour eraseLine = false
}.
Context (Hmarkers : markers_plain).

Definition inside_colour (o : option Mode) : list Z := match o with None => resetColor | Some mode => text_colour mode end.

Lemma sets_reset : sets_colour resetColor = true.
Proof. apply bool_decide_eq_true_2. auto. Qed.
Lemma sets_color_of mode : sets_colour (color_of opt mode) = true.
Proof. apply bool_decide_eq_true_2. unfold color_of. case_match; auto. Qed.

Ltac painted := repeat first [rewrite Hcolour | rewrite sets_reset | rewrite sets_color_of | rewrite (mp_start Hmarkers)
  | rewrite (mp_stop Hmarkers) | rewrite (mp_erase Hmarkers) | progress cbn [track if_print app fst snd andb negb] | progress unfold colour_step].

(** At the beginning of a line. *)
Lemma paint_new_line mode s : exists l, paint (text_colour mode) (on_new_line opt mode s) = (l, text_colour mode) /\
  Forall (fun x => exists a b, x = (Numbers a b, resetColor)) l.
Proof.
  unfold on_new_line, text_colour. destruct (d_feed s); [|by exists []].
  destruct (negb (o_lineNumbers opt =? 0)), (is_marked mode), (o_needStartStop opt), (o_repeatMarkers opt); painted;
    eexists; (split; [reflexivity|]); repeat constructor; by eexists _, _.
Qed.

Lemma paint_line_end c mode s cur : paint cur (at_line_end opt c mode s) = ([], cur).
Proof. unfold at_line_end. destruct (_ && _); [|done]. destruct (o_repeatMarkers opt); by painted. Qed.

Lemma right_numbers m l : Forall (fun x => exists a b, x = (Numbers a b, resetColor)) l -> Forall (right_colour m) l.
Proof. intros H. eapply Forall_impl; [exact H|]. by intros x (a & b & ->). Qed.

Lemma right_chars m cur c common : cur = mark_colour m -> Forall (right_colour m) ((fun e => (e, cur)) <$> char_emissions c common).
Proof. intros ->. apply Forall_fmap. unfold char_emissions. apply Forall_fmap. by apply Forall_true. Qed.

Lemma paint_overstrike mode c cur m : cur = mark_colour m -> exists l, paint cur (overstrike opt c mode) = (l, cur) /\ Forall (right_colour m) l.
Proof.
  intros ->. unfold overstrike. destruct (_ && _); [|by exists []]. cbn [if_print].
  destruct mode; [|by eexists; split; [reflexivity|repeat constructor]|by exists []..].
  rewrite track_app, track_chars. cbn. eexists. split; [reflexivity|]. apply Forall_app. split; [by apply right_chars|repeat constructor].
Qed.

(** What is written for a character, in its colour. *)
Lemma paint_text m mode s es c common : mark_colour m = text_colour mode ->
  (exists l, paint (text_colour mode) es = (l, text_colour mode) /\ Forall (right_colour m) l) ->
  Forall (right_colour m) (paint (text_colour mode) (on_new_line opt mode s ++ es ++ char_emissions c common)).1 /\
  (paint (text_colour mode) (on_new_line opt mode s ++ es ++ char_emissions c common)).2 = text_colour mode.
Proof.
  intros Hm (l & El & Hl). destruct (paint_new_line mode s) as (l0 & E0 & H0).
  rewrite !track_app, E0. cbn [fst snd]. rewrite El. cbn [fst snd]. rewrite track_chars. cbn [fst snd]. split; [|done].
  apply Forall_app. split; [by apply right_numbers|]. apply Forall_app. split; [done|]. by apply right_chars.
Qed.

Lemma inside_text o mode : inside o mode -> inside_colour o = text_colour mode.
Proof. destruct o as [m|]; simpl; [by intros ->|]. unfold text_colour. intros ->. by rewrite andb_false_r. Qed.

Lemma emit_colours m s o o' : bracket m o o' ->
  Forall (right_colour m) (paint (inside_colour o) (emit opt m s).1).1 /\ (paint (inside_colour o) (emit opt m s).1).2 = inside_colour o'.
Proof.
  destruct m as [mode c|mode c|c|mode c|mode|mode|after|new]; cbn [bracket emit fst].
  - intros [Hi ->]. rewrite (inside_text o mode Hi). apply (paint_text (White mode c)); [done|]. destruct (_ && _ && _).
    + eexists. split; [reflexivity|]. repeat constructor.
    + rewrite paint_line_end. by exists [].
  - intros [Hi ->]. rewrite (inside_text o mode Hi), (app_assoc (at_line_end _ _ _ _)). apply (paint_text (Word mode c)); [done|].
    rewrite track_app, paint_line_end. cbn [fst snd app]. destruct (paint_overstrike mode c (text_colour mode) (Word mode c) eq_refl) as (l & -> & Hl). by exists l.
  - intros [-> ->]. cbn [inside_colour].
    assert (text_colour COMMON = resetColor) as E by (unfold text_colour; by rewrite andb_false_r). rewrite <- E.
    apply (paint_text (Common c) COMMON s [] c true); [by rewrite E|by exists []].
  - intros [Hi ->]. rewrite (inside_text o mode Hi). apply (paint_text (Para mode c) mode s []); [done|by exists []].
  - intros (-> & Hm & ->). cbn [inside_colour]. assert (text_colour COMMON = resetColor) as E by (unfold text_colour; by rewrite andb_false_r).
    destruct (paint_new_line COMMON s) as (l & El & Hl). rewrite E in El. rewrite track_app, El. cbn [fst snd].
    unfold text_colour. rewrite Hm. destruct (o_needStartStop opt); painted; rewrite app_nil_r; (split; [by apply right_numbers|done]).
  - intros [-> ->]. cbn [inside_colour]. destruct (paint_new_line mode s) as (l & El & Hl). rewrite track_app, El. cbn [fst snd].
    unfold text_colour. destruct (o_needStartStop opt); painted; rewrite app_nil_r; (split; [by apply right_numbers|done]).
  - intros [-> ->]. cbn. split; [|done]. by repeat constructor.
  - intros ->. by split.
Qed.

Lemma bracketed_colours ms o s : bracketed ms o None -> colours_right ms s (inside_colour o).
Proof.
  revert o s. induction ms as [|m ms IH]; intros o s; cbn [bracketed colours_right]; [by intros ->|].
  intros (o1 & Hm & Hms). destruct (emit_colours m s o o1 Hm) as [H1 ->]. split; [done|by apply IH].
Qed.
End Colours.

(** ** The marks of a script *)

Section Drawn.
Context (opt : options).
Context {Char : Type} {RR : Reader Char} {RC : ReaderChars Char} {RS : ReaderSpec Char}.
Abbreviation marks := (list (mark Char)).
Abbreviation piece := (@piece Char).

(** The marker of a paragraph is not longer than a line. *)
Definition one_line : Prop := o_paraDelim opt = true -> has_newlines (string_chars (o_paraDelimMarker opt)) = false.

(** The characters of a mark, and the rules that are drawn for a script. *)
Definition mark_ok (m : mark Char) : Prop :=
  match m with
  | White _ c | Word _ c | Common c => char_ok c
  | Para _ c => char_ok c /\ (one_line -> charDataEquals c 10 = false)
  | Rule after => after = true /\ o_needMarkers opt = true
  | _ => True
  end.

(** All marks of a script are of the characters of the pieces. *)
Lemma marks_flat {A} (P : A -> Prop) (f : A -> marks) l : Forall P l -> (forall a, P a -> Forall mark_ok (f a)) -> Forall mark_ok (flat_map f l).
Proof. intros Hl Hf. induction Hl as [|a l Ha _ IH]; [constructor|]. cbn [flat_map]. apply Forall_app. split; [by apply Hf|done]. Qed.

Lemma marks_if b (ms : marks) : (b = true -> Forall mark_ok ms) -> Forall mark_ok (if_print b ms).
Proof. destruct b; intros H; [by apply H|constructor]. Qed.

Lemma marks_count b (g : Char -> bool) (l : list Char) : Forall mark_ok (flat_map (fun c => if_print (g c) [Count b]) l : marks).
Proof. apply (marks_flat (fun _ => True)); [by apply Forall_true|]. intros c _. apply marks_if. intros _. by constructor. Qed.

Lemma white_marks_ok print mode cs : Forall char_ok cs -> Forall mark_ok (white_marks print mode cs).
Proof.
  intros Hcs. apply (marks_flat char_ok); [done|]. intros c Hc. apply Forall_app. split; apply marks_if; intros _; by constructor.
Qed.

Lemma readable_ok w : readable w -> Forall char_ok (string_chars w).
Proof.
  intros Hw. destruct (readable_chars w Hw) as [_ Hr]. revert Hr. generalize (newStringStream w). induction (string_chars w) as [|c cs IH]; [constructor|].
  intros s (Hc & _ & s1 & _ & Hr). constructor; [done|by eapply IH].
Qed.

Context (marker : marker_ok opt).

Lemma token_marks_ok print mode cs : Forall char_ok cs -> Forall mark_ok (token_marks opt print mode cs).
Proof.
  intros Hcs. destruct cs as [|c cs]; unfold token_marks.
  - apply marks_if. intros [[Hp _]%andb_true_iff _]%andb_true_iff. apply Forall_fmap.
    pose proof (readable_ok _ (marker Hp)) as H1. assert (one_line -> has_newlines (string_chars (o_paraDelimMarker opt)) = false) as Hn by auto.
    revert Hn. induction H1 as [|c l Hc _ IH]; intros Hn; [constructor|]. constructor; [split; [done|]|apply IH]; intros H; specialize (Hn H);
      cbn [has_newlines existsb] in Hn; by apply orb_false_iff in Hn as [? ?].
  - apply (marks_flat char_ok); [done|]. intros x Hx. apply Forall_app. split; apply marks_if; intros _; [by constructor|].
    destruct mode; repeat constructor.
Qed.

Lemma changed_marks_ok mode print w t ps : Forall char_ok w -> Forall char_ok t -> Forall piece_ok ps -> Forall mark_ok (changed_marks opt mode print w t ps).
Proof.
  intros Hw Ht Hps. unfold changed_marks. rewrite !Forall_app. split; [by apply white_marks_ok|]. split; [apply marks_if; intros _; by constructor|].
  split; [by apply token_marks_ok|]. split; [|apply marks_if; intros _; by constructor].
  apply (marks_flat piece_ok); [done|]. intros p [H1 H2]. apply Forall_app. split; [by apply white_marks_ok|by apply token_marks_ok].
Qed.

Lemma group_marks_ok mode print w ps : Forall char_ok w -> Forall piece_ok ps -> Forall mark_ok (group_marks opt mode print w ps).
Proof. intros Hw Hps. destruct Hps as [|p ps [_ Hp] Hps]; [constructor|]. by apply changed_marks_ok. Qed.

Lemma sync_marks_ok printNew a b : Forall char_ok a -> Forall mark_ok (sync_marks opt printNew a b).
Proof.
  intros Ha. revert b. induction Ha as [|c a Hc _ IH]; intros b; cbn [sync_marks]; [apply marks_count|].
  apply Forall_app. split; [apply marks_if; intros _; by constructor|]. destruct (charDataEquals c 10); [|apply IH].
  constructor; [done|]. destruct (after_newline b); [constructor; [done|apply IH]|apply IH].
Qed.

Lemma common_ws_marks_ok d wo wn : Forall char_ok wo -> Forall char_ok wn -> Forall mark_ok (common_ws_marks opt d wo wn).
Proof. intros Ho Hn. unfold common_ws_marks. destruct d; by apply sync_marks_ok. Qed.

Lemma both_marks_ok rev w0 w1 dl il : Forall char_ok w0 -> Forall char_ok w1 -> Forall piece_ok dl -> Forall piece_ok il ->
  Forall mark_ok (both_marks opt rev w0 w1 dl il).
Proof. intros H0 H1 Hd Hi. unfold both_marks. destruct rev; apply Forall_app; (split; by apply group_marks_ok). Qed.

Lemma change_marks_ok d dl il : white_ok opt dl il -> Forall piece_ok dl -> Forall piece_ok il -> Forall mark_ok (change_marks opt d dl il).
Proof.
  intros Hw Hd Hi. pose proof Hd as Hd'. pose proof Hi as Hi'. unfold change_marks.
  destruct Hd as [|p dl [Hp _] Hd], Hi as [|q il [Hq _] Hi]; [constructor|by apply group_marks_ok..|].
  unfold change_plan. destruct (o_wdiffOutput opt) eqn:E; [by apply both_marks_ok|].
  destruct (Hw E) as [[Hwp _]%Forall_cons [Hwq _]%Forall_cons]. apply plain_readable, readable_ok in Hwp, Hwq.
  destruct (has_newlines (pws p)); cbn [negb]; [destruct (has_newlines (pws q))|]; apply Forall_app; (split; [|apply both_marks_ok]); try done.
  - by apply common_ws_marks_ok.
  - apply readable_ok, plain_readable, plain_nothing.
  - apply readable_ok, plain_readable, plain_space.
Qed.

Lemma common_marks_ok d m po pn : Forall piece_ok po -> Forall piece_ok pn -> Forall mark_ok (common_marks opt d m po pn).
Proof.
  revert d po pn. induction m as [|m IH]; intros d po pn Ho Hn; [constructor|].
  destruct Ho as [|p po [Hp _] Ho], Hn as [|q pn [Hq Ht] Hn]; try constructor. cbn [common_marks]. rewrite !Forall_app.
  split; [by apply common_ws_marks_ok|]. split; [by apply token_marks_ok|by apply IH].
Qed.

Lemma rule_marks_ok : Forall mark_ok (rule_marks opt true : marks).
Proof. apply marks_if. intros H. by constructor. Qed.

Lemma render_marks_ok d n1 po pn wo wn script : white_ok opt po pn -> Forall piece_ok po -> Forall piece_ok pn ->
  Forall char_ok wo -> Forall char_ok wn -> Forall mark_ok (render_marks opt d n1 po pn wo wn script).
Proof.
  intros Hw Ho Hn Hwo Hwn. revert d n1 po pn Hw Ho Hn. induction script as [|ch script IH]; intros d n1 po pn Hw Ho Hn; cbn [render_marks].
  - apply marks_if. intros _. apply Forall_app. split; [by apply common_marks_ok|by apply common_ws_marks_ok].
  - rewrite !Forall_app. split; [split; [by apply common_marks_ok|split; [|apply rule_marks_ok]]|].
    + apply change_marks_ok; auto using Forall_take, Forall_drop, white_ok_take, white_ok_drop.
    + apply IH; auto using Forall_drop, white_ok_drop.
Qed.


(** Without line numbers and rules only characters and strings are written. *)
Lemma emits_items ms s : o_lineNumbers opt = 0 -> o_needMarkers opt = false -> Forall mark_ok ms ->
  Forall (fun e => item_of e <> None) (emits opt ms s).1.
Proof.
  intros HL HR Hms. revert s. induction Hms as [|m ms Hm _ IH]; intros s; [constructor|]. rewrite emits_cons. cbn [fst].
  apply Forall_app. split; [|apply IH]. clear IH.
  assert (forall c common, Forall (fun e => item_of e <> None) (char_emissions c common)) as Hc.
  { intros c common. unfold char_emissions. apply Forall_fmap. by apply Forall_true. }
  assert (forall mode, Forall (fun e => item_of e <> None) (on_new_line opt mode s)) as Hn.
  { intros mode. unfold on_new_line. rewrite HL. cbn. destruct (d_feed s), (_ && _), (o_colorMode opt), (o_repeatMarkers opt); by repeat constructor. }
  assert (forall c mode, Forall (fun e => item_of e <> None) (at_line_end opt c mode s)) as He.
  { intros c mode. unfold at_line_end. destruct (_ && _), (o_repeatMarkers opt), (o_colorMode opt); by repeat constructor. }
  destruct m as [mode c|mode c|c|mode c|mode|mode|after|new]; cbn [emit fst mark_ok] in *; rewrite ?Forall_app; repeat split; auto.
  - case_match; [by repeat constructor|auto].
  - unfold overstrike. destruct (_ && _), mode; cbn [if_print]; rewrite ?Forall_app; repeat split; auto; by repeat constructor.
  - destruct (o_needStartStop opt), (o_colorMode opt); by repeat constructor.
  - destruct (o_needStartStop opt), (o_colorMode opt); by repeat constructor.
  - by destruct Hm; congruence.
Qed.

(** Everything goes to [option.output]. *)
Definition one_output : Prop := o_stdout opt = true \/ (o_lineNumbers opt = 0 /\ o_needMarkers opt = false).

Lemma plain_one_output : plain_output opt -> one_output.
Proof. intros [_ [?|?] [? _ _ _ _]]; [by left|by right]. Qed.

Lemma emits_one_stream ms s : one_output -> Forall mark_ok ms -> Forall (one_stream opt) (emits opt (rule_marks opt false ++ ms) s).1.
Proof.
  intros [Hs|[HL HR]] Hms; [by apply Forall_true; left|]. unfold rule_marks. rewrite HR. cbn [if_print app].
  eapply Forall_impl; [by apply emits_items|]. intros e He. right. by destruct e.
Qed.

Lemma drawn_std ms k k' : one_output -> Forall mark_ok ms -> drawn opt (rule_marks opt false ++ ms) k k' ->
  std_output (cout k') = std_output (cout k).
Proof. intros Ho Hms [_ H]. eapply performs_std; [|exact H]. by apply emits_one_stream. Qed.
End Drawn.

(** ** Repeated markers *)

Section Markers.
Context (opt : options).
Context {Char : Type} {RR : Reader Char} {RC : ReaderChars Char} {RS : ReaderSpec Char}.
Abbreviation marks := (list (mark Char)).

(** The markers, and the strings for colours, can be told apart. *)
Record markers_distinct : Prop := {
  md_starts : o_delStart opt <> o_addStart opt;
  md_stops m m' : stop_of opt m <> start_of opt m';
  md_other s : s = resetColor \/ s = eraseLine \/ s = o_delColor opt \/ s = o_addColor opt -> forall m, s <> start_of opt m /\ s <> stop_of opt m
}.
Context (Hdistinct : markers_distinct) (Hneed : o_needStartStop opt = true) (Hrepeat : o_repeatMarkers opt = true) (Hpara : one_line opt).

(** The changed text whose start marker has been written last, if its stop
    marker has not. *)
Definition marker_step (s : list Z) (cur : option Mode) : option Mode :=
  if bool_decide (s = start_of opt DEL) then Some DEL
  else if bool_decide (s = start_of opt ADD) then Some ADD
  else if bool_decide (s = stop_of opt DEL \/ s = stop_of opt ADD) then None
  else cur.
Abbreviation open := (track marker_step).

Definition in_change (mode : Mode) : option Mode := if is_marked mode then Some mode else None.
Definition mark_change (m : mark Char) : option Mode :=
  match m with White mode _ | Word mode _ | Para mode _ => in_change mode | _ => None end.

(** Characters are between the markers of their text, but the end of a line,
    rules and line numbers are not between markers. *)
Definition right_marker (m : mark Char) (x : emission * option Mode) : Prop :=
  match x.1 with Chr b _ => x.2 = if b =? 10 then None else mark_change m | Txt _ => True | _ => x.2 = None end.

Fixpoint markers_right (ms : marks) (s : dstate) (cur : option Mode) : Prop :=
  match ms with
  | [] => cur = None
  | m :: ms' => Forall (right_marker m) (open cur (emit opt m s).1).1 /\ markers_right ms' (emit opt m s).2 (open cur (emit opt m s).1).2
  end.

(** No carriage returns: after one that is not at the end of its line the
    start marker is not written again. *)
Definition no_return (m : mark Char) : Prop :=
  match m with White _ c | Word _ c | Common c | Para _ c => charDataEquals c 13 = false | _ => True end.

Lemma step_start mode cur : is_marked mode = true -> marker_step (start_of opt mode) cur = Some mode.
Proof.
  intros Hm. unfold marker_step. destruct mode; try done; cbn.
  - rewrite (bool_decide_eq_false_2 (start_of opt ADD = start_of opt DEL)); [by rewrite bool_decide_eq_true_2|].
    intros E. by apply (md_starts Hdistinct).
  - by rewrite bool_decide_eq_true_2.
Qed.

Lemma step_stop mode cur : marker_step (stop_of opt mode) cur = None.
Proof.
  unfold marker_step. rewrite !(bool_decide_eq_false_2 (stop_of opt mode = start_of opt _)) by apply (md_stops Hdistinct).
  rewrite bool_decide_eq_true_2; [done|]. destruct mode; auto.
Qed.

Lemma step_other s cur : s = resetColor \/ s = eraseLine \/ s = o_delColor opt \/ s = o_addColor opt -> marker_step s cur = cur.
Proof.
  intros Hs. pose proof (md_other Hdistinct s Hs) as H. unfold marker_step.
  rewrite !(bool_decide_eq_false_2 (s = start_of opt _)) by apply H. rewrite bool_decide_eq_false_2; [done|]. intros [?|?]; by eapply H.
Qed.

Lemma step_colour mode cur : marker_step (color_of opt mode) cur = cur.
Proof. apply step_other. unfold color_of. case_match; auto. Qed.

Ltac opened := repeat first [rewrite Hneed | rewrite Hrepeat | rewrite step_start by done | rewrite step_stop | rewrite step_colour
  | rewrite (step_other resetColor) by auto | rewrite (step_other eraseLine) by auto
  | progress cbn [track if_print app fst snd andb negb]].

(** Between two marks: inside a change the marker is open, except after the
    end of a line. *)
Definition now (o : option Mode) (s : dstate) : option Mode :=
  match o with Some mode => if d_feed s then None else Some mode | None => None end.

Definition is_numbers (x : emission * option Mode) : Prop := exists a b, x = (Numbers a b, None).

Lemma right_numbers_marker m l : Forall is_numbers l -> Forall (right_marker m) l.
Proof. intros H. eapply Forall_impl; [exact H|]. by intros x (a & b & ->). Qed.

(** At the beginning of a line the start marker is written. *)
Lemma open_new_line o mode s : inside o mode -> (is_marked mode = true \/ o = None) ->
  exists l, open (now o s) (on_new_line opt mode s) = (l, in_change mode) /\ Forall is_numbers l.
Proof.
  intros Hi Hm. unfold on_new_line, now, in_change. destruct o as [m|].
  - simpl in Hi. subst m. destruct Hm as [Hm|]; [|done]. rewrite Hm. destruct (d_feed s); [|by exists []].
    destruct (negb (o_lineNumbers opt =? 0)), (o_colorMode opt); opened; eexists; (split; [reflexivity|]); repeat constructor; by eexists _, _.
  - simpl in Hi. rewrite Hi. destruct (d_feed s); [|by exists []].
    destruct (negb (o_lineNumbers opt =? 0)), (o_colorMode opt); opened; eexists; (split; [reflexivity|]); repeat constructor; by eexists _, _.
Qed.

(** Before the end of a line the stop marker is written. *)
Lemma open_line_end c mode s : charDataEquals c 13 = false -> d_return s = false ->
  open (in_change mode) (at_line_end opt c mode s) = ([], if charDataEquals c 10 then None else in_change mode).
Proof.
  intros Hc Hs. unfold at_line_end, in_change. rewrite Hneed, Hc, Hs. cbn [negb orb andb].
  destruct (is_marked mode), (charDataEquals c 10); try done. cbn [andb if_print]. rewrite Hrepeat. destruct (o_colorMode opt); by opened.
Qed.

Lemma right_chars_marker m cur c common : char_ok c -> cur = (if charDataEquals c 10 then None else mark_change m) ->
  Forall (right_marker m) ((fun e => (e, cur)) <$> char_emissions c common).
Proof.
  intros Hc ->. apply Forall_fmap. unfold char_emissions. apply Forall_fmap. destruct (charDataEquals c 10) eqn:E.
  - rewrite (char_feed c Hc E). by repeat constructor.
  - pose proof (char_newline c Hc) as Hn. rewrite E in Hn. revert Hn. induction (char_text c) as [|b l IH]; intros Hn; [constructor|].
    simpl in Hn. pose proof (newlines_nonneg l). unfold newline_count in Hn. destruct (b =? 10) eqn:Eb; [lia|].
    constructor; [|apply IH; lia]. unfold compose, right_marker. cbn [fst snd]. by rewrite Eb.
Qed.

Lemma open_overstrike m c mode : char_ok c -> mark_change m = in_change mode ->
  exists l, open (if charDataEquals c 10 then None else in_change mode) (overstrike opt c mode) =
    (l, if charDataEquals c 10 then None else in_change mode) /\ Forall (right_marker m) l.
Proof.
  intros Hc Hm. unfold overstrike. destruct (_ && visible c) eqn:Ev; [|by exists []]. apply andb_true_iff in Ev as [_ [Hn _]%andb_true_iff].
  apply negb_true_iff in Hn. rewrite Hn. cbn [if_print]. destruct mode; [|by eexists; split; [reflexivity|repeat constructor]|by exists []..].
  rewrite track_app, track_chars. cbn. eexists. split; [reflexivity|]. apply Forall_app. split; [|by repeat constructor].
  apply right_chars_marker; [done|]. by rewrite Hn, Hm.
Qed.

(** A character with what is written before it. *)
Lemma open_text o m mode s es c common : inside o mode -> (is_marked mode = true \/ o = None) -> mark_change m = in_change mode -> char_ok c ->
  (exists l, open (in_change mode) es = (l, if charDataEquals c 10 then None else in_change mode) /\ Forall (right_marker m) l) ->
  Forall (right_marker m) (open (now o s) (on_new_line opt mode s ++ es ++ char_emissions c common)).1 /\
  (open (now o s) (on_new_line opt mode s ++ es ++ char_emissions c common)).2 = now o (after_char c s).
Proof.
  intros Hi Hmk Hm Hc (l & El & Hl). destruct (open_new_line o mode s Hi Hmk) as (l0 & E0 & H0).
  rewrite !track_app, E0. cbn [fst snd]. rewrite El. cbn [fst snd]. rewrite track_chars. cbn [fst snd]. split.
  - apply Forall_app. split; [by apply right_numbers_marker|]. apply Forall_app. split; [done|]. apply right_chars_marker; [done|]. by rewrite Hm.
  - unfold now, in_change. cbn [d_feed after_char]. destruct o as [mode'|]; simpl in Hi.
    + subst mode'. destruct Hmk as [->|]; [|done]. by destruct (charDataEquals c 10).
    + rewrite Hi. by destruct (charDataEquals c 10).
Qed.

(** The text around marks is marked only where it has changed. *)
Definition marked_inside (o : option Mode) : Prop := forall mode, o = Some mode -> is_marked mode = true.

Lemma inside_marked o mode : marked_inside o -> inside o mode -> is_marked mode = true \/ o = None.
Proof. intros Ho Hi. destruct o as [m|]; [left|by right]. simpl in Hi. subst m. by apply Ho. Qed.

Lemma and_four (P Q R S : Prop) : P /\ Q -> R /\ S -> P /\ Q /\ R /\ S.
Proof. tauto. Qed.

Lemma emit_markers m s o o' : bracket m o o' -> marked_inside o -> mark_ok opt m -> no_return m -> d_return s = false ->
  Forall (right_marker m) (open (now o s) (emit opt m s).1).1 /\ (open (now o s) (emit opt m s).1).2 = now o' (emit opt m s).2 /\
  marked_inside o' /\ d_return (emit opt m s).2 = false.
Proof.
  intros Hb Ho Hm Hr Hs. destruct m as [mode c|mode c|c|mode c|mode|mode|after|new]; cbn [bracket emit fst snd mark_ok no_return] in *.
  - destruct Hb as [Hi ->]. apply and_four; [|done].
    apply (open_text o (White mode c)); [done|by apply inside_marked|done|done|]. destruct (_ && _ && _) eqn:E.
    + apply andb_true_iff in E as [[_ [Hn _]%andb_true_iff]%andb_true_iff _]. apply negb_true_iff in Hn. rewrite Hn.
      eexists. split; [reflexivity|]. by repeat constructor.
    + exists []. split; [by apply open_line_end|constructor].
  - destruct Hb as [Hi ->]. apply and_four; [|done]. rewrite (app_assoc (at_line_end _ _ _ _)).
    apply (open_text o (Word mode c)); [done|by apply inside_marked|done|done|].
    rewrite track_app, open_line_end by done. cbn [fst snd app].
    destruct (open_overstrike (Word mode c) c mode Hm eq_refl) as (l & -> & Hl). by exists l.
  - destruct Hb as [-> ->]. apply and_four; [|done].
    apply (open_text None (Common c) COMMON s [] c true); [done|by right|done|done|]. exists []. by destruct (charDataEquals c 10).
  - destruct Hb as [Hi ->], Hm as [Hc Hn]. specialize (Hn Hpara). apply and_four; [|done].
    pose proof (open_text o (Para mode c) mode s [] c (negb (bool_decide (mode = ADD)))) as H.
    destruct H as [H1 H2]; [done|by apply inside_marked|done|done|by exists []; rewrite Hn|]. split; [exact H1|]. cbn [app] in H2. rewrite H2.
    unfold now. cbn [d_feed after_char no_feed]. by rewrite Hn.
  - destruct Hb as (-> & Hmk & ->). destruct (open_new_line None COMMON s eq_refl (or_intror eq_refl)) as (l & E & Hl).
    cbn [now] in *. rewrite track_app, E. cbn [fst snd]. change (in_change COMMON) with (@None Mode).
    split; [|split; [|split; [by intros m' [= <-]|done]]]; destruct (o_colorMode opt); opened; rewrite ?app_nil_r; by try apply right_numbers_marker.
  - destruct Hb as [-> ->]. pose proof (Ho mode eq_refl) as Hmk. destruct (open_new_line (Some mode) mode s eq_refl (or_introl Hmk)) as (l & E & Hl).
    rewrite track_app, E. cbn [fst snd].
    split; [|split; [|split; [done|done]]]; destruct (o_colorMode opt); opened; rewrite ?app_nil_r; by try apply right_numbers_marker.
  - destruct Hb as [-> ->]. cbn. split; [|done]. by repeat constructor.
  - subst o'. cbn. split; [constructor|]. split; [|split; [done|by destruct new]]. by destruct new.
Qed.

Lemma bracketed_markers ms o s : bracketed ms o None -> marked_inside o -> Forall (fun m => mark_ok opt m \/ m = Rule false) ms -> Forall no_return ms ->
  d_return s = false -> markers_right ms s (now o s).
Proof.
  revert o s. induction ms as [|m ms IH]; intros o s; cbn [bracketed markers_right]; [by intros ->|].
  intros (o1 & Hm & Hms) Ho [Hok Hoks]%Forall_cons [Hr Hrs]%Forall_cons Hs.
  destruct Hok as [Hok| ->].
  - destruct (emit_markers m s o o1 Hm Ho Hok Hr Hs) as (H1 & -> & H2 & H3). split; [done|by apply IH].
  - destruct Hm as [-> ->]. cbn. split; [by repeat constructor|]. by apply (IH None).
Qed.
End Markers.

(** ** Line numbers *)

Section Numbered.
Context (opt : options).
Context {Char : Type} {RR : Reader Char} {RC : ReaderChars Char} {RS : ReaderSpec Char}.
Abbreviation marks := (list (mark Char)).

(** [need]: the next character has to follow line numbers. *)
Fixpoint numbered (need : bool) (es : list emission) (need' : bool) : Prop :=
  match es with
  | [] => need = need'
  | Chr c _ :: es' => need = false /\ numbered (c =? 10) es' need'
  | Numbers _ _ :: es' => need = true /\ numbered false es' need'
  | Txt _ :: es' => numbered need es' need'
  | Direct _ :: es' => numbered true es' need'
  end.

Context (Hnumbers : o_lineNumbers opt <> 0) (Hpara : one_line opt).

Lemma numbered_app b1 b2 b3 es1 es2 : numbered b1 es1 b2 -> numbered b2 es2 b3 -> numbered b1 (es1 ++ es2) b3.
Proof.
  revert b1. induction es1 as [|e es1 IH]; intros b1; cbn [app numbered]; [by intros ->|].
  destruct e; [intros [-> H1] H2; split; [done|by eapply IH]|intros H1 H2; by eapply IH|intros [-> H1] H2; split; [done|by eapply IH]|intros H1 H2; by eapply IH].
Qed.

Lemma numbered_new_line mode s : numbered (d_feed s) (on_new_line opt mode s) false.
Proof.
  unfold on_new_line. destruct (d_feed s); [|done]. rewrite (proj2 (Z.eqb_neq _ _) Hnumbers). cbn [negb if_print].
  destruct (o_colorMode opt), (is_marked mode), (o_needStartStop opt), (o_repeatMarkers opt); by repeat split.
Qed.

Lemma numbered_line_end c mode s : numbered false (at_line_end opt c mode s) false.
Proof. unfold at_line_end. destruct (_ && _); [|done]. by destruct (o_repeatMarkers opt), (o_colorMode opt). Qed.

Lemma numbered_chars c common : char_ok c -> numbered false (char_emissions c common) (charDataEquals c 10).
Proof.
  intros Hc. unfold char_emissions. destruct (charDataEquals c 10) eqn:E; [by rewrite (char_feed c Hc E)|].
  pose proof (char_newline c Hc) as Hn. rewrite E in Hn. revert Hn. induction (char_text c) as [|b l IH]; [done|].
  intros Hn. rewrite fmap_cons. simpl in Hn. pose proof (newlines_nonneg l). unfold newline_count in Hn. cbn [numbered].
  destruct (b =? 10); [lia|]. split; [done|]. apply IH. lia.
Qed.

Lemma numbered_overstrike c mode : char_ok c -> numbered false (overstrike opt c mode) false.
Proof.
  intros Hc. unfold overstrike. destruct (_ && visible c) eqn:E; [|done]. apply andb_true_iff in E as [_ [E _]%andb_true_iff]. apply negb_true_iff in E.
  destruct mode; [|by repeat split|done..]. cbn [if_print]. eapply numbered_app; [by apply numbered_chars|]. rewrite E. by repeat split.
Qed.

Lemma emit_numbered m s : mark_ok opt m -> numbered (d_feed s) (emit opt m s).1 (d_feed (emit opt m s).2).
Proof.
  destruct m as [mode c|mode c|c|mode c|mode|mode|[]|[]]; cbn [mark_ok emit fst snd d_feed after_char no_feed]; intros Hm.
  - eapply numbered_app; [apply numbered_new_line|]. eapply numbered_app; [|by apply numbered_chars].
    destruct (_ && _ && _); [by repeat split|apply numbered_line_end].
  - eapply numbered_app; [apply numbered_new_line|]. eapply numbered_app; [apply numbered_line_end|].
    eapply numbered_app; [by apply numbered_overstrike|by apply numbered_chars].
  - eapply numbered_app; [apply numbered_new_line|by apply numbered_chars].
  - destruct Hm as [Hc Hn]. eapply numbered_app; [apply numbered_new_line|]. rewrite <- (Hn Hpara) at 2. by apply numbered_chars.
  - eapply numbered_app; [apply numbered_new_line|]. by destruct (o_needStartStop opt), (o_colorMode opt).
  - eapply numbered_app; [apply numbered_new_line|]. by destruct (o_needStartStop opt), (o_colorMode opt).
  - done.
  - by destruct Hm.
  - done.
  - done.
Qed.

(** [a] and [b] lines of the files have been counted: these are the numbers
    that are written, as far as an [int] can hold them. *)
Definition numbers_of (a b : Z) (e : emission) : Prop :=
  match e with Numbers x y => wraps x a /\ wraps y b | _ => True end.

Fixpoint numbers_right (ms : marks) (s : dstate) (a b : Z) : Prop :=
  match ms with
  | [] => True
  | m :: ms' => Forall (numbers_of a b) (emit opt m s).1 /\
      numbers_right ms' (emit opt m s).2 (a + mark_count false m) (b + mark_count true m)
  end.

Lemma Forall_if {A} (P : A -> Prop) b l : Forall P l -> Forall P (if_print b l).
Proof. by destruct b; [|constructor]. Qed.

Definition knows (s : dstate) (a b : Z) : Prop := wraps (d_old s) a /\ wraps (d_new s) b.

Lemma wraps_int x a : wraps x a -> wraps (to_int x) a.
Proof. intros [q ->]. unfold to_int. case_match; [by exists q|exists (q - 1); lia]. Qed.

Lemma wraps_next x a : wraps x a -> wraps (count_line x) (a + 1).
Proof. intros [q H]. destruct (wraps_count x) as [r Hr]. exists (q + r). lia. Qed.

Lemma chars_numbers a b c common : Forall (numbers_of a b) (char_emissions c common).
Proof. unfold char_emissions. apply Forall_fmap. by apply Forall_true. Qed.

Lemma new_line_numbers mode s a b : knows s a b -> Forall (numbers_of a b) (on_new_line opt mode s).
Proof.
  intros [Ha Hb]. unfold on_new_line. apply Forall_if, Forall_app. split; apply Forall_if, Forall_app; (split; [apply Forall_if|]); try (by repeat constructor).
  - constructor; [|constructor]. by split; apply wraps_int.
  - apply Forall_if. by repeat constructor.
Qed.

Lemma line_end_numbers c mode a b s : Forall (numbers_of a b) (at_line_end opt c mode s).
Proof. unfold at_line_end. apply Forall_if, Forall_app. split; apply Forall_if; by repeat constructor. Qed.

Lemma emit_knows m s a b : knows s a b -> knows (emit opt m s).2 (a + mark_count false m) (b + mark_count true m).
Proof. intros [Ha Hb]. destruct m as [| | | | | | |[]]; cbn; rewrite ?Z.add_0_r; split; try done; by apply wraps_next. Qed.

Lemma emit_numbers m s a b : knows s a b -> Forall (numbers_of a b) (emit opt m s).1.
Proof.
  intros Hk. pose proof (fun mode => new_line_numbers mode s a b Hk) as Hn.
  destruct m as [mode c|mode c|c|mode c|mode|mode|after|new]; cbn [emit fst]; rewrite ?Forall_app.
  - split; [apply Hn|]. split; [case_match; [by repeat constructor|apply line_end_numbers]|apply chars_numbers].
  - split; [apply Hn|]. split; [apply line_end_numbers|]. split; [|apply chars_numbers].
    apply Forall_if. destruct mode; [apply Forall_app; split; [apply chars_numbers|]| | |]; by repeat constructor.
  - split; [apply Hn|apply chars_numbers].
  - split; [apply Hn|apply chars_numbers].
  - split; [apply Hn|]. apply Forall_if, Forall_app. split; [apply Forall_if|]; by repeat constructor.
  - split; [apply Hn|]. apply Forall_if, Forall_app. split; [|apply Forall_if]; by repeat constructor.
  - by repeat constructor.
  - constructor.
Qed.

Lemma emits_numbered ms s a b : knows s a b -> Forall (mark_ok opt) ms ->
  numbered (d_feed s) (emits opt ms s).1 (d_feed (emits opt ms s).2) /\ numbers_right ms s a b.
Proof.
  intros Hk Hms. revert s a b Hk. induction Hms as [|m ms Hm _ IH]; intros s a b Hk; [done|]. rewrite emits_cons. cbn [fst snd numbers_right].
  destruct (IH (emit opt m s).2 _ _ (emit_knows m s a b Hk)) as [H1 H2].
  split; [eapply numbered_app; [by apply emit_numbered|exact H1]|split; [by apply emit_numbers|done]].
Qed.
End Numbered.

(** ** Overstriking *)

Section Overstrike.
Context (opt : options).
Context {Char : Type} {RR : Reader Char} {RC : ReaderChars Char} {RS : ReaderSpec Char}.

(** What an overstruck text shows: a backspace takes back the character before
    it, which is seen under the character after it. *)
Fixpoint unstrike (l : list Z) : list Z :=
  match l with
  | x :: (y :: l') as l1 => if y =? 8 then unstrike l' else x :: unstrike l1
  | _ => l
  end.

Inductive struck : list Z -> list Z -> Prop :=
  | struck_nil : struck [] []
  | struck_seen b l t : b <> 8 -> struck l t -> struck (b :: l) (b :: t)
  | struck_over b l t : b <> 8 -> struck l t -> struck (b :: 8 :: l) t.

Lemma struck_app l1 t1 l2 t2 : struck l1 t1 -> struck l2 t2 -> struck (l1 ++ l2) (t1 ++ t2).
Proof. intros H1 H2. induction H1; cbn [app]; [done|by constructor|by constructor]. Qed.

Lemma struck_text t : 8 ∉ t -> struck t t.
Proof. induction t as [|b t IH]; intros Ht; [constructor|]. apply not_elem_of_cons in Ht as [? ?]. constructor; [congruence|by apply IH]. Qed.

Lemma unstrike_struck l t : struck l t -> unstrike l = t.
Proof.
  induction 1 as [|b l t Hb Hl IH|b l t Hb Hl IH]; [done| |done].
  destruct l as [|c l]; cbn [unstrike] in *; [by rewrite <- IH|]. assert (c <> 8) as Hc by (by inversion Hl).
  rewrite (proj2 (Z.eqb_neq c 8) Hc). by rewrite IH.
Qed.

(** Without line numbers, colours and repeated markers only overstriking is left. *)
Record only_struck : Prop := {
  os_numbers : o_lineNumbers opt = 0;
  os_color : o_colorMode opt = false;
  os_repeat : o_repeatMarkers opt = false
}.
Context (Hopt : only_struck).
Context (one_byte : forall c : Char, char_ok c -> exists b, char_text c = [b]).

Lemma emit_struck m s : mark_ok opt m -> 8 ∉ plain_mark opt m -> struck (emissions_text opt (emit opt m s).1) (plain_mark opt m).
Proof.
  destruct Hopt as [P1 P2 P3].
  assert (forall mode s, on_new_line opt mode s = []) as Hn.
  { intros mode s'. unfold on_new_line. rewrite P1, P2, P3. cbn. by destruct (d_feed s'), (_ && _). }
  assert (forall c mode s, at_line_end opt c mode s = []) as He.
  { intros c mode s'. unfold at_line_end. rewrite P2, P3. by destruct (_ && _). }
  assert (forall c common, 8 ∉ char_text c -> struck (emissions_text opt (char_emissions c common)) (char_text c)) as Hc.
  { intros c common Ht. rewrite char_emissions_text. by apply struck_text. }
  destruct m as [mode c|mode c|c|mode c|mode|mode|after|new]; cbn [emit fst plain_mark mark_ok]; intros Hm Ht; rewrite ?Hn, ?He, ?P2; cbn [app if_print].
  - destruct (_ && _ && _); rewrite emissions_text_app; [|by apply Hc]. change (char_text c) with ([] ++ char_text c) at 1.
    apply struck_app; [by apply struck_over; [|constructor]|by apply Hc].
  - rewrite emissions_text_app. change (char_text c) with ([] ++ char_text c). apply struck_app; [|by apply Hc].
    unfold overstrike. destruct (_ && _); [|constructor]. destruct mode; cbn [if_print]; try constructor; [|done|constructor].
    rewrite emissions_text_app, char_emissions_text. destruct (one_byte c Hm) as [b Hb]. rewrite Hb in *.
    apply struck_over; [|constructor]. set_solver.
  - by apply Hc.
  - by apply Hc.
  - unfold start_marker in *. destruct (o_needStartStop opt); [|constructor]. unfold emissions_text. cbn. rewrite app_nil_r. by apply struck_text.
  - unfold stop_marker in *. destruct (o_needStartStop opt); [|constructor]. unfold emissions_text. cbn. rewrite app_nil_r. by apply struck_text.
  - unfold emissions_text. cbn. rewrite app_nil_r. by apply struck_text.
  - constructor.
Qed.

Lemma emits_struck ms s : Forall (mark_ok opt) ms -> 8 ∉ plain opt ms -> struck (emissions_text opt (emits opt ms s).1) (plain opt ms).
Proof.
  intros Hms. revert s. induction Hms as [|m ms Hm _ IH]; intros s Ht; [constructor|]. rewrite emits_cons. cbn [fst].
  change (plain opt (m :: ms)) with (plain_mark opt m ++ plain opt ms) in *. apply not_elem_of_app in Ht as [H1 H2].
  rewrite emissions_text_app. apply struck_app; [by apply emit_struck|by apply IH].
Qed.
End Overstrike.
