(* ===== verification/ContextDiff.v ===== *)
(** * Comparing ranges of words

    [doDiffInternal] compares two ranges of words, prints the changes and
    compares some of them again with less context.  Here the comparison of one
    range ([range_script]) is put together from the diff engine, the numbering
    of the windows and the trimming of the changes; then the printing of the
    trimmed changes and the recursion are followed through, for any
    --match-context. *)

From S2P Require Import Prelude EditScript DiffSeq HashTable FileIO FileProofs Streams Unicode ContextBuffer ContextProofs Analyze ScriptProofs Diff2Files Tokenizer Pieces TokenizerProofs DoDiff ContextWords Reader Marks DoDiffProofs Render.

(** ** The script of a range *)

(** A script that keeps as much as possible has no change between equal
    lines. *)
Lemma longest_no_equal (e0 e1 : list Z) script ch : script_ok e0 e1 false 0 0 script ->
  longest_common e0 e1 (zlen e0 - total_deleted script) -> ch ∈ script -> deleted ch = inserted ch ->
  (forall i, 0 <= i < deleted ch -> zget e0 (line0 ch + i) = zget e1 (line1 ch + i)) -> False.
Proof.
  intros Hok Hlong Hin Hd Heq.
  destruct (script_ok_remove e0 e1 false 0 0 script ch ltac:(lia) ltac:(lia) Hok Hin Hd Heq) as (s' & Hs' & Ht).
  destruct (script_ok_common e0 e1 false 0 0 s' ltac:(lia) ltac:(lia) ltac:(lia) ltac:(lia) Hs') as (l & S0 & S1 & L0 & _).
  rewrite slice_all in S0, S1. specialize (Hlong l S0 S1). lia.
Qed.

(** Without context the changes are already those of the words. *)
Lemma plain_trims V0 V1 M agg stop r (d0 d1 : list Z) gap a0 a1 script :
  0 <= (range_start r).1 -> 0 <= (range_start r).2 ->
  d0 = slice V0 (range_start r).1 ((range_start r).1 + zlen d0) ->
  d1 = slice V1 (range_start r).2 ((range_start r).2 + zlen d1) ->
  script_ok d0 d1 gap a0 a1 script -> 0 <= a0 <= zlen d0 -> 0 <= a1 <= zlen d1 ->
  trims_ok V0 V1 M 0 agg stop r gap ((range_start r).1 + a0) ((range_start r).2 + a1) script
    ((range_start r).1 + zlen d0) ((range_start r).2 + zlen d1).
Proof.
  intros H0 H1 E0 E1.
  assert (forall a b, 0 <= a -> b <= zlen d0 -> slice d0 a b = slice V0 ((range_start r).1 + a) ((range_start r).1 + b)) as S0.
  { intros a b Ha Hb. rewrite E0 at 1. apply slice_slice; lia. }
  assert (forall a b, 0 <= a -> b <= zlen d1 -> slice d1 a b = slice V1 ((range_start r).2 + a) ((range_start r).2 + b)) as S1.
  { intros a b Ha Hb. rewrite E1 at 1. apply slice_slice; lia. }
  clear E0 E1. revert gap a0 a1. induction script as [|ch s IH]; intros gap a0 a1; cbn [script_ok trims_ok].
  - intros E A0 A1. pose proof (f_equal length E) as El. rewrite !slice_length in El by lia. rewrite S0, S1 in E by lia.
    split; [lia|]. split; [lia|done].
  - intros (G1 & G2 & E & G3 & G4 & G5 & G6 & G7 & Hok) A0 A1. rewrite offset_change_start. unfold trim_change.
    change (negb (0 =? 0)) with false. rewrite andb_false_r. cbn [andb]. rewrite S0, S1 in E by lia.
    assert (a0 <= line0 ch) by (destruct gap; lia).
    specialize (IH true (line0 ch + deleted ch) (line1 ch + inserted ch) Hok ltac:(lia) ltac:(lia)).
    assert (item_range (Print (command_of ch) (Change (line0 ch + (range_start r).1) (line1 ch + (range_start r).2) (deleted ch) (inserted ch))) =
      Range (line0 ch + (range_start r).1) (deleted ch) (line1 ch + (range_start r).2) (inserted ch)) as Hi.
    { unfold command_of. destruct (Z.eqb_spec (inserted ch) 0); [simpl; f_equal; lia|].
      destruct (Z.eqb_spec (deleted ch) 0); simpl; f_equal; lia. }
    change (command_of (Change _ _ (deleted ch) (inserted ch))) with (command_of ch). rewrite Hi.
    cbn [start0 start1 count0 count1]. rewrite !(Z.add_comm _ (range_start r).1), !(Z.add_comm _ (range_start r).2).
    split; [destruct gap; lia|]. split; [lia|]. split; [done|]. do 3 (split; [done|]). split; [lia|]. split; [lia|].
    rewrite <- !Z.add_assoc. split; [|done]. unfold item_ok. rewrite <- !(Z.add_comm _ (range_start r).1), <- !(Z.add_comm _ (range_start r).2), Hi. done.
Qed.

Section Ranges.
(** The numbers of the words of both files. *)
Context (V0 V1 : list Z).

Definition range_of (r : option base_range) : base_range := default (Range 0 (zlen V0) 0 (zlen V1)) r.

Record range_in (r : base_range) : Prop := {
  ri_start0 : 0 <= start0 r;
  ri_start1 : 0 <= start1 r;
  ri_count0 : 0 <= count0 r;
  ri_count1 : 0 <= count1 r;
  ri_end0 : start0 r + count0 r <= zlen V0;
  ri_end1 : start1 r + count1 r <= zlen V1
}.

Definition old_words (r : base_range) : list Z := slice V0 (start0 r) (start0 r + count0 r).
Definition new_words (r : base_range) : list Z := slice V1 (start1 r) (start1 r + count1 r).

Lemma range_start_of r : range_start r = (start0 (range_of r), start1 (range_of r)).
Proof. by destruct r. Qed.

Lemma old_words_all : old_words (range_of None) = V0.
Proof. apply slice_all. Qed.
Lemma new_words_all : new_words (range_of None) = V1.
Proof. apply slice_all. Qed.

Lemma range_words_of r p : fdiffTokens (oldFile p) = V0 -> fdiffTokens (newFile p) = V1 ->
  range_words r p = (old_words (range_of r), new_words (range_of r)).
Proof. intros E0 E1. unfold range_words. rewrite E0, E1. destruct r; [done|]. by rewrite old_words_all, new_words_all. Qed.

Lemma range_lengths r : range_in r -> zlen (old_words r) = count0 r /\ zlen (new_words r) = count1 r.
Proof. intros []. unfold old_words, new_words. rewrite !slice_length by lia. lia. Qed.

End Ranges.

Section Range.
Context {T : Type} {HT : WordTable T} (opt : options) (mem : memory) (baseHashMax : Z) (fresh : T).
(** When a change between equal windows is possible at all. *)
Definition may_stop : Prop := o_minimal opt = false /\ o_matchContext opt <> 0.

(** What the diff engine says about two lists of numbers. *)
Lemma compare_lists m e0 e1 : Forall (fun e => 0 <= e < m) (e0 ++ e1) -> zlen e0 + zlen e1 < OFFSET_MAX ->
  exists script, compare_words opt mem m e0 e1 = Some script /\ script_ok e0 e1 false 0 0 script /\
    equal_stops e0 e1 (o_minimal opt = false) script /\ (e0 = e1 -> script = []) /\
    (o_minimal opt = true -> longest_common e0 e1 (zlen e0 - total_deleted script)).
Proof.
  intros Hc Hs. assert (input_ok m (FileData (zlen e0) e0) (FileData (zlen e1) e1)) as Hin by (split; simpl; [done..|lia]).
  unfold compare_words.
  destruct (diff_2_files_spec (o_minimal opt) (o_speed_large_files opt) m mem _ _ Hin) as (script & Hsc & Hok & _ & Hmin).
  simpl in Hok, Hmin. exists script. split; [done|]. split; [done|]. split; [|split; [|done]].
  - intros ch Hch Hd Heq. destruct (o_minimal opt); [|done]. exfalso. by eapply longest_no_equal in Heq; [..|exact (Hmin eq_refl)|exact Hch|].
  - intros ->. pose proof (diff_2_files_same (o_minimal opt) (o_speed_large_files opt) m mem _ Hin) as Hsame. congruence.
Qed.

Context (V0 V1 : list Z).
Record values_ok : Prop := {
  vo_fresh : wt_rep fresh [];
  vo_values : Forall (fun v => 0 <= v < baseHashMax) (V0 ++ V1);
  vo_max : baseHashMax <= 2 ^ 63;
  vo_size : 2 * (zlen V0 + zlen V1) < VALUE_MAX
}.

Lemma initialize_of t (r : option base_range) c :
  initializeContextDiffTokens t V0 ((fun r => (start0 r, count0 r)) <$> r) c = number_all t (context_arrays (old_words V0 (range_of V0 V1 r)) c) /\
  initializeContextDiffTokens t V1 ((fun r => (start1 r, count1 r)) <$> r) c = number_all t (context_arrays (new_words V1 (range_of V0 V1 r)) c).
Proof. unfold initializeContextDiffTokens. destruct r; [done|]. by rewrite (old_words_all V0 V1), (new_words_all V0 V1). Qed.

Lemma range_values r : values_ok -> Forall (fun v => 0 <= v < baseHashMax) (old_words V0 r) /\ Forall (fun v => 0 <= v < baseHashMax) (new_words V1 r).
Proof. intros [_ [H0 H1]%Forall_app _ _]. split; by apply Forall_take, Forall_drop. Qed.

Lemma same_numbers (e0 e1 d : list Z) c : zlen e0 = zlen d + c -> zlen e1 = zlen d + c ->
  (forall j0 j1, 0 <= j0 < zlen d + c -> 0 <= j1 < zlen d + c -> zget e0 j0 = zget e1 j1 <-> same_words d d c j0 j1) -> e0 = e1.
Proof.
  intros L0 L1 Hw. rewrite <- (slice_all e0), <- (slice_all e1), L0, L1. apply slice_ext; try lia.
  intros i Hi. apply Hw; [lia|lia|]. by intros t Ht.
Qed.

Lemma range_script_spec r c p : values_ok -> fdiffTokens (oldFile p) = V0 -> fdiffTokens (newFile p) = V1 ->
  range_in V0 V1 (range_of V0 V1 r) ->
  c = 0 \/ (o_matchContext opt <> 0 /\ 1 <= c <= count0 (range_of V0 V1 r) /\ c <= count1 (range_of V0 V1 r)) ->
  exists script, range_script opt mem baseHashMax fresh r c p = ret script /\
    trims_ok V0 V1 (o_matchContext opt) c (o_aggregateChanges opt) may_stop r false (start0 (range_of V0 V1 r)) (start1 (range_of V0 V1 r)) script
      (start0 (range_of V0 V1 r) + count0 (range_of V0 V1 r)) (start1 (range_of V0 V1 r) + count1 (range_of V0 V1 r)) /\
    (old_words V0 (range_of V0 V1 r) = new_words V1 (range_of V0 V1 r) -> script = []).
Proof.
  intros HV E0 E1 Hr Hc. pose proof (range_lengths V0 V1 _ Hr) as [L0 L1]. pose proof (range_values (range_of V0 V1 r) HV) as [F0 F1].
  destruct HV as [Hf _ Hm Hs]. pose proof Hr as [R1 R2 R3 R4 R5 R6].
  assert (2 * (zlen (old_words V0 (range_of V0 V1 r)) + zlen (new_words V1 (range_of V0 V1 r))) < VALUE_MAX) as Hs' by lia.
  assert (VALUE_MAX = OFFSET_MAX) as HMAX by done.
  unfold range_script. rewrite (range_words_of V0 V1 r p E0 E1), E0, E1.
  rewrite <- L0, <- L1 in *. set (d0 := old_words V0 (range_of V0 V1 r)) in *. set (d1 := new_words V1 (range_of V0 V1 r)) in *.
  pose proof (range_start_of V0 V1 r) as Hst.
  assert (start0 (range_of V0 V1 r) = (range_start r).1) as S0 by (by rewrite Hst). assert (start1 (range_of V0 V1 r) = (range_start r).2) as S1 by (by rewrite Hst).
  assert (d0 = slice V0 (range_start r).1 ((range_start r).1 + zlen d0)) as D0 by (rewrite <- S0, L0; done).
  assert (d1 = slice V1 (range_start r).2 ((range_start r).2 + zlen d1)) as D1 by (rewrite <- S1, L1; done).
  rewrite S0, S1. destruct Hc as [->|(HM & Hc0 & Hc1)].
  - destruct (compare_lists baseHashMax d0 d1) as (script & Hsc & Hok & _ & Hsame & _); [by apply Forall_app|lia|].
    cbn [Z.eqb]. rewrite Hsc. exists script. split; [done|]. split; [|done].
    pose proof (plain_trims V0 V1 (o_matchContext opt) (o_aggregateChanges opt) may_stop r d0 d1 false 0 0 script ltac:(lia) ltac:(lia) D0 D1 Hok ltac:(lia) ltac:(lia)) as Ht.
    by rewrite !Z.add_0_r in Ht.
  - rewrite (proj2 (Z.eqb_neq c 0)) by lia. cbv zeta. rewrite (proj1 (initialize_of fresh r c)). fold d0.
    destruct (context_numbers fresh d0 d1 c Hf) as (t1 & t2 & c0 & c1 & -> & H1 & M0 & M1 & Hcl & Hwin); try lia.
    1-2: eapply Forall_impl; [eassumption|]; simpl; lia.
    cbn [rbind]. rewrite (proj2 (initialize_of t1 r c)). fold d1. rewrite H1. cbn [rbind].
    destruct (compare_lists (wt_reset t2).2 c0 c1 Hcl) as (script & Hsc & Hok & Hst' & Hsame & _); [lia|].
    rewrite Hsc. exists script. split; [done|]. split.
    + pose proof (window_trims d0 d1 c0 c1 c ltac:(lia) ltac:(lia) ltac:(lia) M0 M1 Hwin V0 V1 (o_matchContext opt) (o_aggregateChanges opt)
        may_stop r HM ltac:(lia) ltac:(lia) D0 D1 false 0 0 0 script Hok) as Ht.
      rewrite !Z.add_0_r in Ht. apply Ht; try lia. intros ch Hch Hd Heq. split; [by apply (Hst' ch)|done].
    + intros E. apply Hsame. rewrite <- E in M1, Hwin. by eapply same_numbers.
Qed.
End Range.

(** ** Printing changes neither the words nor the statistics *)

Section Words.
Context {Char : Type} `{Reader Char} (opt : options).

(** What holds of a result, if there is one. *)
Definition yields {A} (m : option (result A)) (P : A -> Prop) : Prop := forall a, m = Some (Ok a) -> P a.

Lemma yields_ret {A} (a : A) (P : A -> Prop) : P a -> yields (ret a) P.
Proof. by intros Hp a' [= <-]. Qed.

Lemma yields_bind {A B} (m : option (result A)) (k : A -> option (result B)) P Q : yields m P ->
  (forall a, P a -> yields (k a) Q) -> yields (obind_result m k) Q.
Proof. intros Hm Hk b. destruct m as [[a|e]|]; simpl; try done. apply Hk. by apply Hm. Qed.

Lemma yields_skip {A B} (m : option (result A)) (k : A -> option (result B)) Q :
  (forall a, yields (k a) Q) -> yields (obind_result m k) Q.
Proof. intros Hk. by eapply (yields_bind m k (fun _ => True)). Qed.

Definition same_file (f : ifile) (r : ifile * core) : Prop := fdiffTokens r.1 = fdiffTokens f.
Definition same_files (p p' : pstate) : Prop :=
  fdiffTokens (oldFile p') = fdiffTokens (oldFile p) /\ fdiffTokens (newFile p') = fdiffTokens (newFile p) /\
  statistics p' = statistics p.

Lemma same_files_trans p p' p'' : same_files p p' -> same_files p' p'' -> same_files p p''.
Proof. intros (E0 & E1 & E2) (H0 & H1 & H2). repeat split; congruence. Qed.

Lemma handleNextWhitespace_same f b mode k : yields (handleNextWhitespace opt f b mode k) (same_file f).
Proof.
  unfold handleNextWhitespace. case_if; apply yields_skip; [intros k'|intros [s k']]; by apply yields_ret.
Qed.

Lemma word_loop_same n f idx b mode k : yields (word_loop opt n f idx b mode k) (same_file f).
Proof.
  revert f k. induction n as [|n IH]; intros f k; cbn [word_loop]; case_if; try done; try by apply yields_ret.
  eapply yields_bind; [apply handleNextWhitespace_same|]. intros [f' k'] Hf. apply yields_skip. intros [s k''].
  intros r Hr. apply IH in Hr. unfold same_file in *. simpl in *. congruence.
Qed.

Lemma printWords_same start count f b mode k : yields (printWords opt start count f b mode k) (same_file f).
Proof.
  unfold printWords. case_if; [|done].
  eapply yields_bind; [apply handleNextWhitespace_same|]. intros [f' k'] Hf.
  do 2 (apply yields_skip; intros ?). apply yields_skip. intros [s k''].
  eapply yields_bind; [apply word_loop_same|]. intros [f'' k3] Hf'. do 2 (apply yields_skip; intros ?).
  apply yields_ret. unfold same_file in *. simpl in *. congruence.
Qed.

Lemma synchronized_same b old new k : yields (handleSynchronizedNextWhitespace opt b old new k)
  (fun '(o, n, _) => fdiffTokens o = fdiffTokens old /\ fdiffTokens n = fdiffTokens new).
Proof.
  unfold handleSynchronizedNextWhitespace. case_if; apply yields_skip; intros [[[sA sB] v] k']; apply yields_skip; intros [sB' k''];
    apply yields_ret; unfold after_stream; split; by case_if.
Qed.

Lemma common_word_same b p : yields (common_word opt b p) (same_files p).
Proof.
  unfold common_word. eapply yields_bind; [apply synchronized_same|]. intros [[o n] k] [Ho Hn].
  apply yields_skip. intros [s k']. apply yields_skip. intros [s' k'']. by apply yields_ret.
Qed.

Lemma common_loop_same n idx p : yields (common_loop opt n idx p) (same_files p).
Proof.
  revert p. induction n as [|n IH]; intros p; cbn [common_loop]; case_if; try done; try by apply yields_ret.
  eapply yields_bind; [apply common_word_same|]. intros p' Hp r Hr. apply IH in Hr. by eapply same_files_trans.
Qed.

Lemma printDeletedWords_same ch p : yields (printDeletedWords opt ch p) (same_files p).
Proof.
  unfold printDeletedWords. eapply yields_bind; [apply printWords_same|]. intros [f k] Hf. by apply yields_ret.
Qed.

Lemma printAddedWords_same ch p : yields (printAddedWords opt ch p) (same_files p).
Proof.
  unfold printAddedWords. eapply yields_bind; [apply printWords_same|]. intros [f k] Hf. by apply yields_ret.
Qed.

Lemma loadNextWhitespace_same f : yields (loadNextWhitespace f) (fun '(f', _) => fdiffTokens f' = fdiffTokens f).
Proof. unfold loadNextWhitespace. apply yields_skip. intros [[s buf] b]. by apply yields_ret. Qed.

Lemma change_whitespace_same command p : yields (change_whitespace opt command p) (fun r => same_files p r.1).
Proof.
  unfold change_whitespace. case_if; [|by apply yields_ret].
  eapply yields_bind; [apply loadNextWhitespace_same|]. intros [o b] Ho. case_if; [|by apply yields_ret].
  eapply yields_bind; [apply loadNextWhitespace_same|]. intros [n b'] Hn. case_if; [|by apply yields_ret].
  eapply yields_bind; [apply synchronized_same|]. intros [[o' n'] k] [Ho' Hn']. apply yields_ret. repeat split; simpl; congruence.
Qed.

Lemma print_change_same command ch p : yields (print_change opt command ch p) (fun p' =>
  fdiffTokens (oldFile p') = fdiffTokens (oldFile p) /\ fdiffTokens (newFile p') = fdiffTokens (newFile p) /\
  statistics p' = add_statistics (statistics p) command ch).
Proof.
  unfold print_change. eapply yields_bind; [apply common_loop_same|]. intros p1 H1.
  eapply (yields_bind _ _ (same_files p)).
  { unfold print_words. eapply yields_bind; [apply change_whitespace_same|]. intros [p2 b] H2. simpl in H2.
    pose proof (same_files_trans _ _ _ H1 H2) as H12.
    assert (forall p', same_files p2 p' -> same_files p p') as Hnext by (intros p'; by apply same_files_trans).
    case_if.
    - eapply yields_bind; [apply printAddedWords_same|]. intros p3 H3 r Hr. apply printDeletedWords_same in Hr.
      apply Hnext. by eapply same_files_trans.
    - eapply (yields_bind _ _ (same_files p2)).
      + case_if; [apply printDeletedWords_same|by apply yields_ret].
      + intros p3 H3. case_if; [|apply yields_ret; by apply Hnext]. intros r Hr. apply printAddedWords_same in Hr.
        apply Hnext. by eapply same_files_trans. }
  intros p2 (H2 & H3 & H4). apply yields_ret. cbn [oldFile newFile statistics]. repeat split; [by repeat case_if..|].
  rewrite <- H4. f_equal. by repeat case_if.
Qed.

(** When words are compared without context, every change is printed as it is. *)
Lemma print_script_statistics refine c changes p : o_matchContext opt = 0 ->
  yields (print_script opt refine None c changes p) (fun p' => statistics p' = script_statistics (statistics p) changes).
Proof.
  intros HM. revert p. induction changes as [|ch changes IH]; intros p; cbn [print_script]; [by apply yields_ret|].
  change (offset_change None ch) with ch. unfold trim_change. rewrite HM. cbn [Z.eqb negb andb].
  eapply yields_bind; [apply print_change_same|]. intros p1 (_ & _ & H1) p2 H2. apply IH in H2. by rewrite H2, H1.
Qed.
End Words.

(** A trimmed change prints what its words say. *)
Lemma print_change_item {Char} `{Reader Char} opt c command ch p :
  item_ok c (Print command ch) ->
  let i := range_change (item_range (Print command ch)) in
  print_change opt command ch p = print_change opt (command_of i) i p.
Proof. cbv zeta. intros Hok. unfold item_ok in Hok. rewrite Hok. by destruct command. Qed.

Section Progress.
Context {T : Type} {HT : WordTable T} (opt : options) (mem : memory) (baseHashMax : Z) (fresh : T).
Context {Char : Type} {RR : Reader Char} {RC : ReaderChars Char} {RS : ReaderSpec Char}.
Abbreviation piece := (@piece Char).
Context (marker : marker_ok opt).
(** The pieces of both files, and the numbers of their words. *)
Context (PO PN : list piece) (wo wn : list Char) (V0 V1 : list Z).
Context (LO : length PO = length V0) (LN : length PN = length V1).
Context (Hwhite : white_ok opt PO PN).
Context (HV : values_ok baseHashMax fresh V0 V1).
(** The state at the beginning. *)
Context (P0 : pstate) (first_delete : bool).

Abbreviation old_rest n := (drop (Z.to_nat n) PO).
Abbreviation new_rest n := (drop (Z.to_nat n) PN).

(** The changes of [script] are printed, the words up to [n0] and [n1] read. *)
Record printed (script : list change) (n0 n1 : Z) (d : bool) (t : list (mark Char)) (p : pstate) : Prop := {
  pr_old : 0 <= n0 <= zlen V0;
  pr_new : 0 <= n1 <= zlen V1;
  pr_words : at_words opt p n0 (old_rest n0) wo n1 (new_rest n1) wn d;
  pr_files : fdiffTokens (oldFile p) = V0 /\ fdiffTokens (newFile p) = V1;
  pr_drawn : drawn opt t (pcore P0) (pcore p);
  pr_render : forall rest, render_marks opt first_delete 0 PO PN wo wn (script ++ rest) =
    t ++ render_marks opt d n1 (old_rest n0) (new_rest n1) wo wn rest;
  pr_script : forall rest, script_ok V0 V1 (negb (bool_decide (script = []))) n0 n1 rest ->
    script_ok V0 V1 false 0 0 (script ++ rest);
  pr_statistics : statistics p = script_statistics (statistics P0) script
}.

(** The words from there to [q0] and [q1] are equal; without [gap] the next
    change may begin there. *)
Definition progress (script : list change) (gap : bool) (q0 q1 : Z) (p : pstate) : Prop :=
  exists n0 n1 d t, printed script n0 n1 d t p /\ n0 <= q0 /\ q0 - n0 = q1 - n1 /\ slice V0 n0 q0 = slice V1 n1 q1 /\
    (gap = false -> script = [] \/ n0 < q0).

Lemma progress_advance script (gap gap' : bool) q0 q1 a0 a1 p : progress script gap q0 q1 p ->
  (if gap' then q0 <= a0 else if gap then q0 < a0 else q0 <= a0) -> a0 - q0 = a1 - q1 -> slice V0 q0 a0 = slice V1 q1 a1 ->
  progress script gap' a0 a1 p.
Proof.
  intros (n0 & n1 & d & t & Hp & H0 & H1 & E & Hg) Ha Hl Es. exists n0, n1, d, t. pose proof (pr_old _ _ _ _ _ _ Hp).
  pose proof (pr_new _ _ _ _ _ _ Hp). assert (q0 <= a0) by (destruct gap', gap; lia).
  split; [done|]. split; [lia|]. split; [lia|]. split.
  - by rewrite (slice_split V0 n0 q0), (slice_split V1 n1 q1), E, Es by lia.
  - intros ->. destruct gap; [right; lia|]. destruct (Hg eq_refl); [by left|right; lia].
Qed.

(** A change is printed. *)
Lemma print_range script gap q0 q1 p i : progress script gap q0 q1 p ->
  (if gap then q0 < start0 i else q0 <= start0 i) -> start0 i - q0 = start1 i - q1 ->
  slice V0 q0 (start0 i) = slice V1 q1 (start1 i) ->
  0 <= count0 i -> 0 <= count1 i -> 0 < count0 i + count1 i ->
  start0 i + count0 i <= zlen V0 -> start1 i + count1 i <= zlen V1 ->
  exists p', print_change opt (command_of (range_change i)) (range_change i) p = ret p' /\
    progress (script ++ [range_change i]) true (start0 i + count0 i) (start1 i + count1 i) p' /\ differences p' = differences p.
Proof.
  intros Hp Hg Hl E C0 C1 Hc B0 B1.
  apply (progress_advance _ _ false _ _ (start0 i) (start1 i)) in Hp as (n0 & n1 & d & t & Hp & H0 & H1 & Es & Hgap); [|done..].
  destruct Hp as [Hn0 Hn1 Hw [F0 F1] Hct Hr Hsc Hst]. specialize (Hgap eq_refl). clear q0 q1 gap Hg Hl E.
  set (m := Z.to_nat (start0 i - n0)). assert (start0 i = n0 + Z.of_nat m) as M0 by lia. assert (start1 i = n1 + Z.of_nat m) as M1 by lia.
  destruct (print_change_spec opt marker (range_change i) p n0 _ wo n1 _ wn d m Hw (white_ok_drop _ _ _ _ _ Hwhite) M0 M1)
    as (p' & Hp' & Hb & Hat & Hcp); try done; try (rewrite ?length_drop; simpl; lia).
  exists p'. split; [exact Hp'|]. cbn [range_change line0 line1 deleted inserted] in *.
  unfold book in Hb. injection Hb as Hst' Hdf. split; [|exact Hdf].
  assert (drop (Z.to_nat (count0 i)) (drop m (old_rest n0)) = old_rest (start0 i + count0 i)) as R0 by (rewrite !drop_drop; f_equal; lia).
  assert (drop (Z.to_nat (count1 i)) (drop m (new_rest n1)) = new_rest (start1 i + count1 i)) as R1 by (rewrite !drop_drop; f_equal; lia).
  exists (start0 i + count0 i), (start1 i + count1 i). eexists _, _. split; [|split; [reflexivity|split; [lia|split; [by rewrite !slice_empty by lia|done]]]].
  split; [lia|lia|by rewrite <- R0, <- R1| | | | |].
  - apply print_change_same in Hp' as (-> & -> & _). by split.
  - eapply drawn_trans; [exact Hct|exact Hcp].
  - intros rest. rewrite <- (app_assoc script). cbn [app]. rewrite Hr, (render_marks_step opt d n1 _ _ wo wn (range_change i) rest m M1), <- app_assoc.
    cbn [range_change line0 line1 deleted inserted]. by rewrite R0, R1, <- !app_assoc.
  - intros rest. rewrite (bool_decide_eq_false_2 (script ++ [range_change i] = [])) by (by destruct script). intros Hrest.
    rewrite <- app_assoc. apply Hsc. cbn [app script_ok range_change line0 line1 deleted inserted].
    split; [destruct Hgap, (bool_decide_reflect (script = [])); simpl; lia || done|]. split; [lia|]. by repeat (split; [done|]).
  - rewrite Hst', Hst. unfold script_statistics. by rewrite foldl_app.
Qed.

(** ** All changes of a script *)

(** A routine stops at the assertion, if it can be reached at all, or returns. *)
Definition outcome (m : option (result pstate)) (Q : pstate -> Prop) : Prop :=
  (m = Some (Fatal equal_change) /\ may_stop opt) \/ exists p', m = ret p' /\ Q p'.

(** Everything up to [q0] and [q1] is done.  If there is nothing to print,
    nothing is printed and [differences] does not change. *)
Definition done_to (script : list change) (q0 q1 : Z) (nothing : bool) (p p' : pstate) : Prop :=
  exists script', progress script' true q0 q1 p' /\
    if nothing then script' = script /\ differences p' = differences p else differences p' = 1.

Lemma outcome_bind m k Q R : outcome m Q -> (forall p, Q p -> outcome (k p) R) -> outcome (obind_result m k) R.
Proof. intros [[-> ?]|(p & -> & HQ)] Hk; [by left|by apply Hk]. Qed.

Lemma outcome_yields m Q R : outcome m Q -> yields m R -> outcome m (fun p => Q p /\ R p).
Proof. intros [?|(p & -> & HQ)] HR; [by left|right]. exists p. split; [done|]. split; [done|by apply HR]. Qed.

Lemma outcome_impl m Q R : outcome m Q -> (forall p, Q p -> R p) -> outcome m R.
Proof. intros [?|(p & -> & HQ)] Hi; [by left|right]. exists p. split; [done|by apply Hi]. Qed.

Lemma progress_differences script gap q0 q1 p : progress script gap q0 q1 p -> progress script gap q0 q1 (set_differences p).
Proof.
  intros (n0 & n1 & d & t & [H1 H2 [G1 G2 G3 G4] H4 H5 H6 H7 H8] & Hrest). exists n0, n1, d, t. split; [|exact Hrest].
  by repeat (split; try done).
Qed.

Section Script.
Context (refine : base_range -> Z -> pstate -> option (result pstate)) (c : Z).
Context (Hrefine : forall i c' script p, range_in V0 V1 i -> 0 <= c' < c -> progress script false (start0 i) (start1 i) p ->
  outcome (refine i c' p) (done_to script (start0 i + count0 i) (start1 i + count1 i)
    (bool_decide (old_words V0 i = new_words V1 i)) p)).

Lemma print_script_spec r changes gap script q0 q1 z0 z1 p : z0 <= zlen V0 -> z1 <= zlen V1 -> 0 <= q0 -> 0 <= q1 ->
  trims_ok V0 V1 (o_matchContext opt) c (o_aggregateChanges opt) (may_stop opt) r gap q0 q1 changes z0 z1 ->
  progress script gap q0 q1 p ->
  outcome (print_script opt refine r c changes p) (done_to script z0 z1 (bool_decide (changes = [])) p).
Proof.
  intros B0 B1. revert gap script q0 q1 p. induction changes as [|ch changes IH]; intros gap script q0 q1 p H0 H1; cbn [trims_ok print_script].
  - intros (Hq & Hl & E) Hp. right. exists p. split; [done|]. exists script. split; [|done].
    by apply (progress_advance _ gap true q0 q1).
  - intros Ht Hp. apply progress_differences in Hp.
    destruct (trim_change _ _ _ _) as [[command ch'|i c']|e]; [| |left; by destruct Ht as [-> ?]].
    all: destruct Ht as (G1 & G2 & E & G3 & G4 & G5 & G6 & G7 & Hit & Hrest).
    + rewrite (print_change_item opt c) by done. set (i := item_range (Print command ch')) in *.
      assert (0 <= start0 i + count0 i) as N0 by (destruct gap; lia). assert (0 <= start1 i + count1 i) as N1 by (destruct gap; lia).
      destruct (print_range script gap q0 q1 _ i Hp) as (p1 & -> & Hp1 & Hd1); try done; try lia. cbn [obind_result ret].
      eapply outcome_impl; [apply (IH true _ _ _ p1 N0 N1 Hrest Hp1)|].
      intros p' (script' & Hp' & Hd'). exists script'. split; [done|]. simpl. destruct (bool_decide (changes = [])); [|done].
      destruct Hd' as [_ ->]. by rewrite Hd1.
    + cbn [item_range] in *. destruct Hit as (C0 & C1 & Hc').
      assert (0 <= start0 i + count0 i) as N0 by (destruct gap; lia). assert (0 <= start1 i + count1 i) as N1 by (destruct gap; lia).
      eapply outcome_bind; [apply (Hrefine i c' script); [split; destruct gap; lia|done|]|].
      { by apply (progress_advance _ gap false q0 q1). }
      intros p1 (script1 & Hp1 & Hd1).
      eapply outcome_impl; [apply (IH true _ _ _ p1 N0 N1 Hrest Hp1)|].
      intros p' (script' & Hp' & Hd'). exists script'. split; [done|]. simpl.
      assert (differences p1 = 1) as E1 by (destruct (bool_decide (old_words V0 i = new_words V1 i)); [by destruct Hd1 as [_ ->]|done]).
      destruct (bool_decide (changes = [])); [|done]. destruct Hd' as [_ ->]. done.
Qed.
End Script.

(** ** The recursion *)

Lemma trim_context_spec n0 n1 c : 0 <= n0 -> 0 <= n1 -> 0 <= c ->
  0 <= trim_context n0 n1 c <= c /\ trim_context n0 n1 c <= n0 /\ trim_context n0 n1 c <= n1.
Proof.
  intros H0 H1 Hc. unfold trim_context. cbv zeta. set (m := if n1 <? _ then _ else _).
  assert (0 <= m <= c /\ m <= n0 /\ m <= n1) as Hm by (subst m; repeat case_if; lia).
  assert (Z.land m (Z.lnot 1) = m - m mod 2) as ->; [|lia].
  rewrite <- Z.ldiff_land. change 1 with (Z.ones 1). rewrite Z.ldiff_ones_r, Z.shiftl_mul_pow2, Z.shiftr_div_pow2 by lia.
  change (2 ^ 1) with 2. lia.
Qed.

(** One level of the recursion: [p] is the state, [p1] the state with the
    first marker. *)
Definition compare_range (n : nat) (r : option base_range) (context : Z) (p p1 : pstate) : option (result pstate) :=
  let '(words0, words1) := range_words r p in
  let context := if context =? 0 then 0 else trim_context (zlen words0) (zlen words1) context in
  let! script := range_script opt mem baseHashMax fresh r context p in
  print_script opt (fun range c p => doDiffInternal opt mem baseHashMax fresh n (Some range) c p) r context script p1.

Lemma compare_range_spec n r c p p1 script :
  (forall i c' script p, range_in V0 V1 i -> 0 <= c' < Z.of_nat n -> (c' = 0 \/ o_matchContext opt <> 0) ->
    progress script false (start0 i) (start1 i) p ->
    outcome (doDiffInternal opt mem baseHashMax fresh n (Some i) c' p)
      (done_to script (start0 i + count0 i) (start1 i + count1 i) (bool_decide (old_words V0 i = new_words V1 i)) p)) ->
  let i := range_of V0 V1 r in
  range_in V0 V1 i -> 0 <= c <= Z.of_nat n -> (c = 0 \/ o_matchContext opt <> 0) ->
  fdiffTokens (oldFile p) = V0 -> fdiffTokens (newFile p) = V1 -> progress script false (start0 i) (start1 i) p1 ->
  outcome (compare_range n r c p p1)
    (done_to script (start0 i + count0 i) (start1 i + count1 i) (bool_decide (old_words V0 i = new_words V1 i)) p1).
Proof.
  intros IH i Hi Hc HM E0 E1 Hp. unfold compare_range. rewrite (range_words_of V0 V1 r p E0 E1). fold i.
  destruct (range_lengths V0 V1 i Hi) as [L0 L1]. rewrite L0, L1. set (c1 := if c =? 0 then 0 else _).
  assert (0 <= c1 <= c /\ (c1 = 0 \/ o_matchContext opt <> 0 /\ 1 <= c1 <= count0 i /\ c1 <= count1 i)) as [Hc1 Hc1'].
  { subst c1. pose proof (trim_context_spec (count0 i) (count1 i) c (ri_count0 _ _ _ Hi) (ri_count1 _ _ _ Hi) ltac:(lia)).
    case_if; [lia|]. split; [lia|]. destruct (decide (trim_context (count0 i) (count1 i) c = 0)); [by left|right; lia]. }
  destruct (range_script_spec opt mem baseHashMax fresh V0 V1 r c1 p HV E0 E1 Hi Hc1') as (changes & -> & Ht & Hsame).
  cbn [obind_result ret]. fold i in Ht, Hsame. pose proof Hi as [R1 R2 R3 R4 R5 R6].
  eapply outcome_impl; [eapply print_script_spec; [|exact R5|exact R6| | |exact Ht|exact Hp]; try done|].
  - intros j c' s q Hj Hc' Hq. apply IH; try done; lia.
  - intros p' (script' & Hp' & Hd). exists script'. split; [done|].
    destruct (bool_decide_reflect (old_words V0 i = new_words V1 i)) as [Ee|Ee].
    + by rewrite (bool_decide_eq_true_2 (changes = [])) in Hd by auto.
    + rewrite (bool_decide_eq_false_2 (changes = [])) in Hd; [done|]. intros ->. apply Ee. by destruct Ht as (_ & _ & ?).
Qed.

Lemma doDiffInternal_spec n i c script p : range_in V0 V1 i -> 0 <= c < Z.of_nat n -> (c = 0 \/ o_matchContext opt <> 0) ->
  progress script false (start0 i) (start1 i) p ->
  outcome (doDiffInternal opt mem baseHashMax fresh n (Some i) c p)
    (done_to script (start0 i + count0 i) (start1 i + count1 i) (bool_decide (old_words V0 i = new_words V1 i)) p).
Proof.
  revert i c script p. induction n as [|n IH]; intros i c script p Hi Hc HM Hp; [lia|].
  assert (fdiffTokens (oldFile p) = V0 /\ fdiffTokens (newFile p) = V1) as [E0 E1].
  { destruct Hp as (n0 & n1 & d & t & Hp & _). apply Hp. }
  pose proof (compare_range_spec n (Some i) c p p script IH Hi ltac:(lia) HM E0 E1 Hp) as H.
  unfold compare_range in H. cbn [doDiffInternal]. rewrite (bool_decide_eq_false_2 (Some i = None)), andb_false_r by done. exact H.
Qed.
End Progress.

(** ** doDiff *)

Section Whole.
Context {T : Type} {HT : WordTable T} (opt : options) (mem : memory) (baseHashMax : Z) (fresh : T).
Context {Char : Type} {RR : Reader Char} {RC : ReaderChars Char} {RS : ReaderSpec Char}.
Abbreviation piece := (@piece Char).
Context (marker : marker_ok opt) (context_ok : 0 <= o_matchContext opt).
Context (PO PN : list piece) (wo wn : list Char) (p : pstate).
Abbreviation V0 := (fdiffTokens (oldFile p)).
Abbreviation V1 := (fdiffTokens (newFile p)).
Context (LO : length PO = length V0) (LN : length PN = length V1).
Context (Hwhite : white_ok opt PO PN).
Context (HV : values_ok baseHashMax fresh V0 V1).

(** What is left when the last change is printed. *)
Lemma printEnd_progress P0 d0 script p2 : progress opt PO PN wo wn V0 V1 P0 d0 script true (zlen V0) (zlen V1) p2 ->
  exists p', printEnd opt p2 = ret p' /\ book p' = book p2 /\ ended opt p' /\
    script_ok V0 V1 false 0 0 script /\ drawn opt (render_marks opt d0 0 PO PN wo wn script) (pcore P0) (pcore p').
Proof.
  intros (n0 & n1 & d & t & [Hn0 Hn1 Hw _ Hc Hr Hs _] & Hl0 & Hl & E & _).
  destruct (printEnd_spec opt marker p2 _ _ _ _ _ _ _ Hw) as (p' & Hp' & Hb' & Hok' & HD); [rewrite !length_drop; lia|].
  exists p'. split; [done|]. split; [done|]. split; [done|]. split.
  { specialize (Hs []). rewrite app_nil_r in Hs. apply Hs. exact E. }
  specialize (Hr []). rewrite app_nil_r in Hr. rewrite Hr. by eapply drawn_trans.
Qed.

(** [doDiff] stops at the assertion, if it can be reached at all, or draws
    the marks of a script between the words. *)
Lemma doDiff_render d :
  at_words opt (PState (pcore p) (start_file (oldFile p)) (start_file (newFile p)) (statistics p) (differences p)) 0 PO wo 0 PN wn d ->
  outcome opt (doDiff opt mem baseHashMax fresh p) (fun p' => exists script,
    script_ok V0 V1 false 0 0 script /\ (V0 = V1 -> script = []) /\
    statistics p' = script_statistics (statistics p) script /\
    differences p' = (if bool_decide (V0 = V1) then differences p else 1) /\
    ended opt p' /\ drawn opt (rule_marks opt false ++ render_marks opt d 0 PO PN wo wn script) (pcore p) (pcore p') /\
    (o_matchContext opt = 0 -> o_minimal opt = true -> longest_common V0 V1 (zlen V0 - total_deleted script))).
Proof.
  intros Hat. unfold doDiff. set (p0 := PState _ _ _ _ _) in *.
  set (p1 := if o_needMarkers opt then puts_line (o_stdout opt) marker_line p0 else p0).
  assert (at_words opt p1 0 PO wo 0 PN wn d /\ book p1 = book p0 /\ oldFile p1 = oldFile p0 /\ newFile p1 = newFile p0 /\
    drawn opt (rule_marks opt false) (pcore p0) (pcore p1)) as (Hat1 & Hb1 & F0 & F1 & D1).
  { subst p1. unfold rule_marks. destruct (o_needMarkers opt); [|by repeat (split; [done|]); apply drawn_refl].
    destruct (puts_line_spec opt false p0 (aw_out _ _ _ _ _ _ _ _ _ Hat)) as [Hok1 D1]. destruct Hat as [G1 G2 G3 G4].
    split; [by split|]. by repeat (split; [done|]). }
  assert (doDiffInternal opt mem baseHashMax fresh (S (Z.to_nat (o_matchContext opt))) None (o_matchContext opt) p0 =
    compare_range opt mem baseHashMax fresh (Z.to_nat (o_matchContext opt)) None (o_matchContext opt) p0 p1) as ->.
  { unfold compare_range. cbn [doDiffInternal]. rewrite (bool_decide_eq_true_2 (None = None)), andb_true_r by done. done. }
  assert (progress opt PO PN wo wn V0 V1 p1 d [] false 0 0 p1) as Hp1.
  { exists 0, 0, d, []. split; [|by repeat split; try lia; left]. split; try done; try lia.
    by rewrite F0, F1. }
  set (m := compare_range _ _ _ _ _ _ _ _ _).
  assert (yields m (fun p2 => o_matchContext opt = 0 -> exists changes, compare_words opt mem baseHashMax V0 V1 = Some changes /\
    statistics p2 = script_statistics (statistics p1) changes)) as Hcount.
  { intros p2 Hp2 HM. revert Hp2. unfold m, compare_range. rewrite HM. cbn [Z.eqb]. unfold range_script, range_words. cbn [Z.eqb].
    change (fdiffTokens (oldFile p0)) with V0. change (fdiffTokens (newFile p0)) with V1.
    destruct (compare_words opt mem baseHashMax V0 V1) as [changes|]; [|done]. cbn [obind_result ret]. intros Hp2.
    apply (print_script_statistics opt _ _ _ _ HM) in Hp2. by exists changes. }
  eapply (outcome_bind opt _ _ (fun p2 => done_to opt PO PN wo wn V0 V1 p1 d [] (zlen V0) (zlen V1) (bool_decide (V0 = V1)) p1 p2 /\ _)).
  - apply outcome_yields; [|exact Hcount]. clear Hcount. unfold m. pose proof (compare_range_spec opt mem baseHashMax fresh marker PO PN wo wn V0 V1 LO LN Hwhite HV p1 d
      (Z.to_nat (o_matchContext opt)) None (o_matchContext opt) p0 p1 []) as H.
    cbv zeta in H. rewrite (old_words_all V0 V1), (new_words_all V0 V1) in H. apply H; try done; try lia.
    + intros i c script q Hi Hc HM. by apply (doDiffInternal_spec opt mem baseHashMax fresh marker PO PN wo wn V0 V1).
    + split; simpl; lia.
  - intros p2 [(script & Hp2 & Hd) Hchanges]. pose proof Hp2 as (n0 & n1 & d' & t & Hpr & _). pose proof (pr_statistics _ _ _ _ _ _ _ _ _ _ _ _ _ _ _ Hpr) as Hst.
    destruct (printEnd_progress p1 d script p2 Hp2) as (p' & Hp' & Hb' & Hok' & Hs & HD). right. exists p'. split; [done|].
    exists script. unfold book in Hb1, Hb'. injection Hb1 as Hb1 Hb2. injection Hb' as Hb3 Hb4. split; [done|]. split; [|split; [|split; [|split; [done|split]]]].
    + intros E. rewrite (bool_decide_eq_true_2 (V0 = V1)) in Hd by done. by destruct Hd.
    + by rewrite Hb3, Hst, Hb1.
    + rewrite Hb4. destruct (bool_decide (V0 = V1)); [|done]. destruct Hd as [_ ->]. by rewrite Hb2.
    + by eapply drawn_trans.
    + intros HM Hmin. destruct (Hchanges HM) as (changes & Hc & Hsc). destruct HV as [_ Hv _ Hsize].
      destruct (compare_lists opt mem baseHashMax V0 V1 Hv) as (c & Hc' & Hcok & _ & _ & Hlong); [unfold VALUE_MAX in Hsize; unfold OFFSET_MAX; lia|].
      rewrite Hc in Hc'. injection Hc' as <-. specialize (Hlong Hmin).
      pose proof (script_statistics_total (statistics p1) script) as T1. pose proof (script_statistics_total (statistics p1) changes) as T2.
      cbv zeta in T1, T2. rewrite <- Hst in T1. rewrite <- Hsc, T1 in T2.
      pose proof (ap_bound _ _ _ _ (aw_old _ _ _ _ _ _ _ _ _ Hat)) as [_ Hmax].
      destruct (script_ok_totals V0 V1 false 0 0 script Hs) as [T3 _]. destruct (script_ok_totals V0 V1 false 0 0 changes Hcok) as [T4 _].
      apply script_ok_bound in Hs, Hcok; [|lia..].
      replace (total_deleted script) with (total_deleted changes); [done|]. unfold int32, INT_MAX in *. lia.
Qed.
End Whole.
