(* ===== verification/WordDiff.v ===== *)
(** * The whole of dwdiff on two files

    [prepareAndExecuteDiff] reads two files, compares their words and prints
    the result.  Here the theorems on the tokenizer, the table of words, the
    comparison and the printing meet: for all inputs that a mode can read
    ([run_ok]) the program returns, its output is [render] of the pieces of the
    files and a script that turns the old words into the new ones, its line
    counters, statistics and exit status are right.  With --match-context and
    a diff engine that need not look for a minimal script, an assertion on the
    trimmed changes may stop the program instead ([stopped]); every theorem
    says so.  They hold with and without paragraph delimiters, for every [Mode]
    that keeps its contract: single bytes and UTF-8 (ModeUTF8). *)

From S2P Require Import Prelude Decorated EditScript DiffSeq HashTable HashProofs FileIO FileProofs Streams Unicode UnicodeProofs ContextBuffer ContextProofs Analyze ScriptProofs Diff2Files Tokenizer Pieces TokenizerProofs DoDiff Reader ReaderUTF8 Modes ModeUTF8 ContextWords Marks DoDiffProofs Render Plain ContextDiff.

(** ** Scripts on values and words *)

Lemma script_ok_fmap {A B} (f : A -> B) e0 e1 gap p0 p1 script :
  script_ok e0 e1 gap p0 p1 script -> script_ok (f <$> e0) (f <$> e1) gap p0 p1 script.
Proof.
  revert gap p0 p1. induction script as [|ch s IH]; intros gap p0 p1; cbn [script_ok]; rewrite !length_fmap, !slice_fmap.
  - by intros ->.
  - intros (H1 & H2 & H3 & H4 & H5 & H6 & H7 & H8 & H9). rewrite H3. repeat (split; [done|]). by apply IH.
Qed.

Lemma patch_fmap {A B} (f : A -> B) e0 e1 p0 script : patch (f <$> e0) (f <$> e1) p0 script = f <$> patch e0 e1 p0 script.
Proof.
  revert p0. induction script as [|ch s IH]; intros p0; cbn [patch]; rewrite ?length_fmap, ?slice_fmap; [done|].
  by rewrite IH, !fmap_app.
Qed.

(** ** The run of the program *)

Section Run.
Context {Char Char' : Type} (M : Mode Char Char') {RC : ReaderChars Char'} {RS : ReaderSpec Char'} (MS : ModeSpec M RS).
Context (opt : options) (mem : memory).
Abbreviation piece := (@piece Char).

(** What the options and the inputs have to be like. *)
Record run_ok (old new : list Z) : Prop := {
  ro_context : 0 <= o_matchContext opt;
  ro_marker : marker_ok opt;
  ro_old : input_ok old;
  ro_new : input_ok new;
  ro_size : 2 * (zlen old + zlen new) + 2 < VALUE_MAX;
  ro_words : few_words (o_paraDelim opt) old /\ few_words (o_paraDelim opt) new;
  ro_white : o_wdiffOutput opt = true \/ plain_whitespace
}.

Definition dwdiff (old new : list Z) (k : core) (s : Statistics) (d : Z) : option (result pstate) :=
  let? o := read_input old in
  let? n := read_input new in
  prepareAndExecuteDiff (H1 := hash_WordTable) opt mem empty_table o n k s d.

Abbreviation para := (o_paraDelim opt).
Abbreviation result_of := (read_result (HT := hash_WordTable) folded escaped escaped).

(** A file as it is read: its characters, their pieces, the pieces that are
    written and the words in the table. *)
Record file_read (bytes : list Z) (ws0 : list (list Z)) (r : rstate table) (cs : list Char) (ps o : list piece)
    (w : list Char) (ws : list (list Z)) : Prop := {
  fr_input : read_input bytes = Some cs;
  fr_pieces : file_pieces para bytes o w;
  fr_count : wordCount r = int32 (token_count o - uncounted isW isD cs);
  fr_result : result_of ws0 r o w ws;
  fr_words : zlen ws <= zlen ws0 + zlen bytes + 1;
  fr_length : zlen o <= zlen bytes;
  fr_ok : input_ok bytes
}.

Lemma read_file bytes t ws0 : input_ok bytes -> wt_rep t ws0 -> zlen ws0 + zlen bytes + 1 < VALUE_MAX ->
  exists cs r ps o w ws, read_input bytes = Some cs /\ readFile (H0 := hash_WordTable) para t cs = Ok r /\
    file_read bytes ws0 r cs ps o w ws.
Proof.
  intros Hb Ht Hm. destruct (ms_input bytes Hb) as (cs & Hcs & Hv & Hraw). pose proof (raws_length cs Hv) as Hl.
  unfold raws in Hl. rewrite Hraw in Hl.
  destruct (readFile_spec (HT := hash_WordTable) valid isW isD isNL folded escaped escaped ms_dispatch para t ws0 cs Ht Hv)
    as (r & ps & w' & ws & Hr & Hc & R & Hn & Hw); [lia|].
  pose proof (paragraphs_count isW isD isNL para ps w' false (proj1 (proj2 Hc))) as Hcount.
  destruct (paragraphs isW isD isNL para ps w') as [o w] eqn:E. cbn [fst snd] in *.
  assert (file_pieces para bytes o w) as Hp by (exists cs, ps, w'; by split).
  exists cs, r, ps, o, w, ws. split; [done|]. split; [done|]. split; try done.
  - by rewrite Hn, Hcount.
  - lia.
  - by eapply file_pieces_length.
Qed.

(** The characters that are read back, [PO] and [WO], are characters of the
    input and have the bytes of the pieces [po] and of the final whitespace
    [wo]. *)
Definition displays (po : list piece) (wo : list Char) (PO : list (@Pieces.piece Char')) (WO : list Char') : Prop :=
  bytes_piece <$> PO = raw_piece <$> po /\ chars WO = raws wo /\ Forall piece_ok PO /\ Forall char_ok WO.

(** What is drawn for a script, whatever the decorations are. *)
Definition drawing (po : list piece) (wo : list Char) (pn : list piece) (wn : list Char) (script : list change) (k k' : core) : Prop :=
  exists PO WO PN WN, displays po wo PO WO /\ displays pn wn PN WN /\ white_ok opt PO PN /\
    drawn opt (rule_marks opt false ++ render_marks opt (lastWasDelete k) 0 PO PN WO WN script) k k'.

(** What is known about a run. *)
Record run_result (old new : list Z) (k : core) (s : Statistics) (d : Z) (p : pstate)
    (po : list piece) (wo : list Char) (pn : list piece) (wn : list Char) (script : list change) : Prop := {
  rs_old : file_pieces para old po wo;
  rs_new : file_pieces para new pn wn;
  rs_script : script_ok (words po) (words pn) false 0 0 script;
  rs_fits : script_fits 0 0 (raw_piece <$> po) (raw_piece <$> pn) script;
  rs_empty : script = [] <-> words po = words pn;
  rs_totals : zlen po - total_deleted script = zlen pn - total_inserted script;
  rs_drawn : drawing po wo pn wn script k (pcore p);
  rs_output : plain_output opt -> output (cout (pcore p)) = output (cout k)
    ++ (if o_needMarkers opt then marker_line else [])
    ++ render opt (lastWasDelete k) 0 (raw_piece <$> po) (raw_piece <$> pn) (raws wo) (raws wn) script;
  rs_lines : o_printCommon opt = true ->
    wraps (oldLineNumber (pcore p)) (oldLineNumber k + newlines old) /\
    wraps (newLineNumber (pcore p)) (newLineNumber k + newlines new);
  rs_statistics : exists co cn, read_input old = Some co /\ read_input new = Some cn /\
    statistics p = script_statistics
      (MkStatistics (added s) (deleted_ s) (oldChanged s) (newChanged s)
         (token_count po - uncounted isW isD co) (token_count pn - uncounted isW isD cn)) script;
  rs_differences : differences p = if bool_decide (script = []) then d else 1;
  rs_ended : ended opt p;
  rs_std : one_output opt -> std_output (cout (pcore p)) = std_output (cout k);
  rs_longest : o_matchContext opt = 0 -> o_minimal opt = true -> longest_common (words po) (words pn) (zlen po - total_deleted script)
}.

Lemma newline_values ws ps vs : Forall (fun p => Forall valid (ptok p)) ps -> numbered folded ws ps vs ->
  Forall2 (fun p v => newlines (ptok p) = newlines (default [] (ws !! Z.to_nat v))) (raw_piece <$> ps) vs.
Proof.
  intros Hb Hn. induction Hn as [|p v ps vs [Hv Hw] Hn IH]; [constructor|].
  apply Forall_cons in Hb as [Hp Hb]. rewrite fmap_cons. constructor; [|by apply IH]. rewrite Hw. simpl. symmetry. by apply compared_newlines.
Qed.

Lemma words_values ws ps vs : numbered folded ws ps vs -> words ps = (fun v => default [] (ws !! Z.to_nat v)) <$> vs.
Proof. unfold words. induction 1 as [|p v ps vs [Hv Hw] Hn IH]; [done|]. by rewrite !fmap_cons, IH, Hw. Qed.

Lemma values_words ws po pn vo vn : NoDup ws -> numbered folded ws po vo -> numbered folded ws pn vn -> words po = words pn -> vo = vn.
Proof.
  intros Hd Ho. revert pn vn. induction Ho as [|p v po vo [Hv Hw] Ho IH]; intros pn vn Hn E.
  - destruct Hn; [done|discriminate].
  - destruct Hn as [|q w pn vn [Hw0 Hw1] Hn]; [discriminate|]. injection E as E1 E2. f_equal; [|by eapply IH].
    unfold compared in E1. rewrite E1 in Hw. pose proof (NoDup_lookup _ _ _ _ Hd Hw Hw1). lia.
Qed.

(** A file of items, and a file of pieces. *)
Lemma items_of ts : Forall (Forall valid) ts -> exists css, chars <$> css = raws <$> ts /\
  delivers_items css (newFileStream (concat ((fun t => concat (escaped <$> t) ++ [0]) <$> ts))).
Proof. intros Hts. apply ms_holds in Hts. by apply holds_items in Hts. Qed.

Lemma zip_pieces (ws ts : list (list Char')) : length ws = length ts -> pws <$> zip_with Piece ws ts = ws /\ ptok <$> zip_with Piece ws ts = ts.
Proof.
  revert ts. induction ws as [|w ws IH]; intros [|t ts] Hl; try done. injection Hl as Hl. destruct (IH ts Hl) as [H1 H2].
  cbn [zip_with]. rewrite !fmap_cons, H1, H2. done.
Qed.

Lemma bytes_pieces (PO : list (@Pieces.piece Char')) (po : list piece) : chars <$> (pws <$> PO) = raws <$> (pws <$> po) ->
  chars <$> (ptok <$> PO) = raws <$> (ptok <$> po) -> bytes_piece <$> PO = raw_piece <$> po.
Proof.
  revert po. induction PO as [|P PO IH]; intros [|p po] H1 H2; try done. rewrite !fmap_cons in *. injection H1 as E1 H1. injection H2 as E2 H2.
  f_equal; [|by apply IH]. unfold bytes_piece, raw_piece. by rewrite E1, E2.
Qed.

(** The files that [readFile] leaves. *)
Lemma read_at_piece ws0 r o w ws : result_of ws0 r o w ws -> all_chars valid valid o -> Forall valid w -> zlen o <= INT_MAX ->
  exists PO WO, displays o w PO WO /\ at_piece (start_file (input_file r)) 0 PO WO.
Proof.
  intros [H1 H2 H3 H4 H5] Ho Hw Hmax.
  destruct (items_of (ptok <$> o)) as (tss & Ht & Hd1).
  { apply Forall_fmap. eapply Forall_impl; [exact Ho|]. by intros p [_ ?]. }
  destruct (items_of ((pws <$> o) ++ [w])) as (wss & Hws & Hd2).
  { apply Forall_app. split; [|by constructor]. apply Forall_fmap. eapply Forall_impl; [exact Ho|]. by intros p [? _]. }
  pose proof (f_equal length Hws) as Lw. pose proof (f_equal length Ht) as Lt. rewrite !length_fmap in *. rewrite length_app, length_fmap in Lw. simpl in Lw.
  destruct (exists_last (l := wss)) as (wsf & WO & ->); [by destruct wss; simpl in Lw; [lia|]|]. rewrite length_app in Lw. simpl in Lw.
  rewrite !fmap_app, !list_fmap_singleton in Hws. apply app_inj_tail in Hws as [Hws Hwo].
  destruct (zip_pieces wsf tss) as [Z1 Z2]; [lia|]. exists (zip_with Piece wsf tss), WO.
  pose proof (delivered_ok _ _ Hd1) as K1. pose proof (delivered_ok _ _ Hd2) as [K2 [K3 _]%Forall_cons]%Forall_app.
  split; [split; [apply bytes_pieces; by rewrite ?Z1, ?Z2|split; [done|split; [|done]]]|].
  - assert (Forall (fun P => Forall char_ok (pws P)) (zip_with Piece wsf tss)) as J1 by (apply Forall_fmap; by rewrite Z1).
    assert (Forall (fun P => Forall char_ok (ptok P)) (zip_with Piece wsf tss)) as J2 by (apply Forall_fmap; by rewrite Z2).
    by apply Forall_and.
  - split; simpl; try done.
    + rewrite Z2, H1. by replace ((fun p => tok_bytes escaped (ptok p)) <$> o) with ((fun t => concat (escaped <$> t) ++ [0]) <$> (ptok <$> o))
        by (rewrite <- list_fmap_compose; done).
    + rewrite Z1, H2. by replace (concat ((fun p => white_bytes escaped (pws p)) <$> o) ++ white_bytes escaped w)
        with (concat ((fun t => concat (escaped <$> t) ++ [0]) <$> ((pws <$> o) ++ [w])))
        by (rewrite fmap_app, concat_app, <- list_fmap_compose, list_fmap_singleton; cbn [concat]; by rewrite app_nil_r).
    + pose proof (f_equal length Z2) as Lz. rewrite length_fmap in Lz. lia.
Qed.

Lemma numbered_range ws ps vs : numbered folded ws ps vs -> Forall (fun e => 0 <= e < zlen ws) vs.
Proof.
  induction 1 as [|p v ps vs [Hv Hw] Hn IH]; [done|]. constructor; [|done]. apply lookup_lt_Some in Hw. lia.
Qed.

Lemma numbered_length ws (ps : list piece) vs : numbered folded ws ps vs -> zlen vs = zlen ps.
Proof. intros Hn. apply Forall2_length in Hn. lia. Qed.

(** A longest common subsequence of the numbers is one of the words. *)
Lemma sublist_of_fmap {A B} (f : A -> B) l vs : l `sublist_of` f <$> vs -> exists vs', vs' `sublist_of` vs /\ l = f <$> vs'.
Proof.
  revert l. induction vs as [|v vs IH]; intros l; cbn.
  - intros ->%sublist_nil_r. by exists [].
  - intros [H|(l' & -> & H)]%sublist_cons_r; destruct (IH _ H) as (vs' & Hs & ->).
    + exists vs'. split; [by apply sublist_cons|done].
    + exists (v :: vs'). split; [by apply sublist_skip|done].
Qed.

Lemma longest_words ws po pn vo vn n : NoDup ws -> numbered folded ws po vo -> numbered folded ws pn vn ->
  longest_common vo vn n -> longest_common (words po) (words pn) n.
Proof.
  intros Hd Ho Hn Hl l. rewrite (words_values _ _ _ Ho), (words_values _ _ _ Hn).
  intros (va & Ha & ->)%sublist_of_fmap (vb & Hb & E)%sublist_of_fmap. rewrite length_fmap. apply Hl; [done|].
  assert (forall ps vs v, numbered folded ws ps vs -> v ∈ vs -> 0 <= v /\ exists t, ws !! Z.to_nat v = Some t) as Hin.
  { intros ps vs v Hps Hv. apply list_elem_of_lookup in Hv as (i & Hi). destruct (Forall2_lookup_r _ _ _ _ _ Hps Hi) as (p & _ & H0 & H1). by split; [|eexists]. }
  assert (va = vb) as ->; [|done].
  assert (forall v, v ∈ va -> v ∈ vo) as H0 by (intros v Hv; by eapply elem_of_sublist).
  assert (forall v, v ∈ vb -> v ∈ vn) as H1 by (intros v Hv; by eapply elem_of_sublist).
  clear Ha Hb. revert vb E H1. induction va as [|v va IH]; intros [|w vb] E H1; try done. rewrite !fmap_cons in E. injection E as E1 E2.
  f_equal; [|apply IH; [intros x Hx; apply H0; by right|done|intros x Hx; apply H1; by right]].
  destruct (Hin _ _ v Ho (H0 v ltac:(by left))) as (Hv & t & Ht). destruct (Hin _ _ w Hn (H1 w ltac:(by left))) as (Hw & u & Hu).
  rewrite Ht, Hu in E1. simpl in E1. subst u. pose proof (NoDup_lookup _ _ _ _ Hd Ht Hu). lia.
Qed.

(** A script for the numbers is one for the words. *)
Lemma script_words ws po pn vo vn script : NoDup ws -> Forall (fun p => Forall valid (ptok p)) po ->
  Forall (fun p => Forall valid (ptok p)) pn -> numbered folded ws po vo -> numbered folded ws pn vn ->
  script_ok vo vn false 0 0 script ->
  script_fits 0 0 (raw_piece <$> po) (raw_piece <$> pn) script /\ script_ok (words po) (words pn) false 0 0 script /\
  (vo = vn <-> words po = words pn) /\ zlen po - total_deleted script = zlen pn - total_inserted script.
Proof.
  intros Hd Hbo Hbn Ho Hn Hok.
  pose proof (numbered_length _ _ _ Ho) as Lo. pose proof (numbered_length _ _ _ Hn) as Ln. split; [|split; [|split]].
  - pose proof (script_ok_fits (fun p => newlines (ptok p)) (fun v => newlines (default [] (ws !! Z.to_nat v))) _ _ vo vn
      (newline_values _ _ _ Hbo Ho) (newline_values _ _ _ Hbn Hn) false 0 0 script ltac:(lia) ltac:(lia) Hok) as Hf.
    by rewrite !drop_0 in Hf.
  - rewrite (words_values _ _ _ Ho), (words_values _ _ _ Hn). by apply script_ok_fmap.
  - split; [intros ->; by rewrite (words_values _ _ _ Ho), (words_values _ _ _ Hn)|by eapply values_words].
  - destruct (script_ok_common vo vn false 0 0 script ltac:(lia) ltac:(lia) ltac:(lia) ltac:(lia) Hok) as (l & _ & _ & H0 & H1). lia.
Qed.

(** Both files as they are read. *)
Lemma read_files old new : run_ok old new -> exists co r0 psO po wo ws0 cn r1 psN pn wn ws,
  readFile (H0 := hash_WordTable) para empty_table co = Ok r0 /\ readFile (H0 := hash_WordTable) para (rtable r0) cn = Ok r1 /\
  file_read old [] r0 co psO po wo ws0 /\ file_read new ws0 r1 cn psN pn wn ws.
Proof.
  intros [HM HP Hbo Hbn Hs _ Hw].
  destruct (read_file old empty_table [] Hbo (no_words_rep [])) as (co & r0 & psO & po & wo & ws0 & _ & E0 & R0); [simpl; lia|].
  destruct (read_file new (rtable r0) ws0 Hbn) as (cn & r1 & psN & pn & wn & ws & _ & E1 & R1).
  { apply (fr_result _ _ _ _ _ _ _ _ R0). }
  { pose proof (fr_words _ _ _ _ _ _ _ _ R0). simpl in *. lia. }
  exists co, r0, psO, po, wo, ws0, cn, r1, psN, pn, wn, ws. done.
Qed.

Lemma white_pieces (o : list piece) PO : all_chars (fun c => valid c /\ isW c = true) valid o -> plain_whitespace ->
  bytes_piece <$> PO = raw_piece <$> o -> Forall plain_piece PO.
Proof.
  intros Ho Hp. revert PO. induction Ho as [|p o [Hw _] _ IH]; intros [|P PO] E; try done. rewrite !fmap_cons in E. injection E as E1 _ E.
  constructor; [|by apply IH]. unfold plain_piece. rewrite E1. by apply Hp.
Qed.

Lemma file_read_valid bytes ws0 r cs ps o w ws : file_read bytes ws0 r cs ps o w ws ->
  all_chars valid valid o /\ Forall valid w /\ Forall (fun p => Forall valid (ptok p)) o /\
  (plain_whitespace -> forall PO, bytes_piece <$> PO = raw_piece <$> o -> Forall plain_piece PO).
Proof.
  intros R. destruct (file_pieces_all para bytes o w (fr_pieces _ _ _ _ _ _ _ _ R) (fr_ok _ _ _ _ _ _ _ _ R)) as [Ho Hw].
  split; [|split; [|split]].
  - eapply Forall_impl; [exact Ho|]. intros p [H1 H2]. split; [|done]. eapply Forall_impl; [exact H1|]. by intros c [? _].
  - eapply Forall_impl; [exact Hw|]. by intros c [? _].
  - eapply Forall_impl; [exact Ho|]. by intros p [_ ?].
  - intros Hp PO. by apply white_pieces.
Qed.

(** The number of words is an [int]. *)
Lemma count_small (o : list piece) cs : zlen o <= INT_MAX -> - 2 ^ 31 <= token_count o - uncounted isW isD cs <= INT_MAX.
Proof.
  intros Ho. unfold token_count. pose proof (length_filter (fun p : piece => ptok p <> []) o).
  unfold uncounted, INT_MAX in *. destruct cs; [lia|]. case_bool_decide; lia.
Qed.

(** Everything about a run. *)
Lemma dwdiff_spec old new k s d : run_ok old new -> out_ok opt (cout k) ->
  outcome opt (dwdiff old new k s d) (fun p => exists po wo pn wn script, run_result old new k s d p po wo pn wn script).
Proof.
  intros Hin Hok. destruct (read_files old new Hin) as (co & r0 & psO & po & wo & ws0 & cn & r1 & psN & pn & wn & ws & E0 & E1 & F0 & F1).
  destruct (file_read_valid _ _ _ _ _ _ _ _ F0) as (V0 & V0' & V0t & V0w). destruct (file_read_valid _ _ _ _ _ _ _ _ F1) as (V1 & V1' & V1t & V1w).
  pose proof (fr_result _ _ _ _ _ _ _ _ F0) as R0. pose proof (fr_result _ _ _ _ _ _ _ _ F1) as R1.
  destruct Hin as [HM HP Hbo Hbn Hs [Wo Wn] Hw]. unfold dwdiff.
  rewrite (fr_input _ _ _ _ _ _ _ _ F0), (fr_input _ _ _ _ _ _ _ _ F1). obind.
  unfold prepareAndExecuteDiff. rewrite E0. cbn [rbind]. rewrite E1. cbn [rbind].
  pose proof (rr_table _ _ _ _ _ _ _ _ R1) as Ht. destruct (wt_reset_spec _ _ Ht) as [Hmax Hfresh].
  destruct (wt_reset (rtable r1)) as [fresh baseHashMax]. simpl in Hmax, Hfresh. subst baseHashMax.
  pose proof (Wo _ _ (fr_pieces _ _ _ _ _ _ _ _ F0)) as Mo. pose proof (Wn _ _ (fr_pieces _ _ _ _ _ _ _ _ F1)) as Mn.
  destruct (read_at_piece _ _ _ _ _ R0 V0 V0' Mo) as (PO & WO & DO & A0).
  destruct (read_at_piece _ _ _ _ _ R1 V1 V1' Mn) as (PN & WN & DN & A1).
  pose proof (rr_numbers _ _ _ _ _ _ _ _ R0) as No. pose proof (rr_numbers _ _ _ _ _ _ _ _ R1) as Nn.
  apply (numbered_prefix _ _ ws) in No; [|apply R1].
  pose proof (numbered_length _ _ _ No) as Lo. pose proof (numbered_length _ _ _ Nn) as Ln.
  pose proof (fr_length _ _ _ _ _ _ _ _ F0). pose proof (fr_length _ _ _ _ _ _ _ _ F1).
  pose proof (fr_words _ _ _ _ _ _ _ _ F0). pose proof (fr_words _ _ _ _ _ _ _ _ F1).
  pose proof DO as (DO1 & DO2 & KO & KWO). pose proof DN as (DN1 & DN2 & KN & KWN).
  pose proof (f_equal length DO1) as LO. pose proof (f_equal length DN1) as LN. rewrite !length_fmap in LO, LN.
  assert (white_ok opt PO PN) as Hwhite.
  { intros Hwd. destruct Hw as [Hw|Hw]; [congruence|]. split; auto. }
  set (p0 := PState k (input_file r0) (input_file r1) _ d).
  eapply outcome_impl; [eapply (doDiff_render opt mem (zlen ws) fresh HP HM PO PN WO WN p0) with (d := lastWasDelete k)|].
  - simpl. lia.
  - simpl. lia.
  - done.
  - split; [done|apply Forall_app; split; by eapply numbered_range| |]; simpl in *; unfold VALUE_MAX in *; lia.
  - by split.
  - intros p (script & Hsc & Hsame & Hst & Hdf & Hend & HD & Hmin).
    destruct (script_words ws po pn _ _ script (rep_nodup _ _ Ht) V0t V1t No Nn Hsc) as (Hfit & Hwords & Heq & Htot).
    exists po, wo, pn, wn, script.
    assert (Forall (mark_ok opt) (render_marks opt (lastWasDelete k) 0 PO PN WO WN script)) as Hmarks by (by apply render_marks_ok).
    assert (script = [] <-> words po = words pn) as Hempty.
    { rewrite <- Heq. split; [intros ->|exact Hsame]. simpl in Hsc. by rewrite !slice_all in Hsc. }
    split; try done; try apply F0; try apply F1.
    + by exists PO, WO, PN, WN.
    + intros P. rewrite (drawn_plain opt _ _ _ P (emits_one_stream opt _ _ (plain_one_output opt P) Hmarks) HD), plain_app, plain_render, DO1, DN1, DO2, DN2 by done.
      do 2 f_equal. unfold rule_marks. destruct (o_needMarkers opt); [|done]. apply app_nil_r.
    + intros HC. rewrite <- (file_pieces_newlines para old po wo), <- (file_pieces_newlines para new pn wn) by (done || apply F0 || apply F1).
      rewrite <- DO1, <- DN1, <- DO2, <- DN2. eapply (drawn_lines opt _ 0 0 PO PN WO WN script); try done. by rewrite DO1, DN1.
    + exists co, cn. split; [apply F0|]. split; [apply F1|]. rewrite Hst. simpl.
      rewrite (fr_count _ _ _ _ _ _ _ _ F0), (fr_count _ _ _ _ _ _ _ _ F1), !int32_small by (by apply count_small). done.
    + rewrite Hdf. simpl. rewrite (bool_decide_ext (diffTokens r0 = diffTokens r1) (script = [])); [done|]. by rewrite Heq, Hempty.
    + intros Hone. by eapply drawn_std.
    + intros HM' Hm. rewrite <- Lo. exact (longest_words _ _ _ _ _ _ (rep_nodup _ _ Ht) No Nn (Hmin HM' Hm)).
Qed.

(** The program stops at the assertion that a trimmed change is not between
    equal words, which needs a context and a script that is not minimal. *)
Definition stopped (r : option (result pstate)) : Prop :=
  r = Some (Fatal equal_change) /\ o_minimal opt = false /\ o_matchContext opt <> 0.

Lemma dwdiff_returns old new k s d : run_ok old new -> out_ok opt (cout k) ->
  stopped (dwdiff old new k s d) \/
  exists p po wo pn wn script, dwdiff old new k s d = ret p /\ run_result old new k s d p po wo pn wn script.
Proof.
  intros Hin Hok. destruct (dwdiff_spec old new k s d Hin Hok) as [?|(p & Hp & po & wo & pn & wn & script & R)]; [by left|right].
  by exists p, po, wo, pn, wn, script.
Qed.

(** C6: in every mode [readFile] returns, and nothing of the file is lost: its
    words, delimiters and whitespace, as they are read back from the temporary
    files for printing, have the bytes of the file (in their order, if there
    are no paragraph delimiters); every word has the number of its compared
    form in the table, which keeps the numbers given before; and the words are
    counted, but for paragraph tokens and a delimiter at the start. *)
Theorem readFile_any_mode bytes t ws0 :
  input_ok bytes -> few_words para bytes -> wt_rep t ws0 -> zlen ws0 + zlen bytes + 1 < VALUE_MAX ->
  exists cs r po wo ws PO WO, read_input bytes = Some cs /\ readFile (H0 := hash_WordTable) para t cs = Ok r /\
    file_pieces para bytes po wo /\
    text (raw_piece <$> po) ++ raws wo ≡ₚ bytes /\ (para = false -> text (raw_piece <$> po) ++ raws wo = bytes) /\
    at_piece (start_file (input_file r)) 0 PO WO /\ displays po wo PO WO /\
    wt_rep (rtable r) ws /\ ws0 `prefix_of` ws /\ numbered folded ws po (diffTokens r) /\
    wordCount r = token_count po - uncounted isW isD cs.
Proof.
  intros Hb Hf Ht Hm. destruct (read_file bytes t ws0 Hb Ht Hm) as (cs & r & ps & po & wo & ws & Hcs & Hr & [F1 F2 F3 F4 F5 F6 F7]).
  specialize (Hf _ _ F2). assert (file_read bytes ws0 r cs ps po wo ws) as (V & V' & _)%file_read_valid by by split.
  destruct (read_at_piece _ _ _ _ _ F4 V V' Hf) as (PO & WO & DO & A).
  exists cs, r, po, wo, ws, PO, WO. split; [done|]. split; [done|]. split; [done|].
  destruct (ms_input bytes Hb) as (cs' & Hcs' & _ & Hraw). rewrite Hcs in Hcs'. injection Hcs' as <-.
  destruct F2 as (cs' & ps' & w' & Hcs' & (Hc & _) & E). rewrite Hcs in Hcs'. injection Hcs' as <-.
  rewrite <- raws_text, <- raws_app. split; [|split; [|split; [done|split; [done|split; [apply F4|split; [apply F4|split; [apply F4|]]]]]]].
  - rewrite <- Hraw, Hc. pose proof (paragraphs_perm isW isD isNL para ps' w') as Hp. rewrite E in Hp. cbn [fst snd] in Hp.
    unfold raws. by rewrite Hp.
  - intros Hno. rewrite Hno, no_paragraphs in E. injection E as <- <-. by rewrite <- Hc.
  - rewrite F3. by apply int32_small, count_small.
Qed.
End Run.

(** ** The theorems *)

Section Theorems.
Context {Char Char' : Type} (M : Mode Char Char') {RC : ReaderChars Char'} {RS : ReaderSpec Char'} (MS : ModeSpec M RS).
Context (opt : options) (mem : memory).
Abbreviation run := (dwdiff M opt mem).
Abbreviation usable := (run_ok M MS opt).
Abbreviation pieces := (file_pieces (o_paraDelim opt)).


(** C7: the statistics of a comparison, counted from 0 with ints (the files
    have fewer than 2^31 words): unless the program stops at the assertion of
    --match-context, the words that are neither deleted, added nor changed are
    equally many in both files, and the totals count all words except paragraph
    tokens and a delimiter that is the first character of its file. *)
Theorem dwdiff_statistics old new k d co cn po wo pn wn : usable old new -> out_ok opt (cout k) ->
  read_input old = Some co -> read_input new = Some cn -> pieces old po wo -> pieces new pn wn ->
  stopped opt (run old new k no_statistics d) \/
  exists p common, run old new k no_statistics d = ret p /\
    let st := statistics p in
    0 <= common /\ common + deleted_ st + oldChanged st = zlen po /\ common + added st + newChanged st = zlen pn /\
    0 <= deleted_ st /\ 0 <= oldChanged st /\ 0 <= added st /\ 0 <= newChanged st /\
    oldTotal st = token_count po - uncounted isW isD co /\ newTotal st = token_count pn - uncounted isW isD cn.
Proof.
  intros Hin Hok Ro Rn Co Cn.
  destruct (dwdiff_returns M MS opt mem old new k no_statistics d Hin Hok) as [?|(p & po' & wo' & pn' & wn' & script & Hp & R)]; [by left|right].
  destruct (file_pieces_unique _ _ _ _ _ _ Co (rs_old M MS opt _ _ _ _ _ _ _ _ _ _ _ R)) as [<- <-].
  destruct (file_pieces_unique _ _ _ _ _ _ Cn (rs_new M MS opt _ _ _ _ _ _ _ _ _ _ _ R)) as [<- <-].
  exists p, (zlen po - total_deleted script). split; [done|]. cbv zeta.
  destruct (rs_statistics M MS opt _ _ _ _ _ _ _ _ _ _ _ R) as (co' & cn' & Ro' & Rn' & ->).
  rewrite Ro in Ro'. rewrite Rn in Rn'. injection Ro' as <-. injection Rn' as <-.
  destruct (ro_words M MS opt _ _ Hin) as [Wo Wn]. specialize (Wo _ _ Co). specialize (Wn _ _ Cn).
  unfold no_statistics. cbn [added deleted_ oldChanged newChanged].
  destruct (script_statistics_sums (MkStatistics 0 0 0 0 (token_count po - uncounted isW isD co)
    (token_count pn - uncounted isW isD cn)) script ltac:(by split)) as (-> & -> & -> & -> & -> & ->).
  cbn [added deleted_ oldChanged newChanged oldTotal newTotal]. rewrite !Z.add_0_l.
  pose proof (rs_totals M MS opt _ _ _ _ _ _ _ _ _ _ _ R) as Ht.
  pose proof (rs_script M MS opt _ _ _ _ _ _ _ _ _ _ _ R) as Hs. destruct (sum_of_totals script) as [T1 T2].
  destruct (sum_of_nonneg _ _ _ _ _ _ C_DEL Hs) as [N1 _]. destruct (sum_of_nonneg _ _ _ _ _ _ C_ADD Hs) as [_ N2].
  destruct (sum_of_nonneg _ _ _ _ _ _ C_CHANGE Hs) as [N3 N4].
  apply script_ok_bound in Hs; [|lia]. unfold words in Hs. rewrite length_fmap in Hs.
  rewrite !int32_small by lia. lia.
Qed.

(** C8: with --algorithm=best and without --match-context no smaller set of
    changes would do: what the script keeps is a common subsequence of the words
    of both files, there is no longer one, and every script between these words
    has at least as many changed words. *)
Theorem dwdiff_minimal old new k s d : usable old new -> out_ok opt (cout k) -> o_matchContext opt = 0 -> o_minimal opt = true ->
  exists p po wo pn wn script, run old new k s d = ret p /\ pieces old po wo /\ pieces new pn wn /\
    script_ok (words po) (words pn) false 0 0 script /\ drawing M MS opt po wo pn wn script k (pcore p) /\
    (forall l, l `sublist_of` words po -> l `sublist_of` words pn -> zlen l <= zlen po - total_deleted script) /\
    (forall script', script_ok (words po) (words pn) false 0 0 script' ->
       total_deleted script + total_inserted script <= total_deleted script' + total_inserted script').
Proof.
  intros Hin Hok HM Hm. destruct (dwdiff_returns M MS opt mem old new k s d Hin Hok) as [(_ & _ & Hc)|(p & po & wo & pn & wn & script & Hp & R)]; [congruence|].
  exists p, po, wo, pn, wn, script. split; [done|]. do 4 (split; [apply R|]).
  pose proof (rs_longest M MS opt _ _ _ _ _ _ _ _ _ _ _ R HM Hm) as Hl. split; [exact Hl|]. intros script' Hs'.
  pose proof (rs_totals M MS opt _ _ _ _ _ _ _ _ _ _ _ R) as Ht.
  destruct (script_ok_common (words po) (words pn) false 0 0 script' ltac:(lia) ltac:(lia) ltac:(lia) ltac:(lia) Hs') as (l & H0 & H1 & Hl0 & Hl1).
  rewrite slice_all in H0, H1. specialize (Hl l H0 H1). unfold Modes.words in Hl0, Hl1. rewrite !length_fmap in Hl0, Hl1. lia.
Qed.

(** C1: for all inputs and options, in every mode of characters that keeps its
    contract, with any --match-context and any algorithm: either the program
    stops at the assertion that a trimmed change is not between equal words,
    which needs a context and a script that is not minimal, or it returns, and
    everything is as it should be.  It cuts both files into whitespace and
    words (with paragraph tokens between them if asked for), its script turns
    the old words into the new ones, exactly the marks of this script are
    drawn, undecorated output is their text, the line counters count all
    newlines of both files (if common words are printed), the exit status is 1
    exactly if the words differ, and nothing but line numbers and rules goes
    to standard output where that is not the output file. *)
Theorem dwdiff_any_context old new k s d : usable old new -> out_ok opt (cout k) ->
  stopped opt (run old new k s d) \/
  exists p po wo pn wn script, run old new k s d = ret p /\ pieces old po wo /\ pieces new pn wn /\
    script_ok (words po) (words pn) false 0 0 script /\
    drawing M MS opt po wo pn wn script k (pcore p) /\
    (plain_output opt -> output (cout (pcore p)) = output (cout k)
       ++ (if o_needMarkers opt then marker_line else [])
       ++ render opt (lastWasDelete k) 0 (raw_piece <$> po) (raw_piece <$> pn) (raws wo) (raws wn) script) /\
    (o_printCommon opt = true -> wraps (oldLineNumber (pcore p)) (oldLineNumber k + newlines old) /\
       wraps (newLineNumber (pcore p)) (newLineNumber k + newlines new)) /\
    differences p = (if bool_decide (words po = words pn) then d else 1) /\
    (one_output opt -> std_output (cout (pcore p)) = std_output (cout k)).
Proof.
  intros Hin Hok. destruct (dwdiff_returns M MS opt mem old new k s d Hin Hok) as [?|(p & po & wo & pn & wn & script & Hp & R)];
    [by left|right].
  exists p, po, wo, pn, wn, script. split; [done|]. do 6 (split; [apply R|]). split; [|apply R].
  rewrite (rs_differences M MS opt _ _ _ _ _ _ _ _ _ _ _ R).
  rewrite (bool_decide_ext (script = []) (words po = words pn)); [done|apply R].
Qed.
End Theorems.

(** ** Examples *)

Abbreviation no_delimiters := (replicate 32 0).

(** "a b" and a newline; "a x c" without one. *)
Definition example_old : list Z := [97; 32; 98; 10].
Definition example_new : list Z := [97; 32; 120; 32; 99].

Abbreviation example_mode := (SCMode space_bitmap no_delimiters false (fun c => c)).

Lemma example_case : keeps_newlines false (fun c => c).
Proof. intros c Hc. unfold byte in Hc. rewrite Z.mod_small by lia. done. Qed.

Definition example_spec : ModeSpec example_mode SCSpec := SCModeSpec _ _ _ _ example_case.

Lemma example_input l : forallb (fun c => (0 <=? c) && (c <? 256)) l = true -> Forall byte l.
Proof.
  intros Hl. apply Forall_forall. intros c Hc. rewrite forallb_forall in Hl. unfold byte.
  apply list_elem_of_In in Hc. specialize (Hl c Hc). zify_bool. lia.
Qed.

Lemma example_run opt old new : 0 <= o_matchContext opt -> Forall byte (o_paraDelimMarker opt) ->
  Forall byte old -> Forall byte new -> zlen old + zlen new <= INT_MAX ->
  run_ok example_mode example_spec opt old new.
Proof.
  intros HM HP Ho Hn Hs. assert (zlen old <= INT_MAX /\ zlen new <= INT_MAX) as [Lo Ln] by lia. split; try done.
  - intros _. by apply SC_readable.
  - unfold INT_MAX, VALUE_MAX in *. lia.
  - split; by apply few_words_short.
  - right. by apply SC_plain_whitespace.
Qed.

Definition example_dwdiff (opt : options) (old new : list Z) : option (result pstate) :=
  dwdiff example_mode opt zero_memory old new (initial_core 0) no_statistics 0.

Ltac example_usable :=
  apply example_run; [vm_compute; discriminate|apply example_input; reflexivity..|vm_compute; discriminate].

(** A minimal script, with two words of context, and "P" for paragraphs. *)
Definition context_options : options :=
  Options [91; 45] [45; 93] [123; 43] [43; 125] [] [] true true true false true false false false 0 false 0 2 false
    true [80] true false true false true.

(** "a", an empty line, "b". *)
Definition example_paragraphs : list Z := [97; 10; 10; 98].

Definition new_file_options : options :=
  Options [] [] [] [] [] [] false true true false false false false false 0 false 0 0 false false [] true false false false true.

(** UTF-8, with a combining acute accent, spaces and newlines as whitespace,
    no normalization and no case folding. *)
Definition example_gcb (c : Z) : Z := if c =? 0x301 then 3 else if c =? 10 then 5 else if c <? 32 then 1 else 0.

Lemma example_gcb_ok : gcb_ok example_gcb.
Proof.
  split; intros c.
  - unfold example_gcb. repeat case_if; lia.
  - unfold special. intros Hc. assert (c = 0 \/ c = 1 \/ c = 10) as H by (zify_bool; lia). by destruct H as [->|[->| ->]].
Qed.

Abbreviation utf8_mode := (UTF8Mode example_gcb true [[32]; [10]] [] false (fun _ => false) (fun _ => false) false (fun l => l) (fun l => l)).
Definition utf8_spec : ModeSpec utf8_mode (UTF8Spec example_gcb example_gcb_ok) :=
  UTF8ModeSpec example_gcb true [[32]; [10]] [] false (fun _ => false) (fun _ => false) false (fun l => l) (fun l => l)
    example_gcb_ok identity_keeps_text identity_keeps_text.

Lemma example_points cs : forallb (fun c => (0 <=? c) && (c <=? 0x10FFFF) && negb ((c / 2048) mod 32 =? 27) && negb (first_of_length c)) cs = true ->
  utf8_input (encoded cs).
Proof.
  intros Hc. exists cs. split; [|done]. apply Forall_forall. intros c Hin. rewrite forallb_forall in Hc.
  apply list_elem_of_In in Hin. specialize (Hc c Hin). rewrite !andb_true_iff, !negb_true_iff in Hc.
  destruct Hc as [[Hr Hp] Hf]. zify_bool. split; [split; [unfold codepoint; lia|done]|done].
Qed.

(** "e" with an accent, "b"; the Euro sign, a smiley and a newline. *)
Definition utf8_old : list Z := encoded [0x65; 0x301; 0x20; 0x62].


Lemma readFile_any_mode_witness :
  exists cs r po wo, read_input (Mode := utf8_mode) utf8_old = Some cs /\
    readFile (H := mode_dispatch (Mode := utf8_mode)) (H0 := hash_WordTable) false empty_table cs = Ok r /\
    text (raw_piece (MS := utf8_spec) <$> po) ++ raws (MS := utf8_spec) wo = utf8_old.
Proof.
  assert (utf8_input utf8_old) as Hb by by apply example_points.
  destruct (readFile_any_mode utf8_mode utf8_spec new_file_options utf8_old empty_table [])
    as (cs & r & po & wo & ws & PO & WO & Hcs & Hr & _ & _ & Ht & _).
  - exact Hb.
  - apply few_words_short; [exact Hb|by vm_compute].
  - exact (no_words_rep []).
  - by vm_compute.
  - exists cs, r, po, wo. split; [exact Hcs|]. split; [exact Hr|]. by apply Ht.
Defined.


(** The pieces of the examples. *)
Definition old_pieces : list (@piece Z) := [Piece [] [97]; Piece [32] [98]].
Definition new_pieces : list (@piece Z) := [Piece [] [97]; Piece [32] [120]; Piece [32] [99]].
Definition paragraph_pieces : list (@piece Z) := [Piece [] [97]; Piece [10] []; Piece [10] [98]].

Lemma example_cuts : file_pieces (MS := example_spec) false example_old old_pieces [10] /\
  file_pieces (MS := example_spec) false example_new new_pieces [].
Proof.
  split; [exists example_old, old_pieces, [10]|exists example_new, new_pieces, []]; (split; [reflexivity|]);
    (split; [|reflexivity]); (split; [reflexivity|]); (split; [|repeat constructor]);
    repeat (split; [repeat constructor|]; split; [by right|]; split; [done|]); done.
Qed.

Lemma example_paragraph_cuts : file_pieces (MS := example_spec) true example_paragraphs paragraph_pieces [] /\
  file_pieces (MS := example_spec) true example_new new_pieces [].
Proof.
  split; [exists example_paragraphs, [Piece [] [97]; Piece [10; 10] [98]], []|exists example_new, new_pieces, []]; (split; [reflexivity|]);
    (split; [|reflexivity]); (split; [reflexivity|]); (split; [|repeat constructor]);
    repeat (split; [repeat constructor|]; split; [by right|]; split; [done|]); done.
Qed.

Lemma dwdiff_statistics_witness :
  exists p common, example_dwdiff context_options example_paragraphs example_new = ret p /\
    let st := statistics p in
    0 <= common /\ common + deleted_ st + oldChanged st = 3 /\ common + added st + newChanged st = 3 /\
    0 <= deleted_ st /\ 0 <= oldChanged st /\ 0 <= added st /\ 0 <= newChanged st /\
    oldTotal st = 2 /\ newTotal st = 3.
Proof.
  destruct (dwdiff_statistics example_mode example_spec context_options zero_memory
    example_paragraphs example_new (initial_core 0) 0 example_paragraphs example_new paragraph_pieces [] new_pieces []) as [(_ & H & _)|H];
    [example_usable|by left|reflexivity|reflexivity|apply example_paragraph_cuts|apply example_paragraph_cuts|discriminate H|exact H].
Defined.

(** Paragraph tokens are counted as deleted or changed, but not in the total:
    the number of common words that is printed can be negative. *)
Lemma paragraph_statistics :
  exists p, example_dwdiff context_options [97; 10; 10; 98; 10; 10] [99] = ret p /\
    let st := statistics p in oldTotal st = 2 /\ deleted_ st + oldChanged st = 4 /\
    statistics_line (oldTotal st) (deleted_ st) (oldChanged st) = Some [2; -2; -100; 0; 0; 4; 200].
Proof. eexists. split; [vm_compute; reflexivity|]. by vm_compute. Qed.

(** The default: two words of context, and a script that may not be minimal. *)
Definition default_context : options :=
  Options [91; 45] [45; 93] [123; 43] [43; 125] [] [] true true true false true false false false 0 false 0 2 false
    false [] false false false false true.

Lemma example_default r : example_dwdiff default_context example_old example_new = r ->
  match r with Some (Ok p) => differences p = 1 | _ => False end.
Proof. intros <-. vm_compute. reflexivity. Qed.

Lemma dwdiff_any_context_witness :
  exists p po wo pn wn script, example_dwdiff default_context example_old example_new = ret p /\
    script_ok (words (MS := example_spec) po) (words (MS := example_spec) pn) false 0 0 script /\
    output (cout (pcore p)) = render default_context false 0 (raw_piece (MS := example_spec) <$> po)
      (raw_piece (MS := example_spec) <$> pn) (raws (MS := example_spec) wo) (raws (MS := example_spec) wn) script /\
    differences p = 1.
Proof.
  destruct (dwdiff_any_context example_mode example_spec default_context zero_memory
    example_old example_new (initial_core 0) no_statistics 0) as [[E _]|(p & po & wo & pn & wn & script & Hp & _ & _ & Hs & _ & Ho & _)];
    [example_usable|by left|exact (False_ind _ (example_default _ E))|].
  exists p, po, wo, pn, wn, script. split; [exact Hp|]. split; [exact Hs|].
  split; [apply Ho; repeat split; by left|exact (example_default _ Hp)].
Defined.

(** A minimal script, without context: "b" is replaced by "x c". *)
Definition minimal_options : options :=
  Options [91; 45] [45; 93] [123; 43] [43; 125] [] [] true true true false true false false false 0 false 0 0 false
    false [] false false true false true.

Lemma dwdiff_minimal_witness :
  exists p po wo pn wn script, example_dwdiff minimal_options example_old example_new = ret p /\
    file_pieces (MS := example_spec) false example_old po wo /\ file_pieces (MS := example_spec) false example_new pn wn /\
    script_ok (words (MS := example_spec) po) (words (MS := example_spec) pn) false 0 0 script /\
    drawing example_mode example_spec minimal_options po wo pn wn script (initial_core 0) (pcore p) /\
    (forall l, l `sublist_of` words (MS := example_spec) po -> l `sublist_of` words (MS := example_spec) pn -> zlen l <= zlen po - total_deleted script) /\
    (forall script', script_ok (words (MS := example_spec) po) (words (MS := example_spec) pn) false 0 0 script' ->
       total_deleted script + total_inserted script <= total_deleted script' + total_inserted script').
Proof.
  apply (dwdiff_minimal example_mode example_spec minimal_options zero_memory
    example_old example_new (initial_core 0) no_statistics 0); [example_usable|by left|reflexivity|reflexivity].
Defined.
