(* ===== verification/DecoratedRuns.v ===== *)
(** * Decorated runs of dwdiff

    What the decorations of the output mean for a whole run on two files: the
    theorems on marks (Decorated) are applied to the marks that dwdiff draws
    (WordDiff).  Whatever the decorations are, the text of the marks is the
    rendering of a script that turns the old words into the new ones. *)

From S2P Require Import Prelude EditScript DiffSeq HashTable FileIO Streams Unicode UnicodeProofs ContextBuffer ContextProofs Analyze ScriptProofs Tokenizer Pieces TokenizerProofs DoDiff Reader ReaderUTF8 Modes ModeUTF8 Marks DoDiffProofs Render Plain Decorated ContextDiff WordDiff.

Section Runs.
Context {Char Char' : Type} (M : Mode Char Char') {RC : ReaderChars Char'} {RS : ReaderSpec Char'} (MS : ModeSpec M RS).
Context (opt : options) (mem : memory).
Abbreviation run := (dwdiff M opt mem).
Abbreviation usable := (run_ok M MS opt).
Abbreviation pieces := (file_pieces (o_paraDelim opt)).

(** The marks of a run, from the state [k] to the state of [p]: the first rule
    and the marks of a script ([render_marks]) that turns the words of the old
    file into those of the new one.  The marks are a function of the script and
    of the pieces of both files as they are read back ([PO], [WO], [PN], [WN]):
    which characters are deleted, added or common and where lines are counted
    is fixed by it.  They are drawn: what is written, the line counters and the
    flags are what [emits] says for them; and their text is the rendering of
    the script. *)
Record shows (old new : list Z) (k : core) (p : pstate) (ms : list (mark Char')) : Prop := {
  sh_script : exists po wo pn wn script PO WO PN WN,
    pieces old po wo /\ pieces new pn wn /\ script_ok (words po) (words pn) false 0 0 script /\
    displays M MS po wo PO WO /\ displays M MS pn wn PN WN /\
    ms = rule_marks opt false ++ render_marks opt (lastWasDelete k) 0 PO PN WO WN script /\
    plain opt ms = (if o_needMarkers opt then marker_line else [])
      ++ render opt (lastWasDelete k) 0 (raw_piece <$> po) (raw_piece <$> pn) (raws wo) (raws wn) script;
  sh_drawn : drawn opt ms k (pcore p);
  sh_counted : o_printCommon opt = true -> counted false ms = newlines old /\ counted true ms = newlines new
}.

(** The marks of a run: a first rule, and the marks of a script. *)
Record run_marks (ms : list (mark Char')) : Prop := {
  rm_brackets : bracketed (rule_marks opt false ++ ms) None None;
  rm_ok : Forall (mark_ok opt) ms
}.

Lemma run_shows old new k s d : usable old new -> out_ok opt (cout k) ->
  stopped opt (run old new k s d) \/
  exists p ms, run old new k s d = ret p /\ shows old new k p (rule_marks opt false ++ ms) /\ run_marks ms.
Proof.
  intros Hin Hok. destruct (dwdiff_returns M MS opt mem old new k s d Hin Hok) as [?|(p & po & wo & pn & wn & script & Hp & R)]; [by left|right].
  destruct (rs_drawn M MS opt _ _ _ _ _ _ _ _ _ _ _ R) as (PO & WO & PN & WN & HO & HN & Hw & HD).
  pose proof HO as (DO1 & DO2 & KO & KWO). pose proof HN as (DN1 & DN2 & KN & KWN).
  pose proof (ro_marker M MS opt _ _ Hin) as Hm. pose proof (rs_old M MS opt _ _ _ _ _ _ _ _ _ _ _ R) as Po.
  pose proof (rs_new M MS opt _ _ _ _ _ _ _ _ _ _ _ R) as Pn.
  exists p, (render_marks opt (lastWasDelete k) 0 PO PN WO WN script). split; [done|]. split; [split|split].
  - exists po, wo, pn, wn, script, PO, WO, PN, WN. do 2 (split; [done|]). split; [apply R|]. do 3 (split; [done|]).
    rewrite plain_app, plain_render, DO1, DN1, DO2, DN2 by done. f_equal. unfold rule_marks. destruct (o_needMarkers opt); [|done]. apply app_nil_r.
  - exact HD.
  - intros HC. rewrite <- (file_pieces_newlines _ old po wo), <- (file_pieces_newlines _ new pn wn) by (done || apply Hin).
    rewrite <- DO1, <- DN1, <- DO2, <- DN2. apply (counted_run opt _ 0 0); try done.
    rewrite DO1, DN1. apply (rs_fits M MS opt _ _ _ _ _ _ _ _ _ _ _ R).
  - eapply bracketed_app; [apply bracketed_rule|apply bracketed_render].
  - by apply render_marks_ok.
Qed.




(** C18: with --context exactly the lines are printed that are not farther from
    a change than the number of context lines; between such groups a rule is
    printed.  The lines are those of the marks; without other decorations they
    have the text of the rendering.  Of the last line the newline may be
    missing. *)
Theorem dwdiff_near_changes old new k s d : usable old new -> o_context opt = true -> 0 <= o_contextLines opt ->
  o_lineNumbers opt = 0 -> o_needMarkers opt = false -> cout k = initContextBuffers (o_contextLines opt) ->
  stopped opt (run old new k s d) \/
  exists p ms nl, run old new k s d = ret p /\ shows old new k p ms /\ (nl = [] \/ nl = [10]) /\
    in_context (o_contextLines opt) 0 false false (all_lines (items_of_emissions (emits opt ms (dstate_of k)).1))
      = output (cout (pcore p)) ++ nl /\
    (undecorated opt -> emissions_text opt (emits opt ms (dstate_of k)).1 = plain opt ms).
Proof.
  intros Hin Hc HC HL HR Hk.
  assert (out_ok opt (cout k)) as Hok by (right; rewrite Hk; split; [done|split; [done|apply init_ring; done]]).
  destruct (run_shows old new k s d Hin Hok) as [?|(p & ms & Hp & Hs & Hms)]; [by left|right].
  unfold rule_marks in *. rewrite HR in Hs. simpl in Hs. destruct (sh_drawn _ _ _ _ _ Hs) as [_ HD]. rewrite Hk in HD.
  destruct (performs_in_context opt _ _ Hc HC (emits_items opt ms (dstate_of k) HL HR (rm_ok _ Hms)) HD) as (nl & Hnl & Hlines).
  exists p, ms, nl. split; [done|]. split; [done|]. split; [done|]. split; [done|]. intros HU. by apply emits_plain.
Qed.

(** C19: with --printer or --less, in a mode of single bytes, characters are only
    overstruck: if nothing in the text of the run is a backspace, then the
    output is that text once the backspaces have taken back what was overstruck. *)
Theorem dwdiff_overstrike old new k s d : (forall c : Char', char_ok c -> exists b, char_text c = [b]) ->
  usable old new -> o_context opt = false -> one_output opt -> only_struck opt -> output (cout k) = [] ->
  stopped opt (run old new k s d) \/
  exists p ms, run old new k s d = ret p /\ shows old new k p ms /\
    (8 ∉ plain opt ms -> unstrike (output (cout (pcore p))) = plain opt ms).
Proof.
  intros H1 Hin Hc H1o Ho Hk. destruct (run_shows old new k s d Hin (or_introl Hc)) as [?|(p & ms & Hp & Hs & Hms)]; [by left|right].
  exists p, (rule_marks opt false ++ ms). split; [done|]. split; [done|]. destruct (sh_drawn _ _ _ _ _ Hs) as [_ HD].
  rewrite performs_text in HD by (done || (apply emits_one_stream; [done|apply Hms])). injection HD as <-. simpl. rewrite Hk. simpl. intros H8. apply unstrike_struck.
  rewrite emits_app. cbn [fst]. rewrite emissions_text_app. rewrite plain_app in H8 |- *. apply not_elem_of_app in H8 as [H8 H9]. apply struck_app.
  - unfold rule_marks in *. destruct (o_needMarkers opt); [|constructor]. unfold plain, emissions_text in *. cbn in *. by apply struck_text.
  - apply emits_struck; try done. apply Hms.
Qed.
End Runs.

(** ** Examples *)

Local Existing Instance SCReader.

Abbreviation example_shows := (shows (RC := SCChars) (RS := SCSpec) example_mode example_spec).

(** Red and green, with markers that are repeated on every line. *)
Definition colour_options : options :=
  Options [91; 45] [45; 93] [123; 43] [43; 125] [27; 91; 51; 49; 109] [27; 91; 51; 50; 109] true true true false true false false true
    0 false 0 2 false true [80] true true true false true.



(** After a carriage return inside a changed line ("a", return, "b" deleted) the
    stop marker has been written, and what follows is not marked. *)
Example lone_return : match example_dwdiff colour_options [97; 13; 98] [] with
  | Some (Ok p) => output (cout (pcore p)) =
      [27; 91; 51; 49; 109] ++ [91; 45; 97; 45; 93] ++ [27; 91; 75] ++ [13; 98; 45; 93] ++ [27; 91; 48; 109]
  | _ => False end.
Proof. vm_compute. reflexivity. Qed.



(** One line before and behind a change. *)
Definition near_options : options :=
  Options [91; 45] [45; 93] [123; 43] [43; 125] [] [] true true true false true false false false
    0 true 1 0 false false [] false false false false true.

(** Six lines, of which the third is changed. *)
Definition six_lines (c : Z) : list Z := [97; 10; 98; 10; c; 10; 100; 10; 101; 10; 102; 10].

Lemma dwdiff_near_changes_witness : exists p ms nl,
  dwdiff example_mode near_options zero_memory (six_lines 99) (six_lines 120) (initial_core 1) no_statistics 0 = ret p /\
  example_shows near_options (six_lines 99) (six_lines 120) (initial_core 1) p ms /\ (nl = [] \/ nl = [10]) /\
  in_context 1 0 false false (all_lines (items_of_emissions (emits near_options ms (dstate_of (initial_core 1))).1))
    = output (cout (pcore p)) ++ nl /\
  (undecorated near_options -> emissions_text near_options (emits near_options ms (dstate_of (initial_core 1))).1 = plain near_options ms).
Proof.
  destruct (dwdiff_near_changes example_mode example_spec near_options zero_memory (six_lines 99) (six_lines 120)
    (initial_core 1) no_statistics 0) as [(_ & _ & H)|H]; [example_usable|reflexivity|by vm_compute|reflexivity..|by destruct H|exact H].
Defined.

(** The lines "b", the change and "d" are printed. *)
Example six_lines_output : match dwdiff example_mode near_options zero_memory (six_lines 99) (six_lines 120) (initial_core 1) no_statistics 0 with
  | Some (Ok p) => output (cout (pcore p)) = [98; 10; 91; 45; 99; 45; 93; 32; 123; 43; 120; 43; 125; 10; 100; 10]
  | _ => False end.
Proof. vm_compute. reflexivity. Qed.

Definition less_options : options :=
  Options [] [] [] [] [] [] true true true false false false true false
    0 false 0 0 false false [] false false false false true.

Lemma dwdiff_overstrike_witness : exists p ms, example_dwdiff less_options example_old example_new = ret p /\
  example_shows less_options example_old example_new (initial_core 0) p ms /\
  (8 ∉ plain less_options ms -> unstrike (output (cout (pcore p))) = plain less_options ms).
Proof.
  destruct (dwdiff_overstrike example_mode example_spec less_options zero_memory example_old example_new
    (initial_core 0) no_statistics 0) as [(_ & _ & H)|H];
    [intros c _; by exists c|example_usable|reflexivity|by left|by repeat split|reflexivity|by destruct H|exact H].
Defined.

(** "b" is underlined, "x" and "c" are doubled. *)
Example less_output : match example_dwdiff less_options example_old example_new with
  | Some (Ok p) => output (cout (pcore p)) = [97; 32; 95; 8; 98; 32; 120; 8; 120; 32; 99; 8; 99]
  | _ => False end.
Proof. vm_compute. reflexivity. Qed.

(** The marker "<", a newline, ">" for paragraphs: what follows its newline has
    no line number, which is why [dwdiff_numbered] asks for a marker on one
    line. *)
Definition two_line_options : options :=
  Options [] [] [] [] [] [] true true true false false false false false
    2 false 0 0 false true [60; 10; 62] true false false false true.

Example marker_newline : match example_dwdiff two_line_options example_paragraphs [97; 98] with
  | Some (Ok p) => output (cout (pcore p)) =
      [32; 49; 58; 49; 32; 32; 97; 10;  32; 50; 58; 49; 32; 32; 60; 10;  62; 10;  32; 51; 58; 49; 32; 32; 98; 97; 98]
  | _ => False end.
Proof. vm_compute. reflexivity. Qed.

(** Only deleted words, with --context and paragraphs: the marker of a deleted
    paragraph is written as common text, so its line is not near a change and
    is missing.  A deleted word is there. *)
Definition deleted_options : options :=
  Options [] [] [] [] [] [] true false false true false false false false
    0 true 1 0 false true [80] true false false false true.

Abbreviation deleted_run old new := (dwdiff example_mode deleted_options zero_memory old new (initial_core 1) no_statistics 0).

Example deleted_paragraph_hidden : match deleted_run [97; 10; 10; 98; 10] [97; 10; 98; 10] with
  | Some (Ok p) => differences p = 1 /\ output (cout (pcore p)) = marker_line ++ [10] ++ marker_line
  | _ => False end.
Proof. vm_compute. split; reflexivity. Qed.

(** So it is with start and stop markers, which are written but do not make a
    line a changed one. *)
Example deleted_paragraph_marked :
  match dwdiff example_mode (Options [91; 45] [45; 93] [123; 43] [43; 125] [] [] true true true false true false false false
    0 true 1 0 false true [80] false false false false true) zero_memory [97; 10; 10; 98; 10] [97; 10; 98; 10] (initial_core 1) no_statistics 0 with
  | Some (Ok p) => differences p = 1 /\ output (cout (pcore p)) = []
  | _ => False end.
Proof. vm_compute. split; reflexivity. Qed.

Example deleted_word_shown : match deleted_run [97; 10; 99; 10; 98; 10] [97; 10; 98; 10] with
  | Some (Ok p) => output (cout (pcore p)) = marker_line ++ [10; 99; 10] ++ marker_line
  | _ => False end.
Proof. vm_compute. reflexivity. Qed.
