(* ===== verification/TempFile.v ===== *)
(** * tempfile.c: the table of temporary files

    There are six slots.  Reading two files takes four of them, and splitting
    a diff two more, until [resetTempFiles] removes all files and empties the
    table.  The file system is the list of the files that exist; the name that
    mkstemp(3) chooses is a parameter. *)

From S2P Require Import Prelude EditScript Tokenizer.

Definition name := list Z.

(** The number of slots in [files]. *)
Definition MAX_FILES : Z := 6.

(** [stream_open] tells whether the stream is there and has not been closed. *)
Record TempFile := MkTempFile {
  file_name : name;
  stream_open : bool;
  closed : bool
}.

Record tempfiles := TempFiles {
  files : list TempFile;       (* the slots below openIndex *)
  disk : list name             (* the files that exist *)
}.

Definition openIndex (t : tempfiles) : Z := zlen (files t).

Definition too_many_files : positive := 13.
Definition double_close : positive := 14.

Section Temp.
(** mkstemp(3): the name of a new file, given the files that exist. *)
Context (mkstemp : list name -> name).

(** A new temporary file; its slot is the last one. *)
Definition tempFile (t : tempfiles) : result tempfiles :=
  if openIndex t <? MAX_FILES then
    let n := mkstemp (disk t) in
    Ok (TempFiles (files t ++ [MkTempFile n true false]) (n :: disk t))
  else Fatal too_many_files.

(** Closing the slot; closing a stream that is not open would be an error. *)
Definition close_slot (f : TempFile) : result TempFile :=
  if closed f then Ok f
  else if stream_open f then Ok (MkTempFile (file_name f) false true)
  else Fatal double_close.

Definition closeTempFile (i : nat) (t : tempfiles) : result tempfiles :=
  match files t !! i with
  | Some f => let* f := close_slot f in Ok (TempFiles (<[i := f]> (files t)) (disk t))
  | None => Fatal double_close
  end.

(** remove(3) *)
Definition remove (n : name) (d : list name) : list name := filter (fun m => m <> n) d.

Fixpoint reset_loop (fs : list TempFile) (d : list name) : result (list name) :=
  match fs with
  | [] => Ok d
  | f :: fs' => let* f := close_slot f in reset_loop fs' (remove (file_name f) d)
  end.

Definition resetTempFiles (t : tempfiles) : result tempfiles :=
  let* d := reset_loop (files t) (disk t) in Ok (TempFiles [] d).

(** ** The use of the files *)

Inductive file_op :=
  | OpenTemp
  | CloseTemp (i : nat)
  | ResetTemp.

Definition run_op (op : file_op) (t : tempfiles) : result tempfiles :=
  match op with
  | OpenTemp => tempFile t
  | CloseTemp i => closeTempFile i t
  | ResetTemp => resetTempFiles t
  end.

Fixpoint run_ops (ops : list file_op) (t : tempfiles) : result tempfiles :=
  match ops with
  | [] => Ok t
  | op :: ops' => let* t := run_op op t in run_ops ops' t
  end.

(** [prepareAndExecuteDiff]: a token and a whitespace file for either input. *)
Definition diff_files : list file_op := replicate 4 OpenTemp.

(** What [splitDiffInput] does with temporary files for its events; the two
    files of the hunk are in the first two slots.  [last] says that nothing
    follows. *)
Definition hunk_files (last : bool) : list file_op :=
  [CloseTemp 0; CloseTemp 1] ++ diff_files ++ (if last then [] else [ResetTemp; OpenTemp; OpenTemp]).

Fixpoint split_files (events : list diff_event) : list file_op :=
  match events with
  | [] => []
  | PutChar _ :: events' => split_files events'
  | Compare _ _ :: events' => hunk_files (bool_decide (events' = [])) ++ split_files events'
  end.

(** A whole run, with or without [option.diffInput]. *)
Definition program_files (diffInput : bool) (input : list Z) : list file_op :=
  if diffInput then [OpenTemp; OpenTemp] ++ split_files (splitDiffInput input) else diff_files.

(** A run that ends after the first [steps] of its operations, or all of them:
    through [main] or through [fatal], with the cleanup at exit. *)
Definition run_files (steps : nat) (diffInput : bool) (input : list Z) (disk0 : list name) : result tempfiles :=
  let* t := run_ops (take steps (program_files diffInput input)) (TempFiles [] disk0) in
  resetTempFiles t.
End Temp.

(** ** The slots suffice, and nothing is left on the disk *)

Section TempProofs.
Context (mkstemp : list name -> name) (fresh_name : forall d, mkstemp d ∉ d) (disk0 : list name).

Definition good (f : TempFile) : Prop := closed f = true \/ stream_open f = true.

Record temp_ok (t : tempfiles) (n : nat) : Prop := {
  to_disk : disk t = reverse (file_name <$> files t) ++ disk0;
  to_new : Forall (fun f => file_name f ∉ disk0) (files t);
  to_good : Forall good (files t);
  to_count : length (files t) = n
}.

Lemma tempFile_spec t n : temp_ok t n -> (n < 6)%nat -> exists t', tempFile mkstemp t = Ok t' /\ temp_ok t' (S n).
Proof.
  intros [H1 H2 H3 H4] Hn. unfold tempFile, openIndex, MAX_FILES. rewrite (proj2 (Z.ltb_lt _ _)) by lia.
  eexists. split; [reflexivity|]. split; simpl.
  - rewrite fmap_app, reverse_app, H1. done.
  - apply Forall_app. split; [done|]. constructor; [|done]. simpl. intros Hin. apply (fresh_name (disk t)).
    rewrite H1 in Hin |- *. apply elem_of_app. by right.
  - apply Forall_app. split; [done|]. apply Forall_singleton. by right.
  - rewrite length_app. simpl. lia.
Qed.

Lemma close_slot_spec f : good f -> exists f', close_slot f = Ok f' /\ good f' /\ file_name f' = file_name f.
Proof.
  intros Hg. unfold close_slot. destruct (closed f) eqn:Ec; [exists f; by split; [|split]|].
  destruct Hg as [?|Ho]; [congruence|]. rewrite Ho. eexists. split; [reflexivity|]. split; [by left|done].
Qed.

Lemma closeTempFile_spec i t n : temp_ok t n -> (i < n)%nat -> exists t', closeTempFile i t = Ok t' /\ temp_ok t' n.
Proof.
  intros [H1 H2 H3 H4] Hi. unfold closeTempFile.
  destruct (lookup_lt_is_Some_2 (files t) i) as [f Hf]; [lia|]. rewrite Hf.
  destruct (close_slot_spec f) as (f' & -> & Hg & Hn); [by eapply Forall_lookup_1 in H3|]. cbn [rbind].
  eexists. split; [reflexivity|]. split; simpl.
  - rewrite list_fmap_insert, Hn, list_insert_id; [done|]. rewrite list_lookup_fmap, Hf. done.
  - apply Forall_insert; [done|]. rewrite Hn. by eapply Forall_lookup_1 in H2.
  - by apply Forall_insert.
  - by rewrite length_insert.
Qed.

Lemma reset_loop_spec fs d : Forall good fs -> reset_loop fs d = Ok (filter (fun m => m ∉ file_name <$> fs) d).
Proof.
  intros Hg. revert d. induction Hg as [|f fs Hf Hg IH]; intros d.
  - simpl. f_equal. induction d as [|m d IHd]; [done|]. rewrite filter_cons_True by (apply not_elem_of_nil). by rewrite <- IHd.
  - simpl. destruct (close_slot_spec f Hf) as (f' & -> & _ & Hn). cbn [rbind]. rewrite IH, Hn. f_equal.
    unfold remove. rewrite list_filter_filter. apply list_filter_iff. intros m. rewrite not_elem_of_cons. tauto.
Qed.

Lemma resetTempFiles_spec t n : temp_ok t n -> resetTempFiles t = Ok (TempFiles [] disk0).
Proof.
  intros [H1 H2 H3 H4]. unfold resetTempFiles. rewrite reset_loop_spec by done. cbn [rbind]. do 2 f_equal.
  rewrite H1, filter_app.
  assert (filter (fun m => m ∉ file_name <$> files t) (reverse (file_name <$> files t)) = []) as ->.
  { apply filter_none. apply Forall_forall. intros m Hm. intros Hn. apply Hn. revert Hm. by rewrite elem_of_reverse. }
  simpl. apply filter_all. apply Forall_forall. intros m Hm Hin. apply list_elem_of_fmap in Hin as (f & -> & Hf).
  rewrite Forall_forall in H2. by apply (H2 f).
Qed.

(** How many slots are used after some operations, if they are in order. *)
Fixpoint slots (ops : list file_op) (n : nat) : option nat :=
  match ops with
  | [] => Some n
  | OpenTemp :: ops' => if bool_decide (n < 6)%nat then slots ops' (S n) else None
  | CloseTemp i :: ops' => if bool_decide (i < n)%nat then slots ops' n else None
  | ResetTemp :: ops' => slots ops' 0
  end.

Lemma slots_app a b n : slots (a ++ b) n = slots a n ≫= slots b.
Proof. revert n. induction a as [|[|i|] a IH]; intros n; simpl; [done|..]; [case_bool_decide; [apply IH|done]..|apply IH]. Qed.

Lemma run_ops_spec ops n m t : temp_ok t n -> slots ops n = Some m -> exists t', run_ops mkstemp ops t = Ok t' /\ temp_ok t' m.
Proof.
  revert n t. induction ops as [|[|i|] ops IH]; intros n t Ht Hs; simpl in *.
  - injection Hs as <-. by exists t.
  - case_bool_decide; [|done]. destruct (tempFile_spec t n Ht) as (t1 & -> & Ht1); [done|]. by apply (IH (S n)).
  - case_bool_decide; [|done]. destruct (closeTempFile_spec i t n Ht) as (t1 & -> & Ht1); [done|]. by apply (IH n).
  - rewrite (resetTempFiles_spec t n Ht). cbn [rbind]. by apply (IH 0%nat).
Qed.

Lemma split_files_slots events o n : slots (split_files (events ++ [Compare o n])) 2 = Some 6%nat.
Proof.
  induction events as [|[c|o' n'] events IH]; [done|exact IH|]. cbn [app split_files]. rewrite bool_decide_eq_false_2 by (by destruct events).
  rewrite slots_app. exact IH.
Qed.

Lemma splitDiffInput_last input : exists events o n, splitDiffInput input = events ++ [Compare o n].
Proof. unfold splitDiffInput. by eexists _, _, _. Qed.

Lemma program_files_slots diffInput input : is_Some (slots (program_files diffInput input) 0).
Proof.
  destruct diffInput; [|by eexists]. destruct (splitDiffInput_last input) as (events & o & n & E).
  unfold program_files. rewrite E, slots_app. cbn [slots mbind option_bind]. rewrite !bool_decide_eq_true_2 by lia. cbn [mbind option_bind]. rewrite split_files_slots. by eexists.
Qed.

(** C30: with fresh names from mkstemp, no run, whatever its input, ever needs more than
    six temporary files or closes one twice, and at the end exactly the files
    that existed before are left, wherever the run ends, through [main] or
    [fatal]. *)
Theorem temp_files_ok steps diffInput input : run_files mkstemp steps diffInput input disk0 = Ok (TempFiles [] disk0).
Proof using fresh_name.
  unfold run_files. destruct (program_files_slots diffInput input) as [m Hm].
  rewrite <- (take_drop steps (program_files diffInput input)), slots_app in Hm. apply bind_Some in Hm as (k & Hk & _).
  destruct (run_ops_spec _ 0 k (TempFiles [] disk0) ltac:(by split) Hk) as (t & -> & Ht). by apply resetTempFiles_spec with k.
Qed.
End TempProofs.

(** Names that are longer than all others. *)
Definition longer_name (d : list name) : name := replicate (S (max_list (length <$> d))) 88.

Lemma longer_name_fresh d : longer_name d ∉ d.
Proof.
  intros Hin. assert (forall (m : name) l, m ∈ l -> (length m <= max_list (length <$> l))%nat) as Hmax.
  { intros m l. induction l as [|x l IH]; [by intros ?%not_elem_of_nil|].
    change (max_list (length <$> x :: l)) with (length x `max` max_list (length <$> l))%nat. intros [->|Hm]%elem_of_cons; [lia|]. specialize (IH Hm). lia. }
  apply Hmax in Hin. unfold longer_name in Hin. rewrite length_replicate in Hin. lia.
Qed.

(** A header line, a hunk and another header: a run that ends in the hunk. *)
Lemma temp_files_ok_witness :
  run_files longer_name 9 true [64; 10; 45; 97; 10; 43; 98; 10; 64; 10] [[47; 120]] = Ok (TempFiles [] [[47; 120]]).
Proof. apply temp_files_ok. exact longer_name_fresh. Defined.
