(* ===== verification/OptionMacros.v ===== *)
(** * optionMacros.h: parsing of command lines

    The macros build a function that goes through [argv] and runs the code of
    the option that matches.  Here the function is [parse_args], for a table
    of options and handlers.  The strings are lists of bytes without the final
    null byte.  The build defines OPTION_STRDUP as strdupA: the letters after
    the first one of an element of [argv] are parsed in a copy, which
    END_OPTIONS frees after the last letter. *)

From S2P Require Import Prelude EditScript.

Inductive ArgType := SHORT | LONG.
Inductive ArgReq := NO_ARG | OPTIONAL_ARG | REQUIRED_ARG.

#[export] Instance ArgReq_eq_dec : EqDecision ArgReq.
Proof. solve_decision. Defined.

Definition dash : Z := 45.
Definition equals : Z := 61.

(** Messages of [CHECK_ARG]. *)
Definition takes_no_argument : positive := 15.
Definition requires_argument : positive := 16.

(** What a handler does next: go on, treat the rest as operands
    (NO_MORE_OPTIONS), or leave the loop (STOP_OPTION_PROCESSING). *)
Inductive control := Continue | NoMoreOptions | StopProcessing.

(** An argument, and whether it lies in the copy of an element of [argv] that
    is freed when the handler returns. *)
Record optarg := Arg {
  arg_text : list Z;
  arg_freed : bool
}.
(** An argument that stays. *)
Definition kept (l : list Z) : optarg := Arg l false.

(** The characters before the first '=', and those after it if there is one. *)
Fixpoint split_equals (l : list Z) : list Z * option (list Z) :=
  match l with
  | [] => ([], None)
  | c :: l' =>
      if c =? equals then ([], Some l')
      else let '(name, value) := split_equals l' in (c :: name, value)
  end.

Section Parser.
Context {Opt S : Type}.

(** OPTION, SHORT_OPTION and LONG_OPTION, in the order of the source. *)
Record opt_spec := OptSpec {
  opt_id : Opt;
  shortName : option Z;
  longName : option (list Z);
  argReq : ArgReq
}.

Context (specs : list opt_spec).
(** The code between OPTION and END_OPTION, given the argument and [optargind]. *)
Context (handle : Opt -> option optarg -> Z -> S -> result (S * control)).
(** The code after the last option, and that after NO_OPTION. *)
Context (unknown : S -> result (S * control)) (operand : list Z -> Z -> S -> result (S * control)).

Definition find_short (c : Z) : option opt_spec :=
  find (fun s => bool_decide (shortName s = Some c)) specs.
Definition find_long (n : list Z) : option opt_spec :=
  find (fun s => bool_decide (longName s = Some n)) specs.

(** [CHECK_ARG] for a required argument: the argument and whether it was the
    next element of [argv]. *)
Definition required (optArg : option optarg) (rest : list (list Z)) : result (optarg * bool) :=
  match optArg, rest with
  | Some a, _ => Ok (a, false)
  | None, a :: _ => Ok (kept a, true)
  | None, [] => Fatal requires_argument
  end.

(** The result of one element of [argv]: the state, the control, and whether
    the next element was used as an argument. *)
Definition step_result : Type := (S * control * bool)%type.

(** A handler that is run for an element at [ind], after [used]. *)
Definition run_option (s : opt_spec) (optArg : option optarg) (used : bool) (ind : Z) (st : S) : result step_result :=
  let* (st, c) := handle (opt_id s) optArg (if used then ind + 1 else ind) st in
  Ok (st, c, used).

(** A long option. *)
Definition long_option (arg : list Z) (rest : list (list Z)) (ind : Z) (st : S) : result step_result :=
  let '(name, value) := split_equals (drop 2 arg) in
  let optArg := kept <$> value in
  match find_long name with
  | None => let* (st, ctl) := unknown st in Ok (st, ctl, false)
  | Some s =>
      match argReq s with
      | NO_ARG => if bool_decide (optArg = None) then run_option s None false ind st else Fatal takes_no_argument
      | OPTIONAL_ARG => run_option s optArg false ind st
      | REQUIRED_ARG => let* (a, used) := required optArg rest in run_option s (Some a) used ind st
      end
  end.

(** Short options, one after the other; [chars] follows the dash, and [copy]
    tells that it belongs to the copy.  A dash alone is the option whose name
    is the null byte. *)
Fixpoint short_options (copy : bool) (chars : list Z) (rest : list (list Z)) (ind : Z) (st : S) : result step_result :=
  let c := default 0 (head chars) in
  let optArg := match chars with _ :: _ :: _ => Some (Arg (tail chars) copy) | _ => None end in
  match find_short c with
  | None => let* (st, ctl) := unknown st in Ok (st, ctl, false)
  | Some s =>
      match argReq s with
      | NO_ARG =>
          let* (st, ctl, used) := run_option s None false ind st in
          match chars, ctl with
          | _ :: _ :: _, StopProcessing => Ok (st, ctl, used)
          | _ :: ((_ :: _) as more), _ =>
              let* (st, ctl', used) := short_options true more rest ind st in
              Ok (st, match ctl, ctl' with NoMoreOptions, Continue => NoMoreOptions | _, _ => ctl' end, used)
          | _, _ => Ok (st, ctl, used)
          end
      | OPTIONAL_ARG => run_option s optArg false ind st
      | REQUIRED_ARG => let* (a, used) := required optArg rest in run_option s (Some a) used ind st
      end
  end.

Definition one_argument (arg : list Z) (rest : list (list Z)) (nomore : bool) (ind : Z) (st : S) : result step_result :=
  match arg with
  | c :: more =>
      if (c =? dash) && negb nomore then
        match more with
        | d :: _ => if d =? dash then long_option arg rest ind st else short_options false more rest ind st
        | [] => short_options false more rest ind st
        end
      else let* (st, ctl) := operand arg ind st in Ok (st, ctl, false)
  | [] => let* (st, ctl) := operand arg ind st in Ok (st, ctl, false)
  end.

Fixpoint parse_loop (args : list (list Z)) (ind : Z) (nomore : bool) (st : S) : result S :=
  match args with
  | [] => Ok st
  | arg :: rest =>
      let* (st, ctl, used) := one_argument arg rest nomore ind st in
      let nomore := nomore || match ctl with NoMoreOptions => true | _ => false end in
      match ctl, used, rest with
      | StopProcessing, _, _ => Ok st
      | _, true, _ :: rest' => parse_loop rest' (ind + 2) nomore st
      | _, _, _ => parse_loop rest (ind + 1) nomore st
      end
  end.

(** The elements of [argv] from [argv[1]] on. *)
Definition parse_args (args : list (list Z)) (st : S) : result S := parse_loop args 1 false st.
End Parser.
Arguments opt_spec : clear implicits.
Arguments OptSpec {Opt}.

(** ** What the parser does with well-formed command lines *)

Section ParserProofs.
Context {Opt S : Type} (specs : list (opt_spec Opt)).
Context (handle : Opt -> option optarg -> Z -> S -> result (S * control)).
Context (unknown : S -> result (S * control)) (operand : list Z -> Z -> S -> result (S * control)).
Abbreviation parse := (parse_args specs handle unknown operand).
Abbreviation loop := (parse_loop specs handle unknown operand).

(** The handlers do not look at the position of their option. *)
Context (Hhandle : forall o a i j st, handle o a i st = handle o a j st).
Context (Hoperand : forall a i j st, operand a i st = operand a j st).

Lemma run_option_pos s a u u' i j st :
  run_option handle s a u i st = let* (st, c, _) := run_option handle s a u' j st in Ok (st, c, u).
Proof.
  unfold run_option. rewrite (Hhandle _ _ (if u then i + 1 else i) (if u' then j + 1 else j)).
  by destruct (handle (opt_id s) a (if u' then j + 1 else j) st) as [[? ?]|].
Qed.

Lemma long_option_pos arg rest i j st :
  long_option specs handle unknown arg rest i st = long_option specs handle unknown arg rest j st.
Proof.
  unfold long_option. destruct (split_equals (drop 2 arg)) as [n a]. destruct (find_long specs n) as [s|]; [|done].
  destruct (argReq s); unfold run_option.
  - destruct (bool_decide _); [|done]. by rewrite (Hhandle _ _ i j).
  - by rewrite (Hhandle _ _ i j).
  - destruct (required _ rest) as [[? u]|]; simpl; [|done]. by rewrite (Hhandle _ _ (if u then i + 1 else i) (if u then j + 1 else j)).
Qed.

(** One letter with others behind it. *)
Definition then_more (more : list Z) (rest : list (list Z)) (ind : Z) (r : result (S * control * bool)) :=
  let* (st, ctl, used) := r in
  match ctl with
  | StopProcessing => Ok (st, ctl, used)
  | _ =>
      let* (st, ctl', used) := short_options specs handle unknown true more rest ind st in
      Ok (st, match ctl, ctl' with NoMoreOptions, Continue => NoMoreOptions | _, _ => ctl' end, used)
  end.

Lemma short_options_more copy c d more rest ind st :
  short_options specs handle unknown copy (c :: d :: more) rest ind st =
    match find_short specs c with
    | None => let* (st, ctl) := unknown st in Ok (st, ctl, false)
    | Some s =>
        match argReq s with
        | NO_ARG => then_more (d :: more) rest ind (run_option handle s None false ind st)
        | OPTIONAL_ARG => run_option handle s (Some (Arg (d :: more) copy)) false ind st
        | REQUIRED_ARG => let* (a, used) := required (Some (Arg (d :: more) copy)) rest in run_option handle s (Some a) used ind st
        end
    end.
Proof.
  cbn [short_options head tail]. simpl (default 0 (Some c)). destruct (find_short specs c) as [s|]; [|done].
  destruct (argReq s); [|done|done]. unfold then_more. destruct (run_option handle s None false ind st) as [[[st1 ctl] used]|]; [|done].
  cbn [rbind]. by destruct ctl.
Qed.

Lemma short_options_last copy chars rest ind st : (length chars <= 1)%nat ->
  short_options specs handle unknown copy chars rest ind st =
    match find_short specs (default 0 (head chars)) with
    | None => let* (st, ctl) := unknown st in Ok (st, ctl, false)
    | Some s =>
        match argReq s with
        | NO_ARG => run_option handle s None false ind st
        | OPTIONAL_ARG => run_option handle s None false ind st
        | REQUIRED_ARG => let* (a, used) := required None rest in run_option handle s (Some a) used ind st
        end
    end.
Proof.
  intros Hl. destruct chars as [|c [|d chars]]; simpl in Hl; [| |lia]; cbn [short_options head tail];
    (destruct (find_short specs _) as [s|]; [|done]); (destruct (argReq s); [|done|done]);
    destruct (run_option handle s None false ind st) as [[[st1 ctl] used]|]; try done; cbn [rbind]; by destruct ctl.
Qed.

Lemma short_options_pos copy chars rest i j st :
  short_options specs handle unknown copy chars rest i st = short_options specs handle unknown copy chars rest j st.
Proof.
  assert (forall s a st, run_option handle s a false i st = run_option handle s a false j st) as Hrun.
  { intros s a st0. unfold run_option. by rewrite (Hhandle _ _ i j). }
  assert (forall s r st, (let* (a, used) := r in run_option handle s (Some a) used i st) =
    (let* (a, used) := r in run_option handle s (Some a) used j st)) as Hreq.
  { intros s [[a u]|] st0; [|done]. cbn [rbind]. unfold run_option. by rewrite (Hhandle _ _ (if u then i + 1 else i) (if u then j + 1 else j)). }
  revert copy st. induction chars as [|c [|d chars] IH]; intros copy st.
  - rewrite !short_options_last by (simpl; lia). destruct (find_short specs _) as [s|]; [|done]. by destruct (argReq s); rewrite ?Hrun, ?Hreq.
  - rewrite !short_options_last by (simpl; lia). destruct (find_short specs _) as [s|]; [|done]. by destruct (argReq s); rewrite ?Hrun, ?Hreq.
  - rewrite !short_options_more. destruct (find_short specs c) as [s|]; [|done]. destruct (argReq s); [|by rewrite Hrun|by rewrite Hreq].
    rewrite Hrun. unfold then_more. destruct (run_option handle s None false j st) as [[[st1 ctl] used]|]; [|done]. cbn [rbind].
    by rewrite IH.
Qed.

Lemma loop_pos n args i j nomore st : (length args <= n)%nat -> loop args i nomore st = loop args j nomore st.
Proof.
  revert args i j nomore st. induction n as [|n IH]; intros [|arg rest] i j nomore st Hn; simpl in Hn; try lia; try done.
  cbn [parse_loop].
  assert (one_argument specs handle unknown operand arg rest nomore i st = one_argument specs handle unknown operand arg rest nomore j st) as ->.
  { unfold one_argument. destruct arg as [|c more]; [by rewrite (Hoperand _ i j)|]. destruct (_ && _); [|by rewrite (Hoperand _ i j)].
    destruct more as [|d more]; [apply short_options_pos|]. destruct (d =? dash); [apply long_option_pos|apply short_options_pos]. }
  destruct (one_argument _ _ _ _ arg rest nomore j st) as [[[st1 ctl] used]|]; [|done]. cbn [rbind].
  destruct ctl, used, rest as [|a rest']; simpl in Hn; try done; apply IH; simpl; lia.
Qed.

(** Letters of options without an argument, whose handlers just go on. *)
Definition flag_letter (c : Z) : Prop :=
  exists s, find_short specs c = Some s /\ argReq s = NO_ARG /\
    forall i st, match handle (opt_id s) None i st with Ok (_, ctl) => ctl = Continue | Fatal _ => True end.

Lemma flag_run c s i st : flag_letter c -> find_short specs c = Some s ->
  run_option handle s None false i st = let* (st, _) := handle (opt_id s) None i st in Ok (st, Continue, false).
Proof.
  intros (s' & Hs & _ & Hc) Hs'. assert (s' = s) as -> by congruence. unfold run_option. specialize (Hc i st).
  destruct (handle (opt_id s) None i st) as [[st1 ctl]|]; [|done]. cbn [rbind]. by rewrite Hc.
Qed.

Lemma one_short c more rest i st : c <> dash ->
  one_argument specs handle unknown operand (dash :: c :: more) rest false i st =
    short_options specs handle unknown false (c :: more) rest i st.
Proof. intros Hc. unfold one_argument. rewrite Z.eqb_refl. cbn [andb negb]. by rewrite (proj2 (Z.eqb_neq c dash)). Qed.

(** Such letters have no argument that could be in the copy. *)
Lemma short_flags copy copy' chars rest i st : Forall flag_letter chars ->
  short_options specs handle unknown copy chars rest i st = short_options specs handle unknown copy' chars rest i st.
Proof.
  intros Hc. destruct chars as [|c [|d chars]].
  - by rewrite !short_options_last by (simpl; lia).
  - by rewrite !short_options_last by (simpl; lia).
  - rewrite !short_options_more. apply Forall_cons in Hc as [(s & Hs & Hr & _) _]. by rewrite Hs, Hr.
Qed.

Lemma bundle_loop c cs rest i st : flag_letter c -> c <> dash -> Forall flag_letter cs -> Forall (fun c => c <> dash) cs ->
  loop ((dash :: c :: cs) :: rest) i false st = loop (((fun c => [dash; c]) <$> (c :: cs)) ++ rest) i false st.
Proof.
  intros Hc Hd Hcs. revert c i st Hc Hd. induction Hcs as [|d cs Hd Hcs IH]; intros c i st Hc Hcd Hds; [done|].
  apply Forall_cons in Hds as [Hdd Hds]. pose proof Hc as (s & Hs & Hr & _).
  change (((fun c => [dash; c]) <$> (c :: d :: cs)) ++ rest) with ([dash; c] :: (((fun c => [dash; c]) <$> (d :: cs)) ++ rest)).
  cbn [parse_loop]. rewrite !one_short, short_options_more, short_options_last, Hs by (done || simpl; lia).
  change (default 0 (head [c])) with c. rewrite ?Hs, Hr, (flag_run c s i st Hc Hs). destruct (handle (opt_id s) None i st) as [[st1 ctl]|]; [|done]. cbn [rbind then_more orb].
  rewrite (loop_pos _ _ (i + 1) i _ _ (le_n _)), <- (IH d i st1 Hd Hdd Hds). cbn [parse_loop]. rewrite one_short by done.
  rewrite (short_flags false true) by (by constructor). destruct (short_options specs handle unknown true (d :: cs) rest i st1) as [[[st2 ctl2] used]|]; [|done]. by destruct ctl2.
Qed.

(** Options without an argument can be given together behind one dash or
    one by one. *)
Theorem options_bundled c cs rest st : flag_letter c -> c <> dash -> Forall flag_letter cs -> Forall (fun c => c <> dash) cs ->
  parse ((dash :: c :: cs) :: rest) st = parse (((fun c => [dash; c]) <$> (c :: cs)) ++ rest) st.
Proof. apply bundle_loop. Qed.

Lemma split_equals_name n v : equals ∉ n -> split_equals (n ++ equals :: v) = (n, Some v) /\ split_equals n = (n, None).
Proof.
  induction n as [|c n IH]; intros Hn; simpl; [done|].
  apply not_elem_of_cons in Hn as [Hc Hn]. rewrite (proj2 (Z.eqb_neq c equals)) by done.
  by destruct (IH Hn) as [-> ->].
Qed.

(** The long form of an option, with an argument if there is one. *)
Definition long_text (n : list Z) (a : option (list Z)) : list Z :=
  dash :: dash :: n ++ match a with Some v => equals :: v | None => [] end.

Lemma long_text_parse n (a : option (list Z)) rest i st s : equals ∉ n -> find_long specs n = Some s ->
  one_argument specs handle unknown operand (long_text n a) rest false i st =
    match argReq s with
    | NO_ARG => if bool_decide (a = None) then run_option handle s None false i st else Fatal takes_no_argument
    | OPTIONAL_ARG => run_option handle s (kept <$> a) false i st
    | REQUIRED_ARG => let* (a, used) := required (kept <$> a) rest in run_option handle s (Some a) used i st
    end.
Proof.
  intros Hn Hs. unfold one_argument, long_text. change (dash =? dash) with true. cbn [andb negb]. unfold long_option. cbn [skipn]. rewrite drop_0.
  destruct a as [v|]; [destruct (split_equals_name n v Hn) as [-> _]|rewrite app_nil_r; destruct (split_equals_name n [] Hn) as [_ ->]];
    by rewrite Hs.
Qed.

(** A command line as a list of options and operands. *)
Inductive item := ItemOption (s : opt_spec Opt) (a : option (list Z)) | ItemOperand (w : list Z).

Definition item_text (it : item) : list Z :=
  match it with
  | ItemOption s a => long_text (default [] (longName s)) a
  | ItemOperand w => w
  end.

Definition run_item (it : item) (st : S) : result (S * control) :=
  match it with
  | ItemOption s a => handle (opt_id s) (kept <$> a) 1 st
  | ItemOperand w => operand w 1 st
  end.

Fixpoint run_items (its : list item) (st : S) : result S :=
  match its with
  | [] => Ok st
  | it :: its' => let* (st, _) := run_item it st in run_items its' st
  end.

Definition continues_always (r : S -> result (S * control)) : Prop :=
  forall st, match r st with Ok (_, ctl) => ctl = Continue | Fatal _ => True end.

Definition item_ok (it : item) : Prop :=
  continues_always (run_item it) /\
  match it with
  | ItemOption s a =>
      exists n, longName s = Some n /\ find_long specs n = Some s /\ (equals ∉ n) /\
        (match argReq s with NO_ARG => a = None | OPTIONAL_ARG => True | REQUIRED_ARG => a <> None end)
  | ItemOperand w => head w <> Some dash
  end.

Lemma item_parse it rest i st : item_ok it ->
  one_argument specs handle unknown operand (item_text it) rest false i st =
    let* (st, _) := run_item it st in Ok (st, Continue, false).
Proof.
  intros [Hc Hit]. specialize (Hc st). destruct it as [s a|w].
  - destruct Hit as (n & Hn & Hs & He & Hr). cbn [item_text run_item]. rewrite Hn. change (default [] (Some n)) with n.
    rewrite (long_text_parse n a rest i st s He Hs).
    assert (run_option handle s (kept <$> a) false i st = let* (st, _) := handle (opt_id s) (kept <$> a) 1 st in Ok (st, Continue, false)) as Hrun.
    { unfold run_option. rewrite (Hhandle _ _ i 1). cbn [run_item] in Hc. destruct (handle (opt_id s) (kept <$> a) 1 st) as [[st1 ctl]|]; [|done].
      cbn [rbind]. by rewrite Hc. }
    destruct (argReq s).
    + subst a. exact Hrun.
    + exact Hrun.
    + destruct a as [a|]; [exact Hrun|done].
  - simpl in *. rewrite (Hoperand w 1 i) in *. unfold one_argument.
    destruct w as [|c w]; [|simpl in Hit; rewrite (proj2 (Z.eqb_neq c dash)) by congruence; cbn [andb]];
      destruct (operand _ i st) as [[st1 ctl]|]; try done; cbn [rbind]; by rewrite Hc.
Qed.

(** A command line that spells out options in their long form and operands runs
    exactly the code of these options and operands, in order. *)
Theorem options_render its st : Forall item_ok its -> parse (item_text <$> its) st = run_items its st.
Proof.
  intros Hits. unfold parse_args. generalize 1. revert st. induction Hits as [|it its Hit Hits IH]; intros st i; [done|].
  rewrite fmap_cons. cbn [parse_loop run_items]. rewrite (item_parse it _ i st Hit).
  destruct (run_item it st) as [[st1 ctl]|]; [|done]. cbn [rbind orb]. apply IH.
Qed.

(** The four ways to give an option its required argument: attached to the
    letter, behind the letter, behind the equals sign, behind the name. *)
Theorem required_argument_forms s c n a rest st : find_short specs c = Some s -> c <> dash ->
  find_long specs n = Some s -> equals ∉ n -> argReq s = REQUIRED_ARG ->
  (a <> [] -> parse ((dash :: c :: a) :: rest) st = parse ([dash; c] :: a :: rest) st) /\
  parse (long_text n (Some a) :: rest) st = parse ([dash; c] :: a :: rest) st /\
  parse (long_text n None :: a :: rest) st = parse ([dash; c] :: a :: rest) st.
Proof.
  intros Hs Hc Hl He Hr. unfold parse_args.
  assert (forall (used : bool) i j, (let* (st, ctl, u) := run_option handle s (Some (kept a)) used i st in
      match ctl with StopProcessing => Ok st | NoMoreOptions => loop rest j true st | Continue => loop rest j false st end) =
    (let* (st, ctl, u) := run_option handle s (Some (kept a)) true 1 st in
      match ctl with StopProcessing => Ok st | NoMoreOptions => loop rest 3 true st | Continue => loop rest 3 false st end)) as Hsame.
  { intros used i j. rewrite (run_option_pos s (Some (kept a)) used true i 1). destruct (run_option handle s (Some (kept a)) true 1 st) as [[[st1 ctl] u]|]; [|done].
    cbn [rbind]. destruct ctl; try done; apply (loop_pos _ _ _ _ _ _ (le_n _)). }
  assert (loop ([dash; c] :: a :: rest) 1 false st = let* (st, ctl, u) := run_option handle s (Some (kept a)) true 1 st in
      match ctl with StopProcessing => Ok st | NoMoreOptions => loop rest 3 true st | Continue => loop rest 3 false st end) as ->.
  { cbn [parse_loop]. rewrite one_short, short_options_last by (done || simpl; lia). change (default 0 (head [c])) with c.
    rewrite Hs, Hr. cbn [required rbind fmap option_fmap option_map]. unfold run_option. destruct (handle (opt_id s) (Some (kept a)) (1 + 1) st) as [[st1 ctl]|]; [|done].
    cbn [rbind]. by destruct ctl. }
  split; [|split].
  - intros Ha. rewrite <- (Hsame false 1 2). destruct a as [|d a]; [done|]. cbn [parse_loop].
    rewrite one_short, short_options_more, Hs, Hr by done. cbn [required rbind]. fold (kept (d :: a)). unfold run_option.
    destruct (handle (opt_id s) (Some (kept (d :: a))) 1 st) as [[st1 ctl]|]; [|done]. cbn [rbind]. by destruct ctl.
  - rewrite <- (Hsame false 1 2). cbn [parse_loop]. rewrite (long_text_parse n (Some a) rest 1 st s He Hl), Hr.
    cbn [required rbind fmap option_fmap option_map]. unfold run_option.
    destruct (handle (opt_id s) (Some (kept a)) 1 st) as [[st1 ctl]|]; [|done]. cbn [rbind]. by destruct ctl.
  - cbn [parse_loop]. rewrite (long_text_parse n None (a :: rest) 1 st s He Hl), Hr.
    cbn [required rbind fmap option_fmap option_map]. unfold run_option.
    destruct (handle (opt_id s) (Some (kept a)) (1 + 1) st) as [[st1 ctl]|]; [|done]. cbn [rbind]. by destruct ctl.
Qed.
End ParserProofs.

(** ** Invariants *)

Section Invariant.
Context {Opt S : Type} (specs : list (opt_spec Opt)).
Context (handle : Opt -> option optarg -> Z -> S -> result (S * control)).
Context (unknown : S -> result (S * control)) (operand : list Z -> Z -> S -> result (S * control)).

(** What the code of every option and operand preserves. *)
Context (I : S -> Prop).
Context (Ihandle : forall o a i st st' c, I st -> handle o a i st = Ok (st', c) -> I st').
Context (Iunknown : forall st st' c, I st -> unknown st = Ok (st', c) -> I st').
Context (Ioperand : forall w i st st' c, I st -> operand w i st = Ok (st', c) -> I st').

Lemma run_option_invariant s a u i st st' c u' : I st -> run_option handle s a u i st = Ok (st', c, u') -> I st'.
Proof using Ihandle.
  intros HI H. apply rbind_Ok in H as ([st1 c1] & H & [= <- <- <-]). by eapply Ihandle.
Qed.

Lemma short_options_invariant copy chars rest i st st' c u :
  I st -> short_options specs handle unknown copy chars rest i st = Ok (st', c, u) -> I st'.
Proof using Ihandle Iunknown.
  revert copy st st' c u. induction chars as [|x [|y chars] IH]; intros copy st st' c u HI.
  1, 2: rewrite short_options_last by (simpl; lia); destruct (find_short specs _) as [s|];
    [|intros H; apply rbind_Ok in H as ([st1 c1] & H & [= <- <- <-]); by eapply Iunknown];
    destruct (argReq s); [by apply run_option_invariant|by apply run_option_invariant|];
    intros H; apply rbind_Ok in H as ([a u1] & _ & H); by eapply run_option_invariant.
  rewrite short_options_more. destruct (find_short specs x) as [s|].
  2: { intros H. apply rbind_Ok in H as ([st1 c1] & H & [= <- <- <-]). by eapply Iunknown. }
  destruct (argReq s); [|by apply run_option_invariant|].
  - intros H. apply rbind_Ok in H as ([[st1 c1] u1] & H1 & H). apply run_option_invariant in H1; [|done].
    destruct c1; [|apply rbind_Ok in H as ([[st2 c2] u2] & H2 & [= <- <- <-]); by eapply IH|by injection H as <- <- <-].
    apply rbind_Ok in H as ([[st2 c2] u2] & H2 & [= <- <- <-]). by eapply IH.
  - intros H. apply rbind_Ok in H as ([a u1] & _ & H). by eapply run_option_invariant.
Qed.

Lemma long_option_invariant arg rest i st st' c u :
  I st -> long_option specs handle unknown arg rest i st = Ok (st', c, u) -> I st'.
Proof using Ihandle Iunknown.
  intros HI. unfold long_option. destruct (split_equals _) as [n v]. destruct (find_long specs n) as [s|].
  2: { intros H. apply rbind_Ok in H as ([st1 c1] & H & [= <- <- <-]). by eapply Iunknown. }
  destruct (argReq s); [|by apply run_option_invariant|].
  - destruct (bool_decide _); [by apply run_option_invariant|done].
  - intros H. apply rbind_Ok in H as ([a u1] & _ & H). by eapply run_option_invariant.
Qed.

Lemma one_argument_invariant arg rest nomore i st st' c u :
  I st -> one_argument specs handle unknown operand arg rest nomore i st = Ok (st', c, u) -> I st'.
Proof using Ihandle Iunknown Ioperand.
  intros HI. assert ((let* (st, ctl) := operand arg i st in Ok (st, ctl, false)) = Ok (st', c, u) -> I st') as Hop.
  { intros H. apply rbind_Ok in H as ([st1 c1] & H & [= <- <- <-]). by eapply Ioperand. }
  unfold one_argument. destruct arg as [|x more]; [done|]. destruct (_ && _); [|done].
  destruct more as [|y more]; [by apply short_options_invariant|].
  destruct (y =? dash); [by apply long_option_invariant|by apply short_options_invariant].
Qed.

Lemma parse_args_invariant args st st' : I st -> parse_args specs handle unknown operand args st = Ok st' -> I st'.
Proof using Ihandle Iunknown Ioperand.
  unfold parse_args. generalize 1, false.
  assert (forall n args i nomore st, (length args <= n)%nat -> I st ->
    parse_loop specs handle unknown operand args i nomore st = Ok st' -> I st') as H; [|intros; by eapply (H _ args)].
  clear args st. intros n. induction n as [|n IH]; intros [|arg rest] i nomore st Hn HI; simpl in Hn; try lia; try (by intros [= <-]).
  cbn [parse_loop]. intros H. apply rbind_Ok in H as ([[st1 c] u] & H1 & H). apply one_argument_invariant in H1; [|done].
  destruct c, u, rest as [|r rest]; simpl in Hn; try (injection H as <-; done); (eapply IH; [|exact H1|exact H]); simpl; lia.
Qed.
End Invariant.
