(* ===== verification/Escapes.v ===== *)
(** * option.c: escape sequences in the arguments of options

    [parseEscapes] converts an argument in its own memory, reading at one
    position and writing at another.  The reference [unescape] goes through a
    list; [parseEscapes_refines] shows that the two agree, so that writing
    never overtakes reading. *)

From S2P Require Import Prelude EditScript FileProofs Unicode UnicodeProofs.

(** ** Characters

    isdigit and isxdigit do not depend on the locale, and tolower is only used on
    hexadecimal digits here, where it does not either. *)

Definition isdigit (c : Z) : bool := (48 <=? c) && (c <=? 57).
Definition isupper (c : Z) : bool := (65 <=? c) && (c <=? 90).
Definition tolower (c : Z) : Z := if isupper c then c + 32 else c.
Definition isxdigit (c : Z) : bool := isdigit c || ((97 <=? tolower c) && (tolower c <=? 102)).
Definition isoctal (c : Z) : bool := (48 <=? c) && (c <=? 55).

Definition hex_value (c : Z) : Z := if isdigit c then c - 48 else tolower c - 97 + 10.

(** Messages. *)
Definition single_backslash : positive := 17.
Definition invalid_hexadecimal : positive := 18.
Definition too_short_escape : positive := 19.
Definition escape_out_of_range : positive := 20.
Definition surrogate_escape : positive := 21.

Definition backslash : Z := 92.

(** The escapes of one character: letter and value. *)
Definition simple_escapes : list (Z * Z) :=
  [(110, 10); (114, 13); (39, 39); (92, 92); (116, 9); (98, 8); (102, 12); (97, 7); (118, 11);
   (63, 63); (34, 34); (101, 27)].

Definition simple_escape (c : Z) : option Z :=
  snd <$> find (fun p => p.1 =? c) simple_escapes.

(** A value of 32 bits, signed. *)
Definition wrap32 (v : Z) : Z := (v + 2 ^ 31) mod 2 ^ 32 - 2 ^ 31.

(** The checks of \u and \U, and the bytes. *)
Definition unicode_escape (value : Z) : result (list Z) :=
  if 0x10FFFF <? value then Fatal escape_out_of_range
  else if Z.land value 0xF800 =? 0xD800 then Fatal surrogate_escape
  else Ok (convertToUTF8 value).

Definition unicode_chars (c : Z) : nat := if c =? 85 then 8 else 4.
Definition octal_chars (c : Z) : nat := if c <? 52 then 2 else 1.

(** ** The code: reading and writing one memory *)

(** The character at [p]; behind the string is the null byte. *)
Definition char_at (mem : list Z) (p : nat) : Z := default 0 (mem !! p).

(** The digits of \x from [p + i] on: the value and the number of digits. *)
Fixpoint hex_digits (n : nat) (mem : list Z) (max p i : nat) (value : Z) : result (Z * nat) :=
  match n with
  | O => Ok (value, i)
  | S n' =>
      if (p + i <? max)%nat && isxdigit (char_at mem (p + i)) then
        let value := Z.shiftl value 4 + hex_value (char_at mem (p + i)) in
        if 255 <? value then Fatal invalid_hexadecimal
        else hex_digits n' mem max p (S i) value
      else Ok (value, i)
  end.

Fixpoint octal_digits (n : nat) (mem : list Z) (max p i : nat) (value : Z) : Z * nat :=
  match n with
  | O => (value, i)
  | S n' =>
      if (p + i <? max)%nat && isoctal (char_at mem (p + i)) then
        octal_digits n' mem max p (S i) (value * 8 + (char_at mem (p + i) - 48))
      else (value, i)
  end.

Fixpoint unicode_digits (n : nat) (mem : list Z) (p : nat) (value : Z) : result Z :=
  match n with
  | O => Ok value
  | S n' =>
      if negb (isxdigit (char_at mem p)) then Fatal too_short_escape
      else unicode_digits n' mem (S p) (wrap32 (wrap32 (Z.shiftl value 4) + hex_value (char_at mem p)))
  end.

(** The escape sequence whose backslash is before [r]: the bytes to write and
    the position behind it. *)
Definition escape_at (mem : list Z) (max r : nat) : result (list Z * nat) :=
  if (r =? max)%nat then Fatal single_backslash
  else
    let c := char_at mem r in
    let r := S r in
    match simple_escape c with
    | Some v => Ok ([v], r)
    | None =>
        if c =? 120 then
          let* (value, i) := hex_digits 2 mem max r 0 0 in
          if (i =? 0)%nat then Fatal invalid_hexadecimal else Ok ([value], (r + i)%nat)
        else if isoctal c then
          let '(value, i) := octal_digits (octal_chars c) mem max r 0 (c - 48) in
          Ok ([value], (r + i)%nat)
        else if (c =? 117) || (c =? 85) then
          let chars := unicode_chars c in
          if (max <? r + chars)%nat then Fatal too_short_escape
          else
            let* value := unicode_digits chars mem r 0 in
            let* bytes := unicode_escape value in
            Ok (bytes, (r + chars)%nat)
        else Ok ([c], r)
    end.

(** Writing [l] from [w] on. *)
Fixpoint write_at (mem : list Z) (w : nat) (l : list Z) : list Z :=
  match l with
  | [] => mem
  | c :: l' => write_at (<[w := c]> mem) (S w) l'
  end.

Fixpoint escapes_loop (fuel : nat) (mem : list Z) (max r w : nat) : option (result (list Z * nat)) :=
  if (r <? max)%nat then
    match fuel with
    | O => None
    | S fuel' =>
        if char_at mem r =? backslash then
          match escape_at mem max (S r) with
          | Ok (bytes, r') => escapes_loop fuel' (write_at mem w bytes) max r' (w + length bytes)
          | Fatal e => Some (Fatal e)
          end
        else escapes_loop fuel' (<[w := char_at mem r]> mem) max (S r) (S w)
    end
  else Some (Ok (mem, w)).

(** The memory (before the null byte is written behind the result) and the
    length that is returned. *)
Definition parseEscapes (string : list Z) : option (result (list Z * nat)) :=
  escapes_loop (length string) string (length string) 0 0.

(** ** The reference *)

(** The longest prefix of at most [n] elements that pass the test. *)
Fixpoint span_max (p : Z -> bool) (n : nat) (l : list Z) : list Z :=
  match n, l with
  | S n', c :: l' => if p c then c :: span_max p n' l' else []
  | _, _ => []
  end.

Definition number (base : Z) (ds : list Z) : Z := foldl (fun v d => v * base + hex_value d) 0 ds.

(** The bytes of the escape sequence at the start of [l], and the rest. *)
Definition unescape_one (l : list Z) : result (list Z * list Z) :=
  match l with
  | [] => Fatal single_backslash
  | c :: l =>
      match simple_escape c with
      | Some v => Ok ([v], l)
      | None =>
          if c =? 120 then
            let ds := span_max isxdigit 2 l in
            if bool_decide (ds = []) then Fatal invalid_hexadecimal
            else Ok ([number 16 ds], drop (length ds) l)
          else if isoctal c then
            let ds := span_max isoctal (octal_chars c) l in
            Ok ([number 8 (c :: ds)], drop (length ds) l)
          else if (c =? 117) || (c =? 85) then
            let ds := take (unicode_chars c) l in
            if (length ds <? unicode_chars c)%nat || negb (forallb isxdigit ds) then Fatal too_short_escape
            else
              let* bytes := unicode_escape (wrap32 (number 16 ds)) in
              Ok (bytes, drop (unicode_chars c) l)
          else Ok ([c], l)
      end
  end.

Fixpoint unescape_loop (n : nat) (l : list Z) : result (list Z) :=
  match n, l with
  | S n', c :: l =>
      if c =? backslash then
        let* (bytes, rest) := unescape_one l in
        let* more := unescape_loop n' rest in Ok (bytes ++ more)
      else let* more := unescape_loop n' l in Ok (c :: more)
  | _, _ => Ok []
  end.

Definition unescape (l : list Z) : result (list Z) := unescape_loop (length l) l.

Example unescape_example :
  unescape [97; 92; 110; 92; 120; 52; 49; 92; 49; 48; 49; 92; 117; 48; 48; 101; 57; 92; 113] =
    Ok [97; 10; 65; 65; 195; 169; 113].
Proof. reflexivity. Qed.

(** ** The code implements the reference *)

Lemma char_at_cons mem p c l : drop p mem = c :: l -> char_at mem p = c.
Proof. intros H. unfold char_at. by rewrite <- (Nat.add_0_r p), <- lookup_drop, H. Qed.

Lemma drop_S {A} (mem : list A) p c l : drop p mem = c :: l -> drop (S p) mem = l.
Proof. intros H. rewrite <- Nat.add_1_r, <- drop_drop, H. done. Qed.

Lemma drop_lt {A} (mem : list A) p c l : drop p mem = c :: l -> (p < length mem)%nat.
Proof. intros H. apply (f_equal length) in H. rewrite length_drop in H. simpl in H. lia. Qed.

Lemma drop_end {A} (mem : list A) p : drop p mem = [] -> (length mem <= p)%nat.
Proof. intros H. apply (f_equal length) in H. rewrite length_drop in H. simpl in H. lia. Qed.

Lemma span_max_le p n l : (length (span_max p n l) <= n)%nat.
Proof. revert l. induction n as [|n IH]; intros [|c l]; simpl; try lia. destruct (p c); simpl; [specialize (IH l)|]; lia. Qed.

Lemma hex_value_range c : isxdigit c = true -> 0 <= hex_value c < 16.
Proof. unfold isxdigit, hex_value, isdigit, tolower. intros H. destruct (isupper c) eqn:E; unfold isupper in E; repeat case_if; lia. Qed.

Lemma hex_digits_spec n mem p i v : 0 <= v -> (v + 1) * 16 ^ Z.of_nat n <= 256 ->
  hex_digits n mem (length mem) p i v =
    Ok (foldl (fun v d => v * 16 + hex_value d) v (span_max isxdigit n (drop (p + i) mem)),
        (i + length (span_max isxdigit n (drop (p + i) mem)))%nat).
Proof.
  revert i v. induction n as [|n IH]; intros i v Hv Hb; simpl; [by rewrite Nat.add_0_r|].
  destruct (drop (p + i) mem) as [|c l] eqn:Ed.
  - apply drop_end in Ed. rewrite (proj2 (Nat.ltb_ge _ _)) by done. simpl. by rewrite Nat.add_0_r.
  - rewrite (char_at_cons mem _ c l Ed). pose proof (drop_lt _ _ _ _ Ed). rewrite (proj2 (Nat.ltb_lt _ _)) by done. cbn [andb].
    destruct (isxdigit c) eqn:Ec; [|simpl; by rewrite Nat.add_0_r]. pose proof (hex_value_range c Ec).
    rewrite Nat2Z.inj_succ, Z.pow_succ_r in Hb by lia. assert (1 <= 16 ^ Z.of_nat n) by lia.
    rewrite Z.shiftl_mul_pow2 by lia. change (2 ^ 4) with 16. rewrite (proj2 (Z.ltb_ge 255 _)) by nia.
    rewrite IH by nia. rewrite Nat.add_succ_r, (drop_S mem _ c l Ed). simpl. do 2 f_equal. lia.
Qed.

Lemma octal_digits_spec n mem p i v :
  octal_digits n mem (length mem) p i v =
    (foldl (fun v d => v * 8 + hex_value d) v (span_max isoctal n (drop (p + i) mem)),
     (i + length (span_max isoctal n (drop (p + i) mem)))%nat).
Proof.
  revert i v. induction n as [|n IH]; intros i v; simpl; [by rewrite Nat.add_0_r|].
  destruct (drop (p + i) mem) as [|c l] eqn:Ed.
  - apply drop_end in Ed. rewrite (proj2 (Nat.ltb_ge _ _)) by done. simpl. by rewrite Nat.add_0_r.
  - rewrite (char_at_cons mem _ c l Ed). pose proof (drop_lt _ _ _ _ Ed). rewrite (proj2 (Nat.ltb_lt _ _)) by done. cbn [andb].
    destruct (isoctal c) eqn:Ec; [|simpl; by rewrite Nat.add_0_r].
    assert (hex_value c = c - 48) as Hh. { unfold isoctal in Ec. unfold hex_value, isdigit. case_if; lia. }
    rewrite IH, Nat.add_succ_r, (drop_S mem _ c l Ed). simpl. rewrite Hh. f_equal. lia.
Qed.

Lemma wrap32_add a b : wrap32 (wrap32 (Z.shiftl (wrap32 a) 4) + b) = wrap32 (a * 16 + b).
Proof. rewrite Z.shiftl_mul_pow2 by lia. unfold wrap32. change (2 ^ 31) with 2147483648. change (2 ^ 32) with 4294967296. change (2 ^ 4) with 16. lia. Qed.

Lemma unicode_digits_spec n mem p v : (p + n <= length mem)%nat ->
  unicode_digits n mem p (wrap32 v) =
    let ds := take n (drop p mem) in
    if forallb isxdigit ds then Ok (wrap32 (foldl (fun v d => v * 16 + hex_value d) v ds)) else Fatal too_short_escape.
Proof.
  revert p v. induction n as [|n IH]; intros p v Hn; [done|].
  destruct (drop p mem) as [|c l] eqn:Ed; [apply drop_end in Ed; lia|].
  simpl. rewrite (char_at_cons mem p c l Ed). destruct (isxdigit c); simpl; [|done].
  rewrite wrap32_add, IH by lia. by rewrite (drop_S mem p c l Ed).
Qed.

(** One escape sequence, with the position of the rest. *)
Lemma escape_at_spec mem r :
  (r <= length mem)%nat ->
  match unescape_one (drop r mem) with
  | Ok (bytes, rest) => exists r', escape_at mem (length mem) r = Ok (bytes, r') /\ drop r' mem = rest /\
      (r' <= length mem)%nat /\ (r < r')%nat /\ (length bytes <= r' - r)%nat
  | Fatal e => escape_at mem (length mem) r = Fatal e
  end.
Proof.
  intros Hr. unfold escape_at. destruct (drop r mem) as [|c l] eqn:Ed.
  { apply drop_end in Ed. by rewrite (proj2 (Nat.eqb_eq _ _)) by lia. }
  pose proof (drop_lt _ _ _ _ Ed). rewrite (proj2 (Nat.eqb_neq r _)) by lia. rewrite (char_at_cons mem r c l Ed).
  pose proof (drop_S mem r c l Ed) as Ed'. assert (length l = length mem - S r)%nat as Hl by by rewrite <- Ed', length_drop.
  assert (forall n p, length (span_max p n l) <= length l)%nat as Hspan.
  { clear. intros n p. revert n. induction l as [|d l IH]; intros [|n]; simpl; try lia. destruct (p d); simpl; [specialize (IH n)|]; lia. }
  cbn [unescape_one]. destruct (simple_escape c) as [v|]; [exists (S r); simpl; repeat split; (done || lia)|].
  destruct (c =? 120).
  { rewrite hex_digits_spec, Nat.add_0_r, Ed' by (simpl; lia). cbn [rbind]. rewrite Nat.add_0_l.
    destruct (span_max isxdigit 2 l) as [|d ds] eqn:Es; [by rewrite bool_decide_eq_true_2|]. rewrite bool_decide_eq_false_2 by done.
    pose proof (Hspan 2%nat isxdigit). rewrite Es in *. rewrite (proj2 (Nat.eqb_neq _ _)) by (simpl; lia).
    exists (S r + length (d :: ds))%nat. rewrite <- drop_drop, Ed'. cbn [length] in *. repeat split; (done || lia). }
  destruct (isoctal c) eqn:Eo.
  { rewrite octal_digits_spec, Nat.add_0_r, Ed'. rewrite Nat.add_0_l. pose proof (Hspan (octal_chars c) isoctal).
    exists (S r + length (span_max isoctal (octal_chars c) l))%nat. rewrite <- drop_drop, Ed'. cbn [length] in *.
    assert (c - 48 = 0 * 8 + hex_value c) as ->. { unfold isoctal in Eo. unfold hex_value, isdigit. case_if; lia. }
    repeat split; (done || lia). }
  destruct ((c =? 117) || (c =? 85)).
  2: { exists (S r). repeat split; (done || simpl; lia). }
  rewrite length_take. replace (length mem <? S r + unicode_chars c)%nat with (unicode_chars c `min` length l <? unicode_chars c)%nat.
  2: { destruct (Nat.ltb_spec (unicode_chars c `min` length l) (unicode_chars c)); symmetry; [apply Nat.ltb_lt|apply Nat.ltb_ge]; lia. }
  destruct (Nat.ltb_spec (unicode_chars c `min` length l) (unicode_chars c)) as [|Hc]; [done|]. cbn [orb].
  pose proof (unicode_digits_spec (unicode_chars c) mem (S r) 0 ltac:(lia)) as Hu. change (wrap32 0) with 0 in Hu. rewrite Hu, Ed'. cbn zeta.
  destruct (forallb isxdigit _); [|done]. cbn [negb rbind]. unfold number. destruct (unicode_escape _) as [bytes|e] eqn:Eb; [|done]. cbn [rbind].
  exists (S r + unicode_chars c)%nat. rewrite <- drop_drop, Ed'. repeat split; try lia.
  assert (length bytes <= 4)%nat.
  { revert Eb. unfold unicode_escape. case_if; [done|]. case_if; [done|]. intros [= <-]. clear. unfold convertToUTF8. cbv zeta.
    by repeat (match goal with |- context [if ?b then _ else _] => destruct b end); cbn [mark_first utf8_bytes length]; lia. }
  assert (4 <= unicode_chars c)%nat by (unfold unicode_chars; case_if; lia). lia.
Qed.

Lemma write_at_spec l mem w : (w + length l <= length mem)%nat ->
  take (w + length l) (write_at mem w l) = take w mem ++ l /\
  length (write_at mem w l) = length mem /\
  forall r, (w + length l <= r)%nat -> drop r (write_at mem w l) = drop r mem.
Proof.
  revert mem w. induction l as [|c l IH]; intros mem w Hl; simpl in *.
  - rewrite Nat.add_0_r, app_nil_r. done.
  - destruct (IH (<[w := c]> mem) (S w)) as (H1 & H2 & H3); [rewrite length_insert; lia|].
    rewrite length_insert in H2. split; [|split; [done|]].
    + rewrite <- Nat.add_succ_comm, H1, (take_S_r _ _ c) by (apply list_lookup_insert_eq; lia).
      by rewrite take_insert_ge, <- app_assoc by lia.
    + intros r Hr. rewrite H3 by lia. by rewrite drop_insert_lt by lia.
Qed.

Lemma unescape_one_length l bytes rest : unescape_one l = Ok (bytes, rest) -> (length rest < length l)%nat.
Proof.
  intros H. pose proof (escape_at_spec l 0 ltac:(lia)) as Hs. rewrite drop_0, H in Hs.
  destruct Hs as (r' & _ & <- & ? & ? & _). rewrite length_drop. lia.
Qed.

Lemma unescape_loop_enough n m l : (length l <= n)%nat -> (length l <= m)%nat -> unescape_loop n l = unescape_loop m l.
Proof.
  revert m l. induction n as [|n IH]; intros [|m] [|c l] Hn Hm; simpl in *; try lia; try done.
  destruct (c =? backslash); [|by rewrite (IH m l) by lia].
  destruct (unescape_one l) as [[bytes rest]|] eqn:E; [|done]. apply unescape_one_length in E. cbn [rbind].
  by rewrite (IH m rest) by lia.
Qed.

Lemma unescape_cons c l :
  unescape (c :: l) =
    if c =? backslash then
      let* (bytes, rest) := unescape_one l in
      let* more := unescape rest in Ok (bytes ++ more)
    else let* more := unescape l in Ok (c :: more).
Proof.
  unfold unescape at 1. cbn [unescape_loop length]. destruct (c =? backslash); [|done].
  destruct (unescape_one l) as [[bytes rest]|] eqn:E; [|done]. apply unescape_one_length in E. cbn [rbind].
  by rewrite (unescape_loop_enough _ (length rest)) by lia.
Qed.

Lemma escapes_loop_spec fuel mem r w : (w <= r <= length mem)%nat -> (length mem - r <= fuel)%nat ->
  match unescape (drop r mem) with
  | Ok out => exists mem', escapes_loop fuel mem (length mem) r w = Some (Ok (mem', (w + length out)%nat)) /\
      take (w + length out) mem' = take w mem ++ out /\ length mem' = length mem
  | Fatal e => escapes_loop fuel mem (length mem) r w = Some (Fatal e)
  end.
Proof.
  revert mem r w. induction fuel as [|fuel IH]; intros mem r w Hr Hf.
  - rewrite drop_ge by lia. exists mem. simpl. rewrite Nat.add_0_r, app_nil_r.
    by rewrite (proj2 (Nat.ltb_ge r _)) by lia.
  - destruct (drop r mem) as [|c l] eqn:Ed.
    { apply drop_end in Ed. exists mem. simpl. rewrite Nat.add_0_r, app_nil_r. by rewrite (proj2 (Nat.ltb_ge r _)) by lia. }
    pose proof (drop_lt _ _ _ _ Ed) as Hlt. cbn [escapes_loop]. rewrite (proj2 (Nat.ltb_lt r _)) by done.
    rewrite (char_at_cons mem r c l Ed), unescape_cons. destruct (c =? backslash) eqn:Ec.
    + pose proof (escape_at_spec mem (S r) ltac:(lia)) as Hs. rewrite (drop_S mem r c l Ed) in Hs.
      destruct (unescape_one l) as [[bytes rest]|e]; [|by rewrite Hs].
      destruct Hs as (r' & -> & Hd & H1 & H2 & H3). cbn [rbind].
      destruct (write_at_spec bytes mem w ltac:(lia)) as (W1 & W2 & W3).
      specialize (IH (write_at mem w bytes) r' (w + length bytes)%nat ltac:(lia) ltac:(lia)).
      rewrite W3, Hd, W2, W1 in IH by lia. destruct (unescape rest) as [out|e]; cbn [rbind]; [|exact IH].
      destruct IH as (mem' & H4 & H5 & H6). exists mem'. rewrite length_app, Nat.add_assoc, app_assoc. done.
    + specialize (IH (<[w := c]> mem) (S r) (S w)). rewrite length_insert in IH. specialize (IH ltac:(lia) ltac:(lia)).
      rewrite drop_insert_lt, (drop_S mem r c l Ed) in IH by lia.
      rewrite (take_S_r _ w c) in IH by (apply list_lookup_insert_eq; lia). rewrite take_insert_ge in IH by lia.
      destruct (unescape l) as [out|e]; cbn [rbind]; [|exact IH]. destruct IH as (mem' & H4 & H5 & H6). exists mem'.
      cbn [length]. rewrite <- Nat.add_succ_comm, H4, H5, <- app_assoc. done.
Qed.

(** C27: converting the escape sequences of an argument in place gives what the
    reference gives, or the same error; no character is overwritten before it is
    read. *)
Theorem parseEscapes_refines string :
  match unescape string with
  | Ok out => exists mem, parseEscapes string = Some (Ok (mem, length out)) /\
      take (length out) mem = out /\ length mem = length string
  | Fatal e => parseEscapes string = Some (Fatal e)
  end.
Proof. exact (escapes_loop_spec (length string) string 0 0 ltac:(lia) ltac:(lia)). Qed.

(** ** What can be written, and what it stands for *)

Inductive piece : list Z -> list Z -> Prop :=
  | Literal c : c <> backslash -> piece [c] [c]
  | Simple a v : (a, v) ∈ simple_escapes -> piece [backslash; a] [v]
  | Hex a b : isxdigit a = true -> isxdigit b = true -> piece [backslash; 120; a; b] [16 * hex_value a + hex_value b]
  | Octal a b c : isoctal a = true -> a < 52 -> isoctal b = true -> isoctal c = true ->
      piece [backslash; a; b; c] [64 * (a - 48) + 8 * (b - 48) + (c - 48)]
  | UnicodeEscape u ds : (u = 117 /\ length ds = 4%nat) \/ (u = 85 /\ length ds = 8%nat) ->
      forallb isxdigit ds = true -> plain (number 16 ds) -> first_of_length (number 16 ds) = false ->
      piece (backslash :: u :: ds) (utf8 (number 16 ds)).

Lemma simple_escape_spec a v : (a, v) ∈ simple_escapes -> simple_escape a = Some v.
Proof.
  intros H. unfold simple_escapes in H. repeat (apply elem_of_cons in H as [[= -> ->]|H]; [reflexivity|]). by apply not_elem_of_nil in H.
Qed.

Lemma isoctal_cases a : isoctal a = true -> simple_escape a = None /\ (a =? 120) = false /\ hex_value a = a - 48.
Proof.
  unfold isoctal. intros H. zify_bool. assert (a ∈ [48; 49; 50; 51; 52; 53; 54; 55]) as Ha.
  { rewrite !elem_of_cons. lia. }
  repeat (apply elem_of_cons in Ha as [->|Ha]; [done|]). by apply not_elem_of_nil in Ha.
Qed.

Lemma take_exact {A} (ds r : list A) n : length ds = n -> take n (ds ++ r) = ds /\ drop n (ds ++ r) = r.
Proof. intros <-. by rewrite take_app_length, drop_app_length. Qed.

Lemma unescape_piece t b r : piece t b ->
  unescape (t ++ r) = let* more := unescape r in Ok (b ++ more).
Proof.
  intros Hp. destruct Hp as [c Hc|a v Ha|a b Ha Hb|a b c Ha Ha' Hb Hc|u ds Hu Hds Hp Hf]; cbn [app]; rewrite unescape_cons.
  - by rewrite (proj2 (Z.eqb_neq c _)).
  - change (backslash =? backslash) with true. cbn [unescape_one]. by rewrite (simple_escape_spec a v Ha).
  - change (backslash =? backslash) with true. cbn [unescape_one]. change (simple_escape 120) with (@None Z).
    change (120 =? 120) with true. cbn [span_max]. rewrite Ha, Hb. rewrite bool_decide_eq_false_2 by done.
    cbn [length drop number foldl rbind app]. rewrite drop_0.
    by replace ((0 * 16 + hex_value a) * 16 + hex_value b) with (16 * hex_value a + hex_value b) by lia.
  - change (backslash =? backslash) with true. cbn [unescape_one]. destruct (isoctal_cases a Ha) as (-> & -> & Hva).
    rewrite Ha. unfold octal_chars. rewrite (proj2 (Z.ltb_lt a 52)) by done. cbn [span_max]. rewrite Hb, Hc.
    cbn [length drop number foldl rbind]. rewrite drop_0, Hva.
    destruct (isoctal_cases b Hb) as (_ & _ & ->), (isoctal_cases c Hc) as (_ & _ & ->). cbn [app].
    by replace (((0 * 8 + (a - 48)) * 8 + (b - 48)) * 8 + (c - 48)) with (64 * (a - 48) + 8 * (b - 48) + (c - 48)) by lia.
  - change (backslash =? backslash) with true. cbn [unescape_one].
    assert (simple_escape u = None /\ (u =? 120) = false /\ isoctal u = false /\ (u =? 117) || (u =? 85) = true /\
      length ds = unicode_chars u) as (-> & -> & -> & -> & Hl) by (destruct Hu as [[-> ?]|[-> ?]]; done).
    destruct (take_exact ds r _ Hl) as [-> ->]. rewrite Hl, Nat.ltb_irrefl, Hds. cbn [negb orb].
    destruct Hp as [Hr Hs]. assert (wrap32 (number 16 ds) = number 16 ds) as ->.
    { unfold codepoint in Hr. unfold wrap32. change (2 ^ 31) with 2147483648. change (2 ^ 32) with 4294967296. lia. }
    unfold unicode_escape. unfold codepoint in Hr. rewrite (proj2 (Z.ltb_ge 0x10FFFF _)) by lia.
    rewrite surrogate_mask, (proj2 (Z.eqb_neq _ 27)) by done. cbn [rbind]. by rewrite convertToUTF8_utf8.
Qed.

(** C28: an argument made of plain characters and well-formed escape sequences
    stands for the bytes of its pieces, one after the other. *)
Theorem parseEscapes_pieces texts bytes : Forall2 piece texts bytes ->
  exists mem, parseEscapes (concat texts) = Some (Ok (mem, length (concat bytes))) /\
    take (length (concat bytes)) mem = concat bytes.
Proof.
  intros H. assert (unescape (concat texts) = Ok (concat bytes)) as Hu.
  { induction H as [|t b texts bytes Hp H IH]; [done|]. cbn [concat]. by rewrite (unescape_piece t b _ Hp), IH. }
  pose proof (escapes_loop_spec (length (concat texts)) (concat texts) 0 0 ltac:(lia) ltac:(lia)) as Hs.
  rewrite drop_0, Hu in Hs. destruct Hs as (mem & H1 & H2 & _). by exists mem.
Qed.

(** The argument  a\n\x41\101\u00e9. *)
Lemma parseEscapes_pieces_witness :
  exists mem, parseEscapes [97; 92; 110; 92; 120; 52; 49; 92; 49; 48; 49; 92; 117; 48; 48; 101; 57] =
      Some (Ok (mem, 6%nat)) /\ take 6 mem = [97; 10; 65; 65; 195; 169].
Proof.
  apply (parseEscapes_pieces [[97]; [92; 110]; [92; 120; 52; 49]; [92; 49; 48; 49]; [92; 117; 48; 48; 101; 57]]
    [[97]; [10]; [65]; [65]; [195; 169]]).
  apply Forall2_cons; split; [by apply (Literal 97)|].
  apply Forall2_cons; split; [by apply (Simple 110 10); left|].
  apply Forall2_cons; split; [by apply (Hex 52 49)|].
  apply Forall2_cons; split; [by apply (Octal 49 48 49)|].
  apply Forall2_cons; split; [|apply Forall2_nil; exact I].
  apply (UnicodeEscape 117 [48; 48; 101; 57]); [by left|done|by split|done].
Defined.
