(* ===== verification/Profile.v ===== *)
(** * profile.c: options from the configuration file

    [loadProfile] reads the options of one profile from a file of sections.
    The file is given by its bytes, or by the error of opening it. *)

From S2P Require Import Prelude EditScript Escapes.

(** ** The code *)

Definition SPACE : list Z := [32; 9; 11; 12; 10; 13].
Definition is_space (c : Z) : bool := bool_decide (c ∈ SPACE).

Fixpoint strip_front (l : list Z) : list Z :=
  match l with
  | c :: l' => if is_space c then strip_front l' else l
  | [] => []
  end.

(** The second loop, on the length. *)
Fixpoint strip_back (length : nat) (l : list Z) : list Z :=
  match length with
  | S n => if is_space (char_at l n) then strip_back n l else take length l
  | O => []
  end.

Definition stripSpaces (l : list Z) : list Z :=
  let l := strip_front l in strip_back (length l) l.

(** getline(3): the lines of a file, with the newlines. *)
Fixpoint lines (l : list Z) : list (list Z) :=
  match l with
  | [] => []
  | c :: l' =>
      if c =? 10 then [c] :: lines l'
      else match lines l' with
           | line :: rest => (c :: line) :: rest
           | [] => [[c]]
           end
  end.

(** What C's string functions see of a line with null bytes. *)
Fixpoint until_null (l : list Z) : list Z :=
  match l with
  | c :: l' => if c =? 0 then [] else c :: until_null l'
  | [] => []
  end.

Fixpoint until_space (l : list Z) : list Z :=
  match l with
  | c :: l' => if is_space c then [] else c :: until_space l'
  | [] => []
  end.

(** There is no defined behaviour: [len -= 2] has wrapped around and the copy
    leaves its memory. *)
Definition undefined : positive := 22.
Definition cannot_open : positive := 23.
Definition profile_not_found : positive := 24.

Definition first_char (l : list Z) : Z := char_at l 0.
Definition last_char (l : list Z) : Z := char_at l (length l - 1).

Definition quote (c : Z) : bool := (c =? 34) || (c =? 39).

(** The argument that stands for a line of a profile. *)
Definition profile_option (l : list Z) : result (list Z) :=
  let word := until_space l in
  let arg := [45; 45] ++ word in
  if (length word =? length l)%nat then Ok arg
  else
    let value := stripSpaces (drop (length word) l) in
    if negb (length value =? 0)%nat && (first_char value =? last_char value) && quote (first_char value) then
      if (length value <? 2)%nat then Fatal undefined
      else Ok (arg ++ [61] ++ take (length value - 2) (tail value))
    else Ok (arg ++ [61] ++ value).

Record lstate := LState {
  saveProfile : bool;
  profileFound : bool;
  profileOptions : list (list Z)      (* the last one first *)
}.

Definition profile_line (profile : list Z) (s : lstate) (line : list Z) : result lstate :=
  let l := stripSpaces (until_null line) in
  if (length l =? 0)%nat then Ok s
  else if first_char l =? 35 then Ok s
  else if (first_char l =? 91) && (last_char l =? 93) then
    let name := stripSpaces (take (length l - 2) (tail l)) in
    if (length name =? 0)%nat then Ok (LState false (profileFound s) (profileOptions s))
    else
      let save := bool_decide (profile = name) in
      Ok (LState save (profileFound s || save) (profileOptions s))
  else if negb (saveProfile s) then Ok s
  else
    let* arg := profile_option l in
    Ok (LState (saveProfile s) (profileFound s) (arg :: profileOptions s)).

Fixpoint profile_lines (profile : list Z) (s : lstate) (ls : list (list Z)) : result lstate :=
  match ls with
  | [] => Ok s
  | l :: ls' => let* s := profile_line profile s l in profile_lines profile s ls'
  end.

(** The loop that reverses the list. *)
Fixpoint reverse_loop (ptr prev : list (list Z)) : list (list Z) :=
  match ptr with
  | [] => prev
  | p :: next => reverse_loop next (p :: prev)
  end.

(** The name "default". *)
Definition default_profile : list Z := [100; 101; 102; 97; 117; 108; 116].

Inductive opened := Contents (bytes : list Z) | NoEntry | OpenError.

(** [home] is false if no home directory is known. *)
Definition loadProfile (home : bool) (file : opened) (profile : list Z) : result (list (list Z)) :=
  if negb home then Ok []
  else
    match file with
    | NoEntry => if bool_decide (profile = default_profile) then Ok [] else Fatal cannot_open
    | OpenError => Fatal cannot_open
    | Contents bytes =>
        let* s := profile_lines profile (LState false false []) (lines bytes) in
        let options := reverse_loop (profileOptions s) [] in
        if negb (profileFound s) && negb (bool_decide (profile = default_profile)) then Fatal profile_not_found
        else Ok options
    end.

(** Each option is parsed as a command line of its own. *)
Fixpoint applyProfileOptions {S} (options : list (list Z)) (parse : list (list Z) -> S -> result S) (st : S) : result S :=
  match options with
  | [] => Ok st
  | arg :: options' => let* st := parse [arg] st in applyProfileOptions options' parse st
  end.

(** ** Lemmas *)

Lemma lines_line l r : 10 ∉ l -> lines (l ++ 10 :: r) = (l ++ [10]) :: lines r.
Proof.
  induction l as [|c l IH]; intros Hl; [done|]. apply not_elem_of_cons in Hl as [Hc Hl]. simpl.
  rewrite (proj2 (Z.eqb_neq c 10)) by done. by rewrite (IH Hl).
Qed.

Lemma until_null_id l : 0 ∉ l -> until_null l = l.
Proof.
  induction l as [|c l IH]; intros Hl; [done|]. apply not_elem_of_cons in Hl as [Hc Hl]. simpl.
  rewrite (proj2 (Z.eqb_neq c 0)) by done. by rewrite (IH Hl).
Qed.

Definition spaces (l : list Z) : Prop := Forall (fun c => is_space c = true) l.

(** No space at either end. *)
Definition trimmed (l : list Z) : Prop :=
  l = [] \/ (is_space (first_char l) = false /\ is_space (last_char l) = false).

Lemma last_char_app l c : last_char (l ++ [c]) = c.
Proof. unfold last_char, char_at. rewrite length_app, lookup_app_r by (simpl; lia). simpl. by replace (length l + 1 - 1 - length l)%nat with 0%nat by lia. Qed.

Lemma strip_front_spec p l : spaces p -> (l = [] \/ is_space (first_char l) = false) -> strip_front (p ++ l) = l.
Proof.
  induction 1 as [|c p Hc Hp IH]; intros Hl; simpl.
  - destruct l as [|c l]; [done|]. destruct Hl as [?|Hl]; [done|]. unfold first_char, char_at in Hl. simpl in *. by rewrite Hl.
  - by rewrite Hc, IH.
Qed.

Lemma char_at_middle (l r : list Z) c n : n = length l -> char_at (l ++ c :: r) n = c.
Proof. intros ->. unfold char_at. by rewrite list_lookup_middle. Qed.

Lemma strip_back_more q l r : spaces q -> trimmed l -> strip_back (length l + length q) (l ++ q ++ r) = l.
Proof.
  intros Hq Hl. revert r. induction q as [|c q IH] using rev_ind; intros r.
  - rewrite Nat.add_0_r. destruct Hl as [->|[_ Hl]]; [done|]. destruct l as [|c l _] using rev_ind; [done|].
    rewrite last_char_app in Hl. rewrite length_app, Nat.add_1_r. cbn [strip_back app].
    rewrite <- app_assoc. cbn [app]. rewrite char_at_middle, Hl by done.
    change (l ++ c :: r) with (l ++ [c] ++ r). rewrite app_assoc. apply take_app_length'. rewrite length_app. simpl. lia.
  - apply Forall_app in Hq as [Hq Hc]. apply Forall_cons in Hc as [Hc _]. cbn beta in Hc. rewrite length_app, Nat.add_1_r, Nat.add_succ_r. cbn [strip_back].
    assert (char_at (l ++ (q ++ [c]) ++ r) (length l + length q) = c) as ->.
    { rewrite <- app_assoc, app_assoc. apply char_at_middle. by rewrite length_app. }
    rewrite Hc, <- app_assoc. apply (IH Hq).
Qed.

Lemma strip_back_spec q l : spaces q -> trimmed l -> strip_back (length (l ++ q)) (l ++ q) = l.
Proof. intros Hq Hl. pose proof (strip_back_more q l [] Hq Hl) as H. by rewrite app_nil_r, <- length_app in H. Qed.

Lemma stripSpaces_spec p l q : spaces p -> trimmed l -> spaces q -> stripSpaces (p ++ l ++ q) = l.
Proof.
  intros Hp Hl Hq. unfold stripSpaces. destruct l as [|c l].
  - simpl. assert (strip_front (p ++ q) = []) as ->; [|done]. rewrite <- (app_nil_r (p ++ q)). apply strip_front_spec; [by apply Forall_app|by left].
  - rewrite strip_front_spec; [by apply strip_back_spec|done|]. right. by destruct Hl as [|[Hl _]].
Qed.

Lemma until_space_spec w r : Forall (fun c => is_space c = false) w -> (r = [] \/ is_space (first_char r) = true) -> until_space (w ++ r) = w.
Proof.
  intros Hw Hr. induction Hw as [|c w Hc Hw IH]; simpl; [|by rewrite Hc, IH].
  destruct r as [|c r]; [done|]. destruct Hr as [?|Hr]; [done|]. unfold first_char, char_at in Hr. simpl in *. by rewrite Hr.
Qed.

Lemma reverse_loop_spec l acc : reverse_loop l acc = reverse l ++ acc.
Proof. revert acc. induction l as [|c l IH]; intros acc; simpl; [done|]. rewrite IH, reverse_cons, <- app_assoc. done. Qed.

(** ** Configuration files *)

Inductive value := NoValue | Plain (v : list Z) | Quoted (q : Z) (v : list Z).

Record entry := Entry { entry_name : list Z; entry_value : value }.

Definition value_text (v : value) : list Z :=
  match v with
  | NoValue => []
  | Plain v => 32 :: v
  | Quoted q v => 32 :: q :: v ++ [q]
  end.

Definition entry_text (e : entry) : list Z := entry_name e ++ value_text (entry_value e) ++ [10].

(** The argument of an entry. *)
Definition entry_arg (e : entry) : list Z :=
  [45; 45] ++ entry_name e ++ match entry_value e with NoValue => [] | Plain v | Quoted _ v => 61 :: v end.

(** A section: the name of a profile and its options. *)
Abbreviation section := (list Z * list entry)%type.
Definition section_text (s : section) : list Z := [91] ++ s.1 ++ [93; 10] ++ concat (entry_text <$> s.2).
Definition config_text (ss : list section) : list Z := concat (section_text <$> ss).

(** Text within a line. *)
Definition one_line (l : list Z) : Prop := (0 ∉ l) /\ (10 ∉ l).

Definition entry_ok (e : entry) : Prop :=
  (entry_name e <> [] /\ one_line (entry_name e) /\ Forall (fun c => is_space c = false) (entry_name e) /\
   first_char (entry_name e) <> 35 /\ first_char (entry_name e) <> 91) /\
  match entry_value e with
  | NoValue => True
  | Plain v => v <> [] /\ trimmed v /\ one_line v /\ quote (first_char v) = false
  | Quoted q v => quote q = true /\ one_line v
  end.

Definition section_ok (s : section) : Prop :=
  (s.1 <> [] /\ trimmed s.1 /\ one_line s.1) /\ Forall entry_ok s.2.

(** The options of a profile. *)
Definition options_of_profile (profile : list Z) (ss : list section) : list (list Z) :=
  concat ((fun s => if bool_decide (profile = s.1) then entry_arg <$> s.2 else []) <$> ss).

(** That a character is not in a text made of known parts. *)
Ltac not_in :=
  repeat first [rewrite not_elem_of_app | rewrite not_elem_of_cons];
  repeat match goal with |- _ /\ _ => split end; first [assumption | apply not_elem_of_nil | lia].

Lemma first_char_app l r : l <> [] -> first_char (l ++ r) = first_char l.
Proof. by destruct l. Qed.

Lemma last_char_app_r l r : r <> [] -> last_char (l ++ r) = last_char r.
Proof. destruct r as [|c r _] using rev_ind; [done|]. intros _. by rewrite app_assoc, !last_char_app. Qed.

Lemma newline_space : spaces [10].
Proof. by constructor. Qed.

(** Removing both ends. *)
Lemma inner_spec (a : Z) (l : list Z) (b : Z) : take (length (a :: l ++ [b]) - 2) (tail (a :: l ++ [b])) = l.
Proof. simpl. rewrite length_app. simpl. replace (length l + 1 - 1)%nat with (length l) by lia. apply take_app_length. Qed.

Lemma last_not_space l : l <> [] -> Forall (fun c => is_space c = false) l -> is_space (last_char l) = false.
Proof. destruct l as [|c l _] using rev_ind; [done|]. intros _ H. apply Forall_app in H as [_ H]. apply Forall_cons in H as [H _]. by rewrite last_char_app. Qed.

Lemma first_not_space l : l <> [] -> Forall (fun c => is_space c = false) l -> is_space (first_char l) = false.
Proof. destruct l as [|c l]; [done|]. intros _ H. by apply Forall_cons in H as [H _]. Qed.

Lemma quote_not_space q : quote q = true -> is_space q = false.
Proof. unfold quote. intros [H|H]%orb_true_iff; by apply Z.eqb_eq in H as ->. Qed.

Lemma entry_trimmed e : entry_ok e -> trimmed (entry_name e ++ value_text (entry_value e)) .
Proof.
  intros [(Hn & _ & Hs & _) Hv]. right. rewrite first_char_app by done. split; [by apply first_not_space|].
  destruct (entry_value e) as [|v|q v]; simpl.
  - rewrite app_nil_r. by apply last_not_space.
  - destruct Hv as (Hv & Ht & _). change (32 :: v) with ([32] ++ v). rewrite app_assoc, last_char_app_r by done.
    by destruct Ht as [|[_ Ht]].
  - destruct Hv as [Hq _]. change (32 :: q :: v ++ [q]) with ((32 :: q :: v) ++ [q]). rewrite app_assoc, last_char_app.
    by apply quote_not_space.
Qed.

Lemma profile_option_entry e : entry_ok e -> profile_option (entry_name e ++ value_text (entry_value e)) = Ok (entry_arg e).
Proof.
  intros [(Hn & _ & Hs & _) Hv]. unfold profile_option, entry_arg.
  rewrite until_space_spec by (done || by destruct (entry_value e); [left|right|right]).
  rewrite drop_app_length, length_app. destruct (entry_value e) as [|v|q v]; cbn [value_text length] in *.
  - by rewrite Nat.add_0_r, Nat.eqb_refl, app_nil_r.
  - rewrite (proj2 (Nat.eqb_neq _ _)) by lia. destruct Hv as (Hv & Ht & _ & Hq).
    assert (stripSpaces (32 :: v) = v) as ->.
    { rewrite <- (app_nil_r (32 :: v)). apply (stripSpaces_spec [32] v []); [by constructor|done|constructor]. }
    rewrite Hq, andb_false_r. by rewrite <- app_assoc.
  - rewrite (proj2 (Nat.eqb_neq _ _)) by lia. destruct Hv as [Hq _].
    assert (stripSpaces (32 :: q :: v ++ [q]) = q :: v ++ [q]) as ->.
    { rewrite <- (app_nil_r (32 :: _)). apply (stripSpaces_spec [32] (q :: v ++ [q]) []); [by constructor| |constructor].
      right. change (q :: v ++ [q]) with ((q :: v) ++ [q]). rewrite last_char_app. split; by apply quote_not_space. }
    assert (last_char (q :: v ++ [q]) = q) as -> by (change (q :: v ++ [q]) with ((q :: v) ++ [q]); apply last_char_app).
    change (first_char (q :: v ++ [q])) with q. rewrite Z.eqb_refl, Hq, inner_spec. cbn [length negb andb Nat.eqb].
    rewrite length_app. cbn [length]. rewrite (proj2 (Nat.ltb_ge _ 2)) by lia. by rewrite <- app_assoc.
Qed.

Definition saved (profile : list Z) (s : lstate) (es : list entry) : lstate :=
  LState (saveProfile s) (profileFound s) (if saveProfile s then reverse (entry_arg <$> es) ++ profileOptions s else profileOptions s).

Lemma strip_newline l : trimmed l -> stripSpaces (l ++ [10]) = l.
Proof. intros Ht. apply (stripSpaces_spec [] l [10]); [constructor|done|apply newline_space]. Qed.

Lemma entry_line profile s e : entry_ok e ->
  profile_line profile s (entry_text e) = Ok (saved profile s [e]).
Proof.
  intros He. pose proof (entry_trimmed e He) as Ht. pose proof (profile_option_entry e He) as Ho.
  destruct He as [(Hn & Hl & Hs & H35 & H91) Hv]. unfold profile_line, entry_text. rewrite until_null_id.
  2: { destruct Hl as [H0 _]. destruct (entry_value e) as [|v|q v]; cbn [value_text]; [not_in| |].
       - destruct Hv as (_ & _ & [Hv _] & _). not_in.
       - destruct Hv as [Hq [Hv _]]. assert (0 <> q) by (intros <-; done). not_in. }
  rewrite app_assoc. rewrite strip_newline by done.
  rewrite length_app, (proj2 (Nat.eqb_neq _ 0)) by (destruct (entry_name e); simpl; lia || done).
  rewrite first_char_app, (proj2 (Z.eqb_neq _ 35)), (proj2 (Z.eqb_neq _ 91)) by done. cbn [andb].
  unfold saved. destruct (saveProfile s) eqn:Es; cbn [negb].
  - rewrite Ho. cbn [rbind]. done.
  - by destruct s; simpl in *; subst.
Qed.

Lemma heading_line profile s name : name <> [] -> trimmed name -> one_line name ->
  profile_line profile s ([91] ++ name ++ [93; 10]) =
    let save := bool_decide (profile = name) in Ok (LState save (profileFound s || save) (profileOptions s)).
Proof.
  intros Hn Ht [H0 _]. unfold profile_line. rewrite until_null_id.
  2: { not_in. }
  change ([91] ++ name ++ [93; 10]) with (91 :: name ++ [93] ++ [10]). rewrite app_assoc, app_comm_cons.
  rewrite strip_newline.
  2: { right. change (91 :: name ++ [93]) with ((91 :: name) ++ [93]). by rewrite last_char_app. }
  assert (last_char (91 :: name ++ [93]) = 93) as -> by apply (last_char_app (91 :: name)).
  rewrite inner_spec. change (first_char (91 :: name ++ [93])) with 91. cbn [length Nat.eqb].
  change (91 =? 35) with false. change (91 =? 91) with true. change (93 =? 93) with true. cbn [andb].
  assert (stripSpaces name = name) as ->.
  { rewrite <- (app_nil_r name) at 1. apply (stripSpaces_spec [] name []); [constructor|done|constructor]. }
  by rewrite (proj2 (Nat.eqb_neq _ 0)) by (destruct name; done).
Qed.

Lemma entry_lines e r : entry_ok e -> lines (entry_text e ++ r) = entry_text e :: lines r.
Proof.
  intros [(_ & [_ Hn] & _) Hv]. unfold entry_text. rewrite app_assoc, <- (app_assoc _ [10]). apply lines_line.
  destruct (entry_value e) as [|v|q v]; cbn [value_text]; [not_in| |].
  - destruct Hv as (_ & _ & [_ Hv] & _). not_in.
  - destruct Hv as [Hq [_ Hv]]. assert (10 <> q) by (intros <-; done). not_in.
Qed.

Lemma entries_read profile s es r : Forall entry_ok es ->
  profile_lines profile s (lines (concat (entry_text <$> es) ++ r)) = profile_lines profile (saved profile s es) (lines r).
Proof.
  intros H. revert s. induction H as [|e es He Hes IH]; intros s.
  - assert (saved profile s [] = s) as -> by (by destruct s as [[] ? ?]). done.
  - cbn [fmap list_fmap concat]. rewrite <- app_assoc, entry_lines by done. cbn [profile_lines].
    rewrite entry_line by done. cbn [rbind]. rewrite IH. f_equal. unfold saved. cbn [saveProfile profileFound profileOptions].
    destruct (saveProfile s); [|done]. f_equal. rewrite list_fmap_singleton, fmap_cons, reverse_singleton, reverse_cons, <- app_assoc. done.
Qed.

Lemma sections_read profile s ss : Forall section_ok ss ->
  exists save, profile_lines profile s (lines (config_text ss)) =
    Ok (LState save (profileFound s || bool_decide (profile ∈ fst <$> ss))
         (reverse (options_of_profile profile ss) ++ profileOptions s)).
Proof.
  intros H. revert s. induction H as [|[name es] ss [(Hn & Ht & Hl) He] Hss IH]; intros s.
  - exists (saveProfile s). simpl. rewrite orb_false_r. by destruct s.
  - cbn [fst snd] in *.
    assert (config_text ((name, es) :: ss) = ([91] ++ name ++ [93]) ++ 10 :: (concat (entry_text <$> es) ++ config_text ss)) as ->.
    { unfold config_text. cbn [fmap list_fmap concat]. unfold section_text at 1. cbn [fst snd]. by rewrite <- !app_assoc. }
    rewrite lines_line by (destruct Hl as [_ Hl]; not_in).
    assert (([91] ++ name ++ [93]) ++ [10] = [91] ++ name ++ [93; 10]) as -> by (by rewrite <- !app_assoc).
    cbn [profile_lines]. rewrite (heading_line profile s name Hn Ht Hl). cbn zeta. cbn [rbind].
    rewrite entries_read by done. destruct (IH (saved profile (LState (bool_decide (profile = name)) (profileFound s || bool_decide (profile = name)) (profileOptions s)) es)) as [save Hr].
    exists save. rewrite Hr. unfold saved, options_of_profile. cbn [saveProfile profileFound profileOptions fmap list_fmap concat fst snd].
    rewrite reverse_app, <- app_assoc, <- orb_assoc. f_equal. f_equal.
    + f_equal. rewrite (bool_decide_ext (profile ∈ name :: _) (profile = name \/ profile ∈ fst <$> ss)) by apply elem_of_cons.
      by rewrite bool_decide_or.
    + by destruct (bool_decide (profile = name)).
Qed.

(** C29: from a well-formed configuration file, the options of all sections of the
    given name are read, in order and without the quotes of their values; a
    profile without a section is an error, unless it is the default one. *)
Theorem loadProfile_options profile ss : Forall section_ok ss ->
  loadProfile true (Contents (config_text ss)) profile =
    if bool_decide (profile ∈ fst <$> ss) || bool_decide (profile = default_profile)
    then Ok (options_of_profile profile ss) else Fatal profile_not_found.
Proof.
  intros H. unfold loadProfile. cbn [negb].
  destruct (sections_read profile (LState false false []) ss H) as [save ->]. cbn [rbind profileFound profileOptions orb].
  rewrite reverse_loop_spec, !app_nil_r, reverse_involutive.
  by destruct (bool_decide (profile ∈ _)), (bool_decide (profile = _)).
Qed.

(** A file with the sections [a] and [b]:  [x y] and [z 'u '] in [a], [v] in [b]. *)
Lemma loadProfile_options_witness :
  loadProfile true (Contents [91; 97; 93; 10; 120; 32; 121; 10; 122; 32; 39; 117; 32; 39; 10; 91; 98; 93; 10; 118; 10]) [97] =
    Ok [[45; 45; 120; 61; 121]; [45; 45; 122; 61; 117; 32]].
Proof.
  apply (loadProfile_options [97] [([97], [Entry [120] (Plain [121]); Entry [122] (Quoted 39 [117; 32])]); ([98], [Entry [118] NoValue])]).
  assert (forall c d : Z, c <> 0 -> c <> 10 -> d <> 0 -> d <> 10 -> one_line [c] /\ one_line [c; d]) as Hl.
  { intros c d ? ? ? ?. unfold one_line. rewrite !not_elem_of_cons. pose proof (not_elem_of_nil (A := Z)). repeat split; (done || congruence). }
  assert (forall c : Z, c <> 0 -> c <> 10 -> one_line [c]) as Hl1 by (intros c ? ?; apply (Hl c 1); done).
  apply Forall_cons; split; [|apply Forall_cons; split; [|done]].
  - split; [split; [done|split; [by right|by apply Hl1]]|].
    apply Forall_cons; split; [|apply Forall_cons; split; [|done]].
    + split; [split; [done|split; [by apply Hl1|split; [by repeat constructor|done]]]|]. split; [done|]. split; [by right|]. split; [by apply Hl1|done].
    + split; [split; [done|split; [by apply Hl1|split; [by repeat constructor|done]]]|]. split; [done|]. by apply (Hl 117 32).
  - split; [split; [done|split; [by right|by apply Hl1]]|].
    apply Forall_cons; split; [|done]. split; [split; [done|split; [by apply Hl1|split; [by repeat constructor|done]]]|done].
Defined.
