(* ===== verification/Options.v ===== *)
(** * option.c: the options of dwdiff

    The record [option_t], the table of options with the code of each, the
    defaults, and [parseCmdLine].  Opening a file, and the ICU functions that
    UTF-8 mode uses, are parameters.  The C locale's character classes stand
    for the functions of ctype.h. *)

From stdpp Require Import strings sorting.
From Stdlib Require Import Ascii.
From coqutil Require Import Datatypes.RecordSetters.
From S2P Require Import Prelude EditScript HashTable FileIO FileProofs Streams Unicode UnicodeProofs Tokenizer OptionMacros Escapes Profile.
Import DoubleBraceUpdate.

(** The bytes of a string of the source. *)
Definition text (s : String.string) : list Z := (fun a => Z.of_nat (nat_of_ascii a)) <$> String.list_ascii_of_string s.

(** Messages; [exit_success] is not an error: the program has printed what was
    asked for and exits with status 0. *)
Definition exit_success : positive := 30.
Definition no_such_option : positive := 31.
Definition not_supported : positive := 32.
Definition both_standard_input : positive := 33.
Definition too_many_files_given : positive := 34.
Definition invalid_color : positive := 35.
Definition garbage_after_value : positive := 36.
Definition value_out_of_range : positive := 37.
Definition invalid_algorithm : positive := 38.
Definition cannot_open_output : positive := 39.
Definition sets_overlap : positive := 40.
Definition only_one_file : positive := 41.
Definition need_two_files : positive := 42.
Definition out_of_fuel : positive := 43.

(** ** Data *)

Record option_t := Option_t {
  oldFile_name : option (list Z);
  oldFile_input : bool;                 (* standard input has been wrapped *)
  newFile_name : option (list Z);
  newFile_input : bool;
  delStart : option optarg;
  delStop : option optarg;
  addStart : option optarg;
  addStop : option optarg;
  delColor : list Z;
  addColor : list Z;
  delimiters : list Z;                  (* bitmaps *)
  whitespace : list Z;
  delimiterList : list (list Z);
  whitespaceList : list (list Z);
  punctuationMask : bool;
  compatibilityDecomposition : bool;    (* NFKD instead of NFD *)
  whitespaceSet : bool;
  printDeleted : bool;
  printAdded : bool;
  printCommon : bool;
  needMarkers : bool;
  needStartStop : bool;
  printer : bool;
  less : bool;
  statistics : bool;
  ignoreCase : bool;
  colorMode : bool;
  lineNumbers : Z;
  context : bool;
  contextLines : Z;
  matchContext : Z;
  aggregateChanges : bool;
  paraDelim : bool;
  paraDelimMarker : optarg;
  wdiffOutput : bool;
  profile : option optarg;
  output : option (list Z);             (* None: standard output *)
  dwfilterMode : bool;
  repeatMarkers : bool;
  diffInput : bool;
  minimal : bool;                       (* of the diff engine *)
  speed_large_files : bool
}.

(** The options after [initializeOptions]. *)
Definition initializeOptions : option_t := {|
  oldFile_name := None; oldFile_input := false; newFile_name := None; newFile_input := false;
  delStart := None; delStop := None; addStart := None; addStop := None;
  delColor := []; addColor := [];
  delimiters := replicate 32 0; whitespace := replicate 32 0; delimiterList := []; whitespaceList := [];
  punctuationMask := false; compatibilityDecomposition := false; whitespaceSet := false;
  printDeleted := true; printAdded := true; printCommon := true; needMarkers := false; needStartStop := true;
  printer := false; less := false; statistics := false; ignoreCase := false; colorMode := false;
  lineNumbers := 0; context := false; contextLines := 0; matchContext := 2; aggregateChanges := false;
  paraDelim := false; paraDelimMarker := kept (text "<-->"); wdiffOutput := false;
  profile := Some (kept (text "default")); output := None; dwfilterMode := false; repeatMarkers := false;
  diffInput := false; minimal := false; speed_large_files := false
|}.

(** ** The C library's classes of characters *)

(** They depend on the locale, which [main] takes from the environment
    (dwdiff.c:515).  On digits and the letters of hexadecimal numbers they are
    the same in all locales (Escapes). *)
Class Locale := {
  isspace : Z -> bool;
  ispunct : Z -> bool;
  locale_tolower : Z -> Z
}.

(** The locale "C". *)
Definition C_locale : Locale := {|
  isspace := is_space;
  ispunct c := ((33 <=? c) && (c <=? 47)) || ((58 <=? c) && (c <=? 64)) || ((91 <=? c) && (c <=? 96)) || ((123 <=? c) && (c <=? 126));
  locale_tolower := tolower
|}.

(** ** Strings *)

Fixpoint strCaseCmp {L : Locale} (a b : list Z) : Z :=
  let ca := locale_tolower (char_at a 0) in
  let cb := locale_tolower (char_at b 0) in
  match a, b with
  | x :: a', y :: b' => if ca =? cb then strCaseCmp a' b' else if ca <? cb then -1 else 1
  | _, _ => if ca =? cb then 0 else if ca <? cb then -1 else 1
  end.

(** The argument after [parseEscapes], with the length it returns. *)
Definition escaped (string : list Z) : result (list Z) :=
  match parseEscapes string with
  | Some (Ok (mem, n)) => Ok (take n mem)
  | Some (Fatal e) => Fatal e
  | None => Fatal out_of_fuel
  end.

(** The parts before and after the first [c]; none if there is no [c]. *)
Fixpoint split_at_char (c : Z) (l : list Z) : option (list Z * list Z) :=
  match l with
  | [] => None
  | x :: l' =>
      if x =? c then Some ([], l')
      else match split_at_char c l' with Some (a, b) => Some (x :: a, b) | None => None end
  end.

(** ** Colors *)

Record Color := MkColor { color_name : list Z; sequence : list Z; backgroundSequence : option (list Z) }.

Definition colors : list Color :=
  [MkColor (text "black") (text "30") (Some (text "40")); MkColor (text "red") (text "31") (Some (text "41"));
   MkColor (text "green") (text "32") (Some (text "42")); MkColor (text "brown") (text "33") (Some (text "43"));
   MkColor (text "blue") (text "34") (Some (text "44")); MkColor (text "magenta") (text "35") (Some (text "45"));
   MkColor (text "cyan") (text "36") (Some (text "46")); MkColor (text "gray") (text "37") (Some (text "47"));
   MkColor (text "dgray") (text "30;1") None; MkColor (text "bred") (text "31;1") None;
   MkColor (text "bgreen") (text "32;1") None; MkColor (text "yellow") (text "33;1") None;
   MkColor (text "bblue") (text "34;1") None; MkColor (text "bmagenta") (text "35;1") None;
   MkColor (text "bcyan") (text "36;1") None; MkColor (text "white") (text "37;1") None].

(** The loop over all colors, and the one that stops at the first color
    without a background sequence. *)
Fixpoint find_color {L : Locale} (name : list Z) (cs : list Color) : option Color :=
  match cs with
  | [] => None
  | c :: cs' => if strCaseCmp name (color_name c) =? 0 then Some c else find_color name cs'
  end.

Fixpoint find_background {L : Locale} (name : list Z) (cs : list Color) : option (list Z) :=
  match cs with
  | [] => None
  | c :: cs' =>
      match backgroundSequence c with
      | None => None
      | Some b => if strCaseCmp name (color_name c) =? 0 then Some b else find_background name cs'
      end
  end.

Definition SEQUENCE_BUFFER_LEN : nat := 20.
Definition esc : list Z := [27; 91; 48].

(** The fields of a color: none is an absent or empty name. *)
Definition lookup_foreground {L : Locale} (name : list Z) : result (option Color) :=
  if (length name =? 0)%nat then Ok None
  else match find_color name colors with Some c => Ok (Some c) | None => Fatal invalid_color end.
Definition lookup_background {L : Locale} (name : list Z) : result (option (list Z)) :=
  if (length name =? 0)%nat then Ok None
  else match find_background name colors with Some b => Ok (Some b) | None => Fatal invalid_color end.

(** The length of the result is the one strlen(3) gives.  Without any color the
    buffer is not initialized.  (For "e:" the call of memmove also copies up to
    two bytes behind the string.) *)
Definition parseColor {L : Locale} (color : list Z) : result (list Z) :=
  if bool_decide (take 2 color = text "e:") then
    let* s := escaped (drop 2 color) in Ok (until_null s)
  else
    let '(fg, bg) := match split_at_char 58 color with Some (a, b) => (a, Some b) | None => (color, None) end in
    if match bg with Some b => bool_decide (58 ∈ b) | None => false end then Fatal invalid_color
    else
      let* f := lookup_foreground fg in
      let* b := match bg with Some b => lookup_background b | None => Ok None end in
      match f, b with
      | Some f, Some b => Ok (take (SEQUENCE_BUFFER_LEN - 1) (esc ++ text ";" ++ sequence f ++ text ";" ++ b ++ text "m"))
      | Some f, None => Ok (take (SEQUENCE_BUFFER_LEN - 1) (esc ++ text ";" ++ sequence f ++ text "m"))
      | None, Some b => Ok (take (SEQUENCE_BUFFER_LEN - 1) (esc ++ b ++ text "m"))
      | None, None => Fatal undefined
      end.

(** ** PARSE_INT *)

(** strtol(3): spaces, a sign and digits; the value and the rest. *)
Fixpoint decimal (l : list Z) (v : Z) : Z * list Z :=
  match l with
  | c :: l' => if isdigit c then decimal l' (v * 10 + (c - 48)) else (v, l)
  | [] => (v, [])
  end.

Fixpoint skip_spaces {L : Locale} (l : list Z) : list Z :=
  match l with
  | c :: l' => if isspace c then skip_spaces l' else l
  | [] => []
  end.

Definition strtol {L : Locale} (l : list Z) : Z * list Z :=
  let l1 := skip_spaces l in
  let '(sign, l2) := match l1 with
    | c :: r => if c =? 45 then (-1, r) else if c =? 43 then (1, r) else (1, l1)
    | [] => (1, l1)
    end in
  if isdigit (char_at l2 0) then let '(v, rest) := decimal l2 0 in (sign * v, rest) else (0, l).

(** A value that does not fit a long is out of range as well. *)
Definition PARSE_INT {L : Locale} (arg : list Z) (min max : Z) : result Z :=
  let '(value, rest) := strtol arg in
  if negb (length rest =? 0)%nat then Fatal garbage_after_value
  else if (value <? min) || (max <? value) then Fatal value_out_of_range
  else Ok value.

(** ** Sets of characters *)

(** SET_BIT with a [char] as index: the bytes from 128 on are negative and
    leave the bitmap. *)
Definition set_char_bit (bitmap : list Z) (c : Z) : result (list Z) :=
  if signed_char c <? 0 then Fatal undefined else Ok (SET_BIT bitmap c).

Fixpoint addCharactersSC (chars : list Z) (bitmap : list Z) : result (list Z) :=
  match chars with
  | [] => Ok bitmap
  | c :: chars' => let* bitmap := set_char_bit bitmap c in addCharactersSC chars' bitmap
  end.

(** 0 .. UCHAR_MAX *)
Definition all_bytes : list Z := seqZ 0 256.

Definition checkOverlapSC (o : option_t) : result unit :=
  if negb (whitespaceSet o) then Ok ()
  else if existsb (fun i => TEST_BIT (delimiters o) i && TEST_BIT (whitespace o) i) all_bytes then Fatal sets_overlap
  else Ok ().

Definition setPunctuationSC {L : Locale} (o : option_t) : option_t :=
  o{{ delimiters := foldl (fun m i => if ispunct i then SET_BIT m i else m) (delimiters o) all_bytes }}.

(** The default whitespace. *)
Definition default_whitespace {L : Locale} (o : option_t) : option_t :=
  if negb (whitespaceSet o) then
    o{{ whitespace := foldl (fun m i => if negb (TEST_BIT (delimiters o) i) && isspace i then SET_BIT m i else m)
                        (whitespace o) all_bytes }}
  else o.

Definition postProcessOptionsSC {L : Locale} (o : option_t) : option_t :=
  let o := default_whitespace o in
  if negb (TEST_BIT (whitespace o) 32) then o{{ wdiffOutput := true }} else o.

Section Options.
Context {L : Locale} (UTF8Mode : bool).
(** ICU: cluster categories, decomposition (true: NFKD), character classes. *)
Context (gcb : Z -> Z) (normalize : bool -> list Z -> list Z) (isPunct isUWhiteSpace : Z -> bool).
(** Whether fopen(3) with "r+" opens the file. *)
Context (fopen_ok : list Z -> bool).

(** ** Sets of characters in UTF-8 mode *)

Fixpoint add_clusters (fuel : nat) (decomposition : bool) (s : Stream) (l : list (list Z)) : result (list (list Z)) :=
  match fuel with
  | O => Fatal out_of_fuel
  | S fuel' =>
      match getCluster gcb s with
      | None => Fatal out_of_fuel
      | Some (Fatal e) => Fatal e
      | Some (Ok (_, None)) => Ok l
      | Some (Ok (s, Some cluster)) =>
          let c := normalize decomposition cluster in
          add_clusters fuel' decomposition s
            (if existsb (fun x => compareUTF16Buffer c x =? 0) l then l else l ++ [c])
      end
  end.

Definition addCharactersUTF8 (chars : list Z) (decomposition : bool) (l : list (list Z)) : result (list (list Z)) :=
  add_clusters (S (length chars)) decomposition (newStringStream chars) l.

(** The inner loop on [j], and the outer one on [i]. *)
Fixpoint skip_smaller (d : list Z) (ws : list (list Z)) : list (list Z) :=
  match ws with
  | w :: ws' => if 0 <? compareUTF16Buffer d w then skip_smaller d ws' else ws
  | [] => []
  end.

Fixpoint lists_overlap (ds ws : list (list Z)) : bool :=
  match ds with
  | [] => false
  | d :: ds' =>
      match skip_smaller d ws with
      | [] => false
      | (w :: _) as ws' => if compareUTF16Buffer d w =? 0 then true else lists_overlap ds' ws'
      end
  end.

Fixpoint any_punctuation (ws : list (list Z)) : result bool :=
  match ws with
  | [] => Ok false
  | w :: ws' => let* p := isUTF16 isPunct w in if p : bool then Ok true else any_punctuation ws'
  end.

Definition checkOverlapUTF8 (o : option_t) : result unit :=
  if negb (whitespaceSet o) then Ok ()
  else if lists_overlap (delimiterList o) (whitespaceList o) then Fatal sets_overlap
  else if negb (punctuationMask o) then Ok ()
  else let* p := any_punctuation (whitespaceList o) in if p : bool then Fatal sets_overlap else Ok ().

Definition setPunctuationUTF8 (o : option_t) : option_t := o{{ punctuationMask := true }}.

(** The order that qsort(3) and bsearch(3) are called with. *)
Definition buffer_le (a b : list Z) : Prop := compareUTF16Buffer a b <= 0.
#[export] Instance buffer_le_dec : RelDecision buffer_le.
Proof. intros a b. unfold buffer_le. apply _. Defined.
Definition qsort (l : list (list Z)) : list (list Z) := merge_sort buffer_le l.

(** [classifyChar] for a space. *)
Definition classify_space (o : option_t) : result category :=
  let* d := isDelimiterUTF8 (delimiterList o) (punctuationMask o) isPunct (fun l => l) [32] in
  if d : bool then Ok CAT_DELIMITER
  else
    let* w := isWhitespaceUTF8 (whitespaceSet o) (whitespaceList o) isUWhiteSpace (fun l => l) [32] in
    Ok (if w : bool then CAT_WHITESPACE else CAT_OTHER).

Definition postProcessOptionsUTF8 (o : option_t) : result option_t :=
  let o := o{{ delimiterList := qsort (delimiterList o); whitespaceList := qsort (whitespaceList o) }} in
  let* cat := classify_space o in
  Ok (if bool_decide (cat = CAT_WHITESPACE) then o else o{{ wdiffOutput := true }}).

(** The dispatch table. *)
Definition addDelimiters (chars : list Z) (o : option_t) : result option_t :=
  if UTF8Mode then
    let* l := addCharactersUTF8 chars (compatibilityDecomposition o) (delimiterList o) in Ok (o{{ delimiterList := l }})
  else let* m := addCharactersSC chars (delimiters o) in Ok (o{{ delimiters := m }}).
Definition addWhitespace (chars : list Z) (o : option_t) : result option_t :=
  if UTF8Mode then
    let* l := addCharactersUTF8 chars (compatibilityDecomposition o) (whitespaceList o) in Ok (o{{ whitespaceList := l }})
  else let* m := addCharactersSC chars (whitespace o) in Ok (o{{ whitespace := m }}).
Definition setPunctuation (o : option_t) : option_t := if UTF8Mode then setPunctuationUTF8 o else setPunctuationSC o.
Definition postProcessOptions (o : option_t) : result option_t :=
  if UTF8Mode then postProcessOptionsUTF8 o else Ok (postProcessOptionsSC o).
Definition checkOverlap (o : option_t) : result unit := if UTF8Mode then checkOverlapUTF8 o else checkOverlapSC o.

(** ** Defaults *)

Definition or_empty (s : option optarg) : option optarg := match s with None => Some (kept []) | Some _ => s end.

Definition noDefaultMarkers (o : option_t) : option_t :=
  o{{ addStart := or_empty (addStart o); addStop := or_empty (addStop o);
      delStart := or_empty (delStart o); delStop := or_empty (delStop o) }}.

Definition or_text (t : list Z) (s : option optarg) : option optarg := match s with None => Some (kept t) | Some _ => s end.

Definition bool_Z (b : bool) : Z := if b then 1 else 0.

Definition completeDefaults (o : option_t) : option_t :=
  if negb (dwfilterMode o) then
    o{{ delStart := or_text (text "[-") (delStart o); delStop := or_text (text "-]") (delStop o);
        addStart := or_text (text "{+") (addStart o); addStop := or_text (text "+}") (addStop o);
        needMarkers := if negb (printCommon o) && negb (printAdded o) && negb (printDeleted o) then false else needMarkers o;
        needStartStop :=
          if bool_Z (negb (printAdded o)) + bool_Z (negb (printDeleted o)) + bool_Z (negb (printCommon o)) =? 2
          then false else needStartStop o }}
  else
    o{{ delStart := Some (kept []); delStop := Some (kept []); addStart := Some (kept []); addStop := Some (kept []);
        printAdded := false; needMarkers := false; needStartStop := true }}.

(** ** The table of options *)

Inductive opt :=
  | Delimiters | Punctuation | WhiteSpace | Help | Version | NoDeleted | NoInserted | NoCommon | IgnoreCase
  | IgnoreFormatting | StatisticsOption | Autopager | Printer | LessMode | Less | Terminal | StartDelete | StopDelete
  | StartInsert | StopInsert | AvoidWraps | SingleDash | DoubleDash | ColorOption | LineNumbers | ContextOption
  | MatchContext | AggregateChanges | ParagraphSeparator | WdiffOutput | Dwfilter | Reverse | RepeatMarkers
  | DiffInput | Algorithm | ProfileOption | NoProfile.

Definition short_and_long (o : opt) (c : Ascii.ascii) (name : String.string) (r : ArgReq) : opt_spec opt :=
  OptSpec o (Some (Z.of_nat (nat_of_ascii c))) (Some (text name)) r.
Definition long_only (o : opt) (name : String.string) (r : ArgReq) : opt_spec opt := OptSpec o None (Some (text name)) r.

Definition specs : list (opt_spec opt) :=
  [short_and_long Delimiters "d" "delimiters" REQUIRED_ARG;
   short_and_long Punctuation "P" "punctuation" NO_ARG;
   short_and_long WhiteSpace "W" "white-space" REQUIRED_ARG;
   short_and_long Help "h" "help" NO_ARG;
   short_and_long Version "v" "version" NO_ARG;
   short_and_long NoDeleted "1" "no-deleted" NO_ARG;
   short_and_long NoInserted "2" "no-inserted" NO_ARG;
   short_and_long NoCommon "3" "no-common" NO_ARG;
   short_and_long IgnoreCase "i" "ignore-case" NO_ARG;
   short_and_long IgnoreFormatting "I" "ignore-formatting" NO_ARG;
   short_and_long StatisticsOption "s" "statistics" NO_ARG;
   short_and_long Autopager "a" "autopager" NO_ARG;
   short_and_long Printer "p" "printer" NO_ARG;
   short_and_long LessMode "l" "less-mode" NO_ARG;
   long_only Less "less" NO_ARG;
   short_and_long Terminal "t" "terminal" NO_ARG;
   short_and_long StartDelete "w" "start-delete" REQUIRED_ARG;
   short_and_long StopDelete "x" "stop-delete" REQUIRED_ARG;
   short_and_long StartInsert "y" "start-insert" REQUIRED_ARG;
   short_and_long StopInsert "z" "stop-insert" REQUIRED_ARG;
   short_and_long AvoidWraps "n" "avoid-wraps" NO_ARG;
   OptSpec SingleDash (Some 0) None NO_ARG;
   OptSpec DoubleDash None (Some []) NO_ARG;
   short_and_long ColorOption "c" "color" OPTIONAL_ARG;
   short_and_long LineNumbers "L" "line-numbers" OPTIONAL_ARG;
   short_and_long ContextOption "C" "context" REQUIRED_ARG;
   short_and_long MatchContext "m" "match-context" REQUIRED_ARG;
   long_only AggregateChanges "aggregate-changes" NO_ARG;
   short_and_long ParagraphSeparator "S" "paragraph-separator" OPTIONAL_ARG;
   long_only WdiffOutput "wdiff-output" NO_ARG;
   long_only Dwfilter "dwfilter" REQUIRED_ARG;
   short_and_long Reverse "r" "reverse" NO_ARG;
   short_and_long RepeatMarkers "R" "repeat-markers" NO_ARG;
   short_and_long DiffInput "u" "diff-input" NO_ARG;
   short_and_long Algorithm "A" "algorithm" REQUIRED_ARG;
   long_only ProfileOption "profile" REQUIRED_ARG;
   long_only NoProfile "no-profile" NO_ARG].

(** ** The code of the options *)

(** The options and [noOptionCount]. *)
Definition pstate : Type := option_t * Z.

Definition continue (o : option_t) (n : Z) : result (pstate * control) := Ok ((o, n), Continue).

(** Options that change nothing in dwfilter mode. *)
Definition unless_dwfilter (o : option_t) (n : Z) (k : option_t) : result (pstate * control) :=
  continue (if dwfilterMode o then o else k) n.

(** The text of an argument, converted where it is. *)
Definition escaped_arg (a : optarg) : result optarg :=
  let* s := escaped (arg_text a) in Ok (Arg s (arg_freed a)).

Definition noDeletedOption (o : option_t) : option_t :=
  o{{ printDeleted := false;
      needMarkers := if negb (printAdded o) then true else needMarkers o;
      needStartStop := if negb (printCommon o) || negb (printAdded o) then false else needStartStop o }}.
Definition noInsertedOption (o : option_t) : option_t :=
  o{{ printAdded := false;
      needMarkers := if negb (printDeleted o) then true else needMarkers o;
      needStartStop := if negb (printCommon o) || negb (printDeleted o) then false else needStartStop o }}.
Definition noCommonOption (o : option_t) : option_t := o{{ printCommon := false; needMarkers := true }}.

Definition colorOption (optArg : option optarg) (o : option_t) : result option_t :=
  let o := o{{ colorMode := true }} in
  let colored (del add : list Z) :=
    let* d := parseColor del in
    let* a := parseColor add in
    Ok (noDefaultMarkers (o{{ delColor := d; addColor := a }})) in
  match optArg with
  | Some arg =>
      let arg := arg_text arg in
      if strCaseCmp arg (text "list") =? 0 then Fatal exit_success
      else
        match split_at_char 44 arg with
        | Some (d, a) =>
            if bool_decide (44 ∈ a) then Fatal invalid_color
            else colored (if (length d =? 0)%nat then text "bred" else d) a
        | None => colored (if (length arg =? 0)%nat then text "bred" else arg) (text "bgreen")
        end
  | None => colored (text "bred") (text "bgreen")
  end.

Definition algorithmOption (name : list Z) (o : option_t) : result option_t :=
  if bool_decide (name = text "best") then Ok (o{{ minimal := true; speed_large_files := false }})
  else if bool_decide (name = text "normal") then Ok (o{{ minimal := false; speed_large_files := false }})
  else if bool_decide (name = text "fast") then Ok (o{{ minimal := false; speed_large_files := true }})
  else Fatal invalid_algorithm.

Definition DEFAULT_LINENUMBER_WIDTH : Z := 4.

(** SINGLE_DASH and NO_OPTION. *)
Definition singleDash (o : option_t) (n : Z) : result pstate :=
  if n =? 0 then Ok (o{{ oldFile_input := true }}, n + 1)
  else if n =? 1 then
    match oldFile_name o with
    | None => Fatal both_standard_input
    | Some _ => Ok (o{{ newFile_input := true }}, n + 1)
    end
  else Fatal too_many_files_given.

Definition operand (w : list Z) (_ : Z) (st : pstate) : result (pstate * control) :=
  let '(o, n) := st in
  if n =? 0 then continue (o{{ oldFile_name := Some w }}) (n + 1)
  else if n =? 1 then continue (o{{ newFile_name := Some w }}) (n + 1)
  else Fatal too_many_files_given.

Definition handle (id : opt) (optArg : option optarg) (_ : Z) (st : pstate) : result (pstate * control) :=
  let '(o, n) := st in
  let arg := default (kept []) optArg in
  match id with
  | Delimiters => let* s := escaped (arg_text arg) in let* o := addDelimiters s o in continue o n
  | Punctuation => continue (setPunctuation o) n
  | WhiteSpace =>
      let* s := escaped (arg_text arg) in let* o := addWhitespace s (o{{ whitespaceSet := true }}) in continue o n
  | Help | Version => Fatal exit_success
  | NoDeleted => unless_dwfilter o n (noDeletedOption o)
  | NoInserted => unless_dwfilter o n (noInsertedOption o)
  | NoCommon => unless_dwfilter o n (noCommonOption o)
  | IgnoreCase => continue (o{{ ignoreCase := true }}) n
  | IgnoreFormatting => if UTF8Mode then continue (o{{ compatibilityDecomposition := true }}) n else Fatal not_supported
  | StatisticsOption => unless_dwfilter o n (o{{ statistics := true }})
  | Autopager | Terminal | AvoidWraps => Fatal not_supported
  | Printer => unless_dwfilter o n (noDefaultMarkers (o{{ printer := true }}))
  | LessMode | Less => unless_dwfilter o n (noDefaultMarkers (o{{ less := true }}))
  | StartDelete => let* s := escaped_arg arg in continue (o{{ delStart := Some s }}) n
  | StopDelete => let* s := escaped_arg arg in continue (o{{ delStop := Some s }}) n
  | StartInsert => let* s := escaped_arg arg in continue (o{{ addStart := Some s }}) n
  | StopInsert => let* s := escaped_arg arg in continue (o{{ addStop := Some s }}) n
  | SingleDash => let* st := singleDash o n in Ok (st, Continue)
  | DoubleDash => Ok ((o, n), NoMoreOptions)
  | ColorOption => if dwfilterMode o then continue o n else let* o := colorOption optArg o in continue o n
  | LineNumbers =>
      match optArg with
      | Some a => let* v := PARSE_INT (arg_text a) 1 INT_MAX in continue (o{{ lineNumbers := v }}) n
      | None => continue (o{{ lineNumbers := DEFAULT_LINENUMBER_WIDTH }}) n
      end
  | ContextOption =>
      let* v := PARSE_INT (arg_text arg) 0 INT_MAX in continue (o{{ contextLines := v; context := true }}) n
  | MatchContext =>
      let* v := PARSE_INT (arg_text arg) 0 (Z.quot (INT_MAX - 1) 2) in continue (o{{ matchContext := v * 2 }}) n
  | AggregateChanges => continue (o{{ aggregateChanges := true }}) n
  | ParagraphSeparator =>
      if dwfilterMode o then continue o n
      else
        match optArg with
        | Some a => let* s := escaped_arg a in continue (o{{ paraDelim := true; paraDelimMarker := s }}) n
        | None => continue (o{{ paraDelim := true }}) n
        end
  | WdiffOutput => continue (o{{ wdiffOutput := true }}) n
  | Dwfilter =>
      if fopen_ok (arg_text arg) then continue (o{{ dwfilterMode := true; output := Some (arg_text arg) }}) n
      else Fatal cannot_open_output
  | Reverse => if dwfilterMode o then continue o n else Fatal no_such_option
  | RepeatMarkers => unless_dwfilter o n (o{{ repeatMarkers := true }})
  | DiffInput => unless_dwfilter o n (o{{ diffInput := true }})
  | Algorithm => let* o := algorithmOption (arg_text arg) o in continue o n
  | ProfileOption => continue (o{{ profile := Some arg }}) n
  | NoProfile => continue (o{{ profile := None }}) n
  end.

Definition unknown (st : pstate) : result (pstate * control) := Fatal no_such_option.

Definition parseArgs (args : list (list Z)) (o : option_t) : result option_t :=
  let* (o, _) := parse_args specs handle unknown operand args (o, 0) in Ok o.

(** option_stripped.inc: what is done before the profile is read.  An element
    with an unknown option is passed over. *)
Definition pre_handle (id : opt) (optArg : option optarg) (_ : Z) (o : option_t) : result (option_t * control) :=
  match id with
  | Help => Fatal exit_success
  | DoubleDash => Ok (o, NoMoreOptions)
  | AggregateChanges => Ok (o{{ aggregateChanges := true }}, Continue)
  | WdiffOutput => Ok (o{{ wdiffOutput := true }}, Continue)
  | Dwfilter => Ok (o{{ dwfilterMode := true }}, Continue)
  | ProfileOption => Ok (o{{ profile := Some (default (kept []) optArg) }}, Continue)
  | NoProfile => Ok (o{{ profile := None }}, Continue)
  | _ => Ok (o, Continue)
  end.

Definition preParseArgs (args : list (list Z)) (o : option_t) : result option_t :=
  parse_args specs pre_handle (fun o => Ok (o, Continue)) (fun _ _ o => Ok (o, Continue)) args o.

(** ** parseCmdLine *)

(** The check for the files to compare. *)
Definition check_files (o : option_t) : result option_t :=
  if diffInput o then
    if bool_decide (newFile_name o <> None) then Fatal only_one_file
    else Ok (if bool_decide (oldFile_name o = None) then o{{ oldFile_input := true }} else o)
  else if bool_decide (newFile_name o = None) && negb (newFile_input o) then Fatal need_two_files
  else Ok o.

(** [home] and [config]: the configuration file, see [loadProfile]. *)
Definition parseCmdLine (home : bool) (config : opened) (args : list (list Z)) : result option_t :=
  let* o := preParseArgs args initializeOptions in
  let* options := match profile o with
    | Some p => loadProfile home config (arg_text p)
    | None => Ok []
    end in
  let* o := applyProfileOptions options parseArgs o in
  let* o := parseArgs args o in
  let* o := check_files o in
  let* o := postProcessOptions (completeDefaults o) in
  let* _ := checkOverlap o in
  Ok o.
End Options.
