(* ===== verification/OptionProofs.v ===== *)
(** * What parsing the command line guarantees

    The theorems of OptionMacros for dwdiff's options, an invariant that every
    option preserves, and what holds of the options when [parseCmdLine]
    returns. *)

From coqutil Require Import Datatypes.RecordSetters.
From S2P Require Import Prelude EditScript FileProofs UnicodeProofs Tokenizer OptionMacros Escapes Profile Options.
Import DoubleBraceUpdate.

(** ** Bitmaps *)

Definition bitmap_ok (m : list Z) : Prop := length m = 32%nat.

Lemma index_of_byte b : 0 <= b < 256 -> 0 <= Z.shiftr b 3 < 32 /\ 0 <= Z.land b 7 < 8.
Proof.
  intros Hb. rewrite Z.shiftr_div_pow2 by lia. change 7 with (Z.ones 3). rewrite Z.land_ones by lia.
  change (2 ^ 3) with 8. lia.
Qed.

Lemma byte_index_inj b c : Z.shiftr b 3 = Z.shiftr c 3 -> Z.land b 7 = Z.land c 7 -> b = c.
Proof.
  rewrite !Z.shiftr_div_pow2 by lia. change 7 with (Z.ones 3). rewrite !Z.land_ones by lia.
  change (2 ^ 3) with 8. lia.
Qed.

Lemma TEST_BIT_testbit m b : 0 <= b -> TEST_BIT m b = Z.testbit (default 0 (zget m (Z.shiftr b 3))) (Z.land b 7).
Proof.
  intros Hb. unfold TEST_BIT. assert (0 <= Z.land b 7) as H7 by (apply Z.land_nonneg; by left).
  set (x := default 0 _). set (k := Z.land b 7) in *.
  destruct (Z.testbit x k) eqn:Et.
  - apply negb_true_iff, Z.eqb_neq. intros H0. apply (f_equal (fun z => Z.testbit z k)) in H0.
    rewrite Z.land_spec, Et, Z.shiftl_spec, Z.sub_diag, Z.bits_0 in H0 by done. done.
  - apply negb_false_iff, Z.eqb_eq. apply Z.bits_inj'. intros n Hn. rewrite Z.land_spec, Z.bits_0, Z.shiftl_spec by done.
    destruct (Z.eq_dec n k) as [->|Hne]; [by rewrite Et|]. destruct (Z.lt_ge_cases n k).
    + rewrite (Z.testbit_neg_r 1) by lia. apply andb_false_r.
    + rewrite (Z.bits_above_log2 1) by (simpl; lia). apply andb_false_r.
Qed.

Lemma SET_BIT_length m b : length (SET_BIT m b) = length m.
Proof. unfold SET_BIT, zset. destruct (_ <? 0); [done|]. apply length_insert. Qed.

Lemma TEST_SET_BIT m b c : bitmap_ok m -> 0 <= b < 256 -> 0 <= c < 256 ->
  TEST_BIT (SET_BIT m b) c = TEST_BIT m c || (b =? c).
Proof.
  intros Hm Hb Hc. rewrite !TEST_BIT_testbit by lia. destruct (index_of_byte b Hb) as [Hi Hk], (index_of_byte c Hc) as [Hi' Hk'].
  unfold SET_BIT, zset, zget. rewrite !(proj2 (Z.ltb_ge _ 0)) by lia.
  destruct (Z.eq_dec (Z.shiftr b 3) (Z.shiftr c 3)) as [E|Hne].
  - rewrite E, list_lookup_insert_eq by (unfold bitmap_ok in Hm; lia). simpl. rewrite Z.lor_spec. f_equal.
    rewrite Z.shiftl_spec by lia. destruct (Z.eqb_spec b c) as [->|Hbc]; [by rewrite Z.sub_diag|].
    assert (Z.land b 7 <> Z.land c 7) as Hne by (intros E'; apply Hbc; by apply byte_index_inj).
    destruct (Z.lt_ge_cases (Z.land c 7) (Z.land b 7)); [rewrite Z.testbit_neg_r by lia; done|].
    by rewrite (Z.bits_above_log2 1) by (simpl; lia).
  - rewrite list_lookup_insert_ne by lia. destruct (Z.eqb_spec b c) as [->|]; [done|]. by rewrite orb_false_r.
Qed.

(** Setting the bits of all bytes that pass a test. *)
Lemma set_bits_spec (p : Z -> bool) l m : bitmap_ok m -> Forall (fun i => 0 <= i < 256) l ->
  bitmap_ok (foldl (fun m i => if p i then SET_BIT m i else m) m l) /\
  forall c, 0 <= c < 256 ->
    TEST_BIT (foldl (fun m i => if p i then SET_BIT m i else m) m l) c = TEST_BIT m c || (p c && bool_decide (c ∈ l)).
Proof.
  intros Hm Hl. revert m Hm. induction Hl as [|i l Hi Hl IH]; intros m Hm; simpl.
  - split; [done|]. intros c Hc. by rewrite andb_false_r, orb_false_r.
  - assert (bitmap_ok (if p i then SET_BIT m i else m)) as Hm'.
    { unfold bitmap_ok. destruct (p i); [rewrite SET_BIT_length|]; exact Hm. }
    destruct (IH _ Hm') as [IH1 IH2]. split; [done|]. intros c Hc. rewrite IH2 by done.
    assert (bool_decide (c ∈ i :: l) = (i =? c) || bool_decide (c ∈ l)) as ->.
    { rewrite (bool_decide_ext _ (c = i \/ c ∈ l)) by apply elem_of_cons. rewrite bool_decide_or. f_equal.
      destruct (Z.eqb_spec i c) as [->|]; [by apply bool_decide_eq_true_2|apply bool_decide_eq_false_2; congruence]. }
    destruct (p i) eqn:Ep.
    + rewrite TEST_SET_BIT by done. destruct (Z.eqb_spec i c) as [->|]; [rewrite Ep; by destruct (TEST_BIT m c)|]. by rewrite orb_false_r.
    + destruct (Z.eqb_spec i c) as [->|]; [by rewrite Ep|done].
Qed.

Lemma all_bytes_range : Forall (fun i => 0 <= i < 256) all_bytes.
Proof. apply Forall_forall. intros i Hi. apply elem_of_seqZ in Hi. lia. Qed.

Lemma all_bytes_elem c : 0 <= c < 256 -> bool_decide (c ∈ all_bytes) = true.
Proof. intros Hc. apply bool_decide_eq_true_2, elem_of_seqZ. lia. Qed.

Lemma empty_bitmap c : 0 <= c < 256 -> TEST_BIT (replicate 32 0) c = false.
Proof.
  intros Hc. rewrite TEST_BIT_testbit by lia. destruct (index_of_byte c Hc) as [Hi _]. unfold zget. rewrite (proj2 (Z.ltb_ge _ 0)) by lia.
  rewrite lookup_replicate_2 by lia. apply Z.bits_0.
Qed.

#[local] Opaque all_bytes.

(** ** The invariant *)

(** Go through the steps of a computation that returned. *)
Ltac invert_ok :=
  repeat match goal with
  | H : rbind _ _ = Ok _ |- _ => apply rbind_Ok in H as (? & ? & H)
  | H : Ok _ = Ok _ |- _ => injection H; clear H; intros; subst
  | H : Fatal _ = Ok _ |- _ => discriminate H
  | H : continue _ _ = Ok _ |- _ => unfold continue in H
  | H : unless_dwfilter _ _ _ = Ok _ |- _ => unfold unless_dwfilter in H
  | H : context [if ?b then _ else _] |- _ => let E := fresh "E" in destruct b eqn:E
  | H : context [match ?x with Some _ => _ | None => _ end] |- _ => let E := fresh "E" in destruct x eqn:E
  | H : context [match ?x with (_, _) => _ end] |- _ => destruct x
  end.

Lemma PARSE_INT_bounds {L : Locale} a min max v : PARSE_INT a min max = Ok v -> min <= v <= max.
Proof. unfold PARSE_INT. destruct (strtol a) as [w rest]. intros H. invert_ok. zify_bool. lia. Qed.

(** The numbers stay in the range of their types. *)
Definition numbers_ok (o : option_t) : Prop :=
  0 <= lineNumbers o <= INT_MAX /\ 0 <= contextLines o <= INT_MAX /\
  0 <= matchContext o < INT_MAX /\ Z.even (matchContext o) = true.

(** [needMarkers] and [needStartStop] follow from what is printed. *)
Definition print_flags_ok (o : option_t) : Prop :=
  needMarkers o = negb (printCommon o) || (negb (printAdded o) && negb (printDeleted o)) /\
  (needStartStop o = false -> 2 <= bool_Z (negb (printAdded o)) + bool_Z (negb (printDeleted o)) + bool_Z (negb (printCommon o))) /\
  (printAdded o = false -> printDeleted o = false -> needStartStop o = false).

Definition bitmaps_ok (o : option_t) : Prop :=
  bitmap_ok (delimiters o) /\ bitmap_ok (whitespace o) /\ (whitespaceSet o = false -> whitespace o = replicate 32 0).

(** In dwfilter mode everything is printed so far. *)
Definition filter_ok (o : option_t) : Prop :=
  dwfilterMode o = true /\ printDeleted o = true /\ printAdded o = true /\ printCommon o = true /\
  colorMode o = false /\ printer o = false /\ less o = false /\ paraDelim o = false /\ statistics o = false /\
  repeatMarkers o = false /\ diffInput o = false.

Definition options_ok (o : option_t) : Prop := numbers_ok o /\ print_flags_ok o /\ bitmaps_ok o.

Section Proofs.
Context {L : Locale} (UTF8Mode : bool) (gcb : Z -> Z) (normalize : bool -> list Z -> list Z) (isPunct isUWhiteSpace : Z -> bool).
Context (fopen_ok : list Z -> bool).
Abbreviation run_handle := (handle UTF8Mode gcb normalize fopen_ok).
Abbreviation parse := (parseArgs UTF8Mode gcb normalize fopen_ok).

Lemma initial_ok : options_ok initializeOptions.
Proof.
  split; [|split].
  - unfold numbers_ok, INT_MAX. cbn [initializeOptions lineNumbers contextLines matchContext]. change (2 ^ 31) with 2147483648. repeat split; lia.
  - by unfold print_flags_ok.
  - by unfold bitmaps_ok.
Qed.

Lemma addCharactersSC_length chars m m' : addCharactersSC chars m = Ok m' -> length m' = length m.
Proof.
  revert m. induction chars as [|c chars IH]; intros m H; simpl in H; [by injection H as <-|].
  apply rbind_Ok in H as (m1 & H1 & H). rewrite (IH m1 H). unfold set_char_bit in H1. invert_ok. apply SET_BIT_length.
Qed.

Lemma setPunctuation_bitmap o : bitmap_ok (delimiters o) -> bitmap_ok (delimiters (setPunctuationSC o)).
Proof. intros H. exact (proj1 (set_bits_spec ispunct all_bytes _ H all_bytes_range)). Qed.

(** Case by option, with the code of each unfolded. *)
Ltac each_option H :=
  unfold handle in H;
  match type of H with context [match ?id with Delimiters => _ | _ => _ end] => destruct id end;
  cbn beta iota zeta in H;
  unfold addDelimiters, addWhitespace, setPunctuation, setPunctuationUTF8,
    colorOption, algorithmOption, singleDash in H;
  invert_ok; cbn beta iota zeta delta [fst snd].

Ltac solve_numbers :=
  unfold numbers_ok in *; cbn [lineNumbers contextLines matchContext]; unfold constant;
  match goal with H : PARSE_INT _ _ _ = Ok _ |- _ => apply PARSE_INT_bounds in H | _ => idtac end;
  unfold INT_MAX, DEFAULT_LINENUMBER_WIDTH in *; change (2 ^ 31 - 1) with 2147483647 in *;
  change (Z.quot (2147483647 - 1) 2) with 1073741823 in *;
  repeat match goal with |- _ /\ _ => split end; first [tauto | lia | rewrite Z.even_mul; apply orb_true_r].

Lemma print_options_flags o : print_flags_ok o ->
  print_flags_ok (noDeletedOption o) /\ print_flags_ok (noInsertedOption o) /\ print_flags_ok (noCommonOption o).
Proof.
  destruct o. unfold print_flags_ok, noDeletedOption, noInsertedOption, noCommonOption, constant. cbn -[Z.le].
  destruct printDeleted, printAdded, printCommon, needMarkers, needStartStop; cbn -[Z.le];
    intuition first [congruence | lia].
Qed.

(** Options that leave a group of fields alone. *)
Ltac unframe := unfold noDeletedOption, noInsertedOption, noCommonOption; cbv zeta; repeat case_if.

Lemma handle_ok id a i st st' c : options_ok st.1 -> run_handle id a i st = Ok (st', c) -> options_ok st'.1.
Proof.
  destruct st as [o n]. cbn [fst]. intros (Hn & Hf & Hb) H1. pose proof (print_options_flags o Hf) as (P1 & P2 & P3). each_option H1.
  all: try match goal with |- context [if dwfilterMode ?y then _ else _] => destruct (dwfilterMode y) end.
  all: try match goal with |- context [if UTF8Mode then _ else _] => destruct UTF8Mode end.
  all: try (split; [exact Hn|split; [exact Hf|exact Hb]]).
  all: split; [first [exact Hn|solve_numbers|unframe; exact Hn]|split; [first [exact Hf|assumption]|]].
  all: first [exact Hb|unframe; exact Hb|idtac].
  all: try match goal with H : addCharactersSC _ _ = Ok _ |- _ => apply addCharactersSC_length in H as Hl end.
  all: destruct Hb as (B1 & B2 & B3); unfold bitmaps_ok, bitmap_ok.
  - split; [exact (eq_trans Hl B1)|by split].
  - split; [by apply setPunctuation_bitmap|by split].
  - split; [exact B1|split; [first [exact (eq_trans Hl B2)|exact B2]|done]].
  - split; [exact B1|split; [first [exact (eq_trans Hl B2)|exact B2]|done]].
Qed.

Lemma operand_ok w i st st' c : options_ok st.1 -> operand w i st = Ok (st', c) -> options_ok st'.1.
Proof. destruct st as [o n]. unfold operand. intros Ho H. invert_ok; exact Ho. Qed.

Lemma parseArgs_ok args o o' : options_ok o -> parse args o = Ok o' -> options_ok o'.
Proof.
  intros Ho H. apply rbind_Ok in H as ([o1 n] & H & [= <-]).
  eapply (parse_args_invariant _ _ _ _ (fun st => options_ok st.1)) in H; [exact H|apply handle_ok|done|apply operand_ok|exact Ho].
Qed.

Lemma handle_filter id a i st st' c : filter_ok st.1 -> run_handle id a i st = Ok (st', c) -> filter_ok st'.1.
Proof.
  destruct st as [o n]. cbn [fst]. intros Hf H1. pose proof Hf as [Hd _]. each_option H1.
  all: try (rewrite ?Hd; exact Hf).
  all: try (exfalso; congruence).
  - by destruct UTF8Mode.
  - by destruct Hf.
Qed.

Lemma operand_filter w i st st' c : filter_ok st.1 -> operand w i st = Ok (st', c) -> filter_ok st'.1.
Proof. destruct st as [o n]. unfold operand. intros Ho H. invert_ok; exact Ho. Qed.

Lemma parseArgs_filter args o o' : filter_ok o -> parse args o = Ok o' -> filter_ok o'.
Proof.
  intros Ho H. apply rbind_Ok in H as ([o1 n] & H & [= <-]).
  eapply (parse_args_invariant _ _ _ _ (fun st => filter_ok st.1)) in H; [exact H|apply handle_filter|done|apply operand_filter|exact Ho].
Qed.

(** A second file is only given after a first one. *)
Definition old_given (o : option_t) : Prop := oldFile_name o <> None \/ oldFile_input o = true.
Definition new_given (o : option_t) : Prop := newFile_name o <> None \/ newFile_input o = true.
Definition files_ok (st : pstate) : Prop :=
  0 <= st.2 /\ (1 <= st.2 -> old_given st.1) /\ (new_given st.1 -> old_given st.1).

Lemma handle_files id a i st st' c : files_ok st -> run_handle id a i st = Ok (st', c) -> files_ok st'.
Proof.
  destruct st as [o n]. intros Hf H1. each_option H1.
  all: try match goal with |- context [if dwfilterMode ?y then _ else _] => destruct (dwfilterMode y) end.
  all: try match goal with |- context [if UTF8Mode then _ else _] => destruct UTF8Mode end.
  all: try exact Hf.
  all: try (unframe; exact Hf).
  all: zify_bool; destruct Hf as (F1 & F2 & F3); cbn [fst snd] in *.
  - split; [simpl; lia|]. split; intros _; by right.
  - split; [simpl; lia|]. split; intros _; left; change (oldFile_name o <> None); congruence.
Qed.

Lemma operand_files w i st st' c : files_ok st -> operand w i st = Ok (st', c) -> files_ok st'.
Proof.
  destruct st as [o n]. unfold operand. intros (F1 & F2 & F3) H. invert_ok; zify_bool; cbn [fst snd] in *.
  - split; [simpl; lia|]. split; intros _; by left.
  - split; [simpl; lia|]. assert (old_given o) as Ho by (apply F2; lia). by split; intros _.
Qed.

Lemma parseArgs_files args o o' : (new_given o -> old_given o) -> parse args o = Ok o' -> new_given o' -> old_given o'.
Proof.
  intros Ho H. apply rbind_Ok in H as ([o1 n] & H & [= <-]).
  eapply (parse_args_invariant _ _ _ _ files_ok) in H; [apply H|apply handle_files|done|apply operand_files|].
  split; [done|]. split; [simpl; lia|exact Ho].
Qed.
End Proofs.
