(* ===== verification/CommandLine.v ===== *)
(** * The command line as a whole

    What dwdiff's options mean on the command line (claims about
    [parse_args] for the table of Options), and what is known when
    [parseCmdLine] returns. *)

From stdpp Require Import strings sorting.
From coqutil Require Import Datatypes.RecordSetters.
From S2P Require Import Prelude EditScript FileProofs UnicodeProofs Unicode Tokenizer OptionMacros Escapes Profile Options OptionProofs.
Import DoubleBraceUpdate.

#[local] Opaque all_bytes.

(** ** Sorted lists of characters *)

Lemma compare_eq a b : compareUTF16Buffer a b = 0 <-> a = b.
Proof. rewrite compare_lex, lex_eq. split; [apply unit_bytes_inj|congruence]. Qed.
Lemma compare_sym a b : compareUTF16Buffer a b < 0 <-> 0 < compareUTF16Buffer b a.
Proof. rewrite !compare_lex. apply lex_sym. Qed.

#[export] Instance buffer_le_trans : Transitive buffer_le.
Proof.
  intros a b c. unfold buffer_le. intros Hab Hbc.
  destruct (Z.eq_dec (compareUTF16Buffer a b) 0) as [->%compare_eq|]; [done|].
  destruct (Z.eq_dec (compareUTF16Buffer b c) 0) as [<-%compare_eq|]; [done|].
  rewrite !compare_lex in *. assert (lex (unit_bytes a) (unit_bytes c) < 0); [|lia]. apply lex_trans with (unit_bytes b); lia.
Qed.

#[export] Instance buffer_le_total : Total buffer_le.
Proof.
  intros a b. unfold buffer_le. destruct (Z.le_gt_cases (compareUTF16Buffer a b) 0); [by left|right].
  assert (compareUTF16Buffer b a < 0) by (apply compare_sym; lia). lia.
Qed.

(** [a] comes before [b] and is different. *)
Lemma before_ne a b : 0 < compareUTF16Buffer b a <-> buffer_le a b /\ a <> b.
Proof.
  unfold buffer_le. rewrite <- compare_sym, <- (compare_eq a b). lia.
Qed.

Lemma skip_smaller_spec d ws : exists pre, ws = pre ++ skip_smaller d ws /\
  Forall (fun e => buffer_le e d /\ e <> d) pre /\
  match skip_smaller d ws with w :: _ => buffer_le d w | [] => True end.
Proof.
  induction ws as [|w ws (pre & IH1 & IH2 & IH3)]; [by exists []|]. simpl. case_if.
  - exists (w :: pre). split; [simpl; by f_equal|]. split; [|done]. constructor; [by apply before_ne|done].
  - by exists [].
Qed.

Lemma StronglySorted_app_r {A} (R : A -> A -> Prop) l1 l2 : StronglySorted R (l1 ++ l2) -> StronglySorted R l2.
Proof. induction l1 as [|x l1 IH]; [done|]. intros H. apply IH. by apply StronglySorted_inv in H as [H _]. Qed.

Lemma buffer_le_antisym a b : buffer_le a b -> buffer_le b a -> a = b.
Proof.
  unfold buffer_le. intros Hab Hba. apply compare_eq. destruct (Z.eq_dec (compareUTF16Buffer a b) 0); [done|].
  assert (0 < compareUTF16Buffer b a) by (apply compare_sym; lia). lia.
Qed.

(** The scan of two sorted lists finds an element of both. *)
Lemma lists_overlap_spec ds ws : StronglySorted buffer_le ds -> StronglySorted buffer_le ws ->
  lists_overlap ds ws = false <-> forall x, x ∈ ds -> x ∈ ws -> False.
Proof.
  intros Hds. revert ws. induction Hds as [|d ds Hds IH Hd]; intros ws Hws; simpl.
  - split; [|done]. intros _ x Hx. by apply elem_of_nil in Hx.
  - destruct (skip_smaller_spec d ws) as (pre & Hpre & Hlt & Hle). destruct (skip_smaller d ws) as [|w ws'] eqn:Es.
    + split; [|done]. intros _ x Hx Hxw. rewrite Hpre, app_nil_r in Hxw. rewrite Forall_forall in Hlt, Hd.
      destruct (Hlt x Hxw) as [H1 H2]. apply elem_of_cons in Hx as [->|Hx]; [done|].
      apply H2, buffer_le_antisym; [done|by apply Hd].
    + rewrite Hpre in Hws. apply StronglySorted_app_r in Hws.
      assert (forall x, x ∈ ds -> x ∈ ws -> x ∈ w :: ws') as Hin.
      { intros x Hx Hxw. rewrite Hpre in Hxw. apply elem_of_app in Hxw as [Hxp|]; [|done]. exfalso.
        rewrite Forall_forall in Hlt, Hd. destruct (Hlt x Hxp) as [H1 H2]. apply H2, buffer_le_antisym; [done|by apply Hd]. }
      case_if.
      * apply compare_eq in E as <-. split; [done|]. intros Hno. exfalso. apply (Hno d); [left|]. rewrite Hpre. apply elem_of_app. right. left.
      * rewrite (IH (w :: ws') Hws). split.
        -- intros Hno x Hx Hxw. apply elem_of_cons in Hx as [->|Hx]; [|by apply (Hno x); [|apply Hin]].
           rewrite Hpre in Hxw. apply elem_of_app in Hxw as [Hxp|Hxw].
           ++ rewrite Forall_forall in Hlt. by destruct (Hlt d Hxp).
           ++ apply E. apply compare_eq. apply elem_of_cons in Hxw as [|Hxw]; [done|].
              apply StronglySorted_inv in Hws as [_ Hws]. rewrite Forall_forall in Hws. apply buffer_le_antisym; [done|by apply Hws].
        -- intros Hno x Hx Hxw. apply (Hno x); [by right|]. rewrite Hpre. apply elem_of_app. by right.
Qed.

Lemma qsort_sorted l : StronglySorted buffer_le (qsort l).
Proof. apply StronglySorted_merge_sort; apply _. Qed.

Lemma qsort_elem x l : x ∈ qsort l <-> x ∈ l.
Proof. unfold qsort. by rewrite merge_sort_Permutation. Qed.

(** ** Arguments *)

Lemma escaped_unescape string : escaped string = unescape string.
Proof.
  unfold escaped, parseEscapes.
  pose proof (escapes_loop_spec (length string) string 0 0 ltac:(lia) ltac:(lia)) as H. rewrite drop_0 in H.
  destruct (unescape string) as [out|e]; [|by rewrite H].
  destruct H as (mem & -> & H & _). f_equal; exact H.
Qed.

(** ** The table of options *)

(** A letter of an option without an argument. *)
Definition is_flag (c : Z) : bool :=
  match find_short specs c with Some s => bool_decide (argReq s = NO_ARG) | None => false end.

(** The names in the table are distinct and have no equals sign. *)
Definition names_ok (s : opt_spec opt) : Prop :=
  (forall c, shortName s = Some c -> find_short specs c = Some s /\ c <> dash) /\
  (forall n, longName s = Some n -> find_long specs n = Some s /\ equals ∉ n) /\
  (longName s <> Some [] -> opt_id s <> DoubleDash).

Ltac check_name H :=
  first [discriminate H | injection H as <- | idtac];
  first [discriminate | by exfalso | split; [reflexivity|first [discriminate | apply (bool_decide_eq_false_1 _); reflexivity]]].
Ltac check_names :=
  let H := fresh in split; [intros ? H; check_name H|split; [intros ? H; check_name H|intros H; check_name H]].

Lemma specs_ok s : s ∈ specs -> names_ok s.
Proof.
  intros Hs. unfold specs in Hs.
  repeat (apply elem_of_cons in Hs as [->|Hs]; [by check_names|]).
  by apply not_elem_of_nil in Hs.
Qed.

Section CommandLine.
Context {L : Locale} (UTF8Mode : bool) (gcb : Z -> Z) (normalize : bool -> list Z -> list Z) (isPunct isUWhiteSpace : Z -> bool).
Context (fopen_ok : list Z -> bool).
Abbreviation code := (handle UTF8Mode gcb normalize fopen_ok).
Abbreviation parse := (parseArgs UTF8Mode gcb normalize fopen_ok).

Lemma code_position id a i j st : code id a i st = code id a j st.
Proof. reflexivity. Qed.
Lemma operand_position w i j st : operand w i st = operand w j st.
Proof. reflexivity. Qed.

(** Only a double dash does more than go on. *)
Lemma code_continues id a i st st' c : code id a i st = Ok (st', c) -> id <> DoubleDash -> c = Continue.
Proof.
  destruct st as [o n]. intros H Hid. unfold handle, continue, unless_dwfilter in H.
  destruct id; repeat first
    [ apply rbind_Ok in H as (? & _ & H)
    | match type of H with context [if ?b then _ else _] => destruct b | context [match ?x with Some _ => _ | None => _ end] => destruct x end
    | injection H as <- <-; done | discriminate H | done ].
Qed.

Lemma short_names s c : s ∈ specs -> shortName s = Some c -> find_short specs c = Some s /\ c <> dash.
Proof. intros Hs. apply (specs_ok s Hs). Qed.
Lemma long_names s n : s ∈ specs -> longName s = Some n -> find_long specs n = Some s /\ equals ∉ n.
Proof. intros Hs. apply (specs_ok s Hs). Qed.

Lemma find_short_in c s : find_short specs c = Some s -> s ∈ specs /\ shortName s = Some c.
Proof.
  unfold find_short. intros H. apply find_some in H as [Hin H]. split; [by apply list_elem_of_In|by apply bool_decide_eq_true_1 in H].
Qed.

Lemma is_flag_spec c : is_flag c = true ->
  exists s, find_short specs c = Some s /\ argReq s = NO_ARG /\ opt_id s <> DoubleDash /\ c <> dash.
Proof.
  unfold is_flag. destruct (find_short specs c) as [s|] eqn:Es; [|done]. intros H. apply bool_decide_eq_true_1 in H.
  destruct (find_short_in c s Es) as [Hs Hn]. exists s. destruct (specs_ok s Hs) as (H1 & _ & H3).
  split; [done|]. split; [done|]. split; [|by apply (H1 c)]. apply H3. intros E.
  revert Hn E. unfold specs in Hs. repeat (apply elem_of_cons in Hs as [->|Hs]; [discriminate|]). by apply not_elem_of_nil in Hs.
Qed.

Lemma is_flag_letter c : is_flag c = true -> flag_letter specs code c.
Proof.
  intros H. destruct (is_flag_spec c H) as (s & Hs & Hr & Hid & _). exists s. split; [done|]. split; [done|].
  intros i st. destruct (code (opt_id s) None i st) as [[st1 c1]|] eqn:E; [|done]. by eapply code_continues.
Qed.

Lemma flags_spec cs : Forall (fun c => is_flag c = true) cs ->
  Forall (flag_letter specs code) cs /\ Forall (fun c => c <> dash) cs.
Proof.
  intros H. split; eapply Forall_impl; try exact H; intros c Hc; [by apply is_flag_letter|].
  by destruct (is_flag_spec c Hc) as (_ & _ & _ & _ & ?).
Qed.

(** C26: the ways to write an option.  Letters without an argument can share one
    dash; a required argument can follow the letter or the long name, in the
    same element (behind an equals sign for a name) or the next one. *)
Theorem option_forms c cs s x n a rest o :
  Forall (fun c => is_flag c = true) (c :: cs) ->
  s ∈ specs -> shortName s = Some x -> longName s = Some n -> argReq s = REQUIRED_ARG ->
  parse ((dash :: c :: cs) :: rest) o = parse (((fun c => [dash; c]) <$> (c :: cs)) ++ rest) o /\
  (a <> [] -> parse ((dash :: x :: a) :: rest) o = parse ([dash; x] :: a :: rest) o) /\
  parse (long_text n (Some a) :: rest) o = parse ([dash; x] :: a :: rest) o /\
  parse (long_text n None :: a :: rest) o = parse ([dash; x] :: a :: rest) o.
Proof.
  intros Hc Hs Hx Hn Hr. destruct (flags_spec _ Hc) as [Hf Hd]. apply Forall_cons in Hf as [Hf Hfs], Hd as [Hd Hds].
  destruct (short_names s x Hs Hx) as [Hx1 Hx2], (long_names s n Hs Hn) as [Hn1 Hn2].
  pose proof (required_argument_forms specs code unknown operand code_position operand_position s x n a rest (o, 0)
    Hx1 Hx2 Hn1 Hn2 Hr) as (R1 & R2 & R3).
  unfold parseArgs. split; [|split; [|split]].
  - by rewrite (options_bundled specs code unknown operand code_position operand_position).
  - intros Ha. by rewrite R1.
  - by rewrite R2.
  - by rewrite R3.
Qed.

(** Options in their long form with what they take, and operands that do not
    start with a dash. *)
Definition item_valid (it : item) : Prop :=
  match it with
  | ItemOption s a =>
      s ∈ specs /\ longName s <> None /\ longName s <> Some [] /\
      match argReq s with NO_ARG => a = None | OPTIONAL_ARG => True | REQUIRED_ARG => a <> None end
  | ItemOperand w => head w <> Some dash
  end.

Lemma item_valid_ok it : item_valid it -> item_ok specs code operand it.
Proof.
  destruct it as [s a|w]; simpl.
  - intros (Hs & Hn & He & Hr). destruct (longName s) as [n|] eqn:En; [|done]. split.
    + intros st. simpl. destruct (code (opt_id s) (kept <$> a) 1 st) as [[st1 c]|] eqn:E; [|done].
      eapply code_continues; [exact E|]. apply (specs_ok s Hs). congruence.
    + destruct (long_names s n Hs En). by exists n.
  - intros Hw. split; [|done]. intros [o k]. simpl. by repeat case_if.
Qed.

(** C25: a command line in long form runs the code of its options and operands,
    each once and in order, and nothing else. *)
Theorem options_in_order its o : Forall item_valid its ->
  parse (item_text <$> its) o = let* (o, _) := run_items code operand its (o, 0) in Ok o.
Proof.
  intros H. unfold parseArgs. rewrite (options_render specs code unknown operand code_position operand_position); [done|].
  eapply Forall_impl; [exact H|apply item_valid_ok].
Qed.

(** The marker that an option letter sets. *)
Definition marker (c : Z) (o : option_t) : option optarg :=
  if c =? 119 then delStart o else if c =? 120 then delStop o else if c =? 121 then addStart o else addStop o.

Lemma marker_code c : c ∈ [119; 120; 121; 122] ->
  exists s, find_short specs c = Some s /\ argReq s = REQUIRED_ARG /\
    forall a i st st' ctl, code (opt_id s) (Some a) i st = Ok (st', ctl) ->
      exists x, escaped_arg a = Ok x /\ marker c st'.1 = Some x.
Proof.
  intros Hc.
  repeat (apply elem_of_cons in Hc as [->|Hc];
    [eexists; split; [reflexivity|]; split; [reflexivity|]; intros a i [o n] st' ctl H; cbn [opt_id short_and_long] in H;
     apply rbind_Ok in H as (x & Hx & [= <- <-]); by exists x|]).
  by apply not_elem_of_nil in Hc.
Qed.

(** A marker given behind another option's letter (as in [-Pw<]) is left in
    memory that has been freed; the program keeps the pointer. *)
Theorem bundled_marker_freed f c a o o' : is_flag f = true -> c ∈ [119; 120; 121; 122] -> a <> [] ->
  parse [dash :: f :: c :: a] o = Ok o' ->
  exists s, unescape a = Ok s /\ marker c o' = Some (Arg s true).
Proof.
  intros Hf Hc Ha H. destruct (is_flag_spec f Hf) as (sf & Hsf & Hr & Hid & Hd). pose proof (is_flag_letter f Hf) as Hfl.
  destruct a as [|d a]; [done|]. unfold parseArgs, parse_args in H. cbn [parse_loop] in H.
  rewrite one_short, short_options_more, Hsf, Hr, (flag_run specs code f sf 1 (o, 0) Hfl Hsf) in H by done.
  apply rbind_Ok in H as ([o1 n1] & H & [= ->]). destruct (code (opt_id sf) None 1 (o, 0)) as [[st1 c1]|]; [|done].
  cbn [rbind then_more] in H. rewrite short_options_more in H.
  destruct (marker_code c Hc) as (s & Hs & Hrs & Hcode). rewrite Hs, Hrs in H. cbn [required rbind] in H. unfold run_option in H.
  destruct (code (opt_id s) (Some (Arg (d :: a) true)) 1 st1) as [[st2 c2]|] eqn:E; [|done].
  destruct (Hcode _ _ _ _ _ E) as (x & Hx & Hm). unfold escaped_arg in Hx. rewrite escaped_unescape in Hx.
  apply rbind_Ok in Hx as (t & Ht & [= <-]). exists t. split; [exact Ht|]. cbn [rbind arg_freed] in *.
  by destruct c1, c2; injection H as ->.
Qed.

(** ** parseCmdLine *)

Lemma preParseArgs_ok args o o' : options_ok o -> preParseArgs args o = Ok o' -> options_ok o'.
Proof.
  intros Ho H. unfold preParseArgs in H.
  eapply (parse_args_invariant _ _ _ _ options_ok) in H; [exact H| | | |exact Ho].
  - intros id a i st st' c Hst E. unfold pre_handle in E. destruct id; try discriminate E; injection E as <- <-; exact Hst.
  - intros st st' c Hst [= <- <-]. exact Hst.
  - intros w i st st' c Hst [= <- <-]. exact Hst.
Qed.

Lemma applyProfileOptions_inv (I : option_t -> Prop) options o o' :
  (forall args o o', I o -> parse args o = Ok o' -> I o') -> I o ->
  applyProfileOptions options parse o = Ok o' -> I o'.
Proof.
  intros HI. revert o. induction options as [|a options IH]; intros o Ho H; simpl in H; [by injection H as <-|].
  apply rbind_Ok in H as (o1 & H1 & H). eapply IH; [|exact H]. by eapply HI.
Qed.

(** What [completeDefaults] and [postProcessOptions] leave alone. *)
Lemma postProcessOptions_fields o o' : postProcessOptions UTF8Mode isPunct isUWhiteSpace o = Ok o' ->
  exists w ds ws b, o' = o{{ whitespace := w; delimiterList := ds; whitespaceList := ws; wdiffOutput := b }}.
Proof.
  unfold postProcessOptions. destruct UTF8Mode.
  - intros H. apply rbind_Ok in H as (cat & _ & [= <-]). destruct o, (bool_decide (cat = CAT_WHITESPACE)); by eexists _, _, _, _.
  - intros [= <-]. unfold postProcessOptionsSC. destruct o. cbn -[foldl TEST_BIT all_bytes].
    destruct whitespaceSet; cbn -[foldl TEST_BIT all_bytes]; destruct (TEST_BIT _ 32); by eexists _, _, _, _.
Qed.

(** The sets of delimiters and whitespace have nothing in common. *)
Definition sets_disjoint (o : option_t) : Prop :=
  if UTF8Mode then
    whitespaceSet o = true ->
    (forall l, l ∈ delimiterList o -> l ∈ whitespaceList o -> False) /\
    (punctuationMask o = true -> Forall (fun w => isUTF16 isPunct w = Ok false) (whitespaceList o))
  else forall c, 0 <= c < 256 -> TEST_BIT (delimiters o) c = true -> TEST_BIT (whitespace o) c = true -> False.

Lemma any_punctuation_false ws : any_punctuation isPunct ws = Ok false -> Forall (fun w => isUTF16 isPunct w = Ok false) ws.
Proof.
  induction ws as [|w ws IH]; simpl; [done|]. intros H. apply rbind_Ok in H as (p & Hp & H). destruct p; [done|].
  constructor; [done|by apply IH].
Qed.

Lemma set_wdiff (b : bool) x :
  delimiters (if b then x{{ wdiffOutput := true }} else x) = delimiters x /\
  whitespace (if b then x{{ wdiffOutput := true }} else x) = whitespace x /\
  whitespaceSet (if b then x{{ wdiffOutput := true }} else x) = whitespaceSet x.
Proof. by destruct b. Qed.

Lemma default_whitespace_fields o :
  delimiters (default_whitespace o) = delimiters o /\ whitespaceSet (default_whitespace o) = whitespaceSet o.
Proof. unfold default_whitespace. destruct (whitespaceSet o) eqn:E; [by split|]. split; [reflexivity|exact E]. Qed.

Lemma default_whitespace_spec o c : whitespaceSet o = false -> bitmap_ok (whitespace o) -> 0 <= c < 256 ->
  TEST_BIT (whitespace (default_whitespace o)) c =
    TEST_BIT (whitespace o) c || (negb (TEST_BIT (delimiters o) c) && isspace c).
Proof.
  intros Hw Hb Hc. unfold default_whitespace. rewrite Hw. cbn [negb whitespace]. unfold constant.
  destruct (set_bits_spec (fun i => negb (TEST_BIT (delimiters o) i) && isspace i) all_bytes (whitespace o) Hb all_bytes_range) as [_ Hs].
  rewrite Hs by done. by rewrite all_bytes_elem, andb_true_r.
Qed.

Lemma existsb_all_bytes (p : Z -> bool) c : 0 <= c < 256 -> existsb p all_bytes = false -> p c = false.
Proof.
  intros Hc H. apply not_true_iff_false. intros Hp. apply not_true_iff_false in H. apply H.
  apply existsb_exists. exists c. split; [|done]. apply list_elem_of_In. exact (bool_decide_eq_true_1 _ (all_bytes_elem c Hc)).
Qed.

Lemma checked_sets o o' u : bitmaps_ok o -> postProcessOptions UTF8Mode isPunct isUWhiteSpace o = Ok o' ->
  checkOverlap UTF8Mode isPunct o' = Ok u -> sets_disjoint o'.
Proof.
  intros (B1 & B2 & B3) Hp Hc. unfold postProcessOptions, checkOverlap, sets_disjoint in *. destruct UTF8Mode.
  - intros Hw. apply rbind_Ok in Hp as (cat & _ & [= Ho]).
    assert (delimiterList o' = qsort (delimiterList o) /\ whitespaceList o' = qsort (whitespaceList o)) as [Hd Hl].
    { rewrite <- Ho. by destruct (bool_decide (cat = CAT_WHITESPACE)). }
    unfold checkOverlapUTF8 in Hc. rewrite Hw in Hc. cbn [negb] in Hc.
    destruct (lists_overlap _ _) eqn:El; [done|]. rewrite Hd, Hl in El.
    pose proof (proj1 (lists_overlap_spec _ _ (qsort_sorted _) (qsort_sorted _)) El) as Hno.
    rewrite Hd, Hl. split; [exact Hno|]. intros Hm. rewrite Hm in Hc. cbn [negb] in Hc.
    apply rbind_Ok in Hc as (p & Hp & Hc). destruct p; [done|]. rewrite <- Hl. by apply any_punctuation_false.
  - injection Hp as <-. intros c Hcr Hd Hw.
    assert (delimiters (postProcessOptionsSC o) = delimiters o /\ whitespace (postProcessOptionsSC o) = whitespace (default_whitespace o) /\
      whitespaceSet (postProcessOptionsSC o) = whitespaceSet o) as (Q1 & Q2 & Q3).
    { unfold postProcessOptionsSC. cbv zeta. destruct (set_wdiff (negb (TEST_BIT (whitespace (default_whitespace o)) 32)) (default_whitespace o)) as (-> & -> & ->).
      destruct (default_whitespace_fields o) as [-> ->]. done. }
    unfold checkOverlapSC in Hc. rewrite Q1 in Hd. rewrite Q2 in Hw. rewrite Q3, Q1, Q2 in Hc.
    destruct (whitespaceSet o) eqn:Ew; cbn [negb] in Hc.
    + destruct (existsb _ all_bytes) eqn:Ee; [done|]. apply (existsb_all_bytes _ c Hcr) in Ee. cbn beta in Ee. by rewrite Hd, Hw in Ee.
    + by rewrite default_whitespace_spec, (B3 eq_refl), empty_bitmap, Hd in Hw.
Qed.

(** The last steps, from the options as they were parsed. *)
Definition finish (o : option_t) : result option_t :=
  let* o := check_files o in
  let* o := postProcessOptions UTF8Mode isPunct isUWhiteSpace (completeDefaults o) in
  let* _ := checkOverlap UTF8Mode isPunct o in
  Ok o.

Lemma parseCmdLine_parsed (I : option_t -> Prop) home config args o :
  (forall pre, preParseArgs args initializeOptions = Ok pre -> I pre) ->
  (forall args o o', I o -> parse args o = Ok o' -> I o') ->
  parseCmdLine UTF8Mode gcb normalize isPunct isUWhiteSpace fopen_ok home config args = Ok o ->
  exists p, I p /\ finish p = Ok o.
Proof.
  intros Hpre Hparse H. unfold parseCmdLine in H. apply rbind_Ok in H as (o1 & H1 & H). apply Hpre in H1.
  apply rbind_Ok in H as (options & _ & H). apply rbind_Ok in H as (o2 & H2 & H).
  apply (applyProfileOptions_inv I) in H2; [|exact Hparse|exact H1].
  apply rbind_Ok in H as (o3 & H3 & H). apply Hparse in H3; [|exact H2]. exists o3. split; [exact H3|exact H].
Qed.

(** The files, the defaults and the checks, one after the other. *)
Lemma finish_steps p o : finish p = Ok o -> exists q, (q = p \/ (q = p{{ oldFile_input := true }} /\ diffInput p = true)) /\
  check_files p = Ok q /\ postProcessOptions UTF8Mode isPunct isUWhiteSpace (completeDefaults q) = Ok o /\
  checkOverlap UTF8Mode isPunct o = Ok ().
Proof.
  intros H. apply rbind_Ok in H as (q & Hq & H). apply rbind_Ok in H as (r & Hr & H). apply rbind_Ok in H as ([] & Hc & [= <-]).
  exists q. split; [|done]. revert Hq. unfold check_files. destruct (diffInput p) eqn:Ed.
  - destruct (bool_decide _); [done|]. intros [= <-]. destruct (bool_decide _); [by right|by left].
  - destruct (_ && _); [done|]. intros [= <-]. by left.
Qed.

(** How many kinds of words are printed. *)
Definition printed (o : option_t) : Z := bool_Z (printAdded o) + bool_Z (printDeleted o) + bool_Z (printCommon o).

(** [completeDefaults], field by field. *)
Lemma completeDefaults_fields o :
  let o' := completeDefaults o in
  let dw := dwfilterMode o in
  let complete t x := if dw then Some (kept []) else or_text t x in
  (delStart o', delStop o', addStart o', addStop o', printAdded o') =
    (complete (text "[-") (delStart o), complete (text "-]") (delStop o), complete (text "{+") (addStart o),
     complete (text "+}") (addStop o), if dw then false else printAdded o) /\
  (printDeleted o', printCommon o', needMarkers o', needStartStop o', lineNumbers o', contextLines o', matchContext o',
   delimiters o', whitespace o', whitespaceSet o') =
    (printDeleted o, printCommon o,
     (if dw then false else if negb (printCommon o) && negb (printAdded o) && negb (printDeleted o) then false else needMarkers o),
     (if dw then true
      else if bool_Z (negb (printAdded o)) + bool_Z (negb (printDeleted o)) + bool_Z (negb (printCommon o)) =? 2
           then false else needStartStop o),
     lineNumbers o, contextLines o, matchContext o, delimiters o, whitespace o, whitespaceSet o) /\
  (dwfilterMode o', diffInput o', oldFile_name o', oldFile_input o', newFile_name o', newFile_input o') =
    (dw, diffInput o, oldFile_name o, oldFile_input o, newFile_name o, newFile_input o).
Proof.
  cbv zeta. unfold completeDefaults. destruct (dwfilterMode o) eqn:Edw; cbn [negb];
    (split; [reflexivity|split; [reflexivity|rewrite <- Edw; reflexivity]]).
Qed.

Lemma flags_final o : print_flags_ok o ->
  let n := bool_Z (printAdded o) + bool_Z (printDeleted o) + bool_Z (printCommon o) in
  (if negb (printCommon o) && negb (printAdded o) && negb (printDeleted o) then false else needMarkers o) =
    (0 <? n) && (negb (printCommon o) || (negb (printAdded o) && negb (printDeleted o))) /\
  (if bool_Z (negb (printAdded o)) + bool_Z (negb (printDeleted o)) + bool_Z (negb (printCommon o)) =? 2
   then false else needStartStop o) = (2 <=? n).
Proof.
  unfold print_flags_ok. intros (F1 & F2 & F3). rewrite F1. clear F1. revert F2 F3.
  destruct (printAdded o), (printDeleted o), (printCommon o), (needStartStop o); cbn -[Z.le];
    intros F2 F3; (split; [reflexivity|]); first [reflexivity | specialize (F2 eq_refl); lia | discriminate (F3 eq_refl eq_refl)].
Qed.

(** The fields that completing the defaults computes. *)
Lemma completeDefaults_spec o : print_flags_ok o ->
  let o' := completeDefaults o in
  (delStart o' <> None /\ delStop o' <> None /\ addStart o' <> None /\ addStop o' <> None) /\
  (dwfilterMode o = false ->
     (printAdded o', printDeleted o', printCommon o') = (printAdded o, printDeleted o, printCommon o) /\
     needMarkers o' = (0 <? printed o') && (negb (printCommon o') || (negb (printAdded o') && negb (printDeleted o'))) /\
     needStartStop o' = (2 <=? printed o')) /\
  (dwfilterMode o = true ->
     (printAdded o', printDeleted o', printCommon o') = (false, printDeleted o, printCommon o) /\
     needMarkers o' = false /\ needStartStop o' = true) /\
  numbers_ok o = numbers_ok o' /\ bitmaps_ok o = bitmaps_ok o' /\
  (dwfilterMode o', diffInput o', oldFile_name o', oldFile_input o', newFile_name o', newFile_input o') =
    (dwfilterMode o, diffInput o, oldFile_name o, oldFile_input o, newFile_name o, newFile_input o).
Proof.
  intros Hf. cbv zeta. unfold numbers_ok, bitmaps_ok, printed.
  destruct (completeDefaults_fields o) as (E1 & E2 & E3). injection E1 as -> -> -> -> ->.
  injection E2 as -> -> -> -> -> -> -> -> -> ->. injection E3 as -> -> -> -> -> ->.
  assert (forall t x, or_text t x <> None) as Hor by (by intros t [x|]).
  split; [destruct (dwfilterMode o); repeat split; first [apply Hor|done]|].
  split; [intros ->|split; [intros ->|done]]; [|done].
  split; [done|]. by apply flags_final.
Qed.

Lemma postProcessOptions_spec o o' : postProcessOptions UTF8Mode isPunct isUWhiteSpace o = Ok o' ->
  numbers_ok o' = numbers_ok o /\ printed o' = printed o /\
  (delStart o', delStop o', addStart o', addStop o') = (delStart o, delStop o, addStart o, addStop o) /\
  (printAdded o', printDeleted o', printCommon o', needMarkers o', needStartStop o') =
    (printAdded o, printDeleted o, printCommon o, needMarkers o, needStartStop o) /\
  (dwfilterMode o', diffInput o', oldFile_name o', oldFile_input o', newFile_name o', newFile_input o') =
    (dwfilterMode o, diffInput o, oldFile_name o, oldFile_input o, newFile_name o, newFile_input o).
Proof. intros H. by destruct (postProcessOptions_fields o o' H) as (w & ds & ws & b & ->). Qed.

Lemma check_files_spec p q : check_files p = Ok q -> (new_given p -> old_given p) ->
  if diffInput q then newFile_name q = None /\ old_given q else old_given q /\ new_given q.
Proof.
  unfold check_files, old_given, new_given. intros H Ho. destruct (diffInput p) eqn:Ed.
  - destruct (bool_decide (newFile_name p <> None)) eqn:En; [done|]. apply bool_decide_eq_false_1, dec_stable in En.
    destruct (bool_decide (oldFile_name p = None)) eqn:Eo.
    + assert (q = p{{ oldFile_input := true }}) as -> by congruence.
      assert (diffInput (p{{ oldFile_input := true }}) = true) as -> by exact Ed. split; [exact En|by right].
    + assert (q = p) as -> by congruence. rewrite Ed. split; [done|]. left. by apply bool_decide_eq_false_1 in Eo.
  - destruct (_ && _) eqn:E; [done|]. assert (q = p) as -> by congruence. rewrite Ed.
    assert (newFile_name p <> None \/ newFile_input p = true) as Hn; [|by split; [apply Ho|]].
    apply andb_false_iff in E as [E|E]; [left; by apply bool_decide_eq_false_1 in E|right; by apply negb_false_iff in E].
Qed.

(** The steps of an accepted command line. *)
Lemma parseCmdLine_steps home config args o :
  parseCmdLine UTF8Mode gcb normalize isPunct isUWhiteSpace fopen_ok home config args = Ok o ->
  exists p q, options_ok q /\ (new_given p -> old_given p) /\ check_files p = Ok q /\
    postProcessOptions UTF8Mode isPunct isUWhiteSpace (completeDefaults q) = Ok o /\ checkOverlap UTF8Mode isPunct o = Ok ().
Proof.
  intros H. apply (parseCmdLine_parsed (fun o => options_ok o /\ (new_given o -> old_given o))) in H as (p & [(Hn & Hf & Hb) Ho] & H).
  2: { intros pre Hp. split; [by eapply preParseArgs_ok; [apply initial_ok|]|].
       eapply (parse_args_invariant _ _ _ _ (fun o => ~ new_given o)) in Hp; [done| | | |by intros [?|?]].
       - intros id a i st st' c Hst E. unfold pre_handle in E. destruct id; try discriminate E; injection E as <- <-; exact Hst.
       - by intros st st' c Hst [= <- <-].
       - by intros w i st st' c Hst [= <- <-]. }
  2: { intros args' q q' [Hq1 Hq2] Hq. split; [by eapply parseArgs_ok|by eapply parseArgs_files]. }
  apply finish_steps in H as (q & Hq & Hc & Hp & Hs).
  assert (numbers_ok q /\ print_flags_ok q /\ bitmaps_ok q) as (Hqn & Hqf & Hqb).
  { destruct Hq as [->|[-> _]]; split; [exact Hn|by split|exact Hn|by split]. }
  by exists p, q.
Qed.

Lemma parseCmdLine_numbers home config args o :
  parseCmdLine UTF8Mode gcb normalize isPunct isUWhiteSpace fopen_ok home config args = Ok o -> numbers_ok o.
Proof.
  intros (p & q & (Hqn & Hqf & _) & _ & _ & Hp & _)%parseCmdLine_steps.
  pose proof (completeDefaults_spec q Hqf) as Hd. cbv zeta in Hd. destruct Hd as (_ & _ & _ & D4 & _).
  destruct (postProcessOptions_spec _ _ Hp) as (P1 & _). by rewrite P1, <- D4.
Qed.

(** C24: when the command line is accepted, the numbers are in range, the sets of
    delimiters and whitespace are disjoint, there are files to compare, all
    markers are set, and outside dwfilter mode the flags for markers depend
    only on the kinds of words printed, not on the order of the options. *)
Theorem parseCmdLine_result home config args o :
  parseCmdLine UTF8Mode gcb normalize isPunct isUWhiteSpace fopen_ok home config args = Ok o ->
  numbers_ok o /\ sets_disjoint o /\
  (if diffInput o then newFile_name o = None /\ old_given o else old_given o /\ new_given o) /\
  (delStart o <> None /\ delStop o <> None /\ addStart o <> None /\ addStop o <> None) /\
  (dwfilterMode o = false ->
     needMarkers o = (0 <? printed o) && (negb (printCommon o) || (negb (printAdded o) && negb (printDeleted o))) /\
     needStartStop o = (2 <=? printed o)).
Proof.
  intros (p & q & (Hqn & Hqf & Hqb) & Ho & Hc & Hp & Hs)%parseCmdLine_steps.
  pose proof (check_files_spec p q Hc Ho) as Hfiles.
  pose proof (completeDefaults_spec q Hqf) as Hd. cbv zeta in Hd. destruct Hd as (D1 & D2 & _ & D4 & D5 & D6).
  destruct (postProcessOptions_spec _ _ Hp) as (P1 & P2 & P3 & P4 & P5). rewrite D6 in P5.
  injection P3 as M1 M2 M3 M4. injection P4 as K1 K2 K3 K4 K5. injection P5 as G1 G2 G3 G4 G5 G6.
  split; [by rewrite P1, <- D4|]. split.
  { eapply checked_sets; [|exact Hp|exact Hs]. by rewrite <- D5. }
  split; [unfold old_given, new_given in *; by rewrite G2, G3, G4, G5, G6|].
  split; [by rewrite M1, M2, M3, M4|].
  rewrite G1. intros Hdw. rewrite P2, K1, K2, K3, K4, K5. by destruct (D2 Hdw) as (_ & ? & ?).
Qed.

(** If the first pass over the command line finds --dwfilter, no other option
    restricts what is printed: deleted and common words, with empty markers, no
    colors, statistics or paragraphs. *)
Theorem dwfilter_output home config args pre o : preParseArgs args initializeOptions = Ok pre -> dwfilterMode pre = true ->
  parseCmdLine UTF8Mode gcb normalize isPunct isUWhiteSpace fopen_ok home config args = Ok o ->
  (printDeleted o, printAdded o, printCommon o) = (true, false, true) /\
  (needMarkers o, needStartStop o) = (false, true) /\
  (delStart o, delStop o, addStart o, addStop o) = (Some (kept []), Some (kept []), Some (kept []), Some (kept [])) /\
  (colorMode o, printer o, less o, paraDelim o, statistics o, repeatMarkers o, diffInput o) =
    (false, false, false, false, false, false, false).
Proof.
  intros Hpre Hdw H. apply (parseCmdLine_parsed (fun o => options_ok o /\ filter_ok o)) in H as (p & [(Hn & Hf & Hb) Ho] & H).
  2: { intros pre' Hp. assert (pre' = pre) as -> by congruence. split; [by eapply preParseArgs_ok; [apply initial_ok|]|].
       assert (printDeleted pre = true /\ printAdded pre = true /\ printCommon pre = true /\ colorMode pre = false /\
         printer pre = false /\ less pre = false /\ paraDelim pre = false /\ statistics pre = false /\ repeatMarkers pre = false /\
         diffInput pre = false) as Hrest; [|by split].
       eapply (parse_args_invariant _ _ _ _ (fun o => printDeleted o = true /\ printAdded o = true /\ printCommon o = true /\ colorMode o = false /\
         printer o = false /\ less o = false /\ paraDelim o = false /\ statistics o = false /\ repeatMarkers o = false /\
         diffInput o = false)) in Hp; [exact Hp| | | |done].
       - intros id a i st st' c Hst E. unfold pre_handle in E. destruct id; try discriminate E; injection E as <- <-; exact Hst.
       - by intros st st' c Hst [= <- <-].
       - by intros w i st st' c Hst [= <- <-]. }
  2: { intros args' q q' [Hq1 Hq2] Hq. split; [by eapply parseArgs_ok|by eapply parseArgs_filter]. }
  apply finish_steps in H as (q & Hq & _ & Hp & _).
  assert (q = p) as ->. { destruct Hq as [|[_ Hd]]; [done|]. destruct Ho as (_ & _ & _ & _ & _ & _ & _ & _ & _ & _ & Ho). congruence. }
  destruct Ho as (F1 & F2 & F3 & F4 & F5 & F6 & F7 & F8 & F9 & F10 & F11).
  destruct (postProcessOptions_fields _ _ Hp) as (w & ds & ws & b & ->).
  unfold completeDefaults. rewrite F1. cbn -[text]. unfold constant.
  change ((printDeleted p, false, printCommon p) = (true, false, true) /\ (false, true) = (false, true) /\
    (Some (kept []), Some (kept []), Some (kept []), Some (kept [])) = (Some (kept []), Some (kept []), Some (kept []), Some (kept [])) /\
    (colorMode p, printer p, less p, paraDelim p, statistics p, repeatMarkers p, diffInput p) = (false, false, false, false, false, false, false)).
  by rewrite F2, F4, F5, F6, F7, F8, F9, F10, F11.
Qed.
End CommandLine.

(** ** Concrete command lines, in single-byte mode *)

Local Existing Instance C_locale.

Definition cluster0 (_ : Z) : Z := 0.
Definition same_text (_ : bool) (l : list Z) : list Z := l.
Definition no_character (_ : Z) : bool := false.
Definition can_open (_ : list Z) : bool := true.

(** [-12i], and the delimiter [;] in four ways. *)
Lemma option_forms_witness :
  parseArgs false cluster0 same_text can_open [text "-12i"; text "a"; text "b"] initializeOptions =
    parseArgs false cluster0 same_text can_open [text "-1"; text "-2"; text "-i"; text "a"; text "b"] initializeOptions /\
  parseArgs false cluster0 same_text can_open [text "-d;"; text "a"; text "b"] initializeOptions =
    parseArgs false cluster0 same_text can_open [text "-d"; text ";"; text "a"; text "b"] initializeOptions.
Proof.
  destruct (option_forms false cluster0 same_text can_open 49 [50; 105] (short_and_long Delimiters (Ascii.ascii_of_nat 100) "delimiters" REQUIRED_ARG) 100
    (text "delimiters") [59] [text "a"; text "b"] initializeOptions) as (H1 & H2 & _ & _).
  - repeat constructor.
  - left.
  - reflexivity.
  - reflexivity.
  - reflexivity.
  - split; [exact H1|apply H2; discriminate].
Defined.

(** [--no-common --delimiters=; a b] *)
Lemma options_in_order_witness :
  exists o, parseArgs false cluster0 same_text can_open [text "--no-common"; text "--delimiters=;"; text "a"; text "b"] initializeOptions = Ok o /\
    printCommon o = false /\ TEST_BIT (delimiters o) 59 = true /\ newFile_name o = Some (text "b").
Proof.
  eexists. split.
  - refine (eq_trans (options_in_order false cluster0 same_text can_open
      [ItemOption (short_and_long NoCommon (Ascii.ascii_of_nat 51) "no-common" NO_ARG) None;
       ItemOption (short_and_long Delimiters (Ascii.ascii_of_nat 100) "delimiters" REQUIRED_ARG) (Some [59]);
       ItemOperand (text "a"); ItemOperand (text "b")] initializeOptions _) _).
    + repeat constructor; try discriminate; unfold specs; repeat (try (left; reflexivity); right).
    + vm_compute. reflexivity.
  - by vm_compute.
Defined.

(** [-Pw<] *)
Lemma bundled_marker_freed_witness :
  exists o, parseArgs false cluster0 same_text can_open [text "-Pw<"] initializeOptions = Ok o /\
    exists s, unescape [60] = Ok s /\ delStart o = Some (Arg s true).
Proof.
  eexists. split; [vm_compute; reflexivity|].
  apply (bundled_marker_freed false cluster0 same_text can_open 80 119 [60] initializeOptions).
  - reflexivity.
  - left.
  - discriminate.
  - vm_compute. reflexivity.
Defined.

(** [-1 -d; -m 4 a b] *)
Lemma parseCmdLine_result_witness :
  exists o, parseCmdLine false cluster0 same_text no_character no_character can_open true NoEntry
      [text "-1"; text "-d;"; text "-m"; text "4"; text "a"; text "b"] = Ok o /\
    numbers_ok o /\ (dwfilterMode o = false ->
     needMarkers o = (0 <? printed o) && (negb (printCommon o) || (negb (printAdded o) && negb (printDeleted o))) /\
     needStartStop o = (2 <=? printed o)).
Proof.
  eexists. split; [vm_compute; reflexivity|].
  edestruct (parseCmdLine_result false cluster0 same_text no_character no_character can_open true NoEntry
      [text "-1"; text "-d;"; text "-m"; text "4"; text "a"; text "b"]) as (H1 & _ & _ & _ & H2).
  - vm_compute. reflexivity.
  - split; [exact H1|exact H2].
Defined.

(** [-1 -s --dwfilter=t a b] *)
Lemma dwfilter_output_witness :
  exists o, parseCmdLine false cluster0 same_text no_character no_character can_open true NoEntry
      [text "-1"; text "-s"; text "--dwfilter=t"; text "a"; text "b"] = Ok o /\
    (printDeleted o, printAdded o, printCommon o) = (true, false, true).
Proof.
  eexists. split; [vm_compute; reflexivity|].
  eapply (dwfilter_output false cluster0 same_text no_character no_character can_open true NoEntry
      [text "-1"; text "-s"; text "--dwfilter=t"; text "a"; text "b"]).
  - vm_compute. reflexivity.
  - reflexivity.
  - vm_compute. reflexivity.
Defined.
