(* ===== verification/Main.v ===== *)
(** * dwdiff.c: main

    The composition of all parts: the check of the locale, the command line,
    the comparison of two files or of the hunks of a unified diff, the
    statistics and the exit status. *)

From stdpp Require Import strings.
From S2P Require Import Prelude EditScript HashTable HashProofs FileIO Streams Unicode UnicodeProofs OptionMacros Profile Options OptionProofs CommandLine DiffSeq ContextBuffer Tokenizer Pieces TokenizerProofs DoDiff Reader ReaderUTF8 Modes ModeUTF8 ContextProofs Render ContextDiff WordDiff.

(** ** The locale *)

(** util.c *)
Definition ASCIItolower (c : Z) : Z := if (0x41 <=? c) && (c <=? 0x5A) then Z.lor c 0x20 else c.

Fixpoint starts_with (needle l : list Z) : bool :=
  match needle, l with
  | [], _ => true
  | c :: needle', d :: l' => (c =? d) && starts_with needle' l'
  | _ :: _, [] => false
  end.

(** [strstr]: the rest of the string from the first occurrence. *)
Fixpoint strstr (l needle : list Z) : option (list Z) :=
  if starts_with needle l then Some l
  else match l with
       | [] => None
       | _ :: l' => strstr l' needle
       end.

Definition at_sign : Z := 64.

(** Whether the locale is for UTF-8.  The build that has nl_langinfo
    (USE_NL_LANGINFO, which config.pkg looks for) compares
    [nl_langinfo(CODESET)]; the other looks at the name of the locale,
    [setlocale(LC_CTYPE, NULL)]. *)
Inductive locale_info :=
  | nl_langinfo (codeset : list Z)
  | lc_ctype_name (lc_ctype : option (list Z)).

Definition utf8_locale (info : locale_info) : bool :=
  match info with
  | nl_langinfo codeset => bool_decide (codeset = Options.text "UTF-8")
  | lc_ctype_name None => false
  | lc_ctype_name (Some name) =>
      let lc_ctype := ASCIItolower <$> name in
      let ends (location : list Z) (n : nat) := let c := default 0 (location !! n) in (c =? 0) || (c =? at_sign) in
      match strstr lc_ctype (Options.text ".utf8") with
      | Some location => ends location 5%nat
      | None =>
          match strstr lc_ctype (Options.text ".utf-8") with
          | Some location => ends location 6%nat
          | None => false
          end
      end
  end.

(** ** The options that printing uses *)

Section Main.
(** [freed_text t]: what is found where the argument [t] was, after it has been
    freed (OptionMacros). *)
Context (freed_text : list Z -> list Z).

Definition bytes_of (a : optarg) : list Z := if arg_freed a then freed_text (arg_text a) else arg_text a.
Definition string_of (a : option optarg) : list Z := match a with Some a => bytes_of a | None => [] end.

Definition options_of (o : option_t) : options := {|
  o_delStart := string_of (delStart o); o_delStop := string_of (delStop o);
  o_addStart := string_of (addStart o); o_addStop := string_of (addStop o);
  o_delColor := delColor o; o_addColor := addColor o;
  o_printDeleted := printDeleted o; o_printAdded := printAdded o; o_printCommon := printCommon o;
  o_needMarkers := needMarkers o; o_needStartStop := needStartStop o; o_printer := printer o; o_less := less o;
  o_colorMode := colorMode o; o_lineNumbers := lineNumbers o; o_context := Options.context o; o_contextLines := contextLines o;
  o_matchContext := matchContext o; o_aggregateChanges := aggregateChanges o;
  o_paraDelim := paraDelim o; o_paraDelimMarker := bytes_of (paraDelimMarker o);
  o_wdiffOutput := wdiffOutput o; o_repeatMarkers := repeatMarkers o;
  o_minimal := minimal o; o_speed_large_files := speed_large_files o;
  o_stdout := bool_decide (Options.output o = None)
|}.

(** ** One comparison or many *)

(** The static variables that live through the comparisons, with both outputs:
    the file of [option.output], and standard output where it is another. *)
Record mstate := MState {
  mcore : core;
  mstatistics : Statistics;
  mdifferences : Z
}.

Context (mem : memory).

(** The buffers of whitespace are empty after a comparison ([rs_ended] in
    WordDiff), as they are at the start. *)
Definition compare_files {Char Char'} (M : Mode Char Char') (o : option_t) (old new : list Z) (m : mstate) : option (result mstate) :=
  let! p := dwdiff M (options_of o) mem old new (mcore m) (mstatistics m) (mdifferences m) in
  ret (MState (pcore p) (DoDiff.statistics p) (differences p)).

(** [putchar]: to standard output, which is [option.output] unless --dwfilter
    is used. *)
Definition putchar (o : option_t) (c : Z) (m : mstate) : mstate :=
  let here := bool_decide (Options.output o = None) in
  MState (set_out (mcore m) (write_std here (cout (mcore m)) [c])) (mstatistics m) (mdifferences m).

(** The events of [splitDiffInput]. *)
Fixpoint run_events {Char Char'} (M : Mode Char Char') (o : option_t) (events : list diff_event) (m : mstate) : option (result mstate) :=
  match events with
  | [] => ret m
  | PutChar c :: events' => run_events M o events' (putchar o c m)
  | Compare old new :: events' => let! m := compare_files M o old new m in run_events M o events' m
  end.

(** The files that can be opened, and standard input. *)
Context (files : list Z -> option (list Z)) (stdin : list Z).

Definition cannot_open_input : positive := 51.

Definition input_of (name : option (list Z)) : result (list Z) :=
  match name with
  | Some n => match files n with Some bytes => Ok bytes | None => Fatal cannot_open_input end
  | None => Ok stdin
  end.

(** What is left of a run: the text for [option.output], that for standard
    output if it is another file, the lines of statistics, the exit status. *)
Record finished := Finished {
  printed : list Z;
  on_stdout : list Z;
  statistics_lines : list (option (list Z));
  exit_status : Z
}.

Definition initial_state (o : option_t) : mstate := MState (initial_core (contextLines o)) no_statistics 0.

(** [main] after the command line. *)
Definition run_program {Char Char'} (M : Mode Char Char') (o : option_t) : option (result finished) :=
  let! m :=
    (if diffInput o then
       let! input := Some (input_of (oldFile_name o)) in
       run_events M o (splitDiffInput input) (initial_state o)
     else
       let! old := Some (input_of (oldFile_name o)) in
       let! new := Some (input_of (newFile_name o)) in
       compare_files M o old new (initial_state o)) in
  ret (Finished (output (cout (mcore m))) (std_output (cout (mcore m)))
    (if Options.statistics o then [old_statistics (mstatistics m); new_statistics (mstatistics m)] else [])
    (mdifferences m)).

(** ICU, the C library's classes of characters, and the rest of the
    environment. *)
Context {L : Locale} (gcb : Z -> Z) (normalize : bool -> list Z -> list Z) (isPunct isUWhiteSpace : Z -> bool).
Context (foldCase : list Z -> list Z) (fopen_ok : list Z -> bool) (home : bool) (config : Profile.opened).

(** The dispatch table. *)
Definition utf8_mode (o : option_t) : Mode (list Z) (list Z) :=
  UTF8Mode gcb (whitespaceSet o) (whitespaceList o) (delimiterList o) (punctuationMask o) isPunct isUWhiteSpace (ignoreCase o)
    (normalize (compatibilityDecomposition o)) foldCase.
Definition single_mode (o : option_t) : Mode Z Z := SCMode (whitespace o) (delimiters o) (ignoreCase o) locale_tolower.

(** [main] when the locale is known to be for UTF-8 or not. *)
Definition main_in (UTF8 : bool) (args : list (list Z)) : option (result finished) :=
  match parseCmdLine UTF8 gcb normalize isPunct isUWhiteSpace fopen_ok home config args with
  | Fatal e => Some (Fatal e)
  | Ok o => if UTF8 then run_program (utf8_mode o) o else run_program (single_mode o) o
  end.

Definition main (info : locale_info) (args : list (list Z)) : option (result finished) := main_in (utf8_locale info) args.

(** The exit status of a run that ends through [main] or [fatal], which exits
    with 2 (a failed assertion aborts the program instead). *)
Definition process_status (r : result finished) : Z :=
  match r with
  | Ok f => exit_status f
  | Fatal e => if bool_decide (e = exit_success) then 0 else 2
  end.
End Main.
