(* ===== verification/MainProofs.v ===== *)
(** * The program as a whole

    What an accepted command line, the input files and the locale determine:
    the output, the statistics and the exit status of [main], for two files
    and for the hunks of a unified diff. *)

From stdpp Require Import strings.
From S2P Require Import Prelude EditScript HashTable HashProofs FileIO Streams Unicode UnicodeProofs OptionMacros Profile Options OptionProofs CommandLine DiffSeq ContextBuffer Analyze ScriptProofs Tokenizer Pieces TokenizerProofs DoDiff Reader ReaderUTF8 Modes ModeUTF8 ContextProofs Marks DoDiffProofs Render Plain Decorated ContextDiff WordDiff Main.

(** ** Comparisons in one mode *)

Section Program.
Context {Char Char' : Type} (M : Mode Char Char') {RC : ReaderChars Char'} {RS : ReaderSpec Char'} (MS : ModeSpec M RS).
Context (freed_text : list Z -> list Z) (mem : memory) (o : option_t).
Abbreviation opt := (options_of freed_text o).
Abbreviation pieces := (file_pieces (paraDelim o)).

(** What two files have to be like to be compared. *)
Record inputs_ok (old new : list Z) : Prop := {
  io_marker : marker_ok opt;
  io_old : input_ok old;
  io_new : input_ok new;
  io_size : 2 * (zlen old + zlen new) + 2 < VALUE_MAX;
  io_words : few_words (MS := MS) (paraDelim o) old /\ few_words (MS := MS) (paraDelim o) new;
  io_white : wdiffOutput o = true \/ plain_whitespace
}.

(** The words of two files are the same. *)
Definition same_words (old new : list Z) : Prop :=
  exists po wo pn wn, pieces old po wo /\ pieces new pn wn /\ words po = words pn.

Context (context_ok : 0 <= matchContext o).

(** The program stops at the assertion that a trimmed change is not between
    equal words, which needs a context and a script that is not minimal. *)
Definition stops {A} (r : option (result A)) : Prop :=
  r = Some (Fatal equal_change) /\ minimal o = false /\ matchContext o <> 0.

Lemma stops_bind {A B} (r : option (result A)) (k : A -> option (result B)) : stops r -> stops (obind_result r k).
Proof. intros [-> H]. by split. Qed.

Lemma inputs_run_ok old new : inputs_ok old new -> run_ok M MS opt old new.
Proof. intros []. by split. Qed.

(** What the comparison of two files prints. *)
Definition comparison_text (d : bool) (old new text : list Z) : Prop :=
  exists po wo pn wn script, pieces old po wo /\ pieces new pn wn /\
    script_ok (words po) (words pn) false 0 0 script /\
    text = (if needMarkers o then marker_line else [])
      ++ render opt d 0 (raw_piece <$> po) (raw_piece <$> pn) (raws wo) (raws wn) script.

(** What it draws, with all decorations. *)
Definition comparison_drawn (old new : list Z) (k k' : core) : Prop :=
  exists po wo pn wn script, pieces old po wo /\ pieces new pn wn /\
    script_ok (words po) (words pn) false 0 0 script /\ drawing M MS opt po wo pn wn script k k'.

Lemma compare_files_spec old new m : inputs_ok old new -> out_ok opt (cout (mcore m)) ->
  stops (compare_files freed_text mem M o old new m) \/
  exists m', compare_files freed_text mem M o old new m = ret m' /\ out_ok opt (cout (mcore m')) /\
    (one_output opt -> std_output (cout (mcore m')) = std_output (cout (mcore m))) /\
    (mdifferences m' = mdifferences m /\ same_words old new \/ mdifferences m' = 1 /\ ~ same_words old new) /\
    comparison_drawn old new (mcore m) (mcore m') /\
    (plain_output opt -> exists text, output (cout (mcore m')) = output (cout (mcore m)) ++ text /\
       comparison_text (lastWasDelete (mcore m)) old new text).
Proof.
  intros Hin Hok. unfold compare_files.
  destruct (dwdiff_spec M MS opt mem old new (mcore m) (mstatistics m) (mdifferences m) (inputs_run_ok _ _ Hin) Hok)
    as [[-> Hstop]|(p & -> & po & wo & pn & wn & script & R)]; [left; by apply stops_bind|right]. cbn [obind_result ret].
  pose proof (rs_old M MS opt _ _ _ _ _ _ _ _ _ _ _ R) as Fo. pose proof (rs_new M MS opt _ _ _ _ _ _ _ _ _ _ _ R) as Fn.
  pose proof (rs_empty M MS opt _ _ _ _ _ _ _ _ _ _ _ R) as He.
  eexists. split; [reflexivity|]. split; [apply (rs_ended M MS opt _ _ _ _ _ _ _ _ _ _ _ R)|]. split; [exact (rs_std M MS opt _ _ _ _ _ _ _ _ _ _ _ R)|]. split.
  - cbn [mdifferences]. rewrite (rs_differences M MS opt _ _ _ _ _ _ _ _ _ _ _ R). destruct (decide (script = [])) as [E|E].
    + rewrite bool_decide_eq_true_2 by done. left. split; [done|]. exists po, wo, pn, wn. by rewrite <- He.
    + rewrite bool_decide_eq_false_2 by done. right. split; [done|]. intros (po' & wo' & pn' & wn' & Fo' & Fn' & Hw).
      destruct (file_pieces_unique _ _ _ _ _ _ Fo Fo') as [<- <-]. destruct (file_pieces_unique _ _ _ _ _ _ Fn Fn') as [<- <-].
      by apply E, He.
  - split; [exists po, wo, pn, wn, script; split; [done|]; split; [done|]; split; apply R|]. intros P. eexists. split; [apply (rs_output M MS opt _ _ _ _ _ _ _ _ _ _ _ R P)|].
    exists po, wo, pn, wn, script. split; [done|]. split; [done|]. split; [|done]. apply (rs_script M MS opt _ _ _ _ _ _ _ _ _ _ _ R).
Qed.

(** ** The hunks of a unified diff *)

(** Header lines are copied ([here]: to [option.output]); every hunk is
    compared. *)
Inductive hunks_text (here : bool) : bool -> list diff_event -> list Z -> Prop :=
  | ht_end d : hunks_text here d [] []
  | ht_char d c events text : hunks_text here d events text ->
      hunks_text here d (PutChar c :: events) ((if here then [c] else []) ++ text)
  | ht_hunk d d' old new hunk events text : comparison_text d old new hunk -> hunks_text here d' events text ->
      hunks_text here d (Compare old new :: events) (hunk ++ text).

Abbreviation here := (bool_decide (Options.output o = None)).

Definition copied (c : Z) (k : core) : core := set_out k (write_std here (cout k) [c]).

Inductive hunks_drawn : core -> list diff_event -> core -> Prop :=
  | hd_end k : hunks_drawn k [] k
  | hd_char k c events k' : hunks_drawn (copied c k) events k' -> hunks_drawn k (PutChar c :: events) k'
  | hd_hunk k old new k1 events k' : comparison_drawn old new k k1 -> hunks_drawn k1 events k' -> hunks_drawn k (Compare old new :: events) k'.

Definition hunks_inputs (events : list diff_event) : Prop :=
  Forall (fun e => match e with Compare old new => inputs_ok old new | PutChar _ => True end) events.
Definition hunks_same (events : list diff_event) : Prop :=
  Forall (fun e => match e with Compare old new => same_words old new | PutChar _ => True end) events.

Definition headers (events : list diff_event) : list Z :=
  concat ((fun e => match e with PutChar c => [c] | Compare _ _ => [] end) <$> events).

Lemma putchar_spec c m : out_ok opt (cout (mcore m)) -> out_ok opt (cout (mcore (putchar o c m))) /\
  mdifferences (putchar o c m) = mdifferences m /\ mcore (putchar o c m) = copied c (mcore m) /\ lastWasDelete (mcore (putchar o c m)) = lastWasDelete (mcore m) /\
  std_output (cout (mcore (putchar o c m))) = std_output (cout (mcore m)) ++ (if here then [] else [c]) /\
  output (cout (mcore (putchar o c m))) = output (cout (mcore m)) ++ (if here then [c] else []).
Proof.
  intros Hok. split; [|by unfold putchar, copied, write_std; destruct here; rewrite ?app_nil_r].
  destruct Hok as [H|(H1 & H2 & R)]; [by left|right]. split; [done|]. split; [done|]. by apply ring_write_std.
Qed.

Lemma run_events_spec events m : hunks_inputs events -> out_ok opt (cout (mcore m)) ->
  stops (run_events freed_text mem M o events m) \/
  exists m', run_events freed_text mem M o events m = ret m' /\
    (one_output opt -> std_output (cout (mcore m')) = std_output (cout (mcore m)) ++ (if here then [] else headers events)) /\
    (mdifferences m' = mdifferences m /\ hunks_same events \/ mdifferences m' = 1 /\ ~ hunks_same events) /\
    hunks_drawn (mcore m) events (mcore m') /\
    (plain_output opt -> exists text, output (cout (mcore m')) = output (cout (mcore m)) ++ text /\
       hunks_text here (lastWasDelete (mcore m)) events text).
Proof.
  revert m. induction events as [|e events IH]; intros m Hin Hok.
  - right. exists m. split; [done|]. split; [intros _; destruct here; by rewrite app_nil_r|]. split; [left; split; [done|constructor]|]. split; [constructor|].
    intros _. exists []. rewrite app_nil_r. split; [done|constructor].
  - apply Forall_cons in Hin as [He Hin]. destruct e as [c|old new]; cbn [run_events].
    + destruct (putchar_spec c m Hok) as (Hok1 & Hd1 & Hk1 & Hl1 & Hs1 & Ho1).
      destruct (IH (putchar o c m) Hin Hok1) as [?|(m' & Hm' & Hs & Hd & HD & Hp)]; [by left|right]. exists m'. split; [done|]. split; [|split; [|split]].
      * intros H1. rewrite Hs, Hs1, <- app_assoc by done. by destruct here.
      * rewrite Hd1 in Hd. unfold hunks_same in *. rewrite Forall_cons. tauto.
      * constructor. by rewrite <- Hk1.
      * intros P. destruct (Hp P) as (text & Ht & Hh). rewrite Hl1 in Hh. eexists. rewrite Ht, Ho1, <- app_assoc. split; [done|].
        by constructor.
    + destruct (compare_files_spec old new m He Hok) as [?|(m1 & -> & Hok1 & Hs1 & Hd1 & HD1 & Hp1)];
        [left; by apply stops_bind|cbn [obind_result ret]].
      destruct (IH m1 Hin Hok1) as [?|(m' & Hm' & Hs & Hd & HD & Hp)]; [by left|right]. exists m'. split; [done|]. split; [|split; [|split]].
      * intros H1. by rewrite Hs, Hs1.
      * unfold hunks_same in *. rewrite Forall_cons.
        destruct Hd as [[Hd Hs']|[Hd Hs']], Hd1 as [[Hd1 Hs1']|[Hd1 Hs1']]; rewrite ?Hd, ?Hd1; tauto.
      * by econstructor.
      * intros P. destruct (Hp1 P) as (hunk & Hhunk & Hc). destruct (Hp P) as (text & Ht & Hh). exists (hunk ++ text).
        rewrite Ht, Hhunk, <- app_assoc. split; [done|]. by econstructor.
Qed.

(** ** The whole program *)

Context (files : list Z -> option (list Z)) (stdin : list Z).

Lemma initial_out_ok : 0 <= contextLines o -> out_ok opt (cout (mcore (initial_state o))).
Proof.
  intros Hc. unfold out_ok. simpl. destruct (Options.context o); [right|by left]. split; [done|]. split; [done|]. by apply init_ring.
Qed.

(** What the program prints, and its exit status. *)
Record finished_ok (f : finished) (same : Prop) (drawn : core -> Prop) (text : list Z -> Prop) (other : list Z) : Prop := {
  fo_status : exit_status f = 0 /\ same \/ exit_status f = 1 /\ ~ same;
  fo_drawn : exists k, printed f = output (cout k) /\ on_stdout f = std_output (cout k) /\ drawn k;
  fo_text : plain_output opt -> text (printed f);
  fo_stdout : one_output opt -> on_stdout f = other;
  fo_statistics : statistics_lines f <> [] <-> Options.statistics o = true
}.

Lemma run_files_spec old new : diffInput o = false -> 0 <= contextLines o ->
  input_of files stdin (oldFile_name o) = Ok old -> input_of files stdin (newFile_name o) = Ok new -> inputs_ok old new ->
  stops (run_program freed_text mem files stdin M o) \/
  exists f, run_program freed_text mem files stdin M o = ret f /\
    finished_ok f (same_words old new) (comparison_drawn old new (initial_core (contextLines o))) (comparison_text false old new) [].
Proof.
  intros Hd Hc Ho Hn Hin. unfold run_program. rewrite Hd, Ho, Hn. cbn [obind_result].
  destruct (compare_files_spec old new _ Hin (initial_out_ok Hc)) as [?|(m & -> & _ & Hs & Hdf & HD & Hp)];
    [left; by apply stops_bind|right; cbn [obind_result ret]].
  eexists. split; [reflexivity|]. split; cbn [exit_status printed on_stdout statistics_lines].
  - exact Hdf.
  - by eexists.
  - intros P. destruct (Hp P) as (text & -> & Ht). exact Ht.
  - intros H1. by rewrite Hs.
  - by destruct (Options.statistics o).
Qed.

Lemma run_hunks_spec input : diffInput o = true -> 0 <= contextLines o ->
  input_of files stdin (oldFile_name o) = Ok input -> hunks_inputs (splitDiffInput input) ->
  stops (run_program freed_text mem files stdin M o) \/
  exists f, run_program freed_text mem files stdin M o = ret f /\
    finished_ok f (hunks_same (splitDiffInput input)) (hunks_drawn (initial_core (contextLines o)) (splitDiffInput input)) (hunks_text here false (splitDiffInput input))
      (if here then [] else headers (splitDiffInput input)).
Proof.
  intros Hd Hc Ho Hin. unfold run_program. rewrite Hd, Ho. cbn [obind_result].
  destruct (run_events_spec (splitDiffInput input) _ Hin (initial_out_ok Hc)) as [?|(m & -> & Hs & Hdf & HD & Hp)];
    [left; by apply stops_bind|right; cbn [obind_result ret]].
  eexists. split; [reflexivity|]. split; cbn [exit_status printed on_stdout statistics_lines].
  - exact Hdf.
  - by eexists.
  - intros P. destruct (Hp P) as (text & -> & Ht). exact Ht.
  - intros H1. by rewrite Hs.
  - by destruct (Options.statistics o).
Qed.
End Program.

(** ** From the command line *)

Section Dispatch.
Context (UTF8 : bool) (gcb : Z -> Z) (normalize : bool -> list Z -> list Z) (isPunct isUWhiteSpace : Z -> bool).
Context (foldCase : list Z -> list Z) {L : Locale}.

(** What is used of ICU and of the C library's tolower. *)
Record env_ok : Prop := {
  en_gcb : gcb_ok gcb;
  en_normalize compatibility : keeps_text (normalize compatibility);
  en_foldCase : keeps_text foldCase;
  en_tolower : keeps_newlines true locale_tolower
}.
Context (E : env_ok).

Lemma case_keeps_newlines b : keeps_newlines b locale_tolower.
Proof. destruct b; [apply E|]. intros c Hc. unfold byte in Hc. by rewrite Z.mod_small by lia. Qed.

(** The dispatch table that [main] chooses, with its contract. *)
Record table_of := Table {
  t_char : Type;
  t_char' : Type;
  t_mode : Mode t_char t_char';
  t_chars : ReaderChars t_char';
  t_reader : ReaderSpec t_char';
  t_spec : ModeSpec t_mode t_reader
}.

Definition dispatch_of (o : option_t) : table_of :=
  if UTF8 then
    Table _ _ (utf8_mode gcb normalize isPunct isUWhiteSpace foldCase o) _ _
      (UTF8ModeSpec gcb _ _ _ _ isPunct isUWhiteSpace (ignoreCase o) _ foldCase (en_gcb E) (en_normalize E _) (en_foldCase E))
  else Table _ _ (single_mode o) _ _ (SCModeSpec (whitespace o) (delimiters o) (ignoreCase o) locale_tolower (case_keeps_newlines _)).

End Dispatch.

Section Theorems.
Context (freed_text : list Z -> list Z) (mem : memory) (files : list Z -> option (list Z)) (stdin : list Z).
Context {L : Locale} (info : locale_info) (gcb : Z -> Z) (normalize : bool -> list Z -> list Z) (isPunct isUWhiteSpace : Z -> bool).
Context (foldCase : list Z -> list Z) (fopen_ok : list Z -> bool) (home : bool) (config : Profile.opened).
Context (E : env_ok gcb normalize foldCase).
Abbreviation UTF8 := (utf8_locale info).
Abbreviation dispatch_of := (dispatch_of UTF8 gcb normalize isPunct isUWhiteSpace foldCase E).

Abbreviation parse := (parseCmdLine UTF8 gcb normalize isPunct isUWhiteSpace fopen_ok home config).
Abbreviation program := (main freed_text mem files stdin gcb normalize isPunct isUWhiteSpace foldCase fopen_ok home config info).
Abbreviation usable o := (inputs_ok (t_mode (dispatch_of o)) (t_spec (dispatch_of o)) freed_text o).
Abbreviation usable_hunks o := (hunks_inputs (t_mode (dispatch_of o)) (t_spec (dispatch_of o)) freed_text o).
Abbreviation same o := (same_words (t_mode (dispatch_of o)) (t_spec (dispatch_of o)) o).
Abbreviation same_hunks o := (hunks_same (t_mode (dispatch_of o)) (t_spec (dispatch_of o)) o).

Lemma main_dispatch args o : parse args = Ok o ->
  program args = run_program freed_text mem files stdin (t_mode (dispatch_of o)) o.
Proof. intros H. unfold main, main_in. rewrite H. unfold dispatch_of. by destruct UTF8. Qed.

(** C9: an accepted command line with two files that are usable (readable in
    the locale's characters, with fewer words than an int can count): the
    program ends, unless it stops at the assertion of --match-context, with
    exit status 0 if the words of the files are the same and 1 if not; it draws
    the marks of a script between the words with the decorations that the
    options ask for, undecorated output is the rendering of the script, and
    there are statistics exactly if they are asked for.  Standard output, where
    that is another file than the output, gets the line numbers and the rules
    that are drawn, and nothing if neither are asked for. *)
Theorem main_two_files args o old new : parse args = Ok o -> diffInput o = false ->
  input_of files stdin (oldFile_name o) = Ok old -> input_of files stdin (newFile_name o) = Ok new -> usable o old new ->
  stops o (program args) \/
  exists f, program args = ret f /\
    finished_ok freed_text o f (same o old new)
      (comparison_drawn (t_mode (dispatch_of o)) (t_spec (dispatch_of o)) freed_text o old new (initial_core (contextLines o)))
      (comparison_text (t_mode (dispatch_of o)) (t_spec (dispatch_of o)) freed_text o false old new) [].
Proof.
  intros H Hd Ho Hn Hin. rewrite (main_dispatch args o H). pose proof (parseCmdLine_numbers _ _ _ _ _ _ _ _ _ _ H) as (_ & Hc & Hm & _).
  apply run_files_spec; try done; lia.
Qed.

(** C10: an accepted command line with --diff-input, if every hunk is usable:
    unless the program stops at the assertion of --match-context, the headers
    of the unified diff are copied, to standard output, every hunk is compared
    and drawn, and the exit status is 1 if the words of some hunk differ.
    Where standard output is another file than the output, it gets just the
    headers, if there are neither line numbers nor rules. *)
Theorem main_unified_diff args o input : parse args = Ok o -> diffInput o = true ->
  input_of files stdin (oldFile_name o) = Ok input -> usable_hunks o (splitDiffInput input) ->
  stops o (program args) \/
  exists f, program args = ret f /\
    finished_ok freed_text o f (same_hunks o (splitDiffInput input))
      (hunks_drawn (t_mode (dispatch_of o)) (t_spec (dispatch_of o)) freed_text o (initial_core (contextLines o)) (splitDiffInput input))
      (hunks_text (t_mode (dispatch_of o)) (t_spec (dispatch_of o)) freed_text o (bool_decide (Options.output o = None)) false (splitDiffInput input))
      (if bool_decide (Options.output o = None) then [] else headers (splitDiffInput input)).
Proof.
  intros H Hd Ho Hin. rewrite (main_dispatch args o H). pose proof (parseCmdLine_numbers _ _ _ _ _ _ _ _ _ _ H) as (_ & Hc & Hm & _).
  apply run_hunks_spec; try done; lia.
Qed.

(** The inputs of an accepted command line, as far as they can be opened. *)
Definition inputs_usable (o : option_t) : Prop :=
  if diffInput o then forall input, input_of files stdin (oldFile_name o) = Ok input -> usable_hunks o (splitDiffInput input)
  else forall old new, input_of files stdin (oldFile_name o) = Ok old -> input_of files stdin (newFile_name o) = Ok new -> usable o old new.

Lemma input_error name e : input_of files stdin name = Fatal e -> e = cannot_open_input.
Proof. unfold input_of. destruct name; [|done]. destruct (files _); [done|]. by intros [= <-]. Qed.

(** C12: whatever the command line, if the inputs that can be opened are usable,
    the run ends: with an error only if the command line is not accepted, if an
    input cannot be opened or at the assertion of --match-context, and
    otherwise with status 0 or 1. *)
Theorem main_ends args : (forall o, parse args = Ok o -> inputs_usable o) ->
  exists r, program args = Some r /\
    match r with
    | Ok f => exit_status f = 0 \/ exit_status f = 1
    | Fatal e => parse args = Fatal e \/ e = cannot_open_input \/ e = equal_change
    end.
Proof.
  intros Hin. destruct (parse args) as [o|e] eqn:H; [|exists (Fatal e); unfold main, main_in; rewrite H; by repeat split; left].
  specialize (Hin o eq_refl). unfold inputs_usable in Hin. pose proof (parseCmdLine_numbers _ _ _ _ _ _ _ _ _ _ H) as (_ & Hc & Hm & _).
  rewrite (main_dispatch args o H). destruct (diffInput o) eqn:Hd.
  - destruct (input_of files stdin (oldFile_name o)) as [input|e] eqn:Ho.
    + destruct (run_hunks_spec (t_mode (dispatch_of o)) (t_spec (dispatch_of o)) freed_text mem o ltac:(lia) files stdin input Hd ltac:(lia) Ho (Hin _ eq_refl))
        as [[-> _]|(f & -> & F)]; [eexists; split; [reflexivity|by right; right]|].
      exists (Ok f). split; [done|]. destruct (fo_status _ _ _ _ _ _ _ F) as [[-> _]|[-> _]]; auto.
    + exists (Fatal e). unfold run_program. rewrite Hd, Ho. split; [done|]. right. left. by eapply input_error.
  - destruct (input_of files stdin (oldFile_name o)) as [old|e] eqn:Ho;
      [|exists (Fatal e); unfold run_program; rewrite Hd, Ho; split; [done|]; right; left; by eapply input_error].
    destruct (input_of files stdin (newFile_name o)) as [new|e] eqn:Hn;
      [|exists (Fatal e); unfold run_program; rewrite Hd, Ho, Hn; split; [done|]; right; left; by eapply input_error].
    destruct (run_files_spec (t_mode (dispatch_of o)) (t_spec (dispatch_of o)) freed_text mem o ltac:(lia) files stdin old new Hd ltac:(lia) Ho Hn (Hin _ _ eq_refl eq_refl))
      as [[-> _]|(f & -> & F)]; [eexists; split; [reflexivity|by right; right]|].
    exists (Ok f). split; [done|]. destruct (fo_status _ _ _ _ _ _ _ F) as [[-> _]|[-> _]]; auto.
Qed.
End Theorems.

(** ** The name of the locale *)

Definition dot : Z := 46.
Abbreviation lower l := (ASCIItolower <$> l).

Lemma lower_range c : ASCIItolower c = c \/ 0x41 <= c <= 0x5A /\ 0x61 <= ASCIItolower c.
Proof.
  unfold ASCIItolower. destruct ((0x41 <=? c) && (c <=? 0x5A)) eqn:E; [right|by left].
  assert (0x41 <= c <= 0x5A) as Hc by (zify_bool; lia). split; [done|].
  assert (negb ((0x41 <=? c) && (c <=? 0x5A)) || (0x61 <=? Z.lor c 0x20) = true) as F
    by (apply (byte_forall (fun c => negb ((0x41 <=? c) && (c <=? 0x5A)) || (0x61 <=? Z.lor c 0x20))); [reflexivity|lia]).
  rewrite E in F. simpl in F. lia.
Qed.

(** Characters below the letters are kept, and nothing else becomes one. *)
Lemma lower_special k c : k <= 0x40 -> ASCIItolower c = k <-> c = k.
Proof. intros Hk. destruct (lower_range c) as [->|[H1 H2]]; [done|]. lia. Qed.

Lemma lower_notin k (l : list Z) : k <= 0x40 -> k ∉ l -> k ∉ lower l.
Proof. intros Hk Hl (c & Hc & Hin)%list_elem_of_fmap. symmetry in Hc. apply lower_special in Hc as ->; done. Qed.

Lemma strstr_no_dot l needle : dot ∉ l -> strstr l (dot :: needle) = None.
Proof.
  induction l as [|c l IH]; [done|]. intros [Hc Hl]%not_elem_of_cons. cbn [strstr starts_with].
  rewrite (proj2 (Z.eqb_neq dot c)) by done. by apply IH.
Qed.

(** A string with a single dot. *)
Lemma strstr_dot a b needle : dot ∉ a -> dot ∉ b ->
  strstr (a ++ dot :: b) (dot :: needle) = if starts_with needle b then Some (dot :: b) else None.
Proof.
  intros Ha Hb. pose proof (strstr_no_dot b needle Hb) as Hnone.
  induction a as [|c a IH]; cbn [app strstr starts_with].
  - rewrite Z.eqb_refl. cbn [andb]. destruct (starts_with needle b); [done|]. exact Hnone.
  - apply not_elem_of_cons in Ha as [Hc Ha]. rewrite (proj2 (Z.eqb_neq dot c)) by done. by apply IH.
Qed.

Lemma starts_with_prefix needle l : starts_with needle l = true <-> exists rest, l = needle ++ rest.
Proof.
  revert l. induction needle as [|c needle IH]; intros l; [split; [by exists l|done]|].
  destruct l as [|d l]; cbn [starts_with]; [split; [done|by intros (r & [=])]|].
  rewrite andb_true_iff, Z.eqb_eq, IH. split; [by intros [-> (r & ->)]; exists r|by intros (r & [= -> ->]); split; [|exists r]].
Qed.

(** [codeset] is what [needle] asks for. *)
Definition ends_at (needle l : list Z) : bool :=
  let c := default 0 (l !! length needle) in (c =? 0) || (c =? at_sign).

Lemma codeset_ends needle codeset rest : at_sign ∉ codeset -> 0 ∉ codeset -> rest = [] \/ (exists m, rest = at_sign :: m) ->
  starts_with needle (codeset ++ rest) = true -> at_sign ∉ needle ->
  ends_at needle (codeset ++ rest) = true <-> codeset = needle.
Proof.
  intros Ha Hz Hr (r & Hs)%starts_with_prefix Hn. unfold ends_at. apply app_eq_inv in Hs as [(k & -> & Hs)|(k & -> & Hs)].
  - (* the codeset is longer *)
    rewrite <- app_assoc, lookup_app_r by lia. rewrite Nat.sub_diag. destruct k as [|c k]; simpl.
    + rewrite app_nil_r. split; [done|]. intros _. by destruct Hr as [->|(m & ->)].
    + split; [|intros H; apply (f_equal length) in H; rewrite length_app in H; simpl in H; lia].
      intros H. exfalso. rewrite !elem_of_app, !elem_of_cons in Ha, Hz. apply orb_true_iff in H. rewrite !Z.eqb_eq in H.
      destruct H as [->|Hc]; [apply Hz; by right; left|]. apply Ha. right. left. done.
  - destruct k as [|c k].
    + rewrite app_nil_r in *. simpl in Hs. subst r. rewrite lookup_app_r by lia. rewrite Nat.sub_diag. split; [done|].
      intros _. by destruct Hr as [->|(m & ->)].
    + exfalso. destruct Hr as [->|(m & ->)]; [done|]. injection Hs as <- _. apply Hn. apply elem_of_app. right. by left.
Qed.

Lemma named_codeset language codeset modifier :
  dot ∉ language -> dot ∉ codeset -> at_sign ∉ codeset -> 0 ∉ codeset -> dot ∉ modifier ->
  modifier = [] \/ (exists m, modifier = at_sign :: m) ->
  utf8_locale (lc_ctype_name (Some (language ++ dot :: codeset ++ modifier))) = true <->
    lower codeset = Options.text "utf8" \/ lower codeset = Options.text "utf-8".
Proof.
  intros Hl Hc Ha Hz Hm Hmod. unfold utf8_locale. rewrite fmap_app, fmap_cons, fmap_app.
  change (ASCIItolower dot) with dot. apply (lower_notin dot) in Hl, Hc, Hm; [|done..].
  assert (dot ∉ lower codeset ++ lower modifier) as Hb by (rewrite elem_of_app; tauto).
  apply (lower_notin at_sign) in Ha; [|done]. apply (lower_notin 0) in Hz; [|done].
  assert (lower modifier = [] \/ exists m, lower modifier = at_sign :: m) as Hmod'.
  { destruct Hmod as [->|(m & ->)]; [by left|right]. by exists (lower m). }
  change (Options.text ".utf8") with (dot :: Options.text "utf8"). change (Options.text ".utf-8") with (dot :: Options.text "utf-8").
  rewrite !strstr_dot by done. set (l := lower codeset ++ lower modifier).
  change (default 0 ((dot :: l) !! 5%nat)) with (default 0 (l !! length (Options.text "utf8"))).
  change (default 0 ((dot :: l) !! 6%nat)) with (default 0 (l !! length (Options.text "utf-8"))).
  destruct (starts_with (Options.text "utf8") l) eqn:E1; [|destruct (starts_with (Options.text "utf-8") l) eqn:E2].
  - apply (codeset_ends _ _ _ Ha Hz Hmod') in E1 as H1; [|by apply (bool_decide_unpack _)].
    etrans; [exact H1|]. split; [by left|]. intros [?|H]; [done|]. exfalso. unfold l in E1. rewrite H in E1. done.
  - apply (codeset_ends _ _ _ Ha Hz Hmod') in E2 as H2; [|by apply (bool_decide_unpack _)].
    etrans; [exact H2|]. split; [by right|]. intros [H|?]; [|done]. exfalso. unfold l in E1. rewrite H in E1. done.
  - split; [done|]. intros [H|H]; exfalso; [unfold l in E1; rewrite H in E1|unfold l in E2; rewrite H in E2]; done.
Qed.

(** C40: where the build has nl_langinfo, the input is taken for UTF-8 exactly if
    the codeset of the locale is "UTF-8"; otherwise exactly if the codeset in
    the name of the locale, between the dot and the modifier, is "utf8" or
    "utf-8" in any case, and never if the name has no dot or there is none. *)
Theorem utf8_locale_codeset :
  (forall codeset, utf8_locale (nl_langinfo codeset) = true <-> codeset = Options.text "UTF-8") /\
  (forall language codeset modifier,
    dot ∉ language -> dot ∉ codeset -> at_sign ∉ codeset -> 0 ∉ codeset -> dot ∉ modifier ->
    modifier = [] \/ (exists m, modifier = at_sign :: m) ->
    utf8_locale (lc_ctype_name (Some (language ++ dot :: codeset ++ modifier))) = true <->
      lower codeset = Options.text "utf8" \/ lower codeset = Options.text "utf-8") /\
  (forall name, dot ∉ name -> utf8_locale (lc_ctype_name (Some name)) = false) /\
  utf8_locale (lc_ctype_name None) = false.
Proof.
  split; [|split; [exact named_codeset|split; [|done]]].
  - intros codeset. apply bool_decide_eq_true.
  - intros name Hn. apply (lower_notin dot) in Hn; [|done]. unfold utf8_locale.
    change (Options.text ".utf8") with (dot :: Options.text "utf8"). change (Options.text ".utf-8") with (dot :: Options.text "utf-8").
    by rewrite !strstr_no_dot.
Qed.

(** ** Concrete runs *)

Local Existing Instance C_locale.

Lemma tolower_keeps_newlines : keeps_newlines true Escapes.tolower.
Proof.
  intros c Hc. unfold byte in Hc. unfold Escapes.tolower, Escapes.isupper.
  case_match eqn:E; rewrite Z.mod_small; zify_bool; lia.
Qed.

Lemma example_env : env_ok example_gcb same_text (fun l => l).
Proof.
  split; [exact example_gcb_ok|intros b; exact identity_keeps_text|exact identity_keeps_text|exact tolower_keeps_newlines].
Qed.

(** The files "a" and "b", and the unified diff "d". *)
Definition example_diff : list Z := [64; 10; 45; 98; 10; 43; 99; 10].
Definition example_files (name : list Z) : option (list Z) :=
  if bool_decide (name = Options.text "a") then Some example_old
  else if bool_decide (name = Options.text "b") then Some example_new
  else if bool_decide (name = Options.text "d") then Some example_diff
  else None.

Abbreviation example_options UTF8 args :=
  (match parseCmdLine UTF8 example_gcb same_text no_character no_character can_open true NoEntry args with
   | Ok o => o
   | Fatal _ => initializeOptions
   end).
Definition example_locale (UTF8 : bool) : locale_info := nl_langinfo (Options.text (if UTF8 then "UTF-8" else "ANSI_X3.4-1968")).
Abbreviation example_main UTF8 :=
  (main (fun t => t) zero_memory example_files [] example_gcb same_text no_character no_character
     (fun l => l) can_open true NoEntry (example_locale UTF8)).
Abbreviation example_table UTF8 o :=
  (dispatch_of UTF8 example_gcb same_text no_character no_character (fun l => l) example_env o).

(** What the two files are in the single-byte mode, and the diff in UTF-8. *)
Definition two_files : list (list Z) := Options.text <$> ["--algorithm=best"; "-s"; "a"; "b"].
Definition unified : list (list Z) := Options.text <$> ["--algorithm=best"; "--diff-input"; "d"].

Definition two_files_options : option_t := Eval vm_compute in example_options false two_files.
Definition unified_options : option_t := Eval vm_compute in example_options true unified.

Lemma two_files_usable :
  inputs_ok (t_mode (example_table false two_files_options)) (t_spec (example_table false two_files_options)) (fun t => t) two_files_options example_old example_new.
Proof.
  split.
  - intros H. by vm_compute in H.
  - by apply example_input.
  - by apply example_input.
  - by vm_compute.
  - split; (apply few_words_short; [by apply example_input|by vm_compute]).
  - right. apply SC_plain_whitespace; by vm_compute.
Qed.

Lemma main_two_files_witness : exists f text, example_main false two_files = ret f /\ exit_status f = 1 /\ printed f = text /\
  statistics_lines f <> [] /\
  comparison_text (t_mode (example_table false two_files_options)) (t_spec (example_table false two_files_options))
    (fun t => t) two_files_options false example_old example_new text.
Proof.
  destruct (main_two_files (fun t => t) zero_memory example_files [] (example_locale false) example_gcb same_text no_character no_character
    (fun l => l) can_open true NoEntry example_env two_files two_files_options example_old example_new)
    as [(_ & H & _)|(f & Hf & F)]; [by vm_compute|by vm_compute|by vm_compute|by vm_compute|exact two_files_usable|by vm_compute in H|].
  exists f, (printed f). split; [exact Hf|]. split.
  - assert (match example_main false two_files with Some (Ok f) => exit_status f = 1 | _ => False end) as H by (vm_compute; reflexivity).
    by rewrite Hf in H.
  - split; [done|]. split; [apply (fo_statistics _ _ _ _ _ _ _ F); by vm_compute|]. apply (fo_text _ _ _ _ _ _ _ F). repeat split; by left.
Defined.

Lemma unified_usable :
  hunks_inputs (t_mode (example_table true unified_options)) (t_spec (example_table true unified_options)) (fun t => t) unified_options (splitDiffInput example_diff).
Proof.
  assert (splitDiffInput example_diff = [PutChar 64; PutChar 10; Compare (encoded [32; 98; 10]) (encoded [32; 99; 10])]) as -> by (by vm_compute).
  do 2 (apply Forall_cons; split; [exact I|]). apply Forall_cons; split; [|constructor]. split.
  - intros H. by vm_compute in H.
  - by apply example_points.
  - by apply example_points.
  - by vm_compute.
  - split; (apply few_words_short; [by apply example_points|by vm_compute]).
  - right. apply UTF8_plain_whitespace; by vm_compute.
Qed.

Lemma main_unified_diff_witness : exists f, example_main true unified = ret f /\ exit_status f = 1 /\
  hunks_text (t_mode (example_table true unified_options)) (t_spec (example_table true unified_options))
    (fun t => t) unified_options true false (splitDiffInput example_diff) (printed f).
Proof.
  destruct (main_unified_diff (fun t => t) zero_memory example_files [] (example_locale true) example_gcb same_text no_character no_character
    (fun l => l) can_open true NoEntry example_env unified unified_options example_diff)
    as [(_ & H & _)|(f & Hf & F)]; [by vm_compute|by vm_compute|by vm_compute|exact unified_usable|by vm_compute in H|].
  exists f. split; [exact Hf|]. split.
  - assert (match example_main true unified with Some (Ok f) => exit_status f = 1 | _ => False end) as H by (vm_compute; reflexivity).
    by rewrite Hf in H.
  - apply (fo_text _ _ _ _ _ _ _ F). repeat split; by left.
Defined.

(** An input that does not exist. *)
Definition no_file : list (list Z) := Options.text <$> ["a"; "x"].
Definition no_file_options : option_t := Eval vm_compute in example_options false no_file.

Lemma no_file_parsed : parseCmdLine false example_gcb same_text no_character no_character can_open true NoEntry no_file = Ok no_file_options.
Proof. vm_compute. reflexivity. Qed.

Lemma main_ends_witness : exists r, example_main false no_file = Some r /\ r = Fatal cannot_open_input.
Proof.
  destruct (main_ends (fun t => t) zero_memory example_files [] (example_locale false) example_gcb same_text no_character no_character
    (fun l => l) can_open true NoEntry example_env no_file) as (r & Hr & H).
  - intros o Ho. assert (no_file_options = o) as <-; [|by intros old new _ Hn].
    assert (Ok no_file_options = Ok o) as [= <-]; [|done]. exact (eq_trans (eq_sym no_file_parsed) Ho).
  - exists r. split; [exact Hr|].
    assert (example_main false no_file = Some (Fatal cannot_open_input)) as E by (vm_compute; reflexivity).
    rewrite E in Hr. injection Hr as <-. reflexivity.
Defined.

(** "en_US.UTF-8@euro", and the codeset of a single-byte locale. *)
Lemma utf8_locale_codeset_witness : utf8_locale (lc_ctype_name (Some (Options.text "en_US.UTF-8@euro"))) = true /\
  utf8_locale (nl_langinfo (Options.text "ISO-8859-1")) <> true.
Proof.
  destruct utf8_locale_codeset as (H1 & H2 & _). split.
  - apply (H2 (Options.text "en_US") (Options.text "UTF-8") (Options.text "@euro")); [by apply (bool_decide_unpack _)..| |by right].
    right. by exists (Options.text "euro").
  - intros H. by apply H1 in H.
Defined.

(** The totals of the statistics are those of the last hunk, the other numbers
    are those of all hunks: after "a b c" became "x" in a first hunk, and "d"
    stayed in a second, -2 of 1 word are common. *)
Definition two_hunks : list Z :=
  [64; 10; 45; 97; 32; 98; 32; 99; 10; 43; 120; 10; 64; 10; 32; 100; 10].

Lemma unified_statistics :
  exists f, main (fun t => t) zero_memory example_files two_hunks example_gcb same_text no_character no_character
      (fun l => l) can_open true NoEntry (example_locale false) (Options.text <$> ["--algorithm=best"; "--diff-input"; "-s"]) = ret f /\
    statistics_lines f = [Some [1; -2; -200; 0; 0; 3; 300]; Some [1; 0; 0; 0; 0; 1; 100]].
Proof. eexists. split; [vm_compute; reflexivity|]. by vm_compute. Qed.
