(* ===== verification/Dwfilter.v ===== *)
(** * dwfilter.c

    dwfilter looks at its command line only to find the two files and the post
    processor; the options are handed to dwdiff.  It creates a temporary file
    for the output, runs both commands and removes the file.  What becomes of a
    command is up to the operating system, a parameter here. *)

From stdpp Require Import strings.
From Stdlib Require Import Ascii.
From S2P Require Import Prelude EditScript OptionMacros Options OptionProofs CommandLine.

(** ** The command line *)

Definition missing_files : positive := 50.
Definition missing_post_processor : positive := 51.

(** [option] of dwfilter.c, and [noOptionCount]. *)
Record filter_options := FilterOptions {
  oldFile : Z;
  newFile : Z;
  reverse_files : bool;
  postProcessorStart : Z;
  noOptionCount : Z
}.

(** Its options are some of those of dwdiff. *)
Definition filter_specs : list (opt_spec opt) :=
  [short_and_long Delimiters "d" "delimiters" REQUIRED_ARG;
   short_and_long Punctuation "P" "punctuation" NO_ARG;
   short_and_long WhiteSpace "W" "white-space" REQUIRED_ARG;
   short_and_long Help "h" "help" NO_ARG;
   short_and_long Version "v" "version" NO_ARG;
   short_and_long IgnoreCase "i" "ignore-case" NO_ARG;
   short_and_long IgnoreFormatting "I" "ignore-formatting" NO_ARG;
   OptSpec SingleDash (Some 0) None NO_ARG;
   OptSpec DoubleDash None (Some []) NO_ARG;
   short_and_long ContextOption "C" "context" REQUIRED_ARG;
   short_and_long MatchContext "m" "match-context" REQUIRED_ARG;
   long_only AggregateChanges "aggregate-changes" NO_ARG;
   short_and_long Algorithm "A" "algorithm" REQUIRED_ARG;
   long_only WdiffOutput "wdiff-output" NO_ARG;
   short_and_long Reverse "r" "reverse" NO_ARG;
   long_only ProfileOption "profile" REQUIRED_ARG;
   long_only NoProfile "no-profile" NO_ARG].

(** A file name, or a single dash, at position [ind]. *)
Definition filter_operand (_ : list Z) (ind : Z) (st : filter_options) : result (filter_options * control) :=
  let n := noOptionCount st in
  if n =? 0 then Ok (FilterOptions ind (newFile st) (reverse_files st) (postProcessorStart st) 1, Continue)
  else if n =? 1 then Ok (FilterOptions (oldFile st) ind (reverse_files st) (postProcessorStart st) 2, Continue)
  else Ok (FilterOptions (oldFile st) (newFile st) (reverse_files st) ind (n + 1), StopProcessing).

Definition filter_handle (id : opt) (optArg : option optarg) (ind : Z) (st : filter_options) : result (filter_options * control) :=
  match id with
  | Help | Version => Fatal exit_success
  | SingleDash => filter_operand [] ind st
  | DoubleDash => Ok (st, NoMoreOptions)
  | Reverse => Ok (FilterOptions (oldFile st) (newFile st) true (postProcessorStart st) (noOptionCount st), Continue)
  | _ => Ok (st, Continue)
  end.

Definition filter_parse (args : list (list Z)) : result filter_options :=
  let* st := parse_args filter_specs filter_handle (fun _ => Fatal no_such_option) filter_operand args
               (FilterOptions 0 0 false 0 0) in
  if noOptionCount st <? 2 then Fatal missing_files
  else if noOptionCount st <? 3 then Fatal missing_post_processor
  else Ok st.

(** ** The commands *)

(** [argv[i]] *)
Definition argv (args : list (list Z)) (i : Z) : list Z := default [] (zget (text "dwfilter" :: args) i).

(** The loop that copies the arguments before the post processor, but not the
    files. *)
Definition copied (args : list (list Z)) (st : filter_options) : list (list Z) :=
  (fun i => argv args i) <$> filter (fun i => i <> oldFile st /\ i <> newFile st) (seqZ 1 (postProcessorStart st - 1)).

Definition dwdiff_command (tempfile : list Z) (args : list (list Z)) (st : filter_options) : list (list Z) :=
  [text "dwdiff"; text "--dwfilter=" ++ tempfile] ++ copied args st ++
  [argv args (if reverse_files st then newFile st else oldFile st);
   argv args (if reverse_files st then oldFile st else newFile st)].

Definition post_processor_command (tempfile : list Z) (args : list (list Z)) (st : filter_options) : list (list Z) :=
  drop (Z.to_nat (postProcessorStart st)) (text "dwfilter" :: args) ++
  [if reverse_files st then argv args (oldFile st) else tempfile;
   if reverse_files st then tempfile else argv args (newFile st)].

(** ** Running them *)

(** What is done to the outside. *)
Inductive event :=
  | Created (name : list Z)
  | Run (command : list (list Z))
  | Removed (name : list Z).

(** What becomes of a command: fork fails, the program cannot be executed,
    wait fails, or wait returns a status. *)
Inductive child :=
  | NotForked
  | NotExecuted
  | NotWaited
  | Waited (status : Z).

(** The macro of sys/wait.h; the low byte tells which signal ended a process. *)
Definition WEXITSTATUS (status : Z) : Z := Z.land (Z.shiftr status 8) 255.

Definition dwdiff_error : positive := 52.
Definition cannot_execute : positive := 53.
Definition cannot_wait : positive := 54.
Definition cannot_create : positive := 55.

(** [cleanup], which [atexit] calls with the name in [tempfile]. *)
Definition cleanup (tempfile : list Z) (r : list event * result Z) : list event * result Z := (r.1 ++ [Removed tempfile], r.2).

Section Running.
(** What becomes of a command may depend on all that has happened. *)
Context (world : list event -> list (list Z) -> child).

(** A child that cannot execute its program calls [exit] and with it the
    [cleanup] that it has inherited. *)
Definition execute (tempfile : list Z) (trace : list event) (command : list (list Z)) : list event * result Z :=
  match world trace command with
  | NotForked => (trace, Fatal cannot_execute)
  | NotExecuted => cleanup tempfile (trace, Ok (WEXITSTATUS (Z.shiftl 127 8)))
  | NotWaited => (trace ++ [Run command], Fatal cannot_wait)
  | Waited status => (trace ++ [Run command], Ok (WEXITSTATUS status))
  end.

(** The name that mkstemp makes, or what it leaves of the template. *)
Context (mkstemp : list Z + list Z).

Definition filter_main (args : list (list Z)) : list event * result Z :=
  match filter_parse args with
  | Fatal e => ([], Fatal e)
  | Ok st =>
      match mkstemp with
      | inr template => cleanup template ([], Fatal cannot_create)
      | inl tempfile =>
          cleanup tempfile
            (let '(trace, status) := execute tempfile [Created tempfile] (dwdiff_command tempfile args st) in
             match status with
             | Fatal e => (trace, Fatal e)
             | Ok status =>
                 if 2 <? status then (trace, Fatal dwdiff_error)
                 else execute tempfile trace (post_processor_command tempfile args st)
             end)
      end
  end.

(** Files that are left. *)
Definition happens (files : list (list Z)) (e : event) : list (list Z) :=
  match e with
  | Created name => name :: files
  | Run _ => files
  | Removed name => filter (fun n => n <> name) files
  end.
Definition files_left (trace : list event) : list (list Z) := foldl happens [] trace.

Definition commands (trace : list event) : list (list (list Z)) :=
  flat_map (fun e => match e with Run command => [command] | _ => [] end) trace.

Lemma left_removed name events files : Forall (fun e => match e with Created _ => False | _ => True end) events ->
  Forall (eq name) files -> Forall (eq name) (foldl happens files events).
Proof.
  intros He. revert files. induction He as [|e events He _ IH]; intros files Hf; [done|]. cbn [foldl]. apply IH.
  destruct e as [n|c|n]; [done|done|]. apply Forall_forall. intros x Hx. cbn [happens] in Hx. apply list_elem_of_filter in Hx as [_ Hx].
  rewrite Forall_forall in Hf. by apply Hf.
Qed.

Lemma files_cleaned name trace : Forall (eq name) (files_left trace) -> files_left (trace ++ [Removed name]) = [].
Proof.
  intros H. unfold files_left. rewrite foldl_app. cbn [foldl happens]. apply filter_none. eapply Forall_impl; [exact H|]. by intros n -> [].
Qed.

(** After the creation of the file and events that create nothing else, it
    is removed. *)
Lemma cleaned name events : Forall (fun e => match e with Created _ => False | _ => True end) events ->
  files_left ((Created name :: events) ++ [Removed name]) = [].
Proof. intros He. apply files_cleaned. apply (left_removed name events [name] He). by repeat constructor. Qed.

(** C32: however dwfilter ends, its temporary file is gone; it runs nothing but
    dwdiff and then the post processor, and the post processor only if the
    exit status of dwdiff is at most 2; its own status is that of the post
    processor, or 127 if that cannot be executed. *)
Theorem dwfilter_run args : let '(trace, r) := filter_main args in
  files_left trace = [] /\
  (commands trace = [] /\ (forall status, r <> Ok status) \/
   exists tempfile st, mkstemp = inl tempfile /\ filter_parse args = Ok st /\
     let first := dwdiff_command tempfile args st in
     let second := post_processor_command tempfile args st in
     commands trace = [first] /\ (forall status, r = Ok status -> status = 127) \/
     commands trace = [first; second] /\
       (exists status, world [Created tempfile] first = Waited status /\ WEXITSTATUS status <= 2) /\
       (forall status, r = Ok status -> exists s, world [Created tempfile; Run first] second = Waited s /\ status = WEXITSTATUS s)).
Proof.
  unfold filter_main. destruct (filter_parse args) as [st|e] eqn:Hp; [|split; [done|by left]].
  destruct mkstemp as [tempfile|template] eqn:Hm; [|split; [done|by left]].
  set (first := dwdiff_command tempfile args st). set (second := post_processor_command tempfile args st).
  unfold execute at 1. destruct (world [Created tempfile] first) as [| | |s] eqn:H1; cbn [cleanup fst snd app].
  - split; [by apply (cleaned tempfile [])|by left].
  - split; [|by left]. apply (cleaned tempfile [Removed tempfile]). by repeat constructor.
  - split; [apply (cleaned tempfile [Run first]); by repeat constructor|]. right. exists tempfile, st. split; [done|]. split; [done|]. by left.
  - destruct (Z.ltb_spec 2 (WEXITSTATUS s)) as [Hs|Hs].
    + split; [apply (cleaned tempfile [Run first]); by repeat constructor|]. right. exists tempfile, st. split; [done|]. split; [done|]. by left.
    + unfold execute. destruct (world [Created tempfile; Run first] second) as [| | |s2] eqn:H2; cbn [cleanup fst snd app];
        (split; [|right; exists tempfile, st; split; [done|]; split; [done|]]).
      * apply (cleaned tempfile [Run first]). by repeat constructor.
      * by left.
      * apply (cleaned tempfile [Run first; Removed tempfile]). by repeat constructor.
      * left. split; [done|]. by intros status [= <-].
      * apply (cleaned tempfile [Run first; Run second]). by repeat constructor.
      * right. split; [done|]. split; [by exists s|done].
      * apply (cleaned tempfile [Run first; Run second]). by repeat constructor.
      * right. split; [done|]. split; [by exists s|]. intros status [= <-]. by exists s2.
Qed.
End Running.

Example reversed_example :
  (let* st := filter_parse [text "-r"; text "a"; text "-d,"; text "b"; text "cat"; text "-n"] in
   Ok (dwdiff_command (text "t") [text "-r"; text "a"; text "-d,"; text "b"; text "cat"; text "-n"] st,
       post_processor_command (text "t") [text "-r"; text "a"; text "-d,"; text "b"; text "cat"; text "-n"] st)) =
  Ok ([text "dwdiff"; text "--dwfilter=t"; text "-r"; text "-d,"; text "b"; text "a"],
      [text "cat"; text "-n"; text "a"; text "t"]).
Proof. vm_compute. reflexivity. Qed.

(** A dwdiff that is killed by a signal (here 11) has the exit status 0: the
    post processor is run on what there is of its output. *)
Example killed_dwdiff : (filter_main (fun _ _ => Waited 11) (inl (text "t")) [text "a"; text "b"; text "cat"]).2 = Ok 0 /\
  length (commands (filter_main (fun _ _ => Waited 11) (inl (text "t")) [text "a"; text "b"; text "cat"]).1) = 2%nat.
Proof. split; vm_compute; reflexivity. Qed.

(** ** What is run *)

(** An option with what it takes, in its long form. *)
Definition filter_option : Type := opt_spec opt * option (list Z).
Definition option_item (p : filter_option) : item := ItemOption p.1 p.2.
Definition option_text (p : filter_option) : list Z := item_text (option_item p).

Definition option_valid (p : filter_option) : Prop :=
  p.1 ∈ filter_specs /\ opt_id p.1 <> Help /\ opt_id p.1 <> Version /\
  longName p.1 <> None /\ longName p.1 <> Some [] /\
  match argReq p.1 with NO_ARG => p.2 = None | OPTIONAL_ARG => True | REQUIRED_ARG => p.2 <> None end.

Definition is_reverse (p : filter_option) : bool := match opt_id p.1 with Reverse => true | _ => false end.

(** A file name or command: it does not start with a dash. *)
Definition word (w : list Z) : Prop := head w <> Some dash.

Lemma filter_specs_incl s : s ∈ filter_specs -> s ∈ specs.
Proof.
  intros Hs. unfold filter_specs in Hs.
  repeat (apply elem_of_cons in Hs as [->|Hs]; [unfold specs; repeat (try (left; reflexivity); right)|]).
  by apply not_elem_of_nil in Hs.
Qed.

Lemma filter_names s n : s ∈ filter_specs -> longName s = Some n -> find_long filter_specs n = Some s.
Proof.
  intros Hs. unfold filter_specs in Hs.
  repeat (apply elem_of_cons in Hs as [->|Hs]; [intros E; first [discriminate E | injection E as <-; reflexivity]|]).
  by apply not_elem_of_nil in Hs.
Qed.

Definition set_reverse (b : bool) (st : filter_options) : filter_options :=
  FilterOptions (oldFile st) (newFile st) (reverse_files st || b) (postProcessorStart st) (noOptionCount st).

Abbreviation filter_loop := (parse_loop filter_specs filter_handle (fun _ => Fatal no_such_option) filter_operand).

Lemma filter_option_step p rest ind st : option_valid p ->
  filter_loop (option_text p :: rest) ind false st = filter_loop rest (ind + 1) false (set_reverse (is_reverse p) st).
Proof.
  destruct p as [s a]. intros (Hs & Hh & Hv & Hn & Hd & Hr). cbn [fst snd] in *. unfold option_text, option_item. cbn [item_text fst snd].
  destruct (longName s) as [n|] eqn:En; [|done]. change (default [] (Some n)) with n.
  destruct (long_names s n (filter_specs_incl s Hs) En) as [_ He].
  cbn [parse_loop]. rewrite (long_text_parse filter_specs filter_handle (fun _ => Fatal no_such_option) filter_operand n a rest ind st s He
    (filter_names s n Hs En)).
  assert (forall b, filter_handle (opt_id s) b ind st = Ok (set_reverse (is_reverse (s, a)) st, Continue)) as Hhandle.
  { intros b. unfold is_reverse. cbn [fst].
    assert (opt_id s <> SingleDash /\ opt_id s <> DoubleDash) as [H1 H2].
    { revert En Hd. unfold filter_specs in Hs. repeat (apply elem_of_cons in Hs as [->|Hs]; [intros En Hd; cbn in *; split; congruence|]). by apply not_elem_of_nil in Hs. }
    assert (set_reverse false st = st) as Hsame by (destruct st; unfold set_reverse; simpl; by rewrite orb_false_r).
    unfold filter_handle. destruct (opt_id s); try done; try (by rewrite Hsame). unfold set_reverse. by rewrite orb_true_r. }
  assert (forall b, run_option filter_handle s b false ind st = Ok (set_reverse (is_reverse (s, a)) st, Continue, false)) as Hrun.
  { intros b. unfold run_option. by rewrite Hhandle. }
  destruct (argReq s).
  - subst a. by rewrite bool_decide_eq_true_2, Hrun.
  - by rewrite Hrun.
  - destruct a as [a|]; [|done]. cbn [fmap option_fmap option_map required rbind]. by rewrite Hrun.
Qed.

Lemma filter_options_step ps rest ind st : Forall option_valid ps ->
  filter_loop ((option_text <$> ps) ++ rest) ind false st =
    filter_loop rest (ind + zlen ps) false (set_reverse (existsb is_reverse ps) st).
Proof.
  intros H. revert ind st. induction H as [|p ps Hp Hps IH]; intros ind st.
  - simpl. rewrite Z.add_0_r. f_equal. destruct st; unfold set_reverse; simpl; by rewrite orb_false_r.
  - rewrite fmap_cons. cbn [app]. rewrite filter_option_step, IH by done. f_equal; [simpl length; lia|].
    unfold set_reverse. simpl. by rewrite orb_assoc.
Qed.

Lemma filter_word_step w rest ind st : word w ->
  filter_loop (w :: rest) ind false st =
    let* (st, ctl) := filter_operand w ind st in
    match ctl with StopProcessing => Ok st | _ => filter_loop rest (ind + 1) (match ctl with NoMoreOptions => true | _ => false end) st end.
Proof.
  intros Hw. cbn [parse_loop]. unfold one_argument.
  destruct w as [|c w]; [|unfold word in Hw; simpl in Hw; rewrite (proj2 (Z.eqb_neq c dash)) by congruence; cbn [andb]];
    destruct (filter_operand _ ind st) as [[st1 ctl]|]; try done; by destruct ctl.
Qed.

(** The command line with the parts it consists of. *)
Definition filter_args (o1 o2 o3 : list filter_option) (old new pp : list Z) (rest : list (list Z)) : list (list Z) :=
  (option_text <$> o1) ++ [old] ++ (option_text <$> o2) ++ [new] ++ (option_text <$> o3) ++ [pp] ++ rest.

(** The positions that are found. *)
Definition found (o1 o2 o3 : list filter_option) : filter_options :=
  FilterOptions (1 + zlen o1) (2 + zlen o1 + zlen o2) (existsb is_reverse (o1 ++ o2 ++ o3))
    (3 + zlen o1 + zlen o2 + zlen o3) 3.

Lemma operand_first w ind st : noOptionCount st = 0 ->
  filter_operand w ind st = Ok (FilterOptions ind (newFile st) (reverse_files st) (postProcessorStart st) 1, Continue).
Proof. intros H. unfold filter_operand. by rewrite H. Qed.
Lemma operand_second w ind st : noOptionCount st = 1 ->
  filter_operand w ind st = Ok (FilterOptions (oldFile st) ind (reverse_files st) (postProcessorStart st) 2, Continue).
Proof. intros H. unfold filter_operand. by rewrite H. Qed.
Lemma operand_third w ind st : noOptionCount st = 2 ->
  filter_operand w ind st = Ok (FilterOptions (oldFile st) (newFile st) (reverse_files st) ind 3, StopProcessing).
Proof. intros H. unfold filter_operand. by rewrite H. Qed.

Lemma filter_parse_found o1 o2 o3 old new pp rest :
  Forall option_valid o1 -> Forall option_valid o2 -> Forall option_valid o3 -> word old -> word new -> word pp ->
  filter_parse (filter_args o1 o2 o3 old new pp rest) = Ok (found o1 o2 o3).
Proof.
  intros H1 H2 H3 Ho Hn Hp. unfold filter_parse, parse_args, filter_args.
  rewrite filter_options_step by done. cbn [app]. rewrite filter_word_step, operand_first by done. cbn [rbind].
  rewrite filter_options_step by done. cbn [app]. rewrite filter_word_step, operand_second by done. cbn [rbind].
  rewrite filter_options_step by done. cbn [app]. rewrite filter_word_step, operand_third by done. cbn [rbind].
  change (noOptionCount _ <? 2) with false. change (noOptionCount _ <? 3) with false. unfold found. f_equal.
  cbn [set_reverse oldFile newFile reverse_files postProcessorStart]. rewrite !existsb_app, orb_false_l, <- orb_assoc. f_equal; lia.
Qed.

Lemma argv_seq l m r : (fun i => argv (l ++ m ++ r) i) <$> seqZ (1 + zlen l) (zlen m) = m.
Proof.
  revert l. induction m as [|c m IH]; intros l; [done|]. simpl length. rewrite seqZ_cons by lia. rewrite fmap_cons. f_equal.
  - unfold argv, zget. rewrite (proj2 (Z.ltb_ge _ 0)) by lia. replace (Z.to_nat (1 + zlen l)) with (S (length l)) by lia.
    change (default [] ((l ++ c :: m ++ r) !! length l) = c). by rewrite list_lookup_middle.
  - replace (Z.succ (1 + zlen l)) with (1 + zlen (l ++ [c])) by (rewrite length_app; simpl; lia).
    replace (Z.pred (Z.of_nat (S (length m)))) with (zlen m) by lia.
    specialize (IH (l ++ [c])). rewrite <- app_assoc in IH. exact IH.
Qed.

Lemma argv_at l c r : argv (l ++ c :: r) (1 + zlen l) = c.
Proof. pose proof (argv_seq l [c] r) as H. simpl in H. by injection H. Qed.

Lemma seqZ_without m n (P : Z -> Prop) `{forall x, Decision (P x)} : (forall i, m <= i < m + n -> P i) -> filter P (seqZ m n) = seqZ m n.
Proof. intros HP. apply filter_all, Forall_forall. intros i Hi. apply elem_of_seqZ in Hi. by apply HP. Qed.

(** The loop over the positions leaves out exactly the two files. *)
Lemma copied_options o1 o2 o3 old new pp rest :
  copied (filter_args o1 o2 o3 old new pp rest) (found o1 o2 o3) = option_text <$> (o1 ++ o2 ++ o3).
Proof.
  unfold copied, found. cbn [oldFile newFile postProcessorStart].
  replace (3 + zlen o1 + zlen o2 + zlen o3 - 1) with (zlen o1 + (1 + (zlen o2 + (1 + zlen o3)))) by lia.
  rewrite (seqZ_app _ (zlen o1)), (seqZ_app _ 1), (seqZ_app _ (zlen o2)), (seqZ_app _ 1) by lia.
  rewrite !filter_app, (seqZ_without 1), (seqZ_without (1 + zlen o1 + 1)), (seqZ_without (1 + zlen o1 + 1 + zlen o2 + 1)) by lia.
  assert (filter (fun i => i <> 1 + zlen o1 /\ i <> 2 + zlen o1 + zlen o2) (seqZ (1 + zlen o1) 1) = []) as ->.
  { apply filter_none. rewrite seqZ_cons by lia. repeat constructor. lia. }
  assert (filter (fun i => i <> 1 + zlen o1 /\ i <> 2 + zlen o1 + zlen o2) (seqZ (1 + zlen o1 + 1 + zlen o2) 1) = []) as ->.
  { apply filter_none. rewrite seqZ_cons by lia. repeat constructor. lia. }
  cbn [app]. rewrite !fmap_app. unfold filter_args.
  assert (forall o : list filter_option, zlen o = zlen (option_text <$> o)) as Hl by (intros o; by rewrite length_fmap).
  f_equal; [rewrite Hl; apply (argv_seq [])|]. f_equal.
  - replace (1 + zlen o1 + 1) with (1 + zlen ((option_text <$> o1) ++ [old])) by (rewrite length_app, length_fmap; simpl; lia).
    rewrite (Hl o2), app_assoc. apply argv_seq.
  - replace (1 + zlen o1 + 1 + zlen o2 + 1) with (1 + zlen (((option_text <$> o1) ++ [old]) ++ (option_text <$> o2) ++ [new]))
      by (rewrite !length_app, !length_fmap; simpl; lia).
    rewrite (Hl o3), app_assoc, (app_assoc (option_text <$> o2)), (app_assoc (_ ++ [old])). apply argv_seq.
Qed.

Lemma found_files o1 o2 o3 old new pp rest :
  argv (filter_args o1 o2 o3 old new pp rest) (oldFile (found o1 o2 o3)) = old /\
  argv (filter_args o1 o2 o3 old new pp rest) (newFile (found o1 o2 o3)) = new /\
  drop (Z.to_nat (postProcessorStart (found o1 o2 o3))) (text "dwfilter" :: filter_args o1 o2 o3 old new pp rest) = pp :: rest.
Proof.
  unfold found, filter_args. cbn [oldFile newFile postProcessorStart]. split; [|split].
  - rewrite <- (length_fmap option_text o1). apply argv_at.
  - replace (2 + zlen o1 + zlen o2) with (1 + zlen ((option_text <$> o1) ++ [old] ++ (option_text <$> o2)))
      by (rewrite !length_app, !length_fmap; simpl; lia).
    rewrite (app_assoc [old]), (app_assoc (option_text <$> o1)). apply argv_at.
  - replace (Z.to_nat (3 + zlen o1 + zlen o2 + zlen o3))
      with (S (length ((option_text <$> o1) ++ [old] ++ (option_text <$> o2) ++ [new] ++ (option_text <$> o3))))
      by (rewrite !length_app, !length_fmap; simpl; lia).
    set (l := (option_text <$> o1) ++ [old] ++ (option_text <$> o2) ++ [new] ++ (option_text <$> o3)).
    assert ((option_text <$> o1) ++ [old] ++ (option_text <$> o2) ++ [new] ++ (option_text <$> o3) ++ [pp] ++ rest = l ++ pp :: rest) as ->.
    { unfold l. by rewrite <- !app_assoc. }
    change (drop (length l) (l ++ pp :: rest) = pp :: rest). apply drop_app_length.
Qed.

(** The items of dwdiff's command line. *)
Definition dwdiff_items (tempfile : list Z) (os : list filter_option) (old new : list Z) : list item :=
  [ItemOption (long_only Dwfilter "dwfilter" REQUIRED_ARG) (Some tempfile)] ++ (option_item <$> os) ++ [ItemOperand old; ItemOperand new].

Lemma option_item_valid p : option_valid p -> item_valid (option_item p).
Proof. intros (Hs & _ & _ & Hn & Hd & Hr). split; [by apply filter_specs_incl|]. by split. Qed.

Section Filter.
Context {L : Locale} (UTF8Mode : bool) (gcb : Z -> Z) (normalize : bool -> list Z -> list Z) (fopen_ok : list Z -> bool).

(** C31: with the files anywhere among the options, dwfilter runs dwdiff with all
    the options, in order, and the files at the end, swapped if asked for, and
    the post processor with the file that stands for dwdiff's output; and
    dwdiff's own parser runs the code of exactly these options and files. *)
Theorem dwfilter_commands o1 o2 o3 old new pp rest tempfile o :
  Forall option_valid o1 -> Forall option_valid o2 -> Forall option_valid o3 -> word old -> word new -> word pp ->
  let args := filter_args o1 o2 o3 old new pp rest in
  let os := o1 ++ o2 ++ o3 in
  let '(first, second) := if existsb is_reverse os then (new, old) else (old, new) in
  exists st, filter_parse args = Ok st /\
    dwdiff_command tempfile args st =
      [text "dwdiff"; text "--dwfilter=" ++ tempfile] ++ (option_text <$> os) ++ [first; second] /\
    post_processor_command tempfile args st =
      pp :: rest ++ (if existsb is_reverse os then [old; tempfile] else [tempfile; new]) /\
    parseArgs UTF8Mode gcb normalize fopen_ok (tail (dwdiff_command tempfile args st)) o =
      let* (o, _) := run_items (handle UTF8Mode gcb normalize fopen_ok) operand (dwdiff_items tempfile os first second) (o, 0) in Ok o.
Proof.
  intros H1 H2 H3 Ho Hn Hp. cbv zeta.
  pose proof (filter_parse_found o1 o2 o3 old new pp rest H1 H2 H3 Ho Hn Hp) as Hparse.
  destruct (found_files o1 o2 o3 old new pp rest) as (F1 & F2 & F3).
  assert (forall a b, (a, b) = (if existsb is_reverse (o1 ++ o2 ++ o3) then (new, old) else (old, new)) ->
    word a /\ word b /\ dwdiff_command tempfile (filter_args o1 o2 o3 old new pp rest) (found o1 o2 o3) =
      [text "dwdiff"; text "--dwfilter=" ++ tempfile] ++ (option_text <$> (o1 ++ o2 ++ o3)) ++ [a; b]) as Hcmd.
  { intros a b E. unfold dwdiff_command. rewrite copied_options.
    change (reverse_files (found o1 o2 o3)) with (existsb is_reverse (o1 ++ o2 ++ o3)).
    destruct (existsb _ _); injection E as -> ->; rewrite F1, F2; by split; [|split]. }
  assert (post_processor_command tempfile (filter_args o1 o2 o3 old new pp rest) (found o1 o2 o3) =
    pp :: rest ++ (if existsb is_reverse (o1 ++ o2 ++ o3) then [old; tempfile] else [tempfile; new])) as Hpost.
  { unfold post_processor_command. rewrite F3. change (reverse_files (found o1 o2 o3)) with (existsb is_reverse (o1 ++ o2 ++ o3)).
    rewrite F1, F2. by destruct (existsb _ _). }
  destruct (if existsb _ _ then _ else _) as [a b] eqn:E. destruct (Hcmd a b eq_refl) as (Ha & Hb & Hc).
  exists (found o1 o2 o3). split; [exact Hparse|]. split; [exact Hc|]. split; [exact Hpost|].
  rewrite Hc. assert (tail ([text "dwdiff"; text "--dwfilter=" ++ tempfile] ++ (option_text <$> (o1 ++ o2 ++ o3)) ++ [a; b]) =
    item_text <$> dwdiff_items tempfile (o1 ++ o2 ++ o3) a b) as ->.
  { unfold dwdiff_items. rewrite !fmap_app, <- !list_fmap_compose. done. }
  unfold parseArgs.
  rewrite (options_render specs (handle UTF8Mode gcb normalize fopen_ok) unknown operand (code_position _ _ _ _) operand_position); [done|].
  eapply Forall_impl; [|apply item_valid_ok]. unfold dwdiff_items. repeat (apply Forall_app; split).
  - repeat constructor; discriminate.
  - apply Forall_fmap. eapply Forall_impl; [|apply option_item_valid]. by repeat (apply Forall_app; split).
  - by repeat constructor.
Qed.
End Filter.

(** [dwfilter -- reverse a --delimiters=, b cat -n] *)
Lemma dwfilter_commands_witness :
  exists st, filter_parse [text "--reverse"; text "a"; text "--delimiters=,"; text "b"; text "cat"; text "-n"] = Ok st /\
    post_processor_command (text "t") [text "--reverse"; text "a"; text "--delimiters=,"; text "b"; text "cat"; text "-n"] st =
      [text "cat"; text "-n"; text "a"; text "t"].
Proof.
  assert (Forall option_valid [(short_and_long Reverse "r" "reverse" NO_ARG, None)]) as V1.
  { repeat constructor; discriminate. }
  assert (Forall option_valid [(short_and_long Delimiters "d" "delimiters" REQUIRED_ARG, Some [44])]) as V2.
  { repeat constructor; discriminate. }
  destruct (dwfilter_commands (L := C_locale) false (fun _ => 0) (fun _ l => l) (fun _ => true) _ _ [] (text "a") (text "b") (text "cat") [text "-n"]
    (text "t") initializeOptions V1 V2 (Forall_nil_2 _) ltac:(discriminate) ltac:(discriminate) ltac:(discriminate)) as (st & H1 & _ & H2 & _).
  exists st. split; [exact H1|exact H2].
Defined.
