(* ===== verification/FilterRuns.v ===== *)
(** * Runs of dwdiff for dwfilter

    dwfilter runs dwdiff with --dwfilter and hands the output to the post
    processor in place of the old file.  In the single-byte mode, without
    delimiters, that output has exactly the words of the old file: the post
    processor sees only the changes that remain when the whitespace is that of
    the new file. *)

From stdpp Require Import strings.
From S2P Require Import Prelude EditScript HashTable FileIO Streams Unicode UnicodeProofs OptionMacros Profile Options OptionProofs CommandLine DiffSeq ContextBuffer Analyze ScriptProofs Tokenizer Pieces TokenizerProofs DoDiff Reader Modes ContextProofs Marks DoDiffProofs Render Plain OneSided Decorated ContextDiff WordDiff Main MainProofs Dwfilter.

Section Words.
Context (W Dl : list Z) (ic : bool) (tl : Z -> Z) (Hk : keeps_newlines ic tl).
Abbreviation mode := (SCMode W Dl ic tl).
Abbreviation spec := (SCModeSpec W Dl ic tl Hk).
Abbreviation pieces := (file_pieces (MS := spec) false).
Abbreviation words := (words (MS := spec)).
Context (no_delimiter : forall c, isDelimiterSC Dl c = false).




End Words.

Section Filter.
Context (freed_text : list Z -> list Z) (mem : memory) (files : list Z -> option (list Z)) (stdin : list Z).
Context {L : Locale} (info : locale_info) (single_byte : utf8_locale info = false) (gcb : Z -> Z) (normalize : bool -> list Z -> list Z) (isPunct isUWhiteSpace : Z -> bool).
Context (foldCase : list Z -> list Z) (fopen_ok : list Z -> bool) (home : bool) (config : Profile.opened).
Context (E : env_ok gcb normalize foldCase).

Abbreviation parse := (parseCmdLine false gcb normalize isPunct isUWhiteSpace fopen_ok home config).
Abbreviation program := (main freed_text mem files stdin gcb normalize isPunct isUWhiteSpace foldCase fopen_ok home config info).
Abbreviation table o := (dispatch_of false gcb normalize isPunct isUWhiteSpace foldCase E o).
Abbreviation usable o := (inputs_ok (t_mode (table o)) (t_spec (table o)) freed_text o).
Abbreviation single o := (SCModeSpec (whitespace o) (delimiters o) (ignoreCase o) locale_tolower (case_keeps_newlines gcb normalize isPunct isUWhiteSpace foldCase E (ignoreCase o))).






End Filter.

(** ** Examples *)

Local Existing Instance C_locale.

Definition filter_arguments : list (list Z) := Options.text <$> ["--dwfilter=t"; "--algorithm=best"; "a"; "b"].




(** The words of "a b" and a newline, with the whitespace of "a x c": the
    newline at the end is gone. *)
Example filter_output : match example_main false filter_arguments with
  | Some (Ok f) => printed f = [97; 32; 98] | _ => False end.
Proof. vm_compute. reflexivity. Qed.

(** With --wdiff-output the whitespace before a common word is always that of the
    new file, where there may be none: the words of "a b" become one word when
    the new file is "b".  The same happens without it when a delimiter that is
    only in the new file separated the words, as in "a,b". *)
Definition merging_options (wdiff : bool) : options :=
  Options [] [] [] [] [] [] true false true false true false false false
    0 false 0 0 false false [] wdiff false true false true.

Definition merging_run (delimiters : list Z) (wdiff : bool) (new : list Z) : list Z :=
  match dwdiff (SCMode space_bitmap delimiters false (fun c => c)) (merging_options wdiff) zero_memory
    [97; 32; 98] new (initial_core 0) no_statistics 0 with
  | Some (Ok p) => output (cout (pcore p))
  | _ => []
  end.

Example merged_words : merging_run no_delimiters true [98] = [97; 98] /\ merging_run no_delimiters false [98] = [97; 32; 98] /\
  merging_run (SET_BIT no_delimiters 44) false [97; 44; 98] = [97; 98].
Proof. repeat split; vm_compute; reflexivity. Qed.


